(* ===== verification/_CoqProject ===== *)
-Q . S2P
Prelude.v
SpscQueue.v
SpscConcurrent.v
Ieee.v
IeeeRound.v
PacketDefenses.v
LatestValueMailbox.v
CompactCloud.v
Calendar.v
PacketFormat.v
ParseXT.v
ParseLegacy.v
IeeeInterval.v
Stamps.v
GuardCascade.v
LidarTables.v
PointCalc.v
Correction.v
CalibrationFacts.v
Framing.v
FrameModes.v
ChannelMode.v
FramingFacts.v
Pandar40Packet.v
LegacyModels.v
LegacyStream.v
SensorTime.v
Streams.v
TfFrames.v
Typing.v
Driver.v
DriverFacts.v
Node.v
NodeFacts.v
Sockets.v
SocketFacts.v
PtcClient.v
PtcFacts.v
Input.v
PcapReader.v
PcapFacts.v
Sdk.v
SdkFacts.v
Launch.v
LaunchFacts.v
Threads.v
ThreadFacts.v
ThreadActions.v
ThreadRefine.v
Pipeline.v
Shutdown.v
