(* ===== verification/Prelude.v ===== *)
(** * Verification of the Hesai LiDAR driver

    The program is a ROS 2 node for Hesai lidars.  UDP packets come from the
    sensor, from a recording or from a bag; a receiving thread queues them; a
    processing thread checks their order, parses them, computes points and hands
    a cloud per turn of the sensor to the node, which converts and publishes it
    from a thread of its own.  A second connection fetches the calibration.

    ** Parts

    All paths are under [src/src].  [SDK] stands for
    [HesaiLidar_General_SDK/src], [Raw] for [SDK/PandarGeneralRaw/src].
    Definitions have the names of the functions they translate; the members of a
    class are the fields of a record; a function that changes the object takes it
    last and returns it.

    - [Prelude]: results of C++ code ([outcome]), array access, machine integers
      ([uwrap], [swrap]), tactics, lemmas on lists.
    - [Ieee], [IeeeRound], [IeeeInterval], [Stamps]: [float] and [double] as the
      Standard Library's [spec_float], exactly rounded; monotonicity, interval
      arithmetic, the splitting of a time into seconds and nanoseconds.
    - [SpscQueue], [SpscConcurrent] ([Raw/bounded_spsc_queue.h]): the packet queue
      as a sequential object behind the interface [BoundedFifo], and its two
      threads under the release/acquire memory model.
    - [PacketDefenses], [GuardCascade] ([Raw/packet_defenses.h]): sequence decoder,
      sequence tracker, time guard; two guards in a row.
    - [LatestValueMailbox] ([latest_value_mailbox.h]): the single-slot handoff.
    - [CompactCloud] ([compact_pointcloud2.h], [point_types.h]): points and the
      [PointCloud2] encoder.
    - [Calendar], [PacketFormat], [ParseXT], [ParseLegacy] (the parsers of
      [Raw/pandarGeneral_internal.cc], [pandarXT.h], [pandarQT.h]): from bytes to
      packets.
    - [LidarTables], [PointCalc], [Correction], [CalibrationFacts] (the same file):
      [Init] and its tables, the five point computations, the correction file.
    - [Framing], [FrameModes], [ChannelMode], [FramingFacts], [Pandar40Packet],
      [LegacyModels], [LegacyStream], [Typing] (the same file): [ProcessLiarPacket],
      [EmitBackMessege] and the tf operations; the interface [FramingMode] that the
      stream theorems need of the way points are collected, and its two instances,
      the array and the channels; the streams of the PandarXT family and of the
      Pandar40 (seen as one of the others), the Pandar64, the Pandar20A/B and the
      PandarQT.
    - [SensorTime]: the times of points by the sensor's clock.
    - [TfFrames]: the processing thread with a fixed frame of tf beside the one without.
    - [Streams]: the two families behind one interface ([sensor], [stream_inv],
      [stream_step]), against which [DriverFacts], [LaunchFacts], [ThreadRefine],
      [Pipeline] and [Shutdown] are proved.
    - [Driver], [DriverFacts] (the same file): queue, receiving and processing turns,
      recorded scans, [Start] and [Stop].
    - [Node], [NodeFacts] ([main_ros2.cc]): [lidarCallback], the publishing thread.
    - [Sockets], [SocketFacts] ([SDK/util.c]), [PtcClient], [PtcFacts]
      ([SDK/tcp_command_client.c]): the command connection over an explicit world of
      sockets, heap blocks and a mutex.
    - [Input] ([Raw/input.cc]), [PcapReader], [PcapFacts] ([Raw/pcap_reader.cpp]):
      the live and the recorded source.
    - [Sdk], [SdkFacts] ([SDK/pandarGeneral_sdk.cc], [Raw/pandarGeneral.cc]): the
      facade and the calibration thread.
    - [Launch], [LaunchFacts] ([main_ros2.cc]): construction of the node.
    - [Threads], [ThreadFacts], [ThreadActions], [ThreadRefine]: [Start], [Stop], the
      subscription to a bag and the thread bodies statement by statement, the
      calibration thread among them, and their refinement to [Driver].
    - [Pipeline]: the driver and the node together.
    - [Shutdown] ([main_ros2.cc], [SDK/pandarGeneral_sdk.cc],
      [Raw/pandarGeneral_internal.cc]): the destructors and the counters they log.

    ** What the theorems show

    - The whole: [pipeline_clouds] (from packets to published clouds under any
      interleaving), [close_report] and [close_returns] (what the node has done and
      logs when it ends, and that it ends if the sensor ends its exchange),
      [launched_threads_safe] and [launch_lifecycle] (a node made from any of the three
      sources does not fault on the packets below, but for the exceptions below),
      [threads_refine], [thread_discipline] and [stop_returns] (the threads
      implement the atomic operations of [Driver] read off their steps, keep the
      queue's discipline, and [Stop] returns if the exchange with the sensor ends).
    - The stream: [xt_stream], [legacy_stream], [structured_stream], [driver_stream],
      [node_accounting] account for every packet, point and cloud;
      [fixed_frame_moves_points] carries what they say over to a fixed frame of tf;
      [process_packets_typed] keeps every member within its type;
      [frame_boundary_passes] says when a frame ends.
    - The handoffs: the queue is a bounded first-in first-out list
      ([spsc_runs_as_fifo]), free of races, stale slots and waiting
      ([spsc_data_race_free], [spsc_no_stale_replay], [spsc_wait_free]); the mailbox
      keeps the latest value, loses no wake-up and accounts for every value
      ([mailbox_latest_wins], [mailbox_no_lost_wakeup], [mailbox_conservation]).
    - The defences: [tracker_accepts_increasing], [guard_bounds_regression],
      [decode_sequence_roundtrip].
    - Data: what the parsers accept and what they make of it ([xt_parse_total],
      [xt_parse_roundtrip], [legacy_parse_fits], [raw40_parse_spec],
      [gps_parse_roundtrip]); the points of a block ([xt_block_points]); indices
      within their tables ([azimuth_index_in_table], [correction_file_usable]);
      correction files ([load_correction_rows], [correction_save_load]); the encoder
      ([compact_cloud_roundtrip]).
    - The sensor's connection and the sources: [ptc_get_calibration],
      [ptc_set_reset], [sys_readn_reference], [calibration_source], [getPacket_spec],
      [replay_is_reception], [replay_schedule].

    ** Conventions, bounds and assumptions

    - [Undef] is undefined behaviour: out-of-range access, indeterminate or null
      reads, conversions out of range, a mutex locked twice by one thread, [memcpy]
      from a null pointer.  A theorem that a run is [Ret] excludes all of them.
      [Err] is a returned error code or a thrown exception.
    - There is no fuel for the driver's own loops: a run is a list of steps of any
      length, and a loop over data is structural.  The two fuels are
      in [Correction]: the lines of a file, bounded by its bytes ([load_lines_fuel]),
      and the decimal exponent of a [float] ([log10_ratio_float]).
    - The theorems about streams, and those built on them, are about the sensors and
      cloud modes of [supported] (all nine lidar types with [Init] tables, array or
      channels, but no PandarQT with channels, whose point index overflows in the
      end: [qt_index_advances]) and the packets of [good_packet] and [good_legacy].
      The code accepts more: packets of another model's size, the echo code 0x3d from
      any PandarXT, header counts beyond the packet, a seventh block of a Pandar64,
      and anything measured by laser 7 of a Pandar40.  On these it can leave its
      arrays or read elements never assigned; findings say where.
    - [m_vPointCloud] has 1 000 000 elements and the code does not check its index;
      the theorems about streams have the frame that comes within one packet (256
      points, 448 of a Pandar64) of the end as their exception, and a finding names
      it; structured clouds have no such exception, but a
      [PointCloud2] has room for 165 191 049 points only ([oversized]).
    - Parameters stand for code outside the repository: [sinf] and [cosf], [mktime],
      [lookupTransform] of tf (its answers may change from query to query), the
      field type codes of [sensor_msgs], [pcl::toROSMsg], the signedness of [char]
      and the byte order.  The theorems hold for all their values; [mktime_utc] and
      the like are instances for examples.
    - Floating-point expressions are evaluated in their C++ types without
      contraction; a NaN has no payload; [sqrt] of a [float] is the [float] overload;
      [double] to [float] overflow gives an infinity.
    - [pcl::PointCloud] is modelled by what the code relies on: [push_back] and the
      assignment of all points set width and height, a new cloud is empty and dense.
    - Atomics are release/acquire as in the C++ standard.  In [Driver] and
      [Pipeline] the threads alternate at whole queue operations and whole packets;
      [Threads] and [ThreadRefine] justify this for [Start], [Stop] and the loops,
      [SpscConcurrent] for the queue.
    - The program writes the calibration tables without a lock.  In [Threads] a load
      is pending from the arrival of its text to its end; while it is, a packet in
      the hands of the processing thread is a data race, and [thread_run] is
      undefined from there: an exception of [threads_refine] and
      [launched_threads_safe], since the program can come to it.
    - The exchange with the sensor is a read without a time-out.  Its end is a step of
      the environment ([exchanging], [exchange_ends]); what waits for it, [Stop] and
      the destructor, returns only if it happens.
    - Times of points are the reception times of their packets ("realtime") or the
      sensor's own, which may go back: [let_through] says which clouds the node's
      guard then refuses.  The sensor's clock is taken to stand between one second
      after the epoch and the last second but one of 32 bits ([clock_ok]): the time
      of a message has 32 bits of seconds.
    - The node spins on one thread: the subscription's callback and the destructor
      are never at work together.
    - Any other system call that blocks for ever ends the behaviour under
      consideration.  Allocations with [new] succeed.  Times of a recording are whole microseconds below any overflow.

    ** Not modelled

    Log messages and console output, scheduling priorities, publishers and
    subscriptions as objects and [main] (calls to rclcpp); the capture and tf
    libraries; the unit tests, the example program, the launch files.  The stream
    theorems are about runs without tf frames; with a fixed frame the points are
    moved ones ([fixed_frame_moves_points]), with a target frame the thread returns
    at once ([target_frame_stops]).  Of a Pandar40 the stream theorems take the
    packets whose laser 7 measured nothing: its firing time is an element that is
    never assigned, and reading it is undefined ([calc_unset_entries]). *)
From stdpp Require Export base list option numbers strings.
From Stdlib Require Export ZArith Lia.

#[global] Open Scope Z_scope.

(** ** Results of C++ code

    [Ret] is a normal result, [Err] an error the code reports itself (a return
    code or a thrown exception), [Undef] an operation the C++ standard leaves
    undefined: an access outside an array, a read of an indeterminate value,
    a floating-point to integer conversion out of range. *)
Inductive outcome (E A : Type) : Type :=
  | Ret (a : A)
  | Err (e : E)
  | Undef.
Arguments Ret {E A} a.
Arguments Err {E A} e.
Arguments Undef {E A}.

#[export] Instance outcome_ret {E} : MRet (outcome E) := fun A a => Ret a.
#[export] Instance outcome_bind {E} : MBind (outcome E) := fun A B f m =>
  match m with
  | Ret a => f a
  | Err e => Err e
  | Undef => Undef
  end.
#[export] Instance outcome_fmap {E} : FMap (outcome E) := fun A B f m =>
  match m with
  | Ret a => Ret (f a)
  | Err e => Err e
  | Undef => Undef
  end.

Definition defined {E A} (m : outcome E A) : Prop := m <> Undef.

Section outcome_facts.
Context {E A B : Type}.
Implicit Types (m : outcome E A) (k : A -> outcome E B).

Lemma bind_Ret_inv m k b :
  (m ≫= k) = Ret b -> exists a, m = Ret a /\ k a = Ret b.
Proof. destruct m as [a| |]; simpl; try discriminate; eauto. Qed.

Lemma bind_Ret_r m : (a ← m; Ret a) = m.
Proof. by destruct m. Qed.

Lemma bind_Undef_inv m k :
  (m ≫= k) = Undef -> m = Undef \/ exists a, m = Ret a /\ k a = Undef.
Proof. destruct m as [a| |]; simpl; try discriminate; eauto. Qed.
End outcome_facts.

(** ** Postconditions of results

    [yields P m]: whatever [m] returns satisfies [P]. The hint database
    [outcome] holds the rules of the monad; components add their own. *)
Definition yields {E A} (P : A -> Prop) (m : outcome E A) : Prop := forall a, m = Ret a -> P a.

Create HintDb outcome discriminated.

Section yields.
Context {E A B : Type}.
Implicit Types (m : outcome E A) (k : A -> outcome E B) (P : A -> Prop) (Q : B -> Prop).

Lemma yields_Ret P a : P a -> yields P (Ret (E := E) a).
Proof. by intros H ? [= <-]. Qed.

Lemma yields_Err P e : yields P (Err (E := E) e).
Proof. by intros ?. Qed.

Lemma yields_Undef P : yields P (Undef (E := E)).
Proof. by intros ?. Qed.

Lemma yields_bind P Q m k :
  yields P m -> (forall a, P a -> yields Q (k a)) -> yields Q (m ≫= k).
Proof. intros Hm Hk b Hb. apply bind_Ret_inv in Hb as (a & Ha & Hb). by eapply Hk; [apply Hm|]. Qed.

(** The intermediate result does not matter. *)
Lemma yields_bind_any Q m k : (forall a, yields Q (k a)) -> yields Q (m ≫= k).
Proof. intros Hk b Hb. apply bind_Ret_inv in Hb as (a & _ & Hb). by eapply Hk. Qed.

Lemma yields_fmap Q m (f : A -> B) : (forall a, m = Ret a -> Q (f a)) -> yields Q (f <$> m).
Proof. intros H b. destruct m; [|done|done]. intros [= <-]. by apply H. Qed.

Lemma yields_impl P P' m : yields P m -> (forall a, P a -> P' a) -> yields P' m.
Proof. intros H HP a Ha. by apply HP, H. Qed.
End yields.
#[export] Hint Resolve yields_Ret yields_Err yields_Undef : outcome.

(** Through a computation whose intermediate results do not matter. *)
Ltac yields_through :=
  repeat match goal with
    | |- yields _ (_ ≫= _) => apply yields_bind_any; intros ?
    | |- yields _ (match _ with _ => _ end) => case_match
    end; eauto with outcome.

(** ** Machine integers

    A value of a C++ integer type is a [Z] in the type's range; [uwrap w] and
    [swrap w] are the conversions to the unsigned and the (two's complement)
    signed type of width [w]. *)
Definition uwrap (w z : Z) : Z := z mod 2 ^ w.
Definition swrap (w z : Z) : Z := (z + 2 ^ (w - 1)) mod 2 ^ w - 2 ^ (w - 1).

Abbreviation u8 := (uwrap 8) (only parsing).
Abbreviation u16 := (uwrap 16) (only parsing).
Abbreviation u32 := (uwrap 32) (only parsing).
Abbreviation u64 := (uwrap 64) (only parsing).
Abbreviation i32 := (swrap 32) (only parsing).

Section wrap_facts.
Implicit Types w z : Z.

Lemma uwrap_range w z : 0 <= w -> 0 <= uwrap w z < 2 ^ w.
Proof. intros Hw. apply Z.mod_pos_bound. by apply Z.pow_pos_nonneg. Qed.

Lemma uwrap_small w z : 0 <= z < 2 ^ w -> uwrap w z = z.
Proof. intros H. unfold uwrap. by rewrite Z.mod_small. Qed.

Lemma uwrap_idem w z : 0 <= w -> uwrap w (uwrap w z) = uwrap w z.
Proof. intros Hw. apply uwrap_small, uwrap_range, Hw. Qed.

Lemma swrap_small w z : 0 < w -> - 2 ^ (w - 1) <= z < 2 ^ (w - 1) -> swrap w z = z.
Proof.
  intros Hw H. unfold swrap.
  replace w with (Z.succ (w - 1)) at 2 by lia.
  rewrite Z.pow_succ_r by lia.
  rewrite Z.mod_small; lia.
Qed.

Lemma swrap_range w z : 0 < w -> - 2 ^ (w - 1) <= swrap w z < 2 ^ (w - 1).
Proof.
  intros Hw. unfold swrap.
  pose proof (Z.mod_pos_bound (z + 2 ^ (w - 1)) (2 ^ w) ltac:(by apply Z.pow_pos_nonneg; lia)).
  assert (2 ^ w = 2 * 2 ^ (w - 1)) as Hp.
  { rewrite <- Z.pow_succ_r by lia. f_equal; lia. }
  lia.
Qed.

(** Going through the signed type does not change the unsigned value. *)
Lemma uwrap_swrap w z : 0 < w -> uwrap w (swrap w z) = uwrap w z.
Proof.
  intros Hw. unfold uwrap, swrap.
  rewrite Zminus_mod_idemp_l. f_equal; lia.
Qed.

Lemma uwrap_land w z : 0 <= w -> uwrap w z = Z.land z (Z.ones w).
Proof. intros Hw. unfold uwrap. by rewrite Z.land_ones. Qed.

Lemma uwrap_lor w x y : 0 <= w -> uwrap w (Z.lor x y) = Z.lor (uwrap w x) (uwrap w y).
Proof. intros Hw. rewrite !uwrap_land by done. apply Z.land_lor_distr_l. Qed.
End wrap_facts.

(** ** Bytes *)

(** A byte is a [Z] in [0, 255]. *)
Definition is_byte (b : Z) : Prop := 0 <= b < 256.
#[export] Instance is_byte_dec b : Decision (is_byte b).
Proof. unfold is_byte. apply _. Defined.

Lemma byte_land_ff b : is_byte b -> Z.land b 255 = b.
Proof.
  intros H. change 255 with (Z.ones 8). rewrite Z.land_ones by lia.
  by apply Z.mod_small.
Qed.

(** Disjoint bits: [|] of a low part and a shifted high part is their sum. *)
Lemma lor_shiftl_add n a b :
  0 <= n -> 0 <= a < 2 ^ n -> Z.lor a (Z.shiftl b n) = a + b * 2 ^ n.
Proof.
  intros Hn Ha.
  assert (Z.land a (Z.shiftl b n) = 0) as Hd.
  { apply Z.bits_inj'. intros i Hi. rewrite Z.land_spec, Z.bits_0.
    destruct (decide (i < n)).
    - rewrite Z.shiftl_spec_low by lia. apply andb_false_r.
    - rewrite <- (Z.mod_small a (2 ^ n)) by lia.
      rewrite Z.mod_pow2_bits_high by lia. done. }
  rewrite <- Z.shiftl_mul_pow2 by lia.
  by rewrite Z.add_nocarry_lxor, Z.lxor_lor.
Qed.

(** Little-endian composition and decomposition of [n] bytes. *)
Fixpoint le_combine (bs : list Z) : Z :=
  match bs with
  | [] => 0
  | b :: bs => b + 256 * le_combine bs
  end.

Fixpoint le_split (n : nat) (z : Z) : list Z :=
  match n with
  | O => []
  | S n => z mod 256 :: le_split n (z / 256)
  end.

Section little_endian.
Lemma length_le_split n z : length (le_split n z) = n.
Proof. revert z; induction n as [|n IH]; intros z; simpl; [done|]. by rewrite IH. Qed.

Lemma le_split_bytes n z : Forall is_byte (le_split n z).
Proof.
  revert z; induction n as [|n IH]; intros z; simpl; constructor; [|done].
  apply Z.mod_pos_bound. lia.
Qed.

Lemma le_combine_split n z : le_combine (le_split n z) = z mod 256 ^ Z.of_nat n.
Proof.
  revert z; induction n as [|n IH]; intros z.
  { simpl. by rewrite Z.mod_1_r. }
  cbn [le_split le_combine]. rewrite IH, Nat2Z.inj_succ, Z.pow_succ_r by lia.
  rewrite Z.rem_mul_r by lia. lia.
Qed.

Lemma le_split_combine bs : Forall is_byte bs -> le_split (length bs) (le_combine bs) = bs.
Proof.
  induction 1 as [|b bs Hb _ IH]; [done|]. cbn [length le_combine le_split].
  unfold is_byte in Hb. f_equal.
  - rewrite Z.mul_comm, Z_mod_plus_full. by apply Z.mod_small.
  - rewrite Z.mul_comm, Z.div_add by lia. rewrite (Z.div_small b) by lia. apply IH.
Qed.

Lemma le_combine_range bs :
  Forall is_byte bs -> 0 <= le_combine bs < 256 ^ Z.of_nat (length bs).
Proof.
  induction 1 as [|b bs Hb _ IH]; [done|]. cbn [length le_combine].
  unfold is_byte in Hb. rewrite Nat2Z.inj_succ, Z.pow_succ_r by lia. lia.
Qed.
End little_endian.

Lemma le_combine_lor4 b0 b1 b2 b3 :
  is_byte b0 -> is_byte b1 -> is_byte b2 -> is_byte b3 ->
  Z.lor (Z.lor (Z.lor b0 (Z.shiftl b1 8)) (Z.shiftl b2 16)) (Z.shiftl b3 24) =
  le_combine [b0; b1; b2; b3].
Proof.
  unfold is_byte. intros H0 H1 H2 H3.
  rewrite (lor_shiftl_add 8) by lia.
  rewrite (lor_shiftl_add 16) by lia.
  rewrite (lor_shiftl_add 24) by lia.
  cbn [le_combine]. lia.
Qed.

(** [Forall P] of a list written out. *)
Ltac solve_Forall := repeat apply Forall_cons_2; try apply Forall_nil_2; try done.

(** ** Arrays

    A C array or [std::vector] is the list of its elements; an access outside
    its bounds is undefined. *)
Abbreviation zlen l := (Z.of_nat (length l)).

Section arrays.
Context {E A : Type}.
Implicit Types (l : list A) (i : Z).

Definition arr_get l i : outcome E A :=
  if decide (0 <= i) then
    match l !! Z.to_nat i with Some x => Ret x | None => Undef end
  else Undef.

Definition arr_set l i (x : A) : outcome E (list A) :=
  if decide (0 <= i < zlen l) then Ret (<[Z.to_nat i := x]> l) else Undef.

Lemma arr_get_lookup l i x : 0 <= i -> l !! Z.to_nat i = Some x -> arr_get l i = Ret x.
Proof. intros Hi Hx. unfold arr_get. rewrite decide_True by done. by rewrite Hx. Qed.

Lemma arr_get_in l i :
  0 <= i < zlen l -> exists x, l !! Z.to_nat i = Some x /\ arr_get l i = Ret x.
Proof.
  intros Hi. destruct (lookup_lt_is_Some_2 l (Z.to_nat i)) as [x Hx]; [lia|].
  exists x; split; [done|]. apply arr_get_lookup; [lia|done].
Qed.

Lemma arr_get_Ret l i x : arr_get l i = Ret x -> 0 <= i < zlen l /\ l !! Z.to_nat i = Some x.
Proof.
  unfold arr_get. case_decide; [|done].
  destruct (l !! Z.to_nat i) eqn:Hl; [|done]. intros [= ->].
  split; [|done]. apply lookup_lt_Some in Hl. lia.
Qed.

Lemma arr_get_out l i : ~ 0 <= i < zlen l -> arr_get l i = Undef.
Proof.
  intros Hi. unfold arr_get. case_decide; [|done].
  rewrite lookup_ge_None_2; [done|lia].
Qed.

Lemma arr_get_not_Err l i e : arr_get l i <> Err e.
Proof. unfold arr_get. case_decide; [|done]. by destruct (l !! Z.to_nat i). Qed.

Lemma arr_set_in l i x :
  0 <= i < zlen l -> arr_set l i x = Ret (<[Z.to_nat i := x]> l).
Proof. intros Hi. unfold arr_set. by rewrite decide_True. Qed.

Lemma arr_get_app_l l k i : 0 <= i < zlen l -> arr_get (l ++ k) i = arr_get l i.
Proof.
  intros Hi. unfold arr_get. case_decide; [|done].
  rewrite lookup_app_l; [done|lia].
Qed.

Lemma arr_get_app_r l k i :
  0 <= i -> arr_get (l ++ k) (zlen l + i) = arr_get k i.
Proof.
  intros Hi. unfold arr_get. repeat case_decide; try lia.
  rewrite lookup_app_r by lia.
  by replace (Z.to_nat (zlen l + i) - length l)%nat with (Z.to_nat i) by lia.
Qed.
End arrays.

Lemma arr_get_fmap {E A B} (f : A -> B) (l : list A) i :
  arr_get (E := E) (f <$> l) i = f <$> arr_get l i.
Proof. unfold arr_get. rewrite list_lookup_fmap. case_decide; [|done]. by destruct (l !! _). Qed.

Section array_yields.
Context {E A : Type}.
Implicit Types (l : list A) (i : Z) (P : A -> Prop).

Lemma arr_get_yields P l i : Forall P l -> yields P (arr_get (E := E) l i).
Proof. intros Hl x Hx. apply arr_get_Ret in Hx as [_ Hx]. by eapply Forall_lookup_1. Qed.

Lemma arr_set_yields P l i x : Forall P l -> P x -> yields (Forall P) (arr_set (E := E) l i x).
Proof.
  intros Hl Hx l'. unfold arr_set. case_decide; [|done]. intros [= <-]. by apply Forall_insert.
Qed.
End array_yields.
#[export] Hint Resolve arr_get_yields arr_set_yields : outcome.
