(* ===== verification/SpscQueue.v ===== *)
(** The bounded single-producer/single-consumer packet queue, run by one
    thread at a time: [bounded_spsc_queue.h].

    [BoundedSpscQueue] is the class's state, [try_push], [try_pop], [reset] and
    [approximate_size] its methods.  The class [BoundedFifo] states what the
    queue promises to the rest of the driver (a first-in first-out list of at
    most [depth] elements); [spsc_fifo] proves that the ring buffer keeps the
    promise.  [SpscConcurrent] runs the same code from two threads. *)
From S2P Require Import Prelude.

(** ** What the driver relies on *)

(** A bounded first-in first-out queue: [fifo_repr q xs] says that [q] holds
    the elements [xs], oldest first.  The out-parameters of the two operations
    ([size_after_push], a nullable pointer, and the popped [value], a
    reference) are passed and returned. *)
Class BoundedFifo (E T Q : Type) (depth : Z) := {
  fifo_repr : Q -> list T -> Prop;
  fifo_push : T -> option Z -> Q -> outcome E (bool * option Z * Q);
  fifo_pop : T -> Q -> outcome E (bool * T * Q);
  fifo_reset : Q -> Q;
  fifo_size : Q -> Z;
  fifo_depth_bound q xs : fifo_repr q xs -> zlen xs <= depth;
  fifo_push_room q xs v sz :
    fifo_repr q xs -> zlen xs < depth ->
    exists q', fifo_push v sz q = Ret (true, (fun _ => zlen xs + 1) <$> sz, q') /\
               fifo_repr q' (xs ++ [v]);
  fifo_push_full q xs v sz :
    fifo_repr q xs -> depth <= zlen xs -> fifo_push v sz q = Ret (false, sz, q);
  fifo_pop_empty q v : fifo_repr q [] -> fifo_pop v q = Ret (false, v, q);
  fifo_pop_cons q x xs v :
    fifo_repr q (x :: xs) ->
    exists q', fifo_pop v q = Ret (true, x, q') /\ fifo_repr q' xs;
  fifo_reset_empty q xs : fifo_repr q xs -> fifo_repr (fifo_reset q) [];
  fifo_size_length q xs : fifo_repr q xs -> fifo_size q = zlen xs;
}.

(** Sequences of calls, on an implementation and on the list it stands for. *)
Inductive queue_op (T : Type) :=
  | OpPush (value : T) (size_after_push : option Z)
  | OpPop (value : T)
  | OpReset
  | OpSize.
Arguments OpPush {T}.
Arguments OpPop {T}.
Arguments OpReset {T}.
Arguments OpSize {T}.

Inductive queue_result (T : Type) :=
  | ResPush (ok : bool) (size_after_push : option Z)
  | ResPop (ok : bool) (value : T)
  | ResReset
  | ResSize (n : Z).
Arguments ResPush {T}.
Arguments ResPop {T}.
Arguments ResReset {T}.
Arguments ResSize {T}.

Section fifo_runs.
Context {E T Q : Type} {depth : Z} `{F : !BoundedFifo E T Q depth}.

Definition fifo_step (op : queue_op T) (q : Q) : outcome E (queue_result T * Q) :=
  match op with
  | OpPush v sz => '(ok, sz, q) ← fifo_push v sz q; Ret (ResPush ok sz, q)
  | OpPop v => '(ok, v, q) ← fifo_pop v q; Ret (ResPop ok v, q)
  | OpReset => Ret (ResReset, fifo_reset q)
  | OpSize => Ret (ResSize (fifo_size q), q)
  end.

(** The same calls on the specification: a list of at most [depth] elements. *)
Definition spec_step (op : queue_op T) (xs : list T) : queue_result T * list T :=
  match op, xs with
  | OpPush v sz, _ =>
      if decide (zlen xs < depth)
      then (ResPush true ((fun _ => zlen xs + 1) <$> sz), xs ++ [v])
      else (ResPush false sz, xs)
  | OpPop v, [] => (ResPop false v, [])
  | OpPop _, x :: xs => (ResPop true x, xs)
  | OpReset, _ => (ResReset, [])
  | OpSize, _ => (ResSize (zlen xs), xs)
  end.

Fixpoint fifo_run (ops : list (queue_op T)) (q : Q) : outcome E (list (queue_result T)) :=
  match ops with
  | [] => Ret []
  | op :: ops => '(r, q) ← fifo_step op q; rs ← fifo_run ops q; Ret (r :: rs)
  end.

Fixpoint spec_run (ops : list (queue_op T)) (xs : list T) : list (queue_result T) :=
  match ops with
  | [] => []
  | op :: ops => let '(r, xs) := spec_step op xs in r :: spec_run ops xs
  end.

Lemma fifo_step_spec op q xs :
  fifo_repr q xs ->
  exists q', fifo_step op q = Ret ((spec_step op xs).1, q') /\
             fifo_repr q' (spec_step op xs).2.
Proof.
  intros Hq. destruct op as [v sz|v| |]; simpl.
  - case_decide as Hd.
    + destruct (fifo_push_room q xs v sz Hq Hd) as (q' & -> & Hq'). simpl; eauto.
    + rewrite (fifo_push_full q xs v sz Hq) by lia. simpl; eauto.
  - destruct xs as [|x xs].
    + rewrite fifo_pop_empty by done. simpl; eauto.
    + destruct (fifo_pop_cons q x xs v Hq) as (q' & -> & Hq'). simpl; eauto.
  - eexists; split; [done|]. by eapply fifo_reset_empty.
  - rewrite (fifo_size_length q xs) by done. eauto.
Qed.

Lemma fifo_run_spec ops q xs :
  fifo_repr q xs -> fifo_run ops q = Ret (spec_run ops xs).
Proof.
  revert q xs. induction ops as [|op ops IH]; intros q xs Hq; [done|]. simpl.
  destruct (fifo_step_spec op q xs Hq) as (q' & -> & Hq'). simpl.
  destruct (spec_step op xs) as [r xs']. simpl in *. by rewrite (IH q' xs').
Qed.
End fifo_runs.

(** ** The ring buffer *)

Record BoundedSpscQueue (T : Type) := {
  storage_ : list T;
  read_index_ : Z;
  write_index_ : Z;
}.
Arguments Build_BoundedSpscQueue {T}.
Arguments storage_ {T}.
Arguments read_index_ {T}.
Arguments write_index_ {T}.

Section ring_indices.
Context (StorageCapacity : Z).

Definition next (index : Z) : Z :=
  let index := u64 (index + 1) in
  if index =? StorageCapacity then 0 else index.

Definition distance (read write : Z) : Z :=
  if write >=? read then u64 (write - read)
  else u64 (u64 (StorageCapacity - read) + write).
End ring_indices.

Section spsc_queue.
Context {E T : Type} (StorageCapacity MaxDepth : Z).
Implicit Types (q : BoundedSpscQueue T) (value : T).

(** The constructor: [storage_{}] value-initialises every slot. *)
Definition spsc_new (zero : T) : BoundedSpscQueue T :=
  {| storage_ := replicate (Z.to_nat StorageCapacity) zero;
     read_index_ := 0; write_index_ := 0 |}.

Definition try_push value (size_after_push : option Z) q
    : outcome E (bool * option Z * BoundedSpscQueue T) :=
  let write := write_index_ q in
  let read := read_index_ q in
  let current_size := distance StorageCapacity read write in
  if current_size >=? MaxDepth then Ret (false, size_after_push, q)
  else
    storage ← arr_set (storage_ q) write value;
    let q' := {| storage_ := storage; read_index_ := read_index_ q;
                 write_index_ := next StorageCapacity write |} in
    let size_after_push :=
      match size_after_push with
      | Some _ => Some (u64 (current_size + 1))
      | None => None
      end in
    Ret (true, size_after_push, q').

Definition try_pop value q : outcome E (bool * T * BoundedSpscQueue T) :=
  let read := read_index_ q in
  let write := write_index_ q in
  if read =? write then Ret (false, value, q)
  else
    value ← arr_get (storage_ q) read;
    let q' := {| storage_ := storage_ q;
                 read_index_ := next StorageCapacity read;
                 write_index_ := write_index_ q |} in
    Ret (true, value, q').

Definition reset q : BoundedSpscQueue T :=
  {| storage_ := storage_ q; read_index_ := 0; write_index_ := 0 |}.

Definition approximate_size q : Z :=
  distance StorageCapacity (read_index_ q) (write_index_ q).

Definition max_depth : Z := MaxDepth.
Definition storage_capacity : Z := StorageCapacity.
End spsc_queue.

(** ** Ring arithmetic *)

Section ring_facts.
Context (cap : Z) (Hcap : 1 < cap < 2 ^ 64).

Lemma next_mod i : 0 <= i < cap -> next cap i = (i + 1) mod cap.
Proof.
  intros Hi. unfold next. rewrite uwrap_small by lia.
  destruct (Z.eqb_spec (i + 1) cap) as [->|Hne].
  - by rewrite Z.mod_same by lia.
  - rewrite Z.mod_small; lia.
Qed.

Lemma next_range i : 0 <= i < cap -> 0 <= next cap i < cap.
Proof. intros Hi. rewrite next_mod by done. apply Z.mod_pos_bound; lia. Qed.

(** No wrap-around of [size_t] occurs in [distance]. *)
Lemma distance_mod r w :
  0 <= r < cap -> 0 <= w < cap -> distance cap r w = (w - r) mod cap.
Proof.
  intros Hr Hw. unfold distance. rewrite Z.geb_leb.
  destruct (Z.leb_spec r w).
  - rewrite uwrap_small, Z.mod_small; lia.
  - rewrite (uwrap_small 64 (cap - r)), uwrap_small by lia.
    rewrite <- (Z.mod_add (w - r) 1) by lia. rewrite Z.mod_small; lia.
Qed.

(** Slots at distinct offsets below the capacity are distinct. *)
Lemma slot_inj r i j :
  0 <= i < cap -> 0 <= j < cap -> (r + i) mod cap = (r + j) mod cap -> i = j.
Proof.
  intros Hi Hj Heq.
  assert ((i - j) mod cap = 0) as Hm.
  { replace (i - j) with ((r + i) - (r + j)) by lia.
    rewrite Zminus_mod, Heq, Z.sub_diag. by apply Z.mod_0_l; lia. }
  apply Z.mod_divide in Hm; [|lia]. destruct Hm as [k Hk].
  assert (k <= 0) by nia. assert (0 <= k) by nia. nia.
Qed.
End ring_facts.

(** ** The ring buffer implements the bounded queue *)

Section spsc_refines_fifo.
Context {E T : Type} (cap depth : Z).
Context (Hcap : 1 < cap < 2 ^ 64) (Hdepth : 0 < depth < cap).
Implicit Types (q : BoundedSpscQueue T) (xs : list T).

(** The elements [xs] sit in consecutive slots from the read index on, and
    the write index is the slot after the last of them. *)
Record ring_repr q xs : Prop := {
  rr_storage : zlen (storage_ q) = cap;
  rr_read : 0 <= read_index_ q < cap;
  rr_write : write_index_ q = (read_index_ q + zlen xs) mod cap;
  rr_depth : zlen xs <= depth;
  rr_slots i x : xs !! i = Some x ->
    storage_ q !! Z.to_nat ((read_index_ q + Z.of_nat i) mod cap) = Some x;
}.

Lemma ring_write_range q xs : ring_repr q xs -> 0 <= write_index_ q < cap.
Proof. intros [_ _ -> _ _]. apply Z.mod_pos_bound; lia. Qed.

Lemma ring_distance q xs :
  ring_repr q xs -> distance cap (read_index_ q) (write_index_ q) = zlen xs.
Proof.
  intros Hq. pose proof (ring_write_range q xs Hq) as Hw.
  destruct Hq as [_ Hr Hwr Hd _].
  rewrite distance_mod, Hwr, Zminus_mod_idemp_l by lia.
  replace (read_index_ q + zlen xs - read_index_ q) with (zlen xs) by lia.
  apply Z.mod_small; lia.
Qed.

Lemma ring_new zero : ring_repr (spsc_new cap zero) [].
Proof.
  split; simpl; try done; try lia.
  rewrite length_replicate. lia.
Qed.

Lemma ring_reset q xs : ring_repr q xs -> ring_repr (reset q) [].
Proof. intros [Hs _ _ _ _]. split; simpl; try done; lia. Qed.

Lemma ring_push_full q xs v sz :
  ring_repr q xs -> depth <= zlen xs ->
  try_push (E := E) cap depth v sz q = Ret (false, sz, q).
Proof.
  intros Hq Hfull. unfold try_push. rewrite (ring_distance q xs) by done.
  rewrite Z.geb_leb. destruct (Z.leb_spec depth (zlen xs)); [done|lia].
Qed.

Lemma ring_push_room q xs v sz :
  ring_repr q xs -> zlen xs < depth ->
  exists q', try_push (E := E) cap depth v sz q =
               Ret (true, (fun _ => zlen xs + 1) <$> sz, q') /\ ring_repr q' (xs ++ [v]).
Proof.
  intros Hq Hroom. pose proof (ring_write_range q xs Hq) as Hw.
  unfold try_push. rewrite (ring_distance q xs) by done.
  rewrite Z.geb_leb. destruct (Z.leb_spec depth (zlen xs)); [lia|].
  destruct Hq as [Hs Hr Hwr Hd Hx].
  rewrite arr_set_in by lia. cbn [mbind outcome_bind]. eexists; split.
  { destruct sz; simpl; rewrite ?uwrap_small by lia; done. }
  split; cbn [storage_ read_index_ write_index_]; rewrite ?length_insert, ?length_app;
    simpl; try lia.
  - rewrite next_mod, Hwr, Zplus_mod_idemp_l by lia. f_equal; lia.
  - intros i x Hi. apply lookup_app_Some in Hi as [Hi|[Hge Hi]].
    + pose proof (lookup_lt_Some _ _ _ Hi).
      rewrite list_lookup_insert_ne; [by apply Hx|]. rewrite Hwr. intros Heq.
      apply Z2Nat.inj in Heq; [|apply Z.mod_pos_bound; lia..].
      apply slot_inj in Heq; lia.
    + apply list_lookup_singleton_Some in Hi as [Hi ->].
      replace i with (length xs) by lia. rewrite <- Hwr.
      apply list_lookup_insert_eq. lia.
Qed.

Lemma ring_pop_empty q v :
  ring_repr q [] -> try_pop (E := E) cap v q = Ret (false, v, q).
Proof.
  intros [Hs Hr Hwr _ _]. unfold try_pop. rewrite Hwr. simpl.
  rewrite Z.add_0_r, Z.mod_small by lia. by rewrite Z.eqb_refl.
Qed.

Lemma ring_pop_cons q x xs v :
  ring_repr q (x :: xs) ->
  exists q', try_pop (E := E) cap v q = Ret (true, x, q') /\ ring_repr q' xs.
Proof.
  intros Hq. pose proof (ring_distance q _ Hq) as Hdist.
  destruct Hq as [Hs Hr Hwr Hd Hx]. cbn [length] in *. unfold try_pop.
  destruct (Z.eqb_spec (read_index_ q) (write_index_ q)) as [Heq|Hne].
  { rewrite <- Heq, distance_mod, Z.sub_diag, Z.mod_0_l in Hdist by lia. lia. }
  specialize (Hx 0%nat x eq_refl) as Hx0.
  rewrite Z.add_0_r, Z.mod_small in Hx0 by lia.
  rewrite (arr_get_lookup _ _ x) by (done || lia).
  cbn [mbind outcome_bind]. eexists; split; [done|].
  split; cbn [storage_ read_index_ write_index_]; try done; try lia.
  - by apply next_range.
  - rewrite Hwr, next_mod, Zplus_mod_idemp_l by lia. f_equal; lia.
  - intros i y Hi. rewrite next_mod, Zplus_mod_idemp_l by lia.
    replace (read_index_ q + 1 + Z.of_nat i) with (read_index_ q + Z.of_nat (S i)) by lia.
    by apply Hx.
Qed.

(** The queue class keeps the promise [BoundedFifo] makes to its clients. *)
Definition spsc_fifo : BoundedFifo E T (BoundedSpscQueue T) depth := {|
  fifo_repr := ring_repr;
  fifo_push := try_push cap depth;
  fifo_pop := try_pop cap;
  fifo_reset := reset;
  fifo_size := approximate_size cap;
  fifo_depth_bound q xs Hq := rr_depth q xs Hq;
  fifo_push_room := ring_push_room;
  fifo_push_full := ring_push_full;
  fifo_pop_empty := ring_pop_empty;
  fifo_pop_cons := ring_pop_cons;
  fifo_reset_empty := ring_reset;
  fifo_size_length := ring_distance;
  |}.
End spsc_refines_fifo.

(** C34: any sequence of [try_push], [try_pop], [reset] and [approximate_size]
    calls on a fresh queue is defined and returns what the same calls return
    on a first-in first-out list of at most [MaxDepth] elements, whatever the
    number of times the indices wrap around. *)
Theorem spsc_runs_as_fifo {T : Type} (cap depth : Z) (zero : T)
    (Hcap : 1 < cap < 2 ^ 64) (Hdepth : 0 < depth < cap) (ops : list (queue_op T)) :
  fifo_run (F := spsc_fifo (E := Empty_set) cap depth Hcap Hdepth) ops (spsc_new cap zero) =
  Ret (spec_run (depth := depth) ops []).
Proof. apply fifo_run_spec. apply ring_new; done. Qed.

Lemma spsc_runs_as_fifo_witness :
  fifo_run (F := spsc_fifo (E := Empty_set) 5 4 ltac:(lia) ltac:(lia))
    [OpPush 7 (Some 0); OpPush 8 None; OpPop 0; OpPush 9 (Some 0); OpSize] (spsc_new 5 0) =
  Ret [ResPush true (Some 1); ResPush true None; ResPop true 7; ResPush true (Some 2); ResSize 2].
Proof. apply (spsc_runs_as_fifo 5 4 0). Defined.
