(* ===== verification/SpscConcurrent.v ===== *)
(** The packet queue with its producer and its consumer running at once:
    [bounded_spsc_queue.h] under the C++ memory model.

    Each atomic access and each copy of a slot is one step of [step].  The two
    indices are single-writer release/acquire atomics: [st_rhist] and
    [st_whist] are their modification orders, a relaxed load of a thread's own
    index reads its own last store, and an acquire load of the other thread's
    index may return any store not older than one the thread has already
    observed ([st_pview], [st_cview]), which is what coherence guarantees; the
    loads may therefore be arbitrarily stale.  [st_pushed] and [st_popped] are
    the values for which [try_push] and [try_pop] have returned [true]. *)
From S2P Require Import Prelude SpscQueue.
From stdpp Require Import relations.
#[local] Open Scope Z_scope.

Section spsc_concurrent.
Context {T : Type} (StorageCapacity MaxDepth : Z).
Abbreviation next := (next StorageCapacity).
Abbreviation distance := (distance StorageCapacity).

(** Where the producer stands in [try_push]: outside, before the load of
    [read_index_], before the store of the slot, before the store of
    [write_index_]. *)
Inductive producer_pc :=
  | PIdle
  | PLoadRead (value : T) (write : Z)
  | PStore (value : T) (write current_size : Z)
  | PPublish (value : T) (write current_size : Z).

(** Where the consumer stands in [try_pop]: outside, before the load of
    [write_index_], before the copy of the slot, before the store of
    [read_index_]. *)
Inductive consumer_pc :=
  | CIdle
  | CLoadWrite (read : Z)
  | CCopy (read : Z)
  | CPublish (read : Z) (value : T).

Record state := {
  st_storage : list T;
  st_rhist : list Z;
  st_whist : list Z;
  st_pview : nat;
  st_cview : nat;
  st_prod : producer_pc;
  st_cons : consumer_pc;
  st_pushed : list T;
  st_popped : list T;
}.

Definition init (zero : T) : state :=
  {| st_storage := replicate (Z.to_nat StorageCapacity) zero;
     st_rhist := [0]; st_whist := [0]; st_pview := 0; st_cview := 0;
     st_prod := PIdle; st_cons := CIdle; st_pushed := []; st_popped := [] |}.

(** A relaxed load by the only writer. *)
Definition own_load (hist : list Z) : Z := default 0 (last hist).

Inductive step : state -> state -> Prop :=
  | step_push_call S R W pv cv cp psh pop v :
      step {| st_storage := S; st_rhist := R; st_whist := W; st_pview := pv; st_cview := cv;
              st_prod := PIdle; st_cons := cp; st_pushed := psh; st_popped := pop |}
           {| st_storage := S; st_rhist := R; st_whist := W; st_pview := pv; st_cview := cv;
              st_prod := PLoadRead v (own_load W); st_cons := cp;
              st_pushed := psh; st_popped := pop |}
  | step_push_full S R W pv cv cp psh pop v write k read :
      (pv <= k)%nat -> R !! k = Some read -> distance read write >= MaxDepth ->
      step {| st_storage := S; st_rhist := R; st_whist := W; st_pview := pv; st_cview := cv;
              st_prod := PLoadRead v write; st_cons := cp; st_pushed := psh; st_popped := pop |}
           {| st_storage := S; st_rhist := R; st_whist := W; st_pview := k; st_cview := cv;
              st_prod := PIdle; st_cons := cp; st_pushed := psh; st_popped := pop |}
  | step_push_room S R W pv cv cp psh pop v write k read :
      (pv <= k)%nat -> R !! k = Some read -> distance read write < MaxDepth ->
      step {| st_storage := S; st_rhist := R; st_whist := W; st_pview := pv; st_cview := cv;
              st_prod := PLoadRead v write; st_cons := cp; st_pushed := psh; st_popped := pop |}
           {| st_storage := S; st_rhist := R; st_whist := W; st_pview := k; st_cview := cv;
              st_prod := PStore v write (distance read write); st_cons := cp;
              st_pushed := psh; st_popped := pop |}
  | step_push_store S S' R W pv cv cp psh pop v write sz :
      arr_set (E := Empty_set) S write v = Ret S' ->
      step {| st_storage := S; st_rhist := R; st_whist := W; st_pview := pv; st_cview := cv;
              st_prod := PStore v write sz; st_cons := cp; st_pushed := psh; st_popped := pop |}
           {| st_storage := S'; st_rhist := R; st_whist := W; st_pview := pv; st_cview := cv;
              st_prod := PPublish v write sz; st_cons := cp; st_pushed := psh; st_popped := pop |}
  | step_push_publish S R W pv cv cp psh pop v write sz :
      step {| st_storage := S; st_rhist := R; st_whist := W; st_pview := pv; st_cview := cv;
              st_prod := PPublish v write sz; st_cons := cp; st_pushed := psh; st_popped := pop |}
           {| st_storage := S; st_rhist := R; st_whist := W ++ [next write]; st_pview := pv;
              st_cview := cv; st_prod := PIdle; st_cons := cp;
              st_pushed := psh ++ [v]; st_popped := pop |}
  | step_pop_call S R W pv cv pp psh pop :
      step {| st_storage := S; st_rhist := R; st_whist := W; st_pview := pv; st_cview := cv;
              st_prod := pp; st_cons := CIdle; st_pushed := psh; st_popped := pop |}
           {| st_storage := S; st_rhist := R; st_whist := W; st_pview := pv; st_cview := cv;
              st_prod := pp; st_cons := CLoadWrite (own_load R);
              st_pushed := psh; st_popped := pop |}
  | step_pop_empty S R W pv cv pp psh pop read k :
      (cv <= k)%nat -> W !! k = Some read ->
      step {| st_storage := S; st_rhist := R; st_whist := W; st_pview := pv; st_cview := cv;
              st_prod := pp; st_cons := CLoadWrite read; st_pushed := psh; st_popped := pop |}
           {| st_storage := S; st_rhist := R; st_whist := W; st_pview := pv; st_cview := k;
              st_prod := pp; st_cons := CIdle; st_pushed := psh; st_popped := pop |}
  | step_pop_some S R W pv cv pp psh pop read k write :
      (cv <= k)%nat -> W !! k = Some write -> read <> write ->
      step {| st_storage := S; st_rhist := R; st_whist := W; st_pview := pv; st_cview := cv;
              st_prod := pp; st_cons := CLoadWrite read; st_pushed := psh; st_popped := pop |}
           {| st_storage := S; st_rhist := R; st_whist := W; st_pview := pv; st_cview := k;
              st_prod := pp; st_cons := CCopy read; st_pushed := psh; st_popped := pop |}
  | step_pop_copy S R W pv cv pp psh pop read v :
      arr_get (E := Empty_set) S read = Ret v ->
      step {| st_storage := S; st_rhist := R; st_whist := W; st_pview := pv; st_cview := cv;
              st_prod := pp; st_cons := CCopy read; st_pushed := psh; st_popped := pop |}
           {| st_storage := S; st_rhist := R; st_whist := W; st_pview := pv; st_cview := cv;
              st_prod := pp; st_cons := CPublish read v; st_pushed := psh; st_popped := pop |}
  | step_pop_publish S R W pv cv pp psh pop read v :
      step {| st_storage := S; st_rhist := R; st_whist := W; st_pview := pv; st_cview := cv;
              st_prod := pp; st_cons := CPublish read v; st_pushed := psh; st_popped := pop |}
           {| st_storage := S; st_rhist := R ++ [next read]; st_whist := W; st_pview := pv;
              st_cview := cv; st_prod := pp; st_cons := CIdle;
              st_pushed := psh; st_popped := pop ++ [v] |}.

Definition reachable (zero : T) (σ : state) : Prop := rtc step (init zero) σ.

(** The number of slot copies the consumer has made so far. *)
Definition copies_done (σ : state) : nat :=
  match st_cons σ with
  | CPublish _ _ => S (length (st_popped σ))
  | _ => length (st_popped σ)
  end.

(** A conflicting pair of unordered non-atomic accesses: the producer is
    about to write a slot that the consumer is about to copy, or one the
    consumer copied in its [i]-th pop while the producer has not acquired
    the store of [read_index_] that ended that pop; or the consumer is about
    to copy a slot while it has not acquired the store of [write_index_]
    that published it. *)
Definition data_race (σ : state) : Prop :=
  (exists v write sz, st_prod σ = PStore v write sz /\
    (st_cons σ = CCopy write \/
     exists i, (st_pview σ <= i < copies_done σ)%nat /\
               Z.of_nat i mod StorageCapacity = write)) \/
  (exists read, st_cons σ = CCopy read /\ (st_cview σ <= length (st_popped σ))%nat).

(** The values pushed and not yet popped are in the slots from the last
    published read index on. *)
Definition pending_in_slots (σ : state) (pending : list T) : Prop :=
  forall i x, pending !! i = Some x ->
    st_storage σ !! Z.to_nat ((own_load (st_rhist σ) + Z.of_nat i) mod StorageCapacity)
      = Some x.
End spsc_concurrent.

(** ** The invariant *)

Section spsc_invariant.
Context {T : Type} (cap depth : Z).
Context (Hcap : 1 < cap < 2 ^ 64) (Hdepth : 0 < depth < cap).
Implicit Types (σ : state (T := T)).

(** The [k]-th value of an index is [k] modulo the capacity. *)
Definition index_hist (n : nat) : list Z := (fun k : nat => Z.of_nat k mod cap) <$> seq 0 (S n).

Definition prod_inv σ : Prop :=
  let nW := length (st_pushed σ) in
  match st_prod σ with
  | PIdle => True
  | PLoadRead _ w => w = Z.of_nat nW mod cap
  | PStore _ w _ => w = Z.of_nat nW mod cap /\ Z.of_nat nW - Z.of_nat (st_pview σ) < depth
  | PPublish v w _ =>
      w = Z.of_nat nW mod cap /\ Z.of_nat nW - Z.of_nat (st_pview σ) < depth /\
      st_storage σ !! Z.to_nat w = Some v
  end.

Definition cons_inv σ : Prop :=
  let nR := length (st_popped σ) in
  match st_cons σ with
  | CIdle => True
  | CLoadWrite r => r = Z.of_nat nR mod cap
  | CCopy r => r = Z.of_nat nR mod cap /\ (nR < st_cview σ)%nat
  | CPublish r v =>
      r = Z.of_nat nR mod cap /\ (nR < st_cview σ)%nat /\ st_pushed σ !! nR = Some v
  end.

Record inv σ : Prop := {
  inv_storage : zlen (st_storage σ) = cap;
  inv_whist : st_whist σ = index_hist (length (st_pushed σ));
  inv_rhist : st_rhist σ = index_hist (length (st_popped σ));
  inv_pview : (st_pview σ <= length (st_popped σ))%nat;
  inv_cview : (length (st_popped σ) <= st_cview σ <= length (st_pushed σ))%nat;
  inv_depth : zlen (st_pushed σ) - Z.of_nat (st_pview σ) <= depth;
  inv_popped : st_popped σ = take (length (st_popped σ)) (st_pushed σ);
  inv_slots i x : (length (st_popped σ) <= i)%nat -> st_pushed σ !! i = Some x ->
    st_storage σ !! Z.to_nat (Z.of_nat i mod cap) = Some x;
  inv_prod : prod_inv σ;
  inv_cons : cons_inv σ;
}.

Lemma index_hist_lookup n k r : index_hist n !! k = Some r -> (k <= n)%nat /\ r = Z.of_nat k mod cap.
Proof.
  unfold index_hist. rewrite list_lookup_fmap. intros (j & Hj & ->)%fmap_Some.
  apply lookup_seq in Hj as [-> Hj]. split; [lia|done].
Qed.

Lemma index_hist_last n : own_load (index_hist n) = Z.of_nat n mod cap.
Proof.
  unfold own_load, index_hist. rewrite seq_S, fmap_app. simpl.
  by rewrite last_snoc.
Qed.

Lemma index_hist_next n :
  index_hist n ++ [next cap (Z.of_nat n mod cap)] = index_hist (S n).
Proof.
  unfold index_hist. rewrite (seq_S (S n)), fmap_app. simpl. repeat f_equal.
  rewrite next_mod by (lia || apply Z.mod_pos_bound; lia).
  rewrite Zplus_mod_idemp_l. f_equal; lia.
Qed.

Lemma slot_ne (i j : Z) : 0 < j - i < cap -> Z.to_nat (i mod cap) <> Z.to_nat (j mod cap).
Proof.
  intros Hij Heq. apply Z2Nat.inj in Heq; [|apply Z.mod_pos_bound; lia..].
  replace i with (i + 0) in Heq by lia. replace j with (i + (j - i)) in Heq by lia.
  apply slot_inj in Heq; lia.
Qed.

Lemma index_distance (k n : nat) :
  0 <= Z.of_nat n - Z.of_nat k < cap ->
  distance cap (Z.of_nat k mod cap) (Z.of_nat n mod cap) = Z.of_nat n - Z.of_nat k.
Proof.
  intros Hkn. rewrite distance_mod by (lia || apply Z.mod_pos_bound; lia).
  rewrite <- Zminus_mod. apply Z.mod_small; lia.
Qed.

Lemma inv_init zero : inv (init cap zero).
Proof.
  split; simpl; try done; try lia.
  rewrite length_replicate. lia.
Qed.

(** A step that changes only views and program counters. *)
Lemma inv_same_memory (S : list T) R W pv cv pp cp psh pop pv' cv' pp' cp' :
  let σ := Build_state S R W pv cv pp cp psh pop in
  let σ' := Build_state S R W pv' cv' pp' cp' psh pop in
  inv σ -> (pv <= pv' <= length pop)%nat -> (cv <= cv' <= length psh)%nat ->
  prod_inv σ' -> cons_inv σ' -> inv σ'.
Proof.
  intros σ σ' [] Hp Hc Hpi Hci. subst σ σ'.
  split; simpl in *; try done; lia.
Qed.

(** The consumer's side does not depend on the producer's position, and
    conversely, except for the contents of the stored slot. *)
Lemma inv_view_bound S R W pv cv pp cp psh pop :
  inv (Build_state S R W pv cv pp cp psh pop) ->
  (forall k r, R !! k = Some r -> (k <= length pop)%nat /\ r = Z.of_nat k mod cap) /\
  (forall k w, W !! k = Some w -> (k <= length psh)%nat /\ w = Z.of_nat k mod cap).
Proof.
  intros [_ HW HR _ _ _ _ _ _ _]; simpl in *. subst W R.
  split; intros k r; apply index_hist_lookup.
Qed.

Lemma inv_step_producer_local S R W pv cv cp psh pop v k read :
  inv (Build_state S R W pv cv (PLoadRead v (Z.of_nat (length psh) mod cap)) cp psh pop) ->
  (pv <= k)%nat -> R !! k = Some read ->
  (k <= length pop)%nat /\
  distance cap read (Z.of_nat (length psh) mod cap) = zlen psh - Z.of_nat k.
Proof.
  intros Hi Hk Hr. pose proof (inv_view_bound _ _ _ _ _ _ _ _ _ Hi) as [HR _].
  destruct (HR k read Hr) as [Hle ->]. split; [done|].
  destruct Hi as [_ _ _ Hpv Hcv Hd _ _ _ _]; simpl in *.
  apply index_distance; lia.
Qed.

Lemma inv_step_store S S' R W pv cv cp psh pop v w sz :
  arr_set (E := Empty_set) S w v = Ret S' ->
  inv (Build_state S R W pv cv (PStore v w sz) cp psh pop) ->
  inv (Build_state S' R W pv cv (PPublish v w sz) cp psh pop).
Proof.
  intros Hset [Hs HW HR Hpv Hcv Hd Hpop Hsl [Hw Hroom] Hci]; simpl in *.
  unfold arr_set in Hset. case_decide as Hin; [|done]. injection Hset as <-.
  split; simpl; rewrite ?length_insert; try done.
  - intros i x Hi Hx. pose proof (lookup_lt_Some _ _ _ Hx).
    rewrite list_lookup_insert_ne; [by apply Hsl|].
    rewrite Hw. apply not_eq_sym, slot_ne. lia.
  - split; [done|]. split; [done|]. apply list_lookup_insert_eq. lia.
Qed.

Lemma inv_step_push_publish S R W pv cv cp psh pop v w sz :
  inv (Build_state S R W pv cv (PPublish v w sz) cp psh pop) ->
  inv (Build_state S R (W ++ [next cap w]) pv cv PIdle cp (psh ++ [v]) pop).
Proof.
  intros [Hs HW HR Hpv Hcv Hd Hpop Hsl (Hw & Hroom & Hslot) Hci]; simpl in *.
  split; simpl; rewrite ?length_app; simpl; try done; try lia.
  - rewrite HW, Hw. rewrite index_hist_next. f_equal; lia.
  - rewrite take_app_le by lia. done.
  - intros i x Hi Hx. apply lookup_app_Some in Hx as [Hx|[Hge Hx]]; [by apply Hsl|].
    apply list_lookup_singleton_Some in Hx as [Hx <-].
    replace i with (length psh) by lia. by rewrite <- Hw.
  - unfold cons_inv in *; simpl in *. destruct cp; try done.
    destruct Hci as (? & ? & Hv). split; [done|]. split; [done|].
    by apply lookup_app_l_Some.
Qed.

Lemma inv_step_pop_publish S R W pv cv pp psh pop r v :
  inv (Build_state S R W pv cv pp (CPublish r v) psh pop) ->
  inv (Build_state S (R ++ [next cap r]) W pv cv pp CIdle psh (pop ++ [v])).
Proof.
  intros [Hs HW HR Hpv Hcv Hd Hpop Hsl Hpi (Hr & Hlt & Hv)]; simpl in *.
  split; simpl; rewrite ?length_app; simpl; try done; try lia.
  - rewrite HR, Hr. rewrite index_hist_next. f_equal; lia.
  - rewrite Nat.add_1_r, (take_S_r _ _ _ Hv). by rewrite <- Hpop.
  - intros i x Hi Hx. apply Hsl; [lia|done].
Qed.

Ltac same_memory Hpi Hci :=
  eapply inv_same_memory; unfold prod_inv, cons_inv; simpl;
  first [eassumption | lia | exact Hpi | exact Hci | done | idtac].

Lemma inv_step σ σ' : inv σ -> step cap depth σ σ' -> inv σ'.
Proof.
  intros Hi Hstep. pose proof Hi as [Hs HW HR Hpv Hcv Hd Hpop Hsl Hpi Hci].
  destruct Hstep; unfold prod_inv, cons_inv in Hpi, Hci; simpl in *.
  - same_memory Hpi Hci. by rewrite HW, index_hist_last.
  - subst write.
    destruct (inv_step_producer_local _ _ _ _ _ _ _ _ _ k read Hi) as [Hle _]; [done..|].
    same_memory Hpi Hci.
  - subst write.
    destruct (inv_step_producer_local _ _ _ _ _ _ _ _ _ k read Hi) as [Hle Hdist]; [done..|].
    same_memory Hpi Hci.
  - by eapply inv_step_store.
  - by eapply inv_step_push_publish.
  - same_memory Hpi Hci. by rewrite HR, index_hist_last.
  - destruct (proj2 (inv_view_bound _ _ _ _ _ _ _ _ _ Hi) k read) as [Hle _]; [done|].
    same_memory Hpi Hci.
  - destruct (proj2 (inv_view_bound _ _ _ _ _ _ _ _ _ Hi) k write) as [Hle Hwr]; [done|].
    same_memory Hpi Hci. split; [done|].
    assert (k <> length pop); [|lia]. intros ->. congruence.
  - destruct Hci as [Hr Hlt]. same_memory Hpi Hci. split; [done|]. split; [done|].
    destruct (lookup_lt_is_Some_2 psh (length pop)) as [x Hx]; [lia|].
    pose proof (Hsl _ _ (Nat.le_refl _) Hx) as Hslot. rewrite <- Hr in Hslot.
    apply arr_get_Ret in H as [_ Hget]. congruence.
  - by eapply inv_step_pop_publish.
Qed.

Lemma inv_reachable zero σ : reachable cap depth zero σ -> inv σ.
Proof.
  unfold reachable. intros Hr. remember (init cap zero) as σ0 eqn:H0.
  assert (inv σ0) as Hi by (subst; apply inv_init). clear H0.
  induction Hr; eauto using inv_step.
Qed.
End spsc_invariant.

(** ** The code and the steps *)

(** What one thread alone sees of the queue. *)
Definition queue_of {T} (σ : state (T := T)) : BoundedSpscQueue T :=
  {| storage_ := st_storage σ; read_index_ := own_load (st_rhist σ);
     write_index_ := own_load (st_whist σ) |}.

(** How many of its own steps a thread still has to make before its current
    call returns. *)
Definition prod_steps_left {T} (pp : producer_pc (T := T)) : nat :=
  match pp with PIdle => 0 | PLoadRead _ _ => 3 | PStore _ _ _ => 2 | PPublish _ _ _ => 1 end.
Definition cons_steps_left {T} (cp : consumer_pc (T := T)) : nat :=
  match cp with CIdle => 0 | CLoadWrite _ => 3 | CCopy _ => 2 | CPublish _ _ => 1 end.

Section spsc_theorems.
Context {T : Type} (cap depth : Z) (zero : T).
Context (Hcap : 1 < cap < 2 ^ 64) (Hdepth : 0 < depth < cap).
Implicit Types (σ : state (T := T)).

Lemma own_load_lookup (hist : list Z) :
  hist <> [] -> hist !! pred (length hist) = Some (own_load hist).
Proof.
  intros Hne. rewrite <- last_lookup. unfold own_load.
  destruct (last hist) eqn:Hl; [done|]. by apply last_None in Hl.
Qed.

(** C18: in every reachable interleaving, under arbitrarily stale loads of the
    other thread's index, the values popped so far followed by the values
    still in the ring are exactly the values pushed so far, in order: nothing
    is lost, duplicated, reordered or replayed from an old lap of the ring;
    and the backlog never exceeds [MaxDepth]. *)
Theorem spsc_no_stale_replay σ (Hr : reachable cap depth zero σ) :
  exists pending,
    st_pushed σ = st_popped σ ++ pending /\ zlen pending <= depth /\
    pending_in_slots cap σ pending.
Proof.
  destruct (inv_reachable cap depth Hcap Hdepth zero σ Hr)
    as [Hs HW HR Hpv Hcv Hd Hpop Hsl _ _].
  exists (drop (length (st_popped σ)) (st_pushed σ)). split_and!.
  - rewrite Hpop at 1. symmetry. apply take_drop.
  - rewrite length_drop. lia.
  - intros i x Hx. rewrite lookup_drop in Hx.
    rewrite HR, index_hist_last, Zplus_mod_idemp_l.
    replace (Z.of_nat (length (st_popped σ)) + Z.of_nat i)
      with (Z.of_nat (length (st_popped σ) + i)) by lia.
    apply Hsl; [lia|done].
Qed.

(** C19: no reachable interleaving has a data race on a slot: the producer
    never writes a slot the consumer is copying or has copied in a pop whose
    end the producer has not acquired, and the consumer only copies slots
    whose publication it has acquired. *)
Theorem spsc_data_race_free σ (Hr : reachable cap depth zero σ) : ~ data_race cap σ.
Proof.
  destruct (inv_reachable cap depth Hcap Hdepth zero σ Hr)
    as [Hs HW HR Hpv Hcv Hd Hpop Hsl Hpi Hci].
  unfold prod_inv, cons_inv in *.
  assert (forall i : nat, (st_pview σ <= i < length (st_pushed σ))%nat ->
    0 <= Z.of_nat i -> Z.of_nat i mod cap <> Z.of_nat (length (st_pushed σ)) mod cap) as Hne.
  { intros i Hi _ Heq.
    apply (slot_ne cap Hcap (Z.of_nat i) (zlen (st_pushed σ))); [lia|congruence]. }
  intros [(v & w & sz & Hp & [Hc|(i & Hi & Hw)])|(r & Hc & Hle)].
  - rewrite Hp in Hpi. rewrite Hc in Hci. destruct Hpi as [Hw _], Hci as [Hr' Hlt].
    apply (Hne (length (st_popped σ))); [lia|lia|congruence].
  - rewrite Hp in Hpi. destruct Hpi as [Hw' _].
    apply (Hne i); [|lia|congruence]. unfold copies_done in Hi. destruct (st_cons σ); lia.
  - rewrite Hc in Hci. destruct Hci. lia.
Qed.

(** C35: [try_push] and [try_pop] are wait-free: from any reachable state a
    thread inside a call can make a step of its own, which leaves the other
    thread where it was and brings the call closer to its return; a call is
    over after at most four steps of its thread. *)
Theorem spsc_wait_free σ (Hr : reachable cap depth zero σ) :
  (st_prod σ <> PIdle ->
   exists σ', step cap depth σ σ' /\ st_cons σ' = st_cons σ /\
              (prod_steps_left (st_prod σ') < prod_steps_left (st_prod σ))%nat) /\
  (st_cons σ <> CIdle ->
   exists σ', step cap depth σ σ' /\ st_prod σ' = st_prod σ /\
              (cons_steps_left (st_cons σ') < cons_steps_left (st_cons σ))%nat).
Proof.
  destruct (inv_reachable cap depth Hcap Hdepth zero σ Hr)
    as [Hs HW HR Hpv Hcv Hd Hpop Hsl Hpi Hci].
  destruct σ as [S R W pv cv pp cp psh pop]; unfold prod_inv, cons_inv in *; simpl in *.
  split; intros Hbusy.
  - destruct pp as [|v w|v w sz|v w sz]; [done| | |].
    + destruct (lookup_lt_is_Some_2 R pv) as [r Hrd].
      { rewrite HR. unfold index_hist. rewrite length_fmap, length_seq. lia. }
      destruct (decide (distance cap r w < depth)).
      * eexists; split; [by eapply step_push_room with (k := pv)|simpl; auto].
      * eexists; split; [by eapply step_push_full with (k := pv); [lia|..]; eauto; lia|].
        simpl; split; [done|lia].
    + assert (0 <= w < zlen S) as Hw.
      { destruct Hpi as [-> _]. rewrite Hs. apply Z.mod_pos_bound; lia. }
      eexists; split; [by eapply step_push_store, arr_set_in|simpl; auto].
    + eexists; split; [apply step_push_publish|simpl; auto].
  - destruct cp as [|r|r|r v]; [done| | |].
    + destruct (lookup_lt_is_Some_2 W cv) as [w Hw].
      { rewrite HW. unfold index_hist. rewrite length_fmap, length_seq. lia. }
      destruct (decide (r = w)) as [->|Hne].
      * eexists; split; [by eapply step_pop_empty with (k := cv)|simpl; split; [done|lia]].
      * eexists; split; [by eapply step_pop_some with (k := cv)|simpl; auto].
    + destruct (arr_get_in (E := Empty_set) S r) as (x & _ & Hx).
      { destruct Hci as [-> _]. rewrite Hs. apply Z.mod_pos_bound; lia. }
      eexists; split; [by eapply step_pop_copy|simpl; auto].
    + eexists; split; [apply step_pop_publish|simpl; auto].
Qed.

Lemma own_load_snoc (hist : list Z) x : own_load (hist ++ [x]) = x.
Proof. unfold own_load. by rewrite last_snoc. Qed.

Lemma index_hist_latest (n : nat) :
  index_hist cap n !! n = Some (own_load (index_hist cap n)).
Proof.
  rewrite <- own_load_lookup by done. f_equal.
  unfold index_hist. by rewrite length_fmap, length_seq.
Qed.

(** A call of [try_push] whose steps are not interleaved with others is the
    method of the sequential model. *)
Lemma spsc_solo_push σ v b q' :
  inv cap depth σ -> st_prod σ = PIdle ->
  try_push (E := Empty_set) cap depth v None (queue_of σ) = Ret (b, None, q') ->
  exists σ', rtc (step cap depth) σ σ' /\ queue_of σ' = q' /\ st_prod σ' = PIdle /\
    st_cons σ' = st_cons σ /\ st_popped σ' = st_popped σ /\
    st_pushed σ' = if b then st_pushed σ ++ [v] else st_pushed σ.
Proof.
  intros [Hs HW HR Hpv Hcv Hd Hpop Hsl _ _] Hidle Hpush.
  destruct σ as [S R W pv cv pp cp psh pop]; simpl in *; subst pp.
  pose proof (index_hist_latest (length pop)) as Hlast. rewrite <- HR in Hlast.
  unfold try_push, queue_of in Hpush; simpl in Hpush.
  rewrite Z.geb_leb in Hpush.
  destruct (Z.leb_spec depth (distance cap (own_load R) (own_load W))) as [Hfull|Hroom].
  - injection Hpush as <- <-. eexists; split.
    + eapply rtc_l; [apply step_push_call with (v := v)|]. eapply rtc_once.
      eapply step_push_full; [apply Hpv|done|lia].
    + done.
  - destruct (arr_set S (own_load W) v) as [S'|[]|] eqn:Hset; simpl in Hpush; [|done].
    injection Hpush as <- <-. eexists; split.
    + eapply rtc_l; [apply step_push_call with (v := v)|].
      eapply rtc_l; [eapply step_push_room; [apply Hpv|done|lia]|].
      eapply rtc_l; [by eapply step_push_store|]. eapply rtc_once, step_push_publish.
    + unfold queue_of; simpl. by rewrite own_load_snoc.
Qed.

Lemma spsc_solo_pop σ v0 b v q' :
  inv cap depth σ -> st_cons σ = CIdle ->
  try_pop (E := Empty_set) cap v0 (queue_of σ) = Ret (b, v, q') ->
  exists σ', rtc (step cap depth) σ σ' /\ queue_of σ' = q' /\ st_cons σ' = CIdle /\
    st_prod σ' = st_prod σ /\ st_pushed σ' = st_pushed σ /\
    st_popped σ' = if b then st_popped σ ++ [v] else st_popped σ.
Proof.
  intros [Hs HW HR Hpv Hcv Hd Hpop Hsl _ _] Hidle Hpush.
  destruct σ as [S R W pv cv pp cp psh pop]; simpl in *; subst cp.
  pose proof (index_hist_latest (length psh)) as Hlast. rewrite <- HW in Hlast.
  unfold try_pop, queue_of in Hpush; simpl in Hpush.
  destruct (Z.eqb_spec (own_load R) (own_load W)) as [Heq|Hne].
  - injection Hpush as <- <- <-. eexists; split.
    + eapply rtc_l; [apply step_pop_call|]. eapply rtc_once.
      eapply step_pop_empty; [apply Hcv|]. by rewrite Heq.
    + done.
  - destruct (arr_get S (own_load R)) as [x|[]|] eqn:Hget; simpl in Hpush; [|done].
    injection Hpush as <- <- <-. eexists; split.
    + eapply rtc_l; [apply step_pop_call|].
      eapply rtc_l; [by eapply step_pop_some; [apply Hcv|done|done]|].
      eapply rtc_l; [by eapply step_pop_copy|]. eapply rtc_once, step_pop_publish.
    + unfold queue_of; simpl. by rewrite own_load_snoc.
Qed.
End spsc_theorems.

(** A reachable state for the examples: one value pushed, the consumer inside
    [try_pop] and about to copy it, the producer about to write the next slot. *)
Definition example_state : state (T := Z) :=
  {| st_storage := [7; 0; 0]; st_rhist := [0]; st_whist := [0; 1]; st_pview := 0; st_cview := 1;
     st_prod := PStore 8 1 1; st_cons := CCopy 0; st_pushed := [7]; st_popped := [] |}.

Lemma example_reachable : reachable 3 2 0 example_state.
Proof.
  unfold reachable, example_state.
  eapply rtc_l; [apply (step_push_call 3 2 [0; 0; 0] [0] [0] 0 0 CIdle [] [] 7)|].
  eapply rtc_l; [eapply (step_push_room 3 2) with (k := 0%nat); [lia|done|vm_compute; reflexivity]|].
  eapply rtc_l; [by eapply (step_push_store 3 2)|].
  eapply rtc_l; [apply (step_push_publish 3 2)|].
  eapply rtc_l; [apply (step_pop_call 3 2)|].
  eapply rtc_l; [eapply (step_pop_some 3 2) with (k := 1%nat) (write := 1); [lia|done|done]|].
  eapply rtc_l; [apply (step_push_call 3 2)|].
  eapply rtc_l; [eapply (step_push_room 3 2) with (k := 0%nat); [lia|done|vm_compute; reflexivity]|].
  apply rtc_refl.
Qed.

Lemma spsc_no_stale_replay_witness :
  exists pending, [7] = [] ++ pending /\ zlen pending <= 2 /\
    pending_in_slots 3 example_state pending.
Proof.
  apply (spsc_no_stale_replay 3 2 0 ltac:(lia) ltac:(lia) example_state example_reachable).
Defined.

Lemma spsc_data_race_free_witness : ~ data_race 3 example_state.
Proof.
  apply (spsc_data_race_free 3 2 0 ltac:(lia) ltac:(lia) example_state example_reachable).
Defined.

Lemma spsc_wait_free_witness :
  exists σ', step 3 2 example_state σ' /\ st_cons σ' = CCopy 0 /\
             (prod_steps_left (st_prod σ') < 2)%nat.
Proof.
  apply (spsc_wait_free 3 2 0 ltac:(lia) ltac:(lia) example_state example_reachable).
  discriminate.
Defined.
