(* ===== verification/Ieee.v ===== *)
(** The C++ types [float] and [double]: IEEE 754 binary32 and binary64 with
    rounding to nearest even, as the Standard Library's [spec_float]; the
    arithmetic below is exactly rounded, operation by operation.

    The first part names the operations the driver uses, with the conversions
    between [float], [double] and the integer types and the object
    representations ([f32_bits], [f64_bits]).  The second part is the order
    theory: [fval] is the exact value of a finite number in units of the least
    subnormal, and comparisons of valid numbers are comparisons of [fval]. *)
From S2P Require Import Prelude.
From Stdlib Require Export SpecFloat.
#[local] Open Scope Z_scope.

(** ** The operations *)

Abbreviation float := spec_float.

(** binary64 *)
Definition d_add : float -> float -> float := SFadd 53 1024.
Definition d_sub : float -> float -> float := SFsub 53 1024.
Definition d_mul : float -> float -> float := SFmul 53 1024.
Definition d_div : float -> float -> float := SFdiv 53 1024.
Definition d_sqrt : float -> float := SFsqrt 53 1024.
Definition d_of_Z (z : Z) : float := binary_normalize 53 1024 z 0 false.
(** binary32 *)
Definition f_add : float -> float -> float := SFadd 24 128.
Definition f_sub : float -> float -> float := SFsub 24 128.
Definition f_mul : float -> float -> float := SFmul 24 128.
Definition f_div : float -> float -> float := SFdiv 24 128.
Definition f_sqrt : float -> float := SFsqrt 24 128.
Definition f_of_Z (z : Z) : float := binary_normalize 24 128 z 0 false.

(** The conversions between the two formats round to nearest even. *)
Definition convert (prec emax : Z) (x : float) : float :=
  match x with
  | S754_finite s m e => binary_round prec emax s m e
  | _ => x
  end.
Definition d_of_f : float -> float := convert 53 1024.
Definition f_of_d : float -> float := convert 24 128.

(** Decimal literals [n/d]: the quotient of two exactly representable integers
    is rounded once, as the literal is. *)
Definition d_lit (n d : Z) : float := d_div (d_of_Z n) (d_of_Z d).
Definition f_lit (n d : Z) : float := f_div (f_of_Z n) (f_of_Z d).

(** Arithmetic on [float] reads as in the source. *)
Declare Scope f32_scope.
Delimit Scope f32_scope with f32.
Notation "x + y" := (f_add x y) : f32_scope.
Notation "x - y" := (f_sub x y) : f32_scope.
Notation "x * y" := (f_mul x y) : f32_scope.

(** [std::isfinite]. *)
Definition isfinite (x : float) : bool :=
  match x with S754_zero _ | S754_finite _ _ _ => true | _ => false end.

(** Truncation towards zero of a finite number; [None] for the others. *)
Definition trunc (x : float) : option Z :=
  match x with
  | S754_zero _ => Some 0
  | S754_finite s m e => Some (cond_Zopp s (Z.shiftl (Zpos m) e))
  | _ => None
  end.

(** [floor]: the greatest integral value not above [x]. *)
Definition d_floor (x : float) : float :=
  match x with
  | S754_finite s m e => binary_normalize 53 1024 (Z.shiftl (cond_Zopp s (Zpos m)) e) 0 s
  | _ => x
  end.

(** Floating-point to integer conversions: undefined when the truncated value
    does not fit the destination type. *)
Definition to_signed {E} (w : Z) (x : float) : outcome E Z :=
  match trunc x with
  | Some z => if decide (- 2 ^ (w - 1) <= z < 2 ^ (w - 1)) then Ret z else Undef
  | None => Undef
  end.
Definition to_unsigned {E} (w : Z) (x : float) : outcome E Z :=
  match trunc x with
  | Some z => if decide (0 <= z < 2 ^ w) then Ret z else Undef
  | None => Undef
  end.

(** ** Object representations

    Sign bit, biased exponent on [emax]'s width, fraction on [prec - 1] bits. *)
Definition float_bits (prec emax : Z) (x : float) : Z :=
  let frac := 2 ^ (prec - 1) in
  let sign (s : bool) := if s then frac * (2 * emax) else 0 in
  match x with
  | S754_zero s => sign s
  | S754_infinity s => sign s + frac * (2 * emax - 1)
  | S754_nan => frac * (2 * emax - 1) + frac / 2
  | S754_finite s m e =>
      if Zpos m <? frac then sign s + Zpos m
      else sign s + frac * (e - emin prec emax + 1) + (Zpos m - frac)
  end.

Definition float_of_bits (prec emax : Z) (b : Z) : float :=
  let frac := 2 ^ (prec - 1) in
  let s := frac * (2 * emax) <=? b in
  let b := b mod (frac * (2 * emax)) in
  let ex := b / frac in
  let fr := b mod frac in
  if ex =? 2 * emax - 1 then (if fr =? 0 then S754_infinity s else S754_nan)
  else if ex =? 0 then
    match fr with Zpos m => S754_finite s m (emin prec emax) | _ => S754_zero s end
  else S754_finite s (Z.to_pos (frac + fr)) (ex - 1 + emin prec emax).

Definition f32_bits : float -> Z := float_bits 24 128.
Definition f32_of_bits : Z -> float := float_of_bits 24 128.
Definition f64_bits : float -> Z := float_bits 53 1024.
Definition f64_of_bits : Z -> float := float_of_bits 53 1024.

Example f32_bits_1 : f32_bits (f_of_Z 1) = 0x3f800000. Proof. reflexivity. Qed.
Example f64_bits_m1_5 : f64_bits (d_lit (-15) 10) = 0xbff8000000000000. Proof. reflexivity. Qed.
Example d_lit_0_1 : f64_bits (d_lit 1 10) = 0x3fb999999999999a. Proof. reflexivity. Qed.
Example trunc_floor : trunc (d_lit (-25) 10) = Some (-2) /\
  trunc (d_floor (d_lit (-25) 10)) = Some (-3).
Proof. vm_compute. done. Qed.

(** ** Digits and canonical numbers *)

Lemma pow2_pos (n : Z) : 0 <= n -> 0 < 2 ^ n.
Proof. intros. by apply Z.pow_pos_nonneg. Qed.

Lemma pow2_succ (n : Z) : 0 <= n -> 2 ^ (n + 1) = 2 * 2 ^ n.
Proof. intros. by rewrite <- Z.pow_succ_r, Z.add_1_r. Qed.

Lemma digits2_pos_bounds (m : positive) :
  2 ^ (Zpos (digits2_pos m) - 1) <= Zpos m < 2 ^ Zpos (digits2_pos m).
Proof.
  assert (forall d, 1 <= d -> 2 ^ (Z.succ d - 1) = 2 * 2 ^ (d - 1) /\ 2 ^ Z.succ d = 2 * 2 ^ d)
    as Hp.
  { intros d Hd. rewrite <- pow2_succ, Z.pow_succ_r by lia. split; [f_equal; lia|done]. }
  induction m as [m IH|m IH|]; cbn [digits2_pos]; [| |done];
    destruct (Hp (Zpos (digits2_pos m)) ltac:(lia)) as [H1 H2];
    rewrite Pos2Z.inj_succ, H1, H2; lia.
Qed.

Lemma pow2_le_inv (a b : Z) : 0 <= a -> 0 <= b -> 2 ^ a < 2 ^ b -> a < b.
Proof. intros Ha Hb Hlt. by apply (Z.pow_lt_mono_r_iff 2). Qed.

Lemma digits2_unique (m : positive) (d : Z) :
  1 <= d -> 2 ^ (d - 1) <= Zpos m < 2 ^ d -> Zpos (digits2_pos m) = d.
Proof.
  intros Hd Hm. pose proof (digits2_pos_bounds m).
  assert (d - 1 < Zpos (digits2_pos m)) by (apply pow2_le_inv; lia).
  assert (Zpos (digits2_pos m) - 1 < d) by (apply pow2_le_inv; lia).
  lia.
Qed.

Section canonical.
Context (prec emax : Z) (Hprec : 1 < prec < emax).
Abbreviation emin := (emin prec emax).
Implicit Types (x y : float).

(** The fields of a valid finite number. *)
Definition canon (m : Z) (e : Z) : Prop :=
  emin <= e <= emax - prec /\ 0 < m < 2 ^ prec /\ (e = emin \/ 2 ^ (prec - 1) <= m).

Lemma bounded_canon (m : positive) (e : Z) : bounded prec emax m e = true <-> canon (Zpos m) e.
Proof.
  unfold bounded, canonical_mantissa, fexp, canon.
  rewrite andb_true_iff, Z.eqb_eq, Z.leb_le.
  pose proof (digits2_pos_bounds m) as Hd. set (d := Zpos (digits2_pos m)) in *.
  assert (1 <= d) by (subst d; lia). split.
  - intros [Hf Hle]. assert (d <= prec) by lia.
    assert (2 ^ d <= 2 ^ prec) by (apply Z.pow_le_mono_r; lia).
    split; [lia|]. split; [lia|].
    destruct (decide (e = emin)); [by left|right].
    assert (d = prec) as <- by lia. lia.
  - intros (He & Hm & Hcan).
    assert (d - 1 < prec) by (apply pow2_le_inv; lia).
    split; [|lia]. destruct Hcan as [->|Hge]; [lia|].
    assert (prec - 1 < d) by (apply pow2_le_inv; lia). lia.
Qed.

(** The exact value, in units of [2 ^ emin]; 0 for infinities and NaN. *)
Definition fval x : Z :=
  match x with
  | S754_finite s m e => cond_Zopp s (Zpos m * 2 ^ (e - emin))
  | _ => 0
  end.

Lemma canon_lt_exp m1 e1 m2 e2 :
  canon m1 e1 -> canon m2 e2 -> e1 < e2 -> m1 * 2 ^ (e1 - emin) < m2 * 2 ^ (e2 - emin).
Proof.
  intros (He1 & Hm1 & _) (He2 & Hm2 & Hc2) He.
  destruct Hc2 as [->|Hc2]; [lia|].
  assert (2 ^ prec * 2 ^ (e1 - emin) <= 2 ^ (prec - 1) * 2 ^ (e2 - emin)) as Hp.
  { rewrite <- !Z.pow_add_r by lia. apply Z.pow_le_mono_r; lia. }
  pose proof (pow2_pos (e1 - emin) ltac:(lia)). pose proof (pow2_pos (e2 - emin) ltac:(lia)).
  nia.
Qed.

Lemma canon_compare (m1 m2 : positive) e1 e2 :
  canon (Zpos m1) e1 -> canon (Zpos m2) e2 ->
  (Zpos m1 * 2 ^ (e1 - emin) ?= Zpos m2 * 2 ^ (e2 - emin)) =
  match e1 ?= e2 with Lt => Lt | Gt => Gt | Eq => Pos.compare_cont Eq m1 m2 end.
Proof.
  intros H1 H2. destruct (Z.compare_spec e1 e2) as [->|He|He].
  - rewrite Z.compare_sub. change (Pos.compare_cont Eq m1 m2) with (Zpos m1 ?= Zpos m2).
    rewrite (Z.compare_sub (Zpos m1)), <- Z.mul_sub_distr_r.
    pose proof (pow2_pos (e2 - emin) ltac:(destruct H2; lia)).
    destruct (Z.compare_spec (Zpos m1 - Zpos m2) 0);
      [apply Z.compare_eq_iff|apply Z.compare_lt_iff|apply Z.compare_gt_iff]; nia.
  - apply Z.compare_lt_iff. by apply canon_lt_exp.
  - apply Z.compare_gt_iff. by apply canon_lt_exp.
Qed.

Definition valid_finite x : Prop := isfinite x = true /\ valid_binary prec emax x = true.

(** IEEE comparison of valid finite numbers is comparison of their values. *)
Lemma SFcompare_fval x y :
  valid_finite x -> valid_finite y -> SFcompare x y = Some (fval x ?= fval y).
Proof.
  intros [Fx Vx] [Fy Vy].
  destruct x as [sx|?| |sx mx ex]; try done; destruct y as [sy|?| |sy my ey]; try done;
    cbn [SFcompare fval valid_binary] in *; rewrite ?bounded_canon in *.
  - pose proof (pow2_pos (ey - emin) ltac:(destruct Vy; lia)).
    f_equal; symmetry; destruct sy; cbn [cond_Zopp];
      [apply Z.compare_gt_iff|apply Z.compare_lt_iff]; nia.
  - pose proof (pow2_pos (ex - emin) ltac:(destruct Vx; lia)).
    f_equal; symmetry; destruct sx; cbn [cond_Zopp];
      [apply Z.compare_lt_iff|apply Z.compare_gt_iff]; nia.
  - pose proof (pow2_pos (ex - emin) ltac:(destruct Vx; lia)).
    pose proof (pow2_pos (ey - emin) ltac:(destruct Vy; lia)).
    f_equal; symmetry; destruct sx, sy; cbn [cond_Zopp].
    + rewrite Z.compare_opp, Z.compare_antisym, canon_compare by done.
      by destruct (ex ?= ey).
    + apply Z.compare_lt_iff; nia.
    + apply Z.compare_gt_iff; nia.
    + by rewrite canon_compare.
Qed.

Lemma SFltb_fval x y :
  valid_finite x -> valid_finite y -> SFltb x y = (fval x <? fval y).
Proof.
  intros Hx Hy. unfold SFltb, Z.ltb. rewrite SFcompare_fval by done.
  by destruct (fval x ?= fval y).
Qed.

Lemma SFleb_fval x y :
  valid_finite x -> valid_finite y -> SFleb x y = (fval x <=? fval y).
Proof.
  intros Hx Hy. unfold SFleb, Z.leb. rewrite SFcompare_fval by done.
  by destruct (fval x ?= fval y).
Qed.
End canonical.

Lemma SFcompare_swap x y : SFcompare y x = CompOpp <$> SFcompare x y.
Proof.
  destruct x as [sx|sx| |sx mx ex], y as [sy|sy| |sy my ey]; try done;
    try (by destruct sx); try (by destruct sy); try (by destruct sx, sy).
  cbn [SFcompare fmap option_fmap option_map].
  rewrite (Z.compare_antisym ex ey).
  change (Pos.compare_cont Eq my mx) with (Pos.compare_cont (CompOpp Eq) my mx).
  rewrite <- (Pos.compare_cont_antisym mx my Eq).
  destruct sx, sy, (ex ?= ey), (Pos.compare_cont Eq mx my); done.
Qed.

Lemma SFleb_ltb_false x y : SFleb x y = true -> SFltb y x = false.
Proof.
  unfold SFleb, SFltb. rewrite (SFcompare_swap x y). by destruct (SFcompare x y) as [[]|].
Qed.

(** *** Object representations *)

Lemma float_fields (frac W E F : Z) (s : bool) :
  0 < frac -> 0 < W -> 0 <= E < W -> 0 <= F < frac ->
  let b := (if s then frac * W else 0) + (frac * E + F) in
  (frac * W <=? b) = s /\ b mod (frac * W) / frac = E /\ b mod (frac * W) mod frac = F /\
  0 <= b < 2 * (frac * W).
Proof.
  intros Hf HW HE HF b.
  assert (0 <= frac * E + F < frac * W) as Hr by nia.
  assert (b mod (frac * W) = frac * E + F) as Hm.
  { subst b. destruct s.
    - replace (frac * W + (frac * E + F)) with (frac * E + F + 1 * (frac * W)) by lia.
      rewrite Z.mod_add by lia. by apply Z.mod_small.
    - by apply Z.mod_small. }
  rewrite Hm. split_and!.
  - subst b. destruct s; [apply Z.leb_le|apply Z.leb_gt]; lia.
  - rewrite Z.mul_comm, Z.div_add_l, Z.div_small; lia.
  - rewrite Z.add_comm, Z.mul_comm, Z.mod_add, Z.mod_small; lia.
  - subst b. destruct s; lia.
  - subst b. destruct s; lia.
Qed.

Section representation.
Context (prec emax : Z) (Hprec : 1 < prec < emax).

(** The fields [float_bits] packs: exponent and fraction. *)
Lemma float_bits_fields (x : float) :
  valid_binary prec emax x = true ->
  let frac := 2 ^ (prec - 1) in
  exists (s : bool) (E F : Z),
    float_bits prec emax x = (if s then frac * (2 * emax) else 0) + (frac * E + F) /\
    0 <= E < 2 * emax /\ 0 <= F < frac /\
    (if E =? 2 * emax - 1 then (if F =? 0 then S754_infinity s else S754_nan)
     else if E =? 0 then
       match F with Zpos m => S754_finite s m (emin prec emax) | _ => S754_zero s end
     else S754_finite s (Z.to_pos (frac + F)) (E - 1 + emin prec emax)) = x.
Proof.
  intros Hv frac.
  assert (2 <= frac) as Hf.
  { subst frac. change 2 with (2 ^ 1) at 1. apply Z.pow_le_mono_r; lia. }
  assert (1 <= frac / 2 < frac) as Hh by (split; [apply Z.div_le_lower_bound|apply Z.div_lt]; lia).
  destruct x as [s|s| |s m e]; unfold float_bits; fold frac.
  - exists s, 0, 0. rewrite !Z.mul_0_r, Z.add_0_r. split_and!; try lia.
    destruct (Z.eqb_spec 0 (2 * emax - 1)); [lia|done].
  - exists s, (2 * emax - 1), 0. split_and!; try lia. by rewrite Z.eqb_refl.
  - exists false, (2 * emax - 1), (frac / 2). split_and!; try lia.
    rewrite Z.eqb_refl. destruct (Z.eqb_spec (frac / 2) 0); [lia|done].
  - cbn [valid_binary] in Hv. rewrite bounded_canon in Hv by done.
    destruct Hv as (He & Hm & Hc). unfold emin in *.
    assert (2 ^ prec = 2 * frac) as Hp.
    { subst frac. rewrite <- pow2_succ by lia. f_equal; lia. }
    fold frac in Hc. destruct (Z.ltb_spec (Zpos m) frac).
    + exists s, 0, (Zpos m). split_and!; try lia.
      destruct (Z.eqb_spec 0 (2 * emax - 1)); [lia|]. simpl. f_equal. lia.
    + exists s, (e - (3 - emax - prec) + 1), (Zpos m - frac). split_and!; try lia.
      destruct (Z.eqb_spec (e - (3 - emax - prec) + 1) (2 * emax - 1)); [lia|].
      destruct (Z.eqb_spec (e - (3 - emax - prec) + 1) 0); [lia|].
      f_equal; [|lia]. replace (frac + (Zpos m - frac)) with (Zpos m) by lia. done.
Qed.

Lemma float_of_bits_bits (x : float) :
  valid_binary prec emax x = true -> float_of_bits prec emax (float_bits prec emax x) = x.
Proof.
  intros Hv. destruct (float_bits_fields x Hv) as (s & E & F & -> & HE & HF & Hx).
  destruct (float_fields (2 ^ (prec - 1)) (2 * emax) E F s) as (H1 & H2 & H3 & _);
    [apply pow2_pos; lia|lia|done|done|].
  unfold float_of_bits. by rewrite H1, H2, H3.
Qed.

Lemma float_bits_range (x : float) :
  valid_binary prec emax x = true -> 0 <= float_bits prec emax x < 2 * (2 ^ (prec - 1) * (2 * emax)).
Proof.
  intros Hv. destruct (float_bits_fields x Hv) as (s & E & F & -> & HE & HF & Hx).
  by apply float_fields; [apply pow2_pos; lia|lia|..].
Qed.
End representation.
