(* ===== verification/IeeeRound.v ===== *)
(** Rounding is monotone: what the exactly rounded operations of [Ieee]
    guarantee about real values.

    [round_faithful] says that rounding an exact magnitude never crosses a
    representable number; [d_sub_le], [d_sub_ge] and the like transfer this to
    the arithmetic operations: if the exact result is at most (at least) a
    representable number, so is the computed one. *)
From S2P Require Import Prelude Ieee.
#[local] Open Scope Z_scope.

(** ** Shifting with a round and a sticky bit *)

(** [mrs] is [X] shifted right by [n] bits; its two bits are clear exactly when
    nothing was lost. *)
Definition shr_of (mrs : shr_record) (X n : Z) : Prop :=
  shr_m mrs = X / 2 ^ n /\ (shr_r mrs || shr_s mrs = false <-> X mod 2 ^ n = 0).

Lemma shr_of_start X : shr_of (shr_record_of_loc X loc_Exact) X 0.
Proof. split; simpl; [by rewrite Z.div_1_r|]. by rewrite Z.mod_1_r. Qed.

Lemma div_mod_2 k r : 0 <= r < 2 -> (2 * k + r) / 2 = k /\ (2 * k + r) mod 2 = r.
Proof.
  intros Hr. rewrite Z.mul_comm, Z.div_add_l, Z.div_small, Z.add_0_r by lia.
  rewrite Z.add_comm, Z.mod_add, Z.mod_small by lia. done.
Qed.

Lemma shr_1_of mrs X n :
  0 <= X -> 0 <= n -> shr_of mrs X n -> shr_of (shr_1 mrs) X (n + 1).
Proof.
  intros HX Hn [Hm Hrs]. pose proof (pow2_pos n Hn) as Hp.
  assert (X / 2 ^ (n + 1) = shr_m mrs / 2) as Hd.
  { rewrite pow2_succ, Hm, Z.mul_comm by done. by rewrite Z.div_div by lia. }
  assert (X mod 2 ^ (n + 1) = X mod 2 ^ n + 2 ^ n * (shr_m mrs mod 2)) as Hmod.
  { rewrite pow2_succ, Z.mul_comm, Z.rem_mul_r, Hm by lia. done. }
  pose proof (Z.mod_pos_bound X (2 ^ n) Hp) as Hb.
  assert (0 <= shr_m mrs) by (rewrite Hm; by apply Z.div_pos).
  unfold shr_of. rewrite Hd, Hmod.
  assert (shr_m (shr_1 mrs) = shr_m mrs / 2 /\
          (shr_r (shr_1 mrs) = false <-> shr_m mrs mod 2 = 0) /\
          shr_s (shr_1 mrs) = shr_r mrs || shr_s mrs) as (-> & Hr & ->).
  { destruct mrs as [m r s]; simpl in *. destruct m as [|p|p]; [done| |lia].
    destruct p as [p|p|]; cbn [shr_m shr_r shr_s shr_1]; [| |done].
    - destruct (div_mod_2 (Zpos p) 1 ltac:(lia)) as [Hq Hr].
      rewrite <- Pos2Z.inj_xI in Hq, Hr. by rewrite Hq, Hr.
    - destruct (div_mod_2 (Zpos p) 0 ltac:(lia)) as [Hq Hr].
      rewrite Z.add_0_r, <- Pos2Z.inj_xO in Hq, Hr. by rewrite Hq, Hr. }
  split; [done|]. rewrite orb_false_iff, Hr, Hrs.
  pose proof (Z.mod_pos_bound (shr_m mrs) 2 ltac:(lia)). nia.
Qed.

Lemma shr_iter_of (p : positive) mrs X n :
  0 <= X -> 0 <= n -> shr_of mrs X n -> shr_of (iter_pos shr_1 p mrs) X (n + Zpos p).
Proof.
  intros HX. revert mrs n. induction p as [p IH|p IH|]; intros mrs n Hn H; cbn [iter_pos].
  - replace (n + Zpos p~1) with ((n + 1) + Zpos p + Zpos p) by lia.
    apply IH; [lia|]. apply IH; [lia|]. by apply shr_1_of.
  - replace (n + Zpos p~0) with (n + Zpos p + Zpos p) by lia.
    apply IH; [lia|]. by apply IH.
  - by apply shr_1_of.
Qed.

Lemma shr_of_shr X e n :
  0 <= X -> 0 <= n ->
  shr_of (shr (shr_record_of_loc X loc_Exact) e n).1 X n /\
  (shr (shr_record_of_loc X loc_Exact) e n).2 = e + n.
Proof.
  intros HX Hn. destruct n as [|p|p]; [| |lia]; cbn [shr fst snd].
  - split; [apply shr_of_start|lia].
  - split; [|done]. apply (shr_iter_of p _ X 0); [done..|]. apply shr_of_start.
Qed.

(** Rounding to an integer stays between the integers around the exact value. *)
Definition faithful (N X n : Z) : Prop :=
  forall y, (y * 2 ^ n <= X -> y <= N) /\ (X <= y * 2 ^ n -> N <= y).

Lemma round_faithful mrs X n :
  0 <= X -> 0 <= n -> shr_of mrs X n ->
  faithful (round_nearest_even (shr_m mrs) (loc_of_shr_record mrs)) X n.
Proof.
  intros HX Hn [Hm Hrs] y. pose proof (pow2_pos n Hn) as Hp.
  pose proof (Z.div_mod X (2 ^ n) ltac:(lia)) as Hdm.
  pose proof (Z.mod_pos_bound X (2 ^ n) Hp).
  set (N := round_nearest_even _ _).
  assert (shr_m mrs <= N <= shr_m mrs + 1 /\ (X mod 2 ^ n = 0 -> N = shr_m mrs)) as [HN Hex].
  { subst N. destruct mrs as [m [] []]; simpl in *; try lia; try (destruct (Z.even m));
      split; try lia; intros H0; apply Hrs in H0; done. }
  rewrite Hm in *. split; intros Hy; [nia|].
  destruct (Z.eq_dec (X mod 2 ^ n) 0) as [H0|H0]; [|nia].
  rewrite (Hex H0). nia.
Qed.

(** ** Rounding to a format *)

Section rounding.
Context (prec emax : Z) (Hprec : 1 < prec < emax).
Abbreviation emin := (emin prec emax).
Abbreviation fexp := (fexp prec emax).
Abbreviation fval := (fval prec emax).
Abbreviation canon := (canon prec emax).

(** [r] is [N * 2 ^ fe] with sign [s], or an infinity when that is too big. *)
Definition encodes (s : bool) (N fe : Z) (r : float) : Prop :=
  (valid_finite prec emax r /\ fval r = cond_Zopp s (N * 2 ^ (fe - emin))) \/
  (r = S754_infinity s /\ 2 ^ prec * 2 ^ (emax - prec - emin) <= N * 2 ^ (fe - emin)).

Lemma emin_le_max : emin <= emax - prec.
Proof. unfold SpecFloat.emin. lia. Qed.

(** A number no greater than [2 ^ prec] units of a legal exponent. *)
Lemma second_shift_encodes s N fe :
  0 <= N <= 2 ^ prec -> emin <= fe -> (fe = emin \/ 2 ^ (prec - 1) <= N) ->
  encodes s N fe
    (let '(mrs'', e'') := shr_fexp prec emax N fe loc_Exact in
     match shr_m mrs'' with
     | Z0 => S754_zero s
     | Zpos m => if Z.leb e'' (emax - prec) then S754_finite s m e'' else S754_infinity s
     | _ => S754_nan
     end).
Proof.
  intros HN Hfe Hcan. pose proof (pow2_pos (fe - emin) ltac:(lia)) as Hpf.
  pose proof emin_le_max as Hem.
  assert (forall (m : positive) e,
    emin <= e -> Zpos m * 2 ^ (e - emin) = N * 2 ^ (fe - emin) ->
    (e <= emax - prec -> canon (Zpos m) e) -> (emax - prec < e -> 2 ^ (prec - 1) <= Zpos m) ->
    encodes s N fe (if Z.leb e (emax - prec) then S754_finite s m e else S754_infinity s))
    as Hfin.
  { intros m e He Hv Hc Hbig. unfold encodes. rewrite <- Hv.
    destruct (Z.leb_spec e (emax - prec)) as [Hle|Hgt].
    - left. split; [|done]. split; [done|]. by apply bounded_canon, Hc.
    - right. split; [done|]. specialize (Hbig Hgt).
      assert (2 ^ prec * 2 ^ (emax - prec - emin) <= 2 ^ (prec - 1) * 2 ^ (e - emin)).
      { rewrite <- !Z.pow_add_r by lia. apply Z.pow_le_mono_r; lia. }
      pose proof (pow2_pos (e - emin) ltac:(lia)). nia. }
  assert (2 ^ prec = 2 * 2 ^ (prec - 1)) as H2.
  { rewrite <- pow2_succ by lia. f_equal; lia. }
  unfold shr_fexp. destruct N as [|p|p]; [| |lia].
  - (* zero *)
    assert (encodes s 0 fe (S754_zero s)) as Hz by (left; split; [done|by destruct s]).
    destruct (fexp (Zdigits2 0 + fe) - fe) eqn:Hn; [done| |done].
    unfold SpecFloat.fexp in Hn. cbn [Zdigits2] in Hn. lia.
  - cbn [Zdigits2]. destruct (decide (Zpos p = 2 ^ prec)) as [Heq|Hne].
    + (* a carry: one more shift *)
      assert (Zpos (digits2_pos p) = prec + 1) as Hd.
      { apply digits2_unique; [lia|]. rewrite Heq, pow2_succ by lia.
        replace (prec + 1 - 1) with prec by lia. lia. }
      replace (fexp (Zpos (digits2_pos p) + fe) - fe) with 1
        by (unfold SpecFloat.fexp; lia).
      destruct (shr_of_shr (Zpos p) fe 1 ltac:(lia) ltac:(lia)) as [[Hm _] He].
      destruct (shr (shr_record_of_loc (Zpos p) loc_Exact) fe 1) as [mrs e]; simpl in *.
      subst e. assert (shr_m mrs = 2 ^ (prec - 1)) as ->.
      { rewrite Hm, Heq, H2, Z.mul_comm. by apply Z.div_mul. }
      pose proof (pow2_pos (prec - 1) ltac:(lia)).
      destruct (2 ^ (prec - 1)) as [|m|] eqn:Hm'; [lia| |lia].
      apply Hfin; try lia.
      * replace (fe + 1 - emin) with (fe - emin + 1) by lia. rewrite pow2_succ by lia. lia.
      * intros. split; [lia|]. split; [lia|]. right; lia.
    + assert (Zpos (digits2_pos p) <= prec) as Hd.
      { pose proof (digits2_pos_bounds p).
        assert (Zpos (digits2_pos p) - 1 < prec) by (apply pow2_le_inv; lia). lia. }
      assert (shr (shr_record_of_loc (Zpos p) loc_Exact) fe (fexp (Zpos (digits2_pos p) + fe) - fe)
              = (shr_record_of_loc (Zpos p) loc_Exact, fe)) as ->.
      { destruct (fexp (Zpos (digits2_pos p) + fe) - fe) eqn:Hn; [done| |done].
        unfold SpecFloat.fexp in Hn. lia. }
      cbn [shr_record_of_loc shr_m]. apply Hfin; try done; try lia.
      * intros. split; [lia|]. split; [lia|]. destruct Hcan; [by left|right; lia].
Qed.

Lemma fexp_cases (m : positive) e fe :
  fexp (Zpos (digits2_pos m) + e) = fe -> e <= fe ->
  emin <= fe /\ Zpos m <= 2 ^ prec * 2 ^ (fe - e) /\
  (fe = emin \/ 2 ^ (prec - 1) * 2 ^ (fe - e) <= Zpos m).
Proof.
  unfold SpecFloat.fexp. intros Hf He. pose proof (digits2_pos_bounds m) as Hd.
  set (d := Zpos (digits2_pos m)) in *. split; [lia|]. split.
  - rewrite <- Z.pow_add_r by lia. transitivity (2 ^ d); [lia|].
    apply Z.pow_le_mono_r; lia.
  - destruct (decide (fe = emin)); [by left|right].
    rewrite <- Z.pow_add_r by lia. replace (prec - 1 + (fe - e)) with (d - 1) by lia. lia.
Qed.

(** Rounding [m * 2 ^ e]: the result is a faithful rounding in units of the
    exponent the format gives to a number of that size. *)
Lemma binary_round_aux_faithful s (m : positive) e :
  let fe := fexp (Zpos (digits2_pos m) + e) in
  e <= fe ->
  exists N, faithful N (Zpos m) (fe - e) /\ (fe = emin \/ 2 ^ (prec - 1) <= N) /\
    encodes s N fe (binary_round_aux prec emax s (Zpos m) e loc_Exact).
Proof.
  intros fe He. destruct (fexp_cases m e fe eq_refl He) as (Hmin & Hup & Hlow).
  unfold binary_round_aux, shr_fexp. cbn [Zdigits2]. fold fe.
  destruct (shr_of_shr (Zpos m) e (fe - e) ltac:(lia) ltac:(lia)) as [Hsh He'].
  destruct (shr (shr_record_of_loc (Zpos m) loc_Exact) e (fe - e)) as [mrs e'].
  simpl in Hsh, He'. replace e' with fe by lia. clear e' He'.
  pose proof (round_faithful mrs (Zpos m) (fe - e) ltac:(lia) ltac:(lia) Hsh) as HN.
  set (N := round_nearest_even (shr_m mrs) (loc_of_shr_record mrs)) in *.
  exists N. split; [done|].
  assert (0 <= N) by (apply (HN 0); lia).
  assert (N <= 2 ^ prec) by (apply (HN (2 ^ prec)); lia).
  assert (fe = emin \/ 2 ^ (prec - 1) <= N) as Hc.
  { destruct Hlow as [->|Hlow]; [by left|right]. by apply HN. }
  split; [done|]. by apply (second_shift_encodes s N fe).
Qed.

(** A faithful rounding does not cross the representable value [my * 2 ^ ey];
    [K] is any exponent offset that makes all the values integers. *)
Lemma faithful_no_cross N (m : positive) e my ey K :
  let fe := fexp (Zpos (digits2_pos m) + e) in
  e <= fe -> faithful N (Zpos m) (fe - e) -> (fe = emin \/ 2 ^ (prec - 1) <= N) ->
  canon my ey -> 0 <= e + K -> 0 <= emin + K ->
  (my * 2 ^ (ey + K) <= Zpos m * 2 ^ (e + K) -> my * 2 ^ (ey - emin) <= N * 2 ^ (fe - emin)) /\
  (Zpos m * 2 ^ (e + K) <= my * 2 ^ (ey + K) -> N * 2 ^ (fe - emin) <= my * 2 ^ (ey - emin)).
Proof.
  intros fe He HN Hc (Hey & Hmy & _) HeK HmK.
  destruct (fexp_cases m e fe eq_refl He) as (Hmin & Hup & Hlow).
  pose proof (pow2_pos (fe - emin) ltac:(lia)) as Hpf.
  pose proof (pow2_pos (e + K) ltac:(lia)) as HpK.
  destruct (decide (fe <= ey)) as [Hle|Hgt].
  - assert (2 ^ (ey - emin) = 2 ^ (ey - fe) * 2 ^ (fe - emin)) as ->.
    { rewrite <- Z.pow_add_r by lia. f_equal; lia. }
    assert (2 ^ (ey + K) = 2 ^ (ey - fe) * 2 ^ (fe - e) * 2 ^ (e + K)) as ->.
    { rewrite <- !Z.pow_add_r by lia. f_equal; lia. }
    rewrite !Z.mul_assoc. destruct (HN (my * 2 ^ (ey - fe))) as [HN1 HN2].
    split; intros Hv; apply Z.mul_le_mono_pos_r in Hv; try done;
      apply Z.mul_le_mono_pos_r; auto.
  - assert (fe <> emin) as Hne by lia.
    assert (2 ^ prec * 2 ^ (ey - emin) <= 2 ^ (prec - 1) * 2 ^ (fe - emin)) as H1.
    { rewrite <- !Z.pow_add_r by lia. apply Z.pow_le_mono_r; lia. }
    assert (2 ^ prec * 2 ^ (ey + K) <= 2 ^ (prec - 1) * 2 ^ (fe - e) * 2 ^ (e + K)) as H2.
    { rewrite <- !Z.pow_add_r by lia. apply Z.pow_le_mono_r; lia. }
    pose proof (pow2_pos (ey - emin) ltac:(lia)). pose proof (pow2_pos (ey + K) ltac:(lia)).
    destruct Hc as [|Hc]; [done|]. destruct Hlow as [|Hlow]; [done|].
    split; intros Hv; [|exfalso]; nia.
Qed.

Lemma fval_bound z :
  valid_finite prec emax z -> fval z < 2 ^ prec * 2 ^ (emax - prec - emin).
Proof.
  intros [Hf Hv]. pose proof emin_le_max.
  pose proof (pow2_pos prec ltac:(lia)). pose proof (pow2_pos (emax - prec - emin) ltac:(lia)).
  destruct z as [| | |s m e]; try done; [simpl; lia|].
  cbn [valid_binary] in Hv. rewrite bounded_canon in Hv by done.
  destruct Hv as (He & Hm & _). cbn [Ieee.fval].
  pose proof (pow2_pos (e - emin) ltac:(lia)).
  assert (2 ^ (e - emin) <= 2 ^ (emax - prec - emin)) by (apply Z.pow_le_mono_r; lia).
  destruct s; cbn [cond_Zopp]; nia.
Qed.

Lemma SFopp_valid z : valid_finite prec emax z -> valid_finite prec emax (SFopp z).
Proof. by destruct z. Qed.

Lemma fval_opp z : fval (SFopp z) = - fval z.
Proof. destruct z as [| | |s m e]; try done. destruct s; cbn; lia. Qed.

Lemma no_cross_fval N (m : positive) e z K :
  let fe := fexp (Zpos (digits2_pos m) + e) in
  e <= fe -> faithful N (Zpos m) (fe - e) -> (fe = emin \/ 2 ^ (prec - 1) <= N) ->
  valid_finite prec emax z -> 0 <= e + K -> 0 <= emin + K ->
  (fval z * 2 ^ (emin + K) <= Zpos m * 2 ^ (e + K) -> fval z <= N * 2 ^ (fe - emin)) /\
  (Zpos m * 2 ^ (e + K) <= fval z * 2 ^ (emin + K) -> N * 2 ^ (fe - emin) <= fval z).
Proof.
  intros fe He HN Hc [Hf Hv] HeK HmK.
  destruct (fexp_cases m e fe eq_refl He) as (Hmin & _ & _).
  pose proof (pow2_pos (fe - emin) ltac:(lia)). pose proof (pow2_pos (e + K) ltac:(lia)).
  pose proof (pow2_pos (emin + K) ltac:(lia)).
  assert (0 <= N) by (apply (HN 0); lia).
  assert (fval z <= 0 -> (fval z * 2 ^ (emin + K) <= Zpos m * 2 ^ (e + K) ->
    fval z <= N * 2 ^ (fe - emin)) /\
    (Zpos m * 2 ^ (e + K) <= fval z * 2 ^ (emin + K) -> N * 2 ^ (fe - emin) <= fval z))
    as Hneg by (split; [|intros; exfalso]; nia).
  destruct z as [s| | |[] mz ez]; try done; [by apply Hneg| |].
  - apply Hneg. cbn [Ieee.fval cond_Zopp]. cbn [valid_binary] in Hv.
    rewrite bounded_canon in Hv by done.
    pose proof (pow2_pos (ez - emin) ltac:(destruct Hv; lia)). nia.
  - cbn [valid_binary] in Hv. rewrite bounded_canon in Hv by done.
    destruct (faithful_no_cross N m e (Zpos mz) ez K He HN Hc Hv HeK HmK) as [H1' H2'].
    cbn [Ieee.fval cond_Zopp].
    replace (Zpos mz * 2 ^ (ez - emin) * 2 ^ (emin + K)) with (Zpos mz * 2 ^ (ez + K)); [by split|].
    rewrite <- Z.mul_assoc, <- Z.pow_add_r by (destruct Hv; lia). do 2 f_equal; lia.
Qed.

Lemma SFleb_inf_r z : valid_finite prec emax z -> SFleb z (S754_infinity false) = true.
Proof. intros [Hf _]. by destruct z. Qed.
Lemma SFleb_inf_l z : valid_finite prec emax z -> SFleb (S754_infinity true) z = true.
Proof. intros [Hf _]. by destruct z. Qed.

(** Exact magnitudes: the rounded number compares with representable numbers
    as the exact one does. *)
Lemma binary_round_aux_le s (m : positive) e z K :
  e <= fexp (Zpos (digits2_pos m) + e) ->
  valid_finite prec emax z -> 0 <= e + K -> 0 <= emin + K ->
  let r := binary_round_aux prec emax s (Zpos m) e loc_Exact in
  (cond_Zopp s (Zpos m) * 2 ^ (e + K) <= fval z * 2 ^ (emin + K) -> SFleb r z = true) /\
  (fval z * 2 ^ (emin + K) <= cond_Zopp s (Zpos m) * 2 ^ (e + K) -> SFleb z r = true).
Proof.
  intros He Hz HeK HmK r.
  destruct (binary_round_aux_faithful s m e He) as (N & HN & Hc & Henc). fold r in Henc.
  set (fe := fexp (Zpos (digits2_pos m) + e)) in *.
  pose proof (no_cross_fval N m e z K He HN Hc Hz HeK HmK) as [Hz1 Hz2].
  pose proof (no_cross_fval N m e (SFopp z) K He HN Hc (SFopp_valid _ Hz) HeK HmK) as [Ho1 Ho2].
  rewrite fval_opp, !Z.mul_opp_l in Ho1, Ho2.
  pose proof (fval_bound z Hz). pose proof (fval_bound _ (SFopp_valid _ Hz)) as Hob.
  rewrite fval_opp in Hob. fold fe in Hz1, Hz2, Ho1, Ho2.
  destruct Henc as [[Hr Hrv]|[-> Hbig]].
  - rewrite !(SFleb_fval prec emax Hprec), Hrv, !Z.leb_le by done.
    destruct s; cbn [cond_Zopp] in *; lia.
  - destruct s; cbn [cond_Zopp] in *; split; intros Hv;
      first [by apply SFleb_inf_l | by apply SFleb_inf_r | exfalso; lia].
Qed.

Lemma iter_xO (m d : positive) : Zpos (Pos.iter xO m d) = Zpos m * 2 ^ Zpos d.
Proof.
  induction d as [|d IH] using Pos.peano_ind; [simpl; lia|].
  rewrite Pos.iter_succ, Pos2Z.inj_xO, IH, Pos2Z.inj_succ, Z.pow_succ_r by lia. lia.
Qed.

Lemma digits2_shift (m m' : positive) (d : Z) :
  0 <= d -> Zpos m' = Zpos m * 2 ^ d -> Zpos (digits2_pos m') = Zpos (digits2_pos m) + d.
Proof.
  intros Hd Hm. pose proof (digits2_pos_bounds m) as Hb. pose proof (pow2_pos d Hd).
  apply digits2_unique; [lia|].
  replace (Zpos (digits2_pos m) + d - 1) with (Zpos (digits2_pos m) - 1 + d) by lia.
  rewrite !Z.pow_add_r, Hm by lia. nia.
Qed.

(** [binary_round] aligns, then rounds the same value. *)
Lemma binary_round_aligned s (m : positive) e :
  exists m' e', binary_round prec emax s m e = binary_round_aux prec emax s (Zpos m') e' loc_Exact /\
    e' <= e /\ Zpos m' = Zpos m * 2 ^ (e - e') /\
    e' <= fexp (Zpos (digits2_pos m') + e') /\ (e' = e \/ emin <= e').
Proof.
  unfold binary_round, shl_align. set (fe := fexp (Zpos (digits2_pos m) + e)).
  destruct (fe - e) as [|d|d] eqn:Hd.
  1,2: exists m, e; split; [done|]; rewrite Z.sub_diag, Z.mul_1_r; subst fe;
       (split; [lia|]); (split; [done|]); (split; [lia|by left]).
  exists (Pos.iter xO m d), fe. split; [done|]. rewrite iter_xO.
  replace (Zpos d) with (e - fe) by lia. split; [lia|]. split; [done|].
  rewrite (digits2_shift m _ (e - fe)) by (lia || by rewrite iter_xO; do 2 f_equal; lia).
  split; [|right; subst fe; unfold SpecFloat.fexp; lia].
  replace (Zpos (digits2_pos m) + (e - fe) + fe) with (Zpos (digits2_pos m) + e) by lia. done.
Qed.

Lemma binary_round_le s (m : positive) e z K :
  valid_finite prec emax z -> 0 <= e + K -> 0 <= emin + K ->
  let r := binary_round prec emax s m e in
  (cond_Zopp s (Zpos m) * 2 ^ (e + K) <= fval z * 2 ^ (emin + K) -> SFleb r z = true) /\
  (fval z * 2 ^ (emin + K) <= cond_Zopp s (Zpos m) * 2 ^ (e + K) -> SFleb z r = true).
Proof.
  intros Hz HeK HmK r. subst r.
  destruct (binary_round_aligned s m e) as (m' & e' & -> & He & Hm & Hfe & Hmin).
  replace (cond_Zopp s (Zpos m) * 2 ^ (e + K)) with (cond_Zopp s (Zpos m') * 2 ^ (e' + K)).
  { apply binary_round_aux_le; [done..|lia|done]. }
  rewrite Hm. replace (e + K) with ((e - e') + (e' + K)) by lia.
  rewrite (Z.pow_add_r 2 (e - e')) by lia. destruct s; cbn [cond_Zopp]; lia.
Qed.

Lemma binary_normalize_le (v : Z) e sz z K :
  valid_finite prec emax z -> 0 <= e + K -> 0 <= emin + K ->
  let r := binary_normalize prec emax v e sz in
  (v * 2 ^ (e + K) <= fval z * 2 ^ (emin + K) -> SFleb r z = true) /\
  (fval z * 2 ^ (emin + K) <= v * 2 ^ (e + K) -> SFleb z r = true).
Proof.
  intros Hz HeK HmK. destruct v as [|m|m]; cbn [binary_normalize].
  - rewrite !(SFleb_fval prec emax Hprec), !Z.leb_le by done.
    pose proof (pow2_pos (emin + K) ltac:(lia)). cbn [Ieee.fval]. split; nia.
  - apply (binary_round_le false m e z K); done.
  - apply (binary_round_le true m e z K); done.
Qed.

(** Results of rounding are valid numbers. *)
Lemma encodes_valid s N fe r : encodes s N fe r -> valid_binary prec emax r = true.
Proof. by intros [[[_ Hv] _]|[-> _]]. Qed.

Lemma binary_normalize_valid v e sz : valid_binary prec emax (binary_normalize prec emax v e sz) = true.
Proof.
  destruct v as [|m|m]; cbn [binary_normalize]; [done| |].
  all: match goal with |- context [binary_round _ _ ?s _ _] =>
    destruct (binary_round_aligned s m e) as (m' & e' & -> & _ & _ & Hfe & _);
    destruct (binary_round_aux_faithful s m' e' Hfe) as (N & _ & _ & Henc) end;
    by eapply encodes_valid.
Qed.

Lemma emin_neg : emin < 0.
Proof. unfold SpecFloat.emin. lia. Qed.

Lemma shl_align_fst (m : positive) e e' :
  e' <= e -> Zpos (shl_align m e e').1 = Zpos m * 2 ^ (e - e').
Proof.
  intros He. unfold shl_align. destruct (e' - e) as [|d|d] eqn:Hd; [|lia|].
  - replace (e - e') with 0 by lia. cbn [fst]. lia.
  - cbn [fst]. rewrite iter_xO. do 2 f_equal; lia.
Qed.

Lemma aligned_fval s (m : positive) e ez :
  emin <= ez <= e ->
  cond_Zopp s (Zpos (shl_align m e ez).1) * 2 ^ (ez - emin) = fval (S754_finite s m e).
Proof.
  intros He. rewrite shl_align_fst by lia. cbn [Ieee.fval].
  replace (e - emin) with ((e - ez) + (ez - emin)) by lia.
  rewrite (Z.pow_add_r 2 (e - ez)) by lia. destruct s; cbn [cond_Zopp]; lia.
Qed.

Lemma valid_exp s m e : valid_finite prec emax (S754_finite s m e) -> emin <= e.
Proof. intros [_ Hv]. cbn in Hv. rewrite bounded_canon in Hv by done. destruct Hv; lia. Qed.

(** The order of a number's neighbours is decided by its exact value [v]. *)
Definition rounds_to (v : Z) (r : float) : Prop :=
  forall z, valid_finite prec emax z ->
    (v <= fval z -> SFleb r z = true) /\ (fval z <= v -> SFleb z r = true).

Lemma rounds_to_valid r : valid_finite prec emax r -> rounds_to (fval r) r.
Proof. intros Hr z Hz. rewrite !(SFleb_fval prec emax Hprec), !Z.leb_le by done. done. Qed.

Lemma rounds_to_normalize v e sz :
  emin <= e -> rounds_to (v * 2 ^ (e - emin)) (binary_normalize prec emax v e sz).
Proof.
  intros He z Hz. pose proof (binary_normalize_le v e sz z (- emin) Hz ltac:(lia) ltac:(lia)) as H.
  rewrite Z.add_opp_diag_r, Z.mul_1_r in H. exact H.
Qed.

Lemma SFadd_rounds x y :
  valid_finite prec emax x -> valid_finite prec emax y ->
  rounds_to (fval x + fval y) (SFadd prec emax x y).
Proof.
  intros Hx Hy.
  assert (rounds_to 0 (S754_zero false) /\ rounds_to 0 (S754_zero true)) as [Hz1 Hz2]
    by (split; by apply (rounds_to_valid (S754_zero _))).
  destruct x as [sx| | |sx mx ex]; try by destruct Hx.
  - destruct y as [sy| | |sy my ey]; try by destruct Hy.
    + by destruct sx, sy.
    + by apply rounds_to_valid.
  - destruct y as [sy| | |sy my ey]; try by destruct Hy.
    + cbn [SFadd]. rewrite Z.add_0_r. by apply rounds_to_valid.
    + cbn [SFadd]. pose proof (valid_exp _ _ _ Hx). pose proof (valid_exp _ _ _ Hy).
      rewrite <- (aligned_fval sx mx ex (Z.min ex ey)), <- (aligned_fval sy my ey (Z.min ex ey)) by lia.
      rewrite <- Z.mul_add_distr_r. apply rounds_to_normalize. lia.
Qed.

Lemma SFsub_opp x y :
  valid_finite prec emax x -> valid_finite prec emax y ->
  SFsub prec emax x y = SFadd prec emax x (SFopp y).
Proof.
  intros [Hx _] [Hy _]. destruct x as [[]| | |sx mx ex], y as [[]| | |sy my ey]; try done.
  cbn [SFsub SFadd SFopp]. f_equal. destruct sy; cbn [negb cond_Zopp]; lia.
Qed.

Lemma SFsub_rounds x y :
  valid_finite prec emax x -> valid_finite prec emax y ->
  rounds_to (fval x - fval y) (SFsub prec emax x y).
Proof.
  intros Hx Hy. rewrite SFsub_opp by done. rewrite <- Z.add_opp_r, <- fval_opp.
  apply SFadd_rounds; [done|]. by apply SFopp_valid.
Qed.

Lemma SFsub_valid x y :
  valid_finite prec emax x -> valid_finite prec emax y ->
  valid_binary prec emax (SFsub prec emax x y) = true.
Proof.
  intros Hx Hy. destruct Hx as [Fx Vx], Hy as [Fy Vy].
  destruct x as [[]| | |sx mx ex], y as [[]| | |sy my ey]; try done.
  apply binary_normalize_valid.
Qed.

(** Rounding keeps a value between representable bounds. *)
Lemma rounds_to_between v r lo hi :
  rounds_to v r -> valid_binary prec emax r = true ->
  valid_finite prec emax lo -> valid_finite prec emax hi -> fval lo <= v <= fval hi ->
  valid_finite prec emax r /\ fval lo <= fval r <= fval hi.
Proof.
  intros Hr Vr Hlo Hhi [Hv1 Hv2].
  pose proof (proj2 (Hr lo Hlo) Hv1) as H1. pose proof (proj1 (Hr hi Hhi) Hv2) as H2.
  assert (isfinite r = true) as Fr.
  { destruct r as [|[]| |]; [done| | | |done]; destruct Hlo as [Fl _], Hhi as [Fh _];
      by destruct lo, hi. }
  rewrite (SFleb_fval prec emax Hprec) in H1, H2 by done. apply Z.leb_le in H1, H2. done.
Qed.

Lemma of_Z_rounds v : rounds_to (v * 2 ^ (- emin)) (binary_normalize prec emax v 0 false).
Proof.
  pose proof emin_neg. pose proof (rounds_to_normalize v 0 false ltac:(lia)) as H'.
  by rewrite Z.sub_0_l in H'.
Qed.

(** The exact product is in units of [2 ^ (2 * emin)]. *)
Definition mul_rounds_to (x y r : float) : Prop :=
  forall z, valid_finite prec emax z ->
    (fval x * fval y <= fval z * 2 ^ (- emin) -> SFleb r z = true) /\
    (fval z * 2 ^ (- emin) <= fval x * fval y -> SFleb z r = true).

Lemma mul_exponent mx ex my ey :
  canon (Zpos mx) ex -> canon (Zpos my) ey ->
  ex + ey <= fexp (Zpos (digits2_pos (mx * my)) + (ex + ey)).
Proof.
  intros (He1 & Hm1 & Hc1) (He2 & Hm2 & Hc2). unfold SpecFloat.fexp. pose proof emin_neg.
  pose proof (digits2_pos_bounds (mx * my)) as Hd. set (d := Zpos (digits2_pos (mx * my))) in *.
  rewrite Pos2Z.inj_mul in Hd.
  destruct Hc1 as [->|Hc1]; [destruct Hc2 as [->|Hc2]; [lia|]|].
  - assert (prec - 1 < d); [|lia]. apply pow2_le_inv; [lia|lia|]. nia.
  - assert (prec - 1 < d); [|lia]. apply pow2_le_inv; [lia|lia|]. nia.
Qed.

Lemma SFmul_rounds x y :
  valid_finite prec emax x -> valid_finite prec emax y ->
  mul_rounds_to x y (SFmul prec emax x y) /\ valid_binary prec emax (SFmul prec emax x y) = true.
Proof.
  intros [Fx Vx] [Fy Vy]. pose proof emin_neg.
  assert (forall s, mul_rounds_to x y (S754_zero s) \/ fval x * fval y <> 0) as Hz.
  { intros s. destruct (decide (fval x * fval y = 0)) as [Hxy|]; [left|by right].
    intros z Hz. rewrite Hxy.
    pose proof (rounds_to_valid (S754_zero s) (conj eq_refl eq_refl) z Hz) as [H1 H2].
    pose proof (pow2_pos (- emin) ltac:(lia)). cbn [Ieee.fval] in H1, H2.
    split; intros Hle; [apply H1|apply H2]; nia. }
  destruct x as [sx| | |sx mx ex], y as [sy| | |sy my ey]; try done; cbn [SFmul].
  1, 2, 3: split; [|done]; destruct (Hz (xorb sx sy)) as [|Hn]; [done|];
    exfalso; apply Hn; cbn [Ieee.fval]; lia.
  cbn [valid_binary] in Vx, Vy. rewrite bounded_canon in Vx, Vy by done.
  pose proof (mul_exponent mx ex my ey Vx Vy) as He.
  split.
  - intros z Hzv.
    pose proof (binary_round_aux_le (xorb sx sy) (mx * my) (ex + ey) z (- (2 * emin)) He Hzv
      ltac:(destruct Vx, Vy; lia) ltac:(lia)) as Hle.
    replace (emin + - (2 * emin)) with (- emin) in Hle by lia.
    assert (cond_Zopp (xorb sx sy) (Zpos (mx * my)) * 2 ^ (ex + ey + - (2 * emin)) =
      fval (S754_finite sx mx ex) * fval (S754_finite sy my ey)) as Hv.
    { cbn [Ieee.fval]. replace (ex + ey + - (2 * emin)) with ((ex - emin) + (ey - emin)) by lia.
      rewrite (Z.pow_add_r 2 (ex - emin)) by (destruct Vx, Vy; lia). rewrite Pos2Z.inj_mul.
      destruct sx, sy; cbn [xorb cond_Zopp]; lia. }
    rewrite Hv in Hle. exact Hle.
  - destruct (binary_round_aux_faithful (xorb sx sy) (mx * my) (ex + ey) He) as (N & _ & _ & Henc).
    by eapply encodes_valid.
Qed.

Lemma mul_rounds_to_between x y r lo hi :
  mul_rounds_to x y r -> valid_binary prec emax r = true ->
  valid_finite prec emax lo -> valid_finite prec emax hi ->
  fval lo * 2 ^ (- emin) <= fval x * fval y <= fval hi * 2 ^ (- emin) ->
  valid_finite prec emax r /\ fval lo <= fval r <= fval hi.
Proof.
  intros Hr Vr Hlo Hhi [Hv1 Hv2].
  pose proof (proj2 (Hr lo Hlo) Hv1) as H1. pose proof (proj1 (Hr hi Hhi) Hv2) as H2.
  assert (isfinite r = true) as Fr.
  { destruct r as [|[]| |]; [done| | | |done]; destruct Hlo as [Fl _], Hhi as [Fh _];
      by destruct lo, hi. }
  rewrite (SFleb_fval prec emax Hprec) in H1, H2 by done. apply Z.leb_le in H1, H2. done.
Qed.
End rounding.

(** ** Integers and products in binary64 *)

(** Validity of a number written out. *)
Ltac solve_valid := split; vm_compute; reflexivity.

Abbreviation dvalid := (valid_finite 53 1024).
Abbreviation dval := (fval 53 1024).

Lemma d_of_Z_between lo v hi :
  dvalid (d_of_Z lo) -> dvalid (d_of_Z hi) ->
  dval (d_of_Z lo) = lo * 2 ^ 1074 -> dval (d_of_Z hi) = hi * 2 ^ 1074 -> lo <= v <= hi ->
  dvalid (d_of_Z v) /\ dval (d_of_Z lo) <= dval (d_of_Z v) <= dval (d_of_Z hi).
Proof.
  intros Hlo Hhi Elo Ehi Hv.
  apply (rounds_to_between 53 1024 ltac:(lia) (v * 2 ^ 1074)); try done.
  - exact (of_Z_rounds 53 1024 ltac:(lia) v).
  - by apply binary_normalize_valid.
  - rewrite Elo, Ehi. pose proof (pow2_pos 1074 ltac:(lia)).
    split; apply Z.mul_le_mono_nonneg_r; lia.
Qed.

Lemma d_mul_between x y lo hi :
  dvalid x -> dvalid y -> dvalid lo -> dvalid hi ->
  dval lo * 2 ^ 1074 <= dval x * dval y <= dval hi * 2 ^ 1074 ->
  dvalid (d_mul x y) /\ dval lo <= dval (d_mul x y) <= dval hi.
Proof.
  intros Hx Hy Hlo Hhi Hv.
  destruct (SFmul_rounds 53 1024 ltac:(lia) x y Hx Hy) as [Hr Vr].
  by apply (mul_rounds_to_between 53 1024 ltac:(lia) x y).
Qed.
