(* ===== verification/PacketDefenses.v ===== *)
(** The packet-order defences of [packet_defenses.h]: decoding of the XT UDP
    sequence, the sequence tracker and the timestamp guard.

    The tracker's 32-bit sequence numbers are related to unbounded packet
    numbers, the guard's [double] comparisons to the exact values of the
    timestamps. *)
From S2P Require Import Prelude Ieee IeeeRound.
From stdpp Require Import sorting sets.
#[local] Open Scope Z_scope.

(** ** The code *)

Definition kXt16PacketSize : Z := 568.
Definition kXtmPacketSize : Z := 820.
Definition kXt32PacketSize : Z := 1080.
Definition kXtSequenceSize : Z := 4.
Definition kXtFactorySize : Z := 1.
Definition kTimestampRegressionToleranceSec : float := d_lit 1 10.
Definition kXtSequenceRestartIdleSec : float := d_of_Z 2.

Definition isSupportedXtPacketSize (size : Z) : bool :=
  (size =? kXt16PacketSize) || (size =? kXtmPacketSize) || (size =? kXt32PacketSize).

(** [data] and [sequence] are pointers: [None] is null; [*sequence] is passed
    and returned. *)
Definition decodeXtUdpSequence {E} (data : option (list Z)) (size : Z) (sequence : option Z)
    : outcome E (bool * option Z) :=
  match data, sequence with
  | Some data, Some _ =>
      if negb (isSupportedXtPacketSize size) then Ret (false, sequence)
      else
        let offset := u64 (size - kXtSequenceSize) in
        b0 ← arr_get data offset;
        b1 ← arr_get data (offset + 1);
        b2 ← arr_get data (offset + 2);
        b3 ← arr_get data (offset + 3);
        Ret (true, Some (Z.lor (Z.lor (Z.lor (u32 b0) (u32 (Z.shiftl (u32 b1) 8)))
                                 (u32 (Z.shiftl (u32 b2) 16)))
                           (u32 (Z.shiftl (u32 b3) 24))))
  | _, _ => Ret (false, sequence)
  end.

Inductive SequenceStatus :=
  | kFirst | kInOrder | kForwardGap | kDuplicate | kBackward | kRestartAfterIdle.

#[export] Instance SequenceStatus_eq_dec : EqDecision SequenceStatus.
Proof. solve_decision. Defined.

Record SequenceDecision := {
  sd_status : SequenceStatus;
  sd_previous : Z;
  sd_current : Z;
  sd_missing : Z;
}.

Definition sequence_accepted (d : SequenceDecision) : bool :=
  negb (bool_decide (sd_status d = kDuplicate)) && negb (bool_decide (sd_status d = kBackward)).

Record XtSequenceTracker := {
  restart_idle_sec_ : float;
  tracker_initialized_ : bool;
  last_sequence_ : Z;
  last_observed_timestamp_ : float;
}.

Definition tracker_new (restart_idle_sec : float) : XtSequenceTracker :=
  {| restart_idle_sec_ := restart_idle_sec; tracker_initialized_ := false;
     last_sequence_ := 0; last_observed_timestamp_ := S754_zero false |}.

(** The condition of the [restarted_after_idle] local of [observe]. *)
Definition restarted_after_idle (t : XtSequenceTracker) (receive_timestamp : float) : bool :=
  isfinite receive_timestamp && isfinite (last_observed_timestamp_ t) &&
  SFleb (restart_idle_sec_ t) (d_sub receive_timestamp (last_observed_timestamp_ t)).

Definition tracker_observe (sequence : Z) (receive_timestamp : float) (t : XtSequenceTracker)
    : SequenceDecision * XtSequenceTracker :=
  let with_last (last : Z) :=
    {| restart_idle_sec_ := restart_idle_sec_ t; tracker_initialized_ := true;
       last_sequence_ := last; last_observed_timestamp_ := receive_timestamp |} in
  if negb (tracker_initialized_ t) then
    ({| sd_status := kFirst; sd_previous := sequence; sd_current := sequence; sd_missing := 0 |},
     with_last sequence)
  else
    let previous := last_sequence_ t in
    if restarted_after_idle t receive_timestamp then
      ({| sd_status := kRestartAfterIdle; sd_previous := previous; sd_current := sequence;
          sd_missing := 0 |}, with_last sequence)
    else
      let delta := u32 (sequence - previous) in
      if delta =? 0 then
        ({| sd_status := kDuplicate; sd_previous := previous; sd_current := sequence;
            sd_missing := 0 |}, with_last previous)
      else if delta <? 0x80000000 then
        if delta =? 1 then
          ({| sd_status := kInOrder; sd_previous := previous; sd_current := sequence;
              sd_missing := 0 |}, with_last sequence)
        else
          ({| sd_status := kForwardGap; sd_previous := previous; sd_current := sequence;
              sd_missing := u32 (delta - 1) |}, with_last sequence)
      else
        ({| sd_status := kBackward; sd_previous := previous; sd_current := sequence;
            sd_missing := 0 |}, with_last previous).

Definition tracker_reset (t : XtSequenceTracker) : XtSequenceTracker :=
  {| restart_idle_sec_ := restart_idle_sec_ t; tracker_initialized_ := false;
     last_sequence_ := 0; last_observed_timestamp_ := S754_zero false |}.

Inductive TimestampStatus := tsFirst | tsAccepted | tsRegression | tsInvalid.

#[export] Instance TimestampStatus_eq_dec : EqDecision TimestampStatus.
Proof. solve_decision. Defined.

Record TimestampDecision := {
  td_status : TimestampStatus;
  td_previous : float;
  td_current : float;
  td_regression_sec : float;
}.

Definition timestamp_accepted (d : TimestampDecision) : bool :=
  bool_decide (td_status d = tsFirst) || bool_decide (td_status d = tsAccepted).

Record TimestampGuard := {
  tolerance_sec_ : float;
  guard_initialized_ : bool;
  last_timestamp_ : float;
}.

Definition guard_new (tolerance_sec : float) : TimestampGuard :=
  {| tolerance_sec_ := tolerance_sec; guard_initialized_ := false;
     last_timestamp_ := S754_zero false |}.

Definition guard_observe (timestamp : float) (g : TimestampGuard)
    : TimestampDecision * TimestampGuard :=
  if negb (isfinite timestamp) then
    ({| td_status := tsInvalid; td_previous := last_timestamp_ g; td_current := timestamp;
        td_regression_sec := S754_zero false |}, g)
  else if negb (guard_initialized_ g) then
    ({| td_status := tsFirst; td_previous := timestamp; td_current := timestamp;
        td_regression_sec := S754_zero false |},
     {| tolerance_sec_ := tolerance_sec_ g; guard_initialized_ := true;
        last_timestamp_ := timestamp |})
  else
    let previous := last_timestamp_ g in
    let regression := d_sub previous timestamp in
    if SFltb (tolerance_sec_ g) regression then
      ({| td_status := tsRegression; td_previous := previous; td_current := timestamp;
          td_regression_sec := regression |}, g)
    else
      let g' :=
        if SFltb (last_timestamp_ g) timestamp then
          {| tolerance_sec_ := tolerance_sec_ g; guard_initialized_ := guard_initialized_ g;
             last_timestamp_ := timestamp |}
        else g in
      ({| td_status := tsAccepted; td_previous := previous; td_current := timestamp;
          td_regression_sec :=
            if SFltb (S754_zero false) regression then regression else S754_zero false |}, g').

Definition guard_reset (g : TimestampGuard) : TimestampGuard :=
  {| tolerance_sec_ := tolerance_sec_ g; guard_initialized_ := false;
     last_timestamp_ := S754_zero false |}.

(** A history of observations. *)
Fixpoint tracker_run (obs : list (Z * float)) (t : XtSequenceTracker) : list SequenceDecision :=
  match obs with
  | [] => []
  | (sequence, ts) :: obs =>
      let '(d, t) := tracker_observe sequence ts t in d :: tracker_run obs t
  end.

Fixpoint guard_run (obs : list float) (g : TimestampGuard) : list TimestampDecision * TimestampGuard :=
  match obs with
  | [] => ([], g)
  | ts :: obs =>
      let '(d, g) := guard_observe ts g in
      let '(ds, g) := guard_run obs g in (d :: ds, g)
  end.

(** ** The UDP sequence *)

Lemma shiftl_u32 b k : is_byte b -> 0 <= k <= 24 -> u32 (Z.shiftl (u32 b) k) = Z.shiftl b k.
Proof.
  unfold is_byte. intros Hb Hk. rewrite (uwrap_small 32 b) by lia.
  apply uwrap_small. rewrite Z.shiftl_mul_pow2 by lia.
  pose proof (pow2_pos k ltac:(lia)).
  assert (2 ^ k <= 2 ^ 24) by (apply Z.pow_le_mono_r; lia). nia.
Qed.

Lemma supported_size_range size :
  isSupportedXtPacketSize size = true -> size = 568 \/ size = 820 \/ size = 1080.
Proof.
  unfold isSupportedXtPacketSize, kXt16PacketSize, kXtmPacketSize, kXt32PacketSize.
  rewrite !orb_true_iff, !Z.eqb_eq. tauto.
Qed.

(** The decoder reads the last four bytes of the packet, little-endian. *)
Lemma decode_sequence_value {E} data size old :
  Forall is_byte data -> size <= zlen data -> isSupportedXtPacketSize size = true ->
  decodeXtUdpSequence (E := E) (Some data) size (Some old) =
  Ret (true, Some (le_combine (take 4 (drop (Z.to_nat (size - 4)) data)))).
Proof.
  intros Hd Hlen Hsize. unfold decodeXtUdpSequence. rewrite Hsize. cbn [negb].
  apply supported_size_range in Hsize. unfold kXtSequenceSize.
  rewrite uwrap_small by lia. set (o := size - 4).
  assert (forall k, 0 <= k < 4 -> exists b, is_byte b /\ data !! Z.to_nat (o + k) = Some b /\
    arr_get (E := E) data (o + k) = Ret b) as Hget.
  { intros k Hk. destruct (arr_get_in (E := E) data (o + k)) as (b & Hb & Hg); [lia|].
    exists b. split; [|done]. by eapply Forall_lookup_1. }
  destruct (Hget 0) as (b0 & B0 & L0 & G0), (Hget 1) as (b1 & B1 & L1 & G1),
    (Hget 2) as (b2 & B2 & L2 & G2), (Hget 3) as (b3 & B3 & L3 & G3); try lia.
  rewrite Z.add_0_r in L0, G0. rewrite G0. simpl. rewrite G1. simpl. rewrite G2. simpl.
  rewrite G3. simpl. do 3 f_equal.
  rewrite (uwrap_small 32 b0) by (unfold is_byte in B0; lia).
  rewrite !shiftl_u32, le_combine_lor4 by (done || lia). f_equal.
  replace (Z.to_nat (o + 1)) with (S (Z.to_nat o)) in L1 by lia.
  replace (Z.to_nat (o + 2)) with (S (S (Z.to_nat o))) in L2 by lia.
  replace (Z.to_nat (o + 3)) with (S (S (S (Z.to_nat o)))) in L3 by lia.
  by rewrite (drop_S _ _ _ L0), (drop_S _ _ _ L1), (drop_S _ _ _ L2), (drop_S _ _ _ L3).
Qed.

(** For every supported packet size, the decoder returns the sequence
    number encoded little-endian in the last four bytes, whatever precedes it
    (the factory byte included); for another size or a null pointer it
    returns [false] and leaves [*sequence] alone. *)
Theorem decode_sequence_roundtrip {E} (prefix : list Z) (seq old : Z)
    (Hbytes : Forall is_byte prefix) (Hseq : 0 <= seq < 2 ^ 32) :
  let size := zlen prefix + 4 in
  decodeXtUdpSequence (E := E) (Some (prefix ++ le_split 4 seq)) size (Some old) =
    Ret (if isSupportedXtPacketSize size then (true, Some seq) else (false, Some old)) /\
  decodeXtUdpSequence (E := E) None size (Some old) = Ret (false, Some old) /\
  decodeXtUdpSequence (E := E) (Some (prefix ++ le_split 4 seq)) size None = Ret (false, None).
Proof.
  intros size. split_and!; [|done..].
  destruct (isSupportedXtPacketSize size) eqn:Hs.
  - rewrite decode_sequence_value.
    + subst size. replace (Z.to_nat (zlen prefix + 4 - 4)) with (length prefix) by lia.
      rewrite drop_app_length, take_ge by (rewrite length_le_split; lia).
      rewrite le_combine_split. rewrite Z.mod_small by (simpl; lia). done.
    + apply Forall_app; split; [done|apply le_split_bytes].
    + rewrite length_app, length_le_split. lia.
    + done.
  - unfold decodeXtUdpSequence. by rewrite Hs.
Qed.

Lemma decode_sequence_roundtrip_witness :
  decodeXtUdpSequence (E := Empty_set) (Some (replicate 564 165 ++ [0x12; 0x34; 0x56; 0x78]))
    568 (Some 0) = Ret (true, Some 0x78563412).
Proof.
  apply (decode_sequence_roundtrip (E := Empty_set) (replicate 564 165) 0x78563412 0).
  - by apply Forall_replicate.
  - split; done.
Defined.

(** ** The sequence tracker *)

(** The 32-bit differences the tracker computes decide the order of the
    unbounded packet numbers [N] (new) and [N0] (last accepted) when these are
    less than half the 32-bit range apart. *)
Definition number_status (N0 N : Z) : SequenceStatus :=
  if decide (N = N0) then kDuplicate
  else if decide (N < N0) then kBackward
  else if decide (N = N0 + 1) then kInOrder else kForwardGap.

Lemma tracker_observe_window t N0 N ts :
  tracker_initialized_ t = true -> last_sequence_ t = u32 N0 ->
  restarted_after_idle t ts = false -> - 2 ^ 31 <= N - N0 < 2 ^ 31 ->
  let '(d, t') := tracker_observe (u32 N) ts t in
  sd_status d = number_status N0 N /\
  sd_missing d = Z.max 0 (N - N0 - 1) /\
  sd_previous d = u32 N0 /\ sd_current d = u32 N /\
  tracker_initialized_ t' = true /\ last_sequence_ t' = u32 (Z.max N0 N).
Proof.
  intros Hinit Hlast Hidle HN. unfold tracker_observe, number_status.
  rewrite Hinit, Hidle, Hlast. cbn [negb].
  assert (u32 (u32 N - u32 N0) = (N - N0) mod 2 ^ 32) as ->.
  { unfold uwrap. by rewrite <- Zminus_mod. }
  destruct (decide (N = N0)) as [->|Hne].
  { rewrite Z.sub_diag. simpl. split_and!; try done; try lia; f_equal; lia. }
  destruct (decide (N < N0)) as [Hlt|Hge].
  - assert ((N - N0) mod 2 ^ 32 = N - N0 + 2 ^ 32) as ->.
    { rewrite <- (Z.mod_add _ 1), Z.mod_small by lia. lia. }
    destruct (Z.eqb_spec (N - N0 + 2 ^ 32) 0), (Z.ltb_spec (N - N0 + 2 ^ 32) 0x80000000); try lia.
    simpl. split_and!; try done; try lia; f_equal; lia.
  - rewrite Z.mod_small by lia.
    destruct (Z.eqb_spec (N - N0) 0), (Z.ltb_spec (N - N0) 0x80000000); try lia.
    destruct (Z.eqb_spec (N - N0) 1), (decide (N = N0 + 1)); try lia; simpl;
      split_and!; try done; try (f_equal; lia); try lia.
    rewrite uwrap_small by lia. lia.
Qed.

(** The packet numbers the tracker lets through. *)
Definition accepted_numbers (obs : list (Z * float)) (ds : list SequenceDecision) : list Z :=
  omap (fun '(o, d) => if sequence_accepted d then Some o.1 else None) (zip obs ds).

Definition total_missing (ds : list SequenceDecision) : Z :=
  foldr Z.add 0 (sd_missing <$> ds).

(** The tracker's input: the low 32 bits of the packet numbers. *)
Definition as_sequences (obs : list (Z * float)) : list (Z * float) :=
  (fun '(N, ts) => (u32 N, ts)) <$> obs.

Definition no_restart (ds : list SequenceDecision) : Prop :=
  Forall (fun d => sd_status d <> kRestartAfterIdle) ds.

Lemma tracker_run_cons N ts obs t :
  tracker_run (as_sequences ((N, ts) :: obs)) t =
  (tracker_observe (u32 N) ts t).1 ::
    tracker_run (as_sequences obs) (tracker_observe (u32 N) ts t).2.
Proof. cbn. by destruct (tracker_observe (u32 N) ts t). Qed.

Lemma accepted_numbers_cons N ts obs d ds :
  accepted_numbers ((N, ts) :: obs) (d :: ds) =
  if sequence_accepted d then N :: accepted_numbers obs ds else accepted_numbers obs ds.
Proof. cbn. by destruct (sequence_accepted d). Qed.

Lemma total_missing_cons d ds : total_missing (d :: ds) = sd_missing d + total_missing ds.
Proof. done. Qed.

Lemma accepted_iff_advance N0 N d :
  sd_status d = number_status N0 N -> sequence_accepted d = bool_decide (N0 < N).
Proof.
  intros Hs. unfold sequence_accepted. rewrite Hs. unfold number_status.
  repeat case_decide; repeat case_bool_decide; simpl; done || lia.
Qed.

Lemma tracker_status_idle t N ts :
  tracker_initialized_ t = true ->
  sd_status (tracker_observe N ts t).1 <> kRestartAfterIdle -> restarted_after_idle t ts = false.
Proof.
  intros Hi. unfold tracker_observe. rewrite Hi. cbn [negb].
  by destruct (restarted_after_idle t ts).
Qed.

Lemma tracker_run_from t N0 obs :
  tracker_initialized_ t = true -> last_sequence_ t = u32 N0 ->
  (forall i j, i ∈ N0 :: obs.*1 -> j ∈ N0 :: obs.*1 -> i - j < 2 ^ 31) ->
  let ds := tracker_run (as_sequences obs) t in
  no_restart ds ->
  let acc := accepted_numbers obs ds in
  StronglySorted Z.lt (N0 :: acc) /\
  total_missing ds + zlen acc = default N0 (last acc) - N0.
Proof.
  revert t N0. induction obs as [|[N ts] obs IH]; intros t N0 Hi Hl Hw ds Hds acc.
  { subst ds acc. simpl. split; [repeat constructor|cbn; lia]. }
  subst ds acc. rewrite tracker_run_cons in Hds |- *.
  change (((N, ts) :: obs).*1) with (N :: obs.*1) in Hw.
  pose proof (tracker_observe_window t N0 N ts Hi Hl) as Hobs.
  pose proof (tracker_status_idle t (u32 N) ts Hi) as Hidle.
  destruct (tracker_observe (u32 N) ts t) as [d t'] eqn:Ho. cbn [fst snd] in *.
  apply Forall_cons in Hds as [Hd Hds].
  assert (N - N0 < 2 ^ 31 /\ N0 - N < 2 ^ 31) as [Hw1 Hw2]
    by (split; apply Hw; rewrite !elem_of_cons; auto).
  destruct Hobs as (Hst & Hm & _ & _ & Hi' & Hl'); [by apply Hidle|lia|].
  destruct (IH t' (Z.max N0 N) Hi' Hl') as [IHs IHm]; [|done|].
  { intros i j Hin Hjn. apply Hw; destruct (Z.max_spec N0 N) as [[_ E]|[_ E]];
      rewrite E, elem_of_cons in Hin, Hjn; rewrite !elem_of_cons; tauto. }
  rewrite accepted_numbers_cons, total_missing_cons, (accepted_iff_advance N0 N d Hst), Hm.
  case_bool_decide as Hlt.
  - rewrite Z.max_r in IHs, IHm by lia. split.
    + constructor; [done|]. constructor; [done|].
      inversion IHs as [|? ? _ Hall]; subst. eapply Forall_impl; [exact Hall|simpl; lia].
    + rewrite last_cons. cbn [length]. destruct (last _); cbn in *; lia.
  - rewrite Z.max_l in IHs, IHm by lia. split; [done|]. lia.
Qed.


Definition history_example : list (Z * float) :=
  [(2 ^ 32, d_of_Z 1); (2 ^ 32 - 1, d_of_Z 1); (2 ^ 32 + 3, d_of_Z 2); (2 ^ 32 + 3, d_of_Z 2)].


(** A receive gap of at least the restart interval (2 s) always resets the
    baseline: whatever sequence a rebooted sensor starts from, the packet is
    accepted and becomes the new baseline, and its successor, received without
    another such gap, is in order. *)
Theorem tracker_recovers_after_idle (t : XtSequenceTracker) (N : Z) (ts ts' : float)
    (Hinit : tracker_initialized_ t = true)
    (Hv : valid_finite 53 1024 ts) (Hl : valid_finite 53 1024 (last_observed_timestamp_ t))
    (Hr : valid_finite 53 1024 (restart_idle_sec_ t))
    (Hgap : fval 53 1024 (restart_idle_sec_ t) <=
            fval 53 1024 ts - fval 53 1024 (last_observed_timestamp_ t)) :
  let d := (tracker_observe (u32 N) ts t).1 in
  let t' := (tracker_observe (u32 N) ts t).2 in
  sd_status d = kRestartAfterIdle /\ sequence_accepted d = true /\ last_sequence_ t' = u32 N /\
  forall (Hsoon : restarted_after_idle t' ts' = false),
    sd_status (tracker_observe (u32 (N + 1)) ts' t').1 = kInOrder.
Proof.
  assert (restarted_after_idle t ts = true) as Hidle.
  { unfold restarted_after_idle. rewrite (proj1 Hv), (proj1 Hl). simpl.
    by apply (SFsub_rounds 53 1024 ltac:(lia) ts (last_observed_timestamp_ t) Hv Hl). }
  destruct (tracker_observe (u32 N) ts t) as [d t'] eqn:Ho.
  unfold tracker_observe in Ho. rewrite Hinit, Hidle in Ho. cbn [negb] in Ho.
  injection Ho as <- <-. cbn [fst snd].
  split; [done|]. split; [done|]. split; [done|]. intros Hsoon.
  match goal with |- context [tracker_observe _ _ ?t'] =>
    pose proof (tracker_observe_window t' N (N + 1) ts' eq_refl eq_refl Hsoon ltac:(lia)) as H;
    destruct (tracker_observe (u32 (N + 1)) ts' t') as [d t''] end.
  cbn [fst]. destruct H as [-> _]. unfold number_status. repeat case_decide; done || lia.
Qed.

Lemma tracker_recovers_after_idle_witness :
  let t := {| restart_idle_sec_ := kXtSequenceRestartIdleSec; tracker_initialized_ := true;
              last_sequence_ := 1000; last_observed_timestamp_ := d_lit 101 10 |} in
  sd_status (tracker_observe (u32 5) (d_lit 125 10) t).1 = kRestartAfterIdle /\
  sequence_accepted (tracker_observe (u32 5) (d_lit 125 10) t).1 = true.
Proof.
  pose proof (tracker_recovers_after_idle
    {| restart_idle_sec_ := kXtSequenceRestartIdleSec; tracker_initialized_ := true;
       last_sequence_ := 1000; last_observed_timestamp_ := d_lit 101 10 |} 5 (d_lit 125 10)
    (d_lit 126 10) eq_refl ltac:(done) ltac:(done) ltac:(done)
    ltac:(vm_compute; discriminate)) as (Hst & Hacc & _).
  split; [exact Hst|exact Hacc].
Defined.

(** ** The timestamp guard *)

(** How a rounded value compares with a threshold, from its exact value. *)
Lemma rounds_to_below v r tol :
  dvalid tol -> rounds_to 53 1024 v r -> v <= dval tol -> SFltb tol r = false.
Proof. intros Ht Hr Hv. apply SFleb_ltb_false, (Hr tol Ht), Hv. Qed.

Lemma rounds_to_above v r tol z :
  dvalid tol -> dvalid z -> valid_binary 53 1024 r = true -> rounds_to 53 1024 v r ->
  dval tol < dval z <= v -> SFltb tol r = true.
Proof.
  intros Ht Hz Vr Hr [Htz Hv]. pose proof (proj2 (Hr z Hz) Hv) as Hle.
  destruct (isfinite r) eqn:Fr.
  - rewrite (SFleb_fval 53 1024 ltac:(lia)) in Hle by done. apply Z.leb_le in Hle.
    rewrite (SFltb_fval 53 1024 ltac:(lia)) by done. apply Z.ltb_lt. lia.
  - destruct Hz as [Fz _], Ht as [Ft _].
    destruct r as [|[]| |], z, tol; done.
Qed.

(** What one observation of an initialised guard decides, by exact values. *)
Lemma guard_observe_cases g ts :
  guard_initialized_ g = true -> dvalid (last_timestamp_ g) -> dvalid (tolerance_sec_ g) ->
  dvalid ts ->
  let last := last_timestamp_ g in
  let '(d, g') := guard_observe ts g in
  (td_status d = tsAccepted /\ guard_initialized_ g' = true /\
   tolerance_sec_ g' = tolerance_sec_ g /\
   last_timestamp_ g' = (if decide (dval last < dval ts) then ts else last) /\
   forall z, dvalid z -> dval (tolerance_sec_ g) < dval z -> dval last - dval ts < dval z) \/
  (td_status d = tsRegression /\ g' = g /\
   dval (tolerance_sec_ g) < dval last - dval ts).
Proof.
  intros Hi Hl Ht Hts last. unfold guard_observe. rewrite (proj1 Hts), Hi. cbn [negb].
  fold last. change (d_sub last ts) with (SFsub 53 1024 last ts).
  assert (rounds_to 53 1024 (dval last - dval ts) (SFsub 53 1024 last ts)) as Hr
    by (by apply (SFsub_rounds 53 1024 ltac:(lia))).
  assert (valid_binary 53 1024 (SFsub 53 1024 last ts) = true) as Vr by (by apply (SFsub_valid 53 1024 ltac:(lia))).
  destruct (SFltb (tolerance_sec_ g) (SFsub 53 1024 last ts)) eqn:Hlt.
  - right. split_and!; [done..|].
    apply Z.nle_gt. intros Hle. by rewrite (rounds_to_below _ _ _ Ht Hr Hle) in Hlt.
  - left. cbn [td_status]. split; [done|]. rewrite (SFltb_fval 53 1024 ltac:(lia)) by done.
    case_decide as Hd; [rewrite (proj2 (Z.ltb_lt _ _) Hd)|rewrite (proj2 (Z.ltb_ge _ _)) by lia];
      (split_and!; [done..|]); intros z Hz Htz; apply Z.nle_gt; intros Hle;
      rewrite (rounds_to_above _ _ _ z Ht Hz Vr Hr) in Hlt; done.
Qed.

Definition accepted_times (obs : list float) (ds : list TimestampDecision) : list float :=
  omap (fun '(ts, d) => if timestamp_accepted d then Some ts else None) (zip obs ds).

(** [y] is not more than the tolerance before [x], up to one rounding: every
    representable number above the tolerance exceeds the regression. *)
Definition within (tol x y : float) : Prop :=
  forall z, dvalid z -> dval tol < dval z -> dval x - dval y < dval z.

Lemma guard_run_cons ts obs g :
  guard_run (ts :: obs) g =
  ((guard_observe ts g).1 :: (guard_run obs (guard_observe ts g).2).1,
   (guard_run obs (guard_observe ts g).2).2).
Proof.
  cbn. destruct (guard_observe ts g) as [d g']. cbn. by destruct (guard_run obs g').
Qed.

Lemma accepted_times_cons ts obs d ds :
  accepted_times (ts :: obs) (d :: ds) =
  if timestamp_accepted d then ts :: accepted_times obs ds else accepted_times obs ds.
Proof. cbn. by destruct (timestamp_accepted d). Qed.

Lemma guard_observe_nonfinite ts g :
  isfinite ts = false ->
  timestamp_accepted (guard_observe ts g).1 = false /\ (guard_observe ts g).2 = g.
Proof. intros Hf. unfold guard_observe. by rewrite Hf. Qed.

Lemma guard_run_from g obs :
  guard_initialized_ g = true -> dvalid (last_timestamp_ g) -> dvalid (tolerance_sec_ g) ->
  Forall (fun ts => valid_binary 53 1024 ts = true) obs ->
  let '(ds, g') := guard_run obs g in
  StronglySorted (within (tolerance_sec_ g)) (last_timestamp_ g :: accepted_times obs ds) /\
  last_timestamp_ g' ∈ last_timestamp_ g :: accepted_times obs ds /\
  guard_initialized_ g' = true /\ dvalid (last_timestamp_ g') /\
  tolerance_sec_ g' = tolerance_sec_ g.
Proof.
  revert g. induction obs as [|ts obs IH]; intros g Hi Hl Ht Hobs.
  { simpl. split; [repeat constructor|]. split; [|done]. by apply list_elem_of_singleton. }
  apply Forall_cons in Hobs as [Hts Hobs]. rewrite guard_run_cons, accepted_times_cons.
  destruct (isfinite ts) eqn:Hf.
  2: { destruct (guard_observe_nonfinite ts g Hf) as [-> ->].
       specialize (IH g Hi Hl Ht Hobs). by destruct (guard_run obs g). }
  pose proof (guard_observe_cases g ts Hi Hl Ht (conj Hf Hts)) as Hc.
  destruct (guard_observe ts g) as [d g'] eqn:Ho. cbn [fst snd].
  destruct Hc as [(Hd & Hi' & Ht' & Hl' & Hw)|(Hd & -> & _)].
  2: { assert (timestamp_accepted d = false) as -> by (unfold timestamp_accepted; by rewrite Hd).
       specialize (IH g Hi Hl Ht Hobs). by destruct (guard_run obs g). }
  assert (timestamp_accepted d = true) as -> by (unfold timestamp_accepted; by rewrite Hd).
  assert (dvalid (last_timestamp_ g')) as Hv' by (rewrite Hl'; by case_decide).
  specialize (IH g' Hi' Hv' ltac:(by rewrite Ht') Hobs).
  destruct (guard_run obs g') as [ds g'']. cbn [fst snd]. rewrite Ht' in IH.
  destruct IH as (Hs & Hin & Hrest). apply StronglySorted_inv in Hs as [Hs Hall].
  assert (dval (last_timestamp_ g) <= dval (last_timestamp_ g') /\
          dval ts <= dval (last_timestamp_ g')) as [Hg1 Hg2]
    by (rewrite Hl'; case_decide; lia).
  assert (forall x, dval x <= dval (last_timestamp_ g') ->
    Forall (within (tolerance_sec_ g) x) (accepted_times obs ds)) as Hx.
  { intros x Hx. eapply Forall_impl; [exact Hall|]. intros y Hy z Hz Htz.
    specialize (Hy z Hz Htz). lia. }
  split_and!; [..|apply Hrest|apply Hrest|apply Hrest].
  - constructor; [constructor; auto|]. constructor; [exact Hw|auto].
  - rewrite elem_of_cons in Hin. destruct Hin as [->|Hin].
    + rewrite Hl'. case_decide; rewrite !elem_of_cons; auto.
    + rewrite !elem_of_cons. auto.
Qed.

Lemma guard_run_new tol obs :
  dvalid tol -> Forall (fun ts => valid_binary 53 1024 ts = true) obs ->
  let '(ds, g) := guard_run obs (guard_new tol) in
  StronglySorted (within tol) (accepted_times obs ds) /\ tolerance_sec_ g = tol /\
  (guard_initialized_ g = false \/
   guard_initialized_ g = true /\ last_timestamp_ g ∈ accepted_times obs ds /\
   dvalid (last_timestamp_ g)).
Proof.
  intros Ht. induction 1 as [|ts obs Hts Hobs IH].
  { simpl. split; [constructor|]. auto. }
  rewrite guard_run_cons, accepted_times_cons. destruct (isfinite ts) eqn:Hf.
  2: { destruct (guard_observe_nonfinite ts (guard_new tol) Hf) as [-> ->].
       by destruct (guard_run obs _). }
  assert (guard_observe ts (guard_new tol) =
    ({| td_status := tsFirst; td_previous := ts; td_current := ts;
        td_regression_sec := S754_zero false |},
     {| tolerance_sec_ := tol; guard_initialized_ := true; last_timestamp_ := ts |})) as ->
    by (unfold guard_observe; by rewrite Hf).
  cbn [fst snd]. change (timestamp_accepted _) with true. cbn iota.
  match goal with |- context [guard_run obs ?g1] =>
    pose proof (guard_run_from g1 obs eq_refl (conj Hf Hts) Ht Hobs) as H;
    destruct (guard_run obs g1) as [ds g] end. destruct H as (Hs & Hin & Hi & Hv & Htol).
  split; [exact Hs|]. split; [exact Htol|]. right. done.
Qed.

(** C21: over any history of timestamps (NaN and infinities included) from a
    reset guard, no accepted timestamp lies before an earlier accepted one by
    as much as the next representable number above the tolerance; and a finite
    timestamp is refused only when it lies before some accepted one by more
    than the tolerance, exactly. *)
Theorem guard_bounds_regression (tol : float) (obs : list float)
    (Ht : dvalid tol) (Hobs : Forall (fun ts => valid_binary 53 1024 ts = true) obs) :
  StronglySorted (within tol) (accepted_times obs (guard_run obs (guard_new tol)).1) /\
  forall pre ts post, obs = pre ++ ts :: post -> isfinite ts = true ->
    let '(ds, g) := guard_run pre (guard_new tol) in
    timestamp_accepted (guard_observe ts g).1 = false ->
    exists x, x ∈ accepted_times pre ds /\ dval tol < dval x - dval ts.
Proof.
  split.
  - pose proof (guard_run_new tol obs Ht Hobs) as H.
    destruct (guard_run obs (guard_new tol)) as [ds g]. by destruct H.
  - intros pre ts post -> Hf. apply Forall_app in Hobs as [Hpre Hobs].
    apply Forall_cons in Hobs as [Hts _].
    pose proof (guard_run_new tol pre Ht Hpre) as H.
    destruct (guard_run pre (guard_new tol)) as [ds g]. destruct H as (_ & Htol & Hg).
    intros Hrej. destruct Hg as [Hg|(Hg & Hin & Hv)].
    + unfold guard_observe in Hrej. by rewrite Hf, Hg in Hrej.
    + exists (last_timestamp_ g). split; [done|].
      pose proof (guard_observe_cases g ts Hg Hv ltac:(by rewrite Htol) (conj Hf Hts)) as Hc.
      destruct (guard_observe ts g) as [d g']. cbn [fst] in Hrej.
      destruct Hc as [[Hd _]|(_ & _ & Hlt)]; [|by rewrite <- Htol].
      unfold timestamp_accepted in Hrej. by rewrite Hd in Hrej.
Qed.

Lemma guard_bounds_regression_witness :
  let obs := [d_lit 1005 10; d_lit 10045 100; d_lit 904 10; d_lit 1006 10] in
  let acc := accepted_times obs (guard_run obs (guard_new kTimestampRegressionToleranceSec)).1 in
  acc = [d_lit 1005 10; d_lit 10045 100; d_lit 1006 10] /\
  StronglySorted (within kTimestampRegressionToleranceSec) acc.
Proof.
  split; [vm_compute; reflexivity|].
  apply (guard_bounds_regression kTimestampRegressionToleranceSec); [done|].
  repeat constructor.
Defined.
