(* ===== verification/LatestValueMailbox.v ===== *)
(** The single-slot latest-wins handoff of [latest_value_mailbox.h].

    [push], [wait_pop] and [stop] each run under the mailbox's mutex, so each
    critical section is one step; the condition variable is modelled by the set
    of blocked callers, with [notify_one] waking any one of them, [notify_all]
    all, and spurious wake-ups at any time.  Any number of threads may call
    [wait_pop]. *)
From S2P Require Import Prelude.
From stdpp Require Import gmap relations.
#[local] Open Scope Z_scope.

(** ** The code *)

Inductive LatestValuePushResult := kStored | kReplaced | kStopped.

#[export] Instance LatestValuePushResult_eq_dec : EqDecision LatestValuePushResult.
Proof. solve_decision. Defined.

Record LatestValueMailbox (T : Type) := {
  pending_ : option T;
  stopped_ : bool;
}.
Arguments Build_LatestValueMailbox {T}.
Arguments pending_ {T}.
Arguments stopped_ {T}.

Section mailbox.
Context {T : Type}.
Implicit Types (mb : LatestValueMailbox T) (value : T).

Definition mailbox_new : LatestValueMailbox T := {| pending_ := None; stopped_ := false |}.

(** The critical section of [push]; the last component tells whether it calls
    [notify_one]. *)
Definition push value mb : LatestValuePushResult * LatestValueMailbox T * bool :=
  if stopped_ mb then (kStopped, mb, false)
  else
    let replaced := bool_decide (is_Some (pending_ mb)) in
    (if replaced then kReplaced else kStored,
     {| pending_ := Some value; stopped_ := stopped_ mb |}, true).

(** One test of the predicate of [condition_.wait], and the rest of [wait_pop]
    when it holds: [None] blocks again; [Some (result, value)] returns
    [result], with [value] assigned when there is one. *)
Definition wait_pop_test mb : option (bool * option T) * LatestValueMailbox T :=
  if stopped_ mb || bool_decide (is_Some (pending_ mb)) then
    match pending_ mb with
    | None => (Some (false, None), mb)
    | Some value =>
        (Some (true, Some value), {| pending_ := None; stopped_ := stopped_ mb |})
    end
  else (None, mb).

Definition stop mb : LatestValueMailbox T := {| pending_ := None; stopped_ := true |}.
End mailbox.

(** ** Threads *)

(** Where a caller of [wait_pop] stands: about to take the mutex and test the
    predicate, or blocked in [condition_.wait].  A thread outside [wait_pop]
    has no entry. *)
Inductive waiter := Ready | Blocked.

#[export] Instance waiter_eq_dec : EqDecision waiter.
Proof. solve_decision. Defined.

Inductive event (T : Type) :=
  | EvPush (value : T) (result : LatestValuePushResult)
  | EvPop (value : T)
  | EvPopStopped
  | EvStop.
Arguments EvPush {T}.
Arguments EvPop {T}.
Arguments EvPopStopped {T}.
Arguments EvStop {T}.

(** The shared state, with the history of completed operations. *)
Record system (T : Type) := {
  sys_mailbox : LatestValueMailbox T;
  sys_waiters : gmap nat waiter;
  sys_trace : list (event T);
}.
Arguments Build_system {T}.
Arguments sys_mailbox {T}.
Arguments sys_waiters {T}.
Arguments sys_trace {T}.

Section threads.
Context {T : Type}.
Implicit Types (mb : LatestValueMailbox T) (ws : gmap nat waiter) (σ : system T).

Definition no_blocked ws : Prop := forall i, ws !! i <> Some Blocked.

(** [notify_one]: some blocked thread wakes, if there is one. *)
Inductive notify_one : gmap nat waiter -> gmap nat waiter -> Prop :=
  | notify_some ws i : ws !! i = Some Blocked -> notify_one ws (<[i := Ready]> ws)
  | notify_none ws : no_blocked ws -> notify_one ws ws.

Definition notify_all ws : gmap nat waiter := (fun _ => Ready) <$> ws.

Inductive step : system T -> system T -> Prop :=
  | step_push mb ws ws' tr value r mb' notify :
      push value mb = (r, mb', notify) ->
      (if notify then notify_one ws ws' else ws' = ws) ->
      step {| sys_mailbox := mb; sys_waiters := ws; sys_trace := tr |}
           {| sys_mailbox := mb'; sys_waiters := ws'; sys_trace := tr ++ [EvPush value r] |}
  | step_wait_call mb ws tr i :
      ws !! i = None ->
      step {| sys_mailbox := mb; sys_waiters := ws; sys_trace := tr |}
           {| sys_mailbox := mb; sys_waiters := <[i := Ready]> ws; sys_trace := tr |}
  | step_wait_block mb ws tr i mb' :
      ws !! i = Some Ready -> wait_pop_test mb = (None, mb') ->
      step {| sys_mailbox := mb; sys_waiters := ws; sys_trace := tr |}
           {| sys_mailbox := mb'; sys_waiters := <[i := Blocked]> ws; sys_trace := tr |}
  | step_wait_pop mb ws tr i mb' value :
      ws !! i = Some Ready -> wait_pop_test mb = (Some (true, Some value), mb') ->
      step {| sys_mailbox := mb; sys_waiters := ws; sys_trace := tr |}
           {| sys_mailbox := mb'; sys_waiters := delete i ws; sys_trace := tr ++ [EvPop value] |}
  | step_wait_stopped mb ws tr i mb' :
      ws !! i = Some Ready -> wait_pop_test mb = (Some (false, None), mb') ->
      step {| sys_mailbox := mb; sys_waiters := ws; sys_trace := tr |}
           {| sys_mailbox := mb'; sys_waiters := delete i ws; sys_trace := tr ++ [EvPopStopped] |}
  | step_spurious mb ws tr i :
      ws !! i = Some Blocked ->
      step {| sys_mailbox := mb; sys_waiters := ws; sys_trace := tr |}
           {| sys_mailbox := mb; sys_waiters := <[i := Ready]> ws; sys_trace := tr |}
  | step_stop mb ws tr :
      step {| sys_mailbox := mb; sys_waiters := ws; sys_trace := tr |}
           {| sys_mailbox := stop mb; sys_waiters := notify_all ws; sys_trace := tr ++ [EvStop] |}.

Definition init : system T :=
  {| sys_mailbox := mailbox_new; sys_waiters := ∅; sys_trace := [] |}.

Definition reachable σ : Prop := rtc step init σ.
End threads.

(** ** The abstract mailbox: what the history says is pending *)

Section abstract.
Context {T : Type}.
Implicit Types (e : event T) (tr : list (event T)).

Definition accepted_push e : bool :=
  match e with EvPush _ kStopped => false | EvPush _ _ => true | _ => false end.
Definition replacing_push e : bool :=
  match e with EvPush _ kReplaced => true | _ => false end.
Definition is_pop e : bool := match e with EvPop _ => true | _ => false end.
Definition is_stop e : bool := match e with EvStop => true | _ => false end.

(** An event that leaves the pending value alone. *)
Definition quiet e : bool :=
  match e with EvPush _ kStopped => true | EvPopStopped => true | _ => false end.

Definition apply_event (p : option T) e : option T :=
  match e with
  | EvPush _ kStopped => p
  | EvPush v _ => Some v
  | EvPop _ => None
  | EvPopStopped => p
  | EvStop => None
  end.

Definition count (P : event T -> bool) tr : Z := zlen (filter (fun e => P e = true) tr).

(** The pending values [stop] threw away. *)
Fixpoint discarded (p : option T) tr : Z :=
  match tr with
  | [] => 0
  | e :: tr =>
      (if is_stop e && bool_decide (is_Some p) then 1 else 0) + discarded (apply_event p e) tr
  end.
Definition pending_count (p : option T) : Z := if p is Some _ then 1 else 0.

Definition pending_of tr : option T := foldl apply_event None tr.

Lemma pending_of_snoc tr e : pending_of (tr ++ [e]) = apply_event (pending_of tr) e.
Proof. apply foldl_snoc. Qed.

Lemma count_snoc P tr e : count P (tr ++ [e]) = count P tr + (if P e then 1 else 0).
Proof.
  unfold count. rewrite filter_app, length_app. cbn.
  destruct (P e) eqn:HP; case_decide; simpl; (lia || congruence).
Qed.

Lemma discarded_app p tr tr' :
  discarded p (tr ++ tr') = discarded p tr + discarded (foldl apply_event p tr) tr'.
Proof. revert p. induction tr as [|e tr IH]; intros p; simpl; [done|]. rewrite IH. lia. Qed.

Lemma discarded_snoc tr e :
  discarded None (tr ++ [e]) =
  discarded None tr + (if is_stop e && bool_decide (is_Some (pending_of tr)) then 1 else 0).
Proof. rewrite discarded_app. cbn. unfold pending_of. lia. Qed.

(** What is pending was pushed last, with nothing since. *)
Lemma pending_of_split tr v :
  pending_of tr = Some v ->
  exists pre r mid, tr = pre ++ EvPush v r :: mid /\ r <> kStopped /\
    Forall (fun e => quiet e = true) mid.
Proof.
  induction tr as [|e tr IH] using rev_ind; [done|]. rewrite pending_of_snoc.
  assert (apply_event (pending_of tr) e = pending_of tr -> quiet e = true ->
    apply_event (pending_of tr) e = Some v ->
    exists pre r mid, tr ++ [e] = pre ++ EvPush v r :: mid /\ r <> kStopped /\
      Forall (fun e => quiet e = true) mid) as Hq.
  { intros -> He Hv. destruct (IH Hv) as (pre & r & mid & -> & Hr & Hmid).
    exists pre, r, (mid ++ [e]). rewrite <- app_assoc. split; [done|]. split; [done|].
    apply Forall_app; auto. }
  destruct e as [v' []| | |]; simpl in *; try done; try (by apply Hq).
  all: intros [= ->]; exists tr; eexists _, []; split; [reflexivity|]; by split.
Qed.
End abstract.

(** The sequential specification: which completed operation may come next. *)
Section legality.
Context {T : Type}.
Implicit Types (e : event T) (tr : list (event T)).

Definition has_stop tr : bool := existsb is_stop tr.

Definition expected_push tr : LatestValuePushResult :=
  if has_stop tr then kStopped
  else match pending_of tr with Some _ => kReplaced | None => kStored end.

Definition legal tr e : Prop :=
  match e with
  | EvPush _ r => r = expected_push tr
  | EvPop v => pending_of tr = Some v
  | EvPopStopped => pending_of tr = None /\ has_stop tr = true
  | EvStop => True
  end.

Definition legal_trace tr : Prop := forall pre e post, tr = pre ++ e :: post -> legal pre e.

Lemma legal_nil : legal_trace [].
Proof. by intros [] ???. Qed.

Lemma legal_snoc tr e : legal_trace (tr ++ [e]) <-> legal_trace tr /\ legal tr e.
Proof.
  split.
  - intros H. split; [|by apply (H tr e [])].
    intros pre e' post ->. apply (H pre e' (post ++ [e])). by rewrite <- app_assoc.
  - intros [Htr He] pre e' post Heq.
    destruct post as [|e'' post] using rev_ind.
    + apply app_inj_tail in Heq as [-> ->]. done.
    + rewrite app_comm_cons, app_assoc in Heq. apply app_inj_tail in Heq as [-> ->].
      by apply (Htr pre e' post).
Qed.

Lemma legal_app pre post : legal_trace (pre ++ post) -> legal_trace pre.
Proof.
  induction post as [|e post IH] using rev_ind; [by rewrite app_nil_r|].
  rewrite app_assoc, legal_snoc. tauto.
Qed.

Lemma has_stop_snoc tr e : has_stop (tr ++ [e]) = has_stop tr || is_stop e.
Proof. unfold has_stop. rewrite existsb_app. simpl. by rewrite orb_false_r. Qed.

(** A stopped mailbox is empty. *)
Lemma stopped_empty tr : legal_trace tr -> has_stop tr = true -> pending_of tr = None.
Proof.
  induction tr as [|e tr IH] using rev_ind; [done|].
  rewrite legal_snoc, has_stop_snoc, pending_of_snoc. intros [Htr He] Hs.
  destruct e as [v r|v| |]; simpl in *; rewrite ?orb_false_r in Hs; try done; [|tauto].
  subst r. unfold expected_push. rewrite Hs. auto.
Qed.

(** Every accepted value is popped, replaced, thrown away by [stop] or pending. *)
Lemma legal_conservation tr :
  legal_trace tr ->
  count accepted_push tr =
  count is_pop tr + count replacing_push tr + discarded None tr + pending_count (pending_of tr).
Proof.
  induction tr as [|e tr IH] using rev_ind; [done|].
  rewrite legal_snoc, !count_snoc, discarded_snoc, pending_of_snoc. intros [Htr He].
  specialize (IH Htr). pose proof (stopped_empty tr Htr) as Hstop.
  destruct e as [v r|v| |]; simpl in *.
  - subst r. unfold expected_push. destruct (has_stop tr), (pending_of tr); simpl in *; lia.
  - destruct (pending_of tr); simpl in *; (done || lia).
  - destruct (pending_of tr); simpl in *; (by destruct He) || lia.
  - destruct (pending_of tr); simpl in *; lia.
Qed.
End legality.

(** ** The threads refine the sequential mailbox *)

Section refinement.
Context {T : Type}.
Implicit Types (σ : system T).

Record inv σ : Prop := {
  inv_pending : pending_ (sys_mailbox σ) = pending_of (sys_trace σ);
  inv_stopped : stopped_ (sys_mailbox σ) = has_stop (sys_trace σ);
  inv_legal : legal_trace (sys_trace σ);
  inv_stopped_wake : stopped_ (sys_mailbox σ) = true -> no_blocked (sys_waiters σ);
  inv_pending_wake : is_Some (pending_ (sys_mailbox σ)) ->
    no_blocked (sys_waiters σ) \/ exists i, sys_waiters σ !! i = Some Ready;
}.

Lemma no_blocked_ready ws i : no_blocked ws -> no_blocked (<[i := Ready]> ws).
Proof. intros H j. destruct (decide (i = j)) as [->|]; by simplify_map_eq. Qed.

Lemma no_blocked_delete ws i : no_blocked ws -> no_blocked (delete i ws).
Proof. intros H j. destruct (decide (i = j)) as [->|]; by simplify_map_eq. Qed.

Lemma no_blocked_notify_all ws : no_blocked (notify_all ws).
Proof. intros j. unfold notify_all. rewrite lookup_fmap. by destruct (ws !! j). Qed.

Lemma notify_one_wakes ws ws' :
  notify_one ws ws' -> no_blocked ws' \/ exists i, ws' !! i = Some Ready.
Proof.
  intros [ws0 i Hi|ws0 Hn]; [right|by left].
  exists i. by simplify_map_eq.
Qed.

Lemma mailbox_inv_init : inv init.
Proof. split; simpl; try done; apply legal_nil || by intros []. Qed.

Lemma inv_push mb ws ws' tr value r mb' notify :
  push value mb = (r, mb', notify) -> (if notify then notify_one ws ws' else ws' = ws) ->
  inv {| sys_mailbox := mb; sys_waiters := ws; sys_trace := tr |} ->
  inv {| sys_mailbox := mb'; sys_waiters := ws'; sys_trace := tr ++ [EvPush value r] |}.
Proof.
  intros Hp Hn [Hpend Hst Hl Hsw Hpw]. simpl in *. unfold push in Hp.
  destruct (stopped_ mb) eqn:Hs; injection Hp as <- <- <-.
  - subst ws'. split; simpl; rewrite ?pending_of_snoc, ?has_stop_snoc, ?orb_false_r; auto.
    + by rewrite Hs.
    + apply legal_snoc. split; [done|]. simpl. unfold expected_push. by rewrite <- Hst.
  - assert ((if bool_decide (is_Some (pending_ mb)) then kReplaced else kStored)
      = expected_push tr) as Hr.
    { unfold expected_push. rewrite <- Hst, Hpend. by destruct (pending_of tr). }
    split; simpl; rewrite ?pending_of_snoc, ?has_stop_snoc, <- ?Hst; simpl; try done.
    + by case_bool_decide.
    + apply legal_snoc. split; [done|]. exact Hr.
    + intros _. by eapply notify_one_wakes.
Qed.

Lemma mailbox_inv_step σ σ' : step σ σ' -> inv σ -> inv σ'.
Proof.
  intros Hstep Hi. destruct Hstep as [mb ws ws' tr value r mb' notify Hp Hn|mb ws tr i Hw
    |mb ws tr i mb' Hw Ht|mb ws tr i mb' value Hw Ht|mb ws tr i mb' Hw Ht|mb ws tr i Hw|mb ws tr].
  - by eapply inv_push.
  - destruct Hi as [Hpend Hst Hl Hsw Hpw]. split; simpl in *; try done.
    + auto using no_blocked_ready.
    + intros _. right. exists i. by simplify_map_eq.
  - destruct Hi as [Hpend Hst Hl Hsw Hpw]. unfold wait_pop_test in Ht. simpl in *.
    destruct (pending_ mb) eqn:Hpd, (stopped_ mb) eqn:Hs; simpl in Ht; try done.
    injection Ht as <-. by split; simpl; rewrite ?Hpd, ?Hs.
  - destruct Hi as [Hpend Hst Hl Hsw Hpw]. unfold wait_pop_test in Ht. simpl in *.
    case_match; [|done]. destruct (pending_ mb) eqn:Hpd; [|done]. injection Ht as -> <-.
    split; simpl; rewrite ?pending_of_snoc, ?has_stop_snoc, ?orb_false_r, ?Hst; try done.
    + by apply legal_snoc.
    + intros Hs. apply no_blocked_delete, Hsw. by rewrite Hst.
  - destruct Hi as [Hpend Hst Hl Hsw Hpw]. unfold wait_pop_test in Ht. simpl in *.
    destruct (pending_ mb) eqn:Hpd, (stopped_ mb) eqn:Hs; simpl in Ht; try done.
    injection Ht as <-.
    split; simpl; rewrite ?pending_of_snoc, ?has_stop_snoc, ?orb_false_r, ?Hs; try done.
    + by rewrite Hpd.
    + apply legal_snoc. by split.
    + intros _. by apply no_blocked_delete, Hsw.
    + rewrite Hpd. by intros [].
  - destruct Hi as [Hpend Hst Hl Hsw Hpw]. split; simpl in *; try done.
    + auto using no_blocked_ready.
    + intros _. right. exists i. by simplify_map_eq.
  - destruct Hi as [Hpend Hst Hl Hsw Hpw].
    split; simpl in *; rewrite ?pending_of_snoc, ?has_stop_snoc, ?orb_true_r; try done.
    + by apply legal_snoc.
    + intros _. apply no_blocked_notify_all.
Qed.

Lemma mailbox_inv_reachable σ : reachable σ -> inv σ.
Proof.
  unfold reachable. intros Hr. remember init as σ0 eqn:H0.
  assert (inv σ0) as Hi by (subst; apply mailbox_inv_init). clear H0.
  induction Hr; eauto using mailbox_inv_step.
Qed.

(** C27: whatever the interleaving of producers, consumers and [stop], the
    completed operations form a run of the sequential latest-wins mailbox; in
    particular each popped value is the last accepted one, pushed with nothing
    but refused pushes and stopped pops since, so no stale or duplicate value
    is delivered. *)
Theorem mailbox_latest_wins σ (Hr : reachable σ) :
  legal_trace (sys_trace σ) /\
  forall pre v post, sys_trace σ = pre ++ EvPop v :: post ->
    exists pre' r mid, pre = pre' ++ EvPush v r :: mid /\ r <> kStopped /\
      Forall (fun e => quiet e = true) mid.
Proof.
  apply mailbox_inv_reachable in Hr. split; [apply Hr|]. intros pre v post Htr.
  apply pending_of_split. by apply (inv_legal _ Hr pre (EvPop v) post).
Qed.

(** At every moment the accepted pushes are exactly the values popped, the
    values replaced (one for each [kReplaced] result), the values [stop] threw
    away and the pending one; after [stop] nothing is accepted or popped. *)
Theorem mailbox_conservation σ (Hr : reachable σ) :
  let tr := sys_trace σ in
  count accepted_push tr =
    count is_pop tr + count replacing_push tr + discarded None tr +
    pending_count (pending_ (sys_mailbox σ)) /\
  forall pre post, tr = pre ++ EvStop :: post ->
    count accepted_push post = 0 /\ count is_pop post = 0.
Proof.
  apply mailbox_inv_reachable in Hr as [Hp _ Hl _ _]. rewrite Hp. split; [by apply legal_conservation|].
  intros pre post Htr. rewrite Htr in Hl. clear Hp Htr. revert Hl.
  induction post as [|e post IH] using rev_ind; [done|].
  rewrite app_comm_cons, app_assoc, legal_snoc, !count_snoc. intros [Hl He].
  destruct (IH Hl) as [-> ->].
  assert (has_stop (pre ++ EvStop :: post) = true) as Hs.
  { unfold has_stop. rewrite existsb_app. simpl. apply orb_true_r. }
  pose proof (stopped_empty _ Hl Hs) as Hn.
  destruct e as [v r|v| |]; simpl in *; try done; [|by rewrite Hn in He].
  rewrite He. unfold expected_push. by rewrite Hs.
Qed.

(** C29: no wake-up is lost: in every reachable state in which [wait_pop] would
    not block, no caller is left blocked with nobody to serve: after [stop] no
    caller is blocked, and with a value pending either no caller is blocked or
    some caller is about to take it; and such a caller's next step completes
    its call. *)
Theorem mailbox_no_lost_wakeup σ (Hr : reachable σ) :
  (stopped_ (sys_mailbox σ) = true -> no_blocked (sys_waiters σ)) /\
  (is_Some (pending_ (sys_mailbox σ)) ->
    no_blocked (sys_waiters σ) \/ exists i, sys_waiters σ !! i = Some Ready) /\
  forall i, sys_waiters σ !! i = Some Ready ->
    stopped_ (sys_mailbox σ) = true \/ is_Some (pending_ (sys_mailbox σ)) ->
    exists σ', step σ σ' /\ sys_waiters σ' = delete i (sys_waiters σ).
Proof.
  pose proof (mailbox_inv_reachable σ Hr) as Hi. split; [apply Hi|]. split; [apply Hi|].
  destruct σ as [[p s] ws tr]; simpl. intros i Hw Hc. destruct p as [v|].
  - eexists. split; [eapply step_wait_pop; [done|]|reflexivity].
    unfold wait_pop_test. simpl. by rewrite orb_true_r.
  - destruct Hc as [->|[? [=]]].
    eexists. split; [by eapply step_wait_stopped|reflexivity].
Qed.
End refinement.

Definition mailbox_example : system nat :=
  {| sys_mailbox := {| pending_ := Some 2%nat; stopped_ := false |};
     sys_waiters := <[7%nat := Ready]> ∅;
     sys_trace := [EvPush 1%nat kStored; EvPop 1%nat; EvPush 2%nat kStored] |}.

(** A consumer blocks, a push wakes it, it pops, blocks again and is woken. *)
Lemma mailbox_example_reachable : reachable mailbox_example.
Proof.
  unfold reachable, init, mailbox_example.
  eapply rtc_l. { by apply (step_wait_call _ _ _ 7%nat). }
  eapply rtc_l. { by eapply (step_wait_block _ _ _ 7%nat). }
  eapply rtc_l. { eapply (step_push _ _ _ _ 1%nat); [done|]. by apply (notify_some _ 7%nat). }
  eapply rtc_l. { by eapply (step_wait_pop _ _ _ 7%nat). }
  eapply rtc_l. { by apply (step_wait_call _ _ _ 7%nat). }
  eapply rtc_l. { by eapply (step_wait_block _ _ _ 7%nat). }
  eapply rtc_l. { eapply (step_push _ _ _ _ 2%nat); [done|]. by apply (notify_some _ 7%nat). }
  simpl. rewrite ?insert_insert_eq, ?delete_insert_eq. apply rtc_refl.
Qed.

Lemma mailbox_latest_wins_witness : legal_trace (sys_trace mailbox_example).
Proof. exact (proj1 (mailbox_latest_wins mailbox_example mailbox_example_reachable)). Defined.

Lemma mailbox_conservation_witness :
  count accepted_push (sys_trace mailbox_example) = 2 /\
  count accepted_push (sys_trace mailbox_example) =
    count is_pop (sys_trace mailbox_example) + 0 + 0 + 1.
Proof.
  split; [done|].
  exact (proj1 (mailbox_conservation mailbox_example mailbox_example_reachable)).
Defined.

Lemma mailbox_no_lost_wakeup_witness :
  exists σ', step mailbox_example σ' /\ sys_waiters σ' = delete 7%nat (sys_waiters mailbox_example).
Proof.
  apply (proj2 (proj2 (mailbox_no_lost_wakeup mailbox_example mailbox_example_reachable)));
    [done|right; by eexists].
Defined.
