(* ===== verification/CompactCloud.v ===== *)
(** The compact [PointCloud2] encoding of [compact_pointcloud2.h] and the point
    type of [point_types.h].

    A [sensor_msgs] message is the record of the fields the code sets.  The
    host's byte order is the parameter [big_endian], and the datatype codes
    [PointField::FLOAT32] and so on are the record [datatypes]: both come from
    outside the repository.  A NaN coordinate is represented without its
    payload. *)
From S2P Require Import Prelude Ieee.
#[local] Open Scope Z_scope.

(** ** Points and messages *)

Record PPoint := {
  x : float;
  y : float;
  z : float;
  intensity : float;
  timestamp : float;
  ring : Z;
}.

Record PPointCloud := {
  pc_frame_id : string;
  pc_width : Z;
  pc_height : Z;
  pc_is_dense : bool;
  points : list PPoint;
}.

Record datatypes := { UINT16 : Z; FLOAT32 : Z; FLOAT64 : Z }.

Record PointField := { pf_name : string; pf_offset : Z; pf_datatype : Z; pf_count : Z }.

Record stamp := { sec : Z; nanosec : Z }.

Record PointCloud2 := {
  header_stamp : stamp;
  header_frame_id : string;
  height : Z;
  width : Z;
  fields : list PointField;
  is_bigendian : bool;
  point_step : Z;
  row_step : Z;
  data : list Z;
  is_dense : bool;
}.

(** The exceptions: [std::length_error] of either message. *)
Inductive length_error := exceeds_width_range | exceeds_row_step_range.

Definition kCompactPointStep : Z := 26.

Definition UINT32_MAX : Z := 2 ^ 32 - 1.

Section compact.
Context (dt : datatypes) (big_endian : bool).

(** The object representation of an [n]-byte integer on this host. *)
Definition host_bytes (n : nat) (v : Z) : list Z :=
  if big_endian then rev (le_split n v) else le_split n v.

Definition host_value (bs : list Z) : Z :=
  le_combine (if big_endian then rev bs else bs).

Definition hostIsBigEndian : bool :=
  let marker := 0x0102 in
  bool_decide (head (host_bytes 2 marker) = Some 0x01).

Definition pointField (name : string) (offset datatype : Z) : PointField :=
  {| pf_name := name; pf_offset := offset; pf_datatype := datatype; pf_count := 1 |}.

(** [CompactPointXYZIT], packed: the bytes [memcpy] copies. *)
Definition CompactPointXYZIT (point : PPoint) : list Z :=
  host_bytes 4 (f32_bits (x point)) ++ host_bytes 4 (f32_bits (y point)) ++
  host_bytes 4 (f32_bits (z point)) ++ host_bytes 4 (f32_bits (intensity point)) ++
  host_bytes 8 (f64_bits (timestamp point)) ++ host_bytes 2 (ring point).

(** [memcpy] to [destination] inside the vector [data]. *)
Definition memcpy {E} (data : list Z) (destination : Z) (bytes : list Z) : outcome E (list Z) :=
  if decide (0 <= destination /\ destination + zlen bytes <= zlen data) then
    Ret (take (Z.to_nat destination) data ++ bytes ++
         drop (Z.to_nat destination + length bytes) data)
  else Undef.

(** The copy loop, from [index]. *)
Fixpoint copy_points {E} (index : Z) (pts : list PPoint) (data : list Z) : outcome E (list Z) :=
  match pts with
  | [] => Ret data
  | point :: pts =>
      data ← memcpy data (index * kCompactPointStep) (CompactPointXYZIT point);
      copy_points (index + 1) pts data
  end.

Definition compact_fields : list PointField :=
  [pointField "x" 0 (FLOAT32 dt); pointField "y" 4 (FLOAT32 dt); pointField "z" 8 (FLOAT32 dt);
   pointField "intensity" 12 (FLOAT32 dt); pointField "timestamp" 16 (FLOAT64 dt);
   pointField "ring" 24 (UINT16 dt)].

(** The dimensions: those of the cloud, or one row when they do not match it. *)
Definition compact_dimensions (cloud : PPointCloud) : Z * Z :=
  let declared_points := u64 (pc_width cloud * pc_height cloud) in
  if (pc_height cloud =? 0) || negb (declared_points =? zlen (points cloud))
  then (1, u32 (zlen (points cloud)))
  else (pc_height cloud, pc_width cloud).

Definition makeCompactPointCloud2 (cloud : PPointCloud) : outcome length_error PointCloud2 :=
  if UINT32_MAX <? zlen (points cloud) then Err exceeds_width_range
  else
    let '(height, width) := compact_dimensions cloud in
    if UINT32_MAX / kCompactPointStep <? width then Err exceeds_row_step_range
    else
      let row_step := u32 (width * kCompactPointStep) in
      data ← copy_points 0 (points cloud) (replicate (Z.to_nat (u64 (row_step * height))) 0);
      Ret {| header_stamp := {| sec := 0; nanosec := 0 |};
             header_frame_id := pc_frame_id cloud;
             height := height; width := width;
             fields := compact_fields;
             is_bigendian := hostIsBigEndian;
             point_step := kCompactPointStep;
             row_step := row_step;
             data := data;
             is_dense := pc_is_dense cloud |}.
End compact.

(** ** A reader of the message

    What a subscriber does with a [PointCloud2]: it finds each field by name,
    checks its datatype and reads it in the byte order the message declares. *)
Section reader.
Context (dt : datatypes).

Definition find_field (name : string) (fs : list PointField) : option PointField :=
  list_find (fun f => pf_name f = name) fs ≫= fun p => Some p.2.

Definition read_value (be : bool) (n : nat) (bytes : list Z) (offset : Z) : option Z :=
  let bs := take n (drop (Z.to_nat offset) bytes) in
  if decide (length bs = n) then Some (host_value be bs) else None.

Definition read_field (out : PointCloud2) (name : string) (datatype : Z) (n : nat) (i : Z)
    : option Z :=
  f ← find_field name (fields out);
  if decide (pf_datatype f = datatype)
  then read_value (is_bigendian out) n (data out) (i * point_step out + pf_offset f)
  else None.

Definition read_point (out : PointCloud2) (i : Z) : option PPoint :=
  x ← read_field out "x" (FLOAT32 dt) 4 i;
  y ← read_field out "y" (FLOAT32 dt) 4 i;
  z ← read_field out "z" (FLOAT32 dt) 4 i;
  intensity ← read_field out "intensity" (FLOAT32 dt) 4 i;
  timestamp ← read_field out "timestamp" (FLOAT64 dt) 8 i;
  ring ← read_field out "ring" (UINT16 dt) 2 i;
  Some {| x := f32_of_bits x; y := f32_of_bits y; z := f32_of_bits z;
          intensity := f32_of_bits intensity; timestamp := f64_of_bits timestamp;
          ring := ring |}.
End reader.

(** ** The copy loop *)

Section encoding.
Context (be : bool).

Lemma length_host_bytes n v : length (host_bytes be n v) = n.
Proof. unfold host_bytes. destruct be; by rewrite ?length_rev, length_le_split. Qed.

Lemma host_value_bytes n v : 0 <= v < 256 ^ Z.of_nat n -> host_value be (host_bytes be n v) = v.
Proof.
  intros Hv. unfold host_value, host_bytes.
  destruct be; rewrite ?rev_involutive, le_combine_split; by apply Z.mod_small.
Qed.

Lemma hostIsBigEndian_spec : hostIsBigEndian be = be.
Proof. by destruct be. Qed.

Lemma length_compact p : length (CompactPointXYZIT be p) = 26%nat.
Proof. unfold CompactPointXYZIT. by rewrite !length_app, !length_host_bytes. Qed.

Definition compact_bytes (pts : list PPoint) : list Z := pts ≫= CompactPointXYZIT be.

Lemma length_compact_bytes pts : zlen (compact_bytes pts) = 26 * zlen pts.
Proof.
  induction pts as [|p pts IH]; [done|]. unfold compact_bytes in *.
  rewrite bind_cons, length_app, length_compact. cbn [length]. lia.
Qed.

Lemma memcpy_middle {E} (pre old post bytes : list Z) :
  length bytes = length old ->
  memcpy (E := E) (pre ++ old ++ post) (zlen pre) bytes = Ret (pre ++ bytes ++ post).
Proof.
  intros Hl. unfold memcpy. rewrite decide_True by (rewrite !length_app; lia).
  rewrite Nat2Z.id, take_app_length, Hl.
  by rewrite <- length_app, (app_assoc pre old), drop_app_length.
Qed.

Lemma copy_points_spec {E} pts pre post old :
  zlen pre = 26 * (zlen pre / 26) -> zlen old = 26 * zlen pts ->
  copy_points (E := E) be (zlen pre / 26) pts (pre ++ old ++ post) =
  Ret (pre ++ compact_bytes pts ++ post).
Proof.
  revert pre old. induction pts as [|p pts IH]; intros pre old Hpre Hold.
  { destruct old; [done|simpl in Hold; lia]. }
  cbn [copy_points]. unfold kCompactPointStep. cbn [length] in Hold.
  rewrite <- (take_drop 26 old), <- app_assoc.
  replace (zlen pre / 26 * 26) with (zlen pre) by lia.
  rewrite memcpy_middle by (rewrite length_compact, length_take; lia). simpl.
  rewrite app_assoc.
  assert (zlen (pre ++ CompactPointXYZIT be p) = 26 * (zlen pre / 26 + 1)) as Hl
    by (rewrite length_app, length_compact; lia).
  assert (zlen (pre ++ CompactPointXYZIT be p) / 26 = zlen pre / 26 + 1) as Hd
    by (rewrite Hl, Z.mul_comm; by apply Z.div_mul).
  rewrite <- Hd, IH.
  - change (compact_bytes (p :: pts)) with (CompactPointXYZIT be p ++ compact_bytes pts).
    by rewrite <- !app_assoc.
  - by rewrite Hd.
  - rewrite length_drop. lia.
Qed.
End encoding.

(** ** Reading back *)

Record wf_point (p : PPoint) : Prop := {
  wf_x : valid_binary 24 128 (x p) = true;
  wf_y : valid_binary 24 128 (y p) = true;
  wf_z : valid_binary 24 128 (z p) = true;
  wf_intensity : valid_binary 24 128 (intensity p) = true;
  wf_timestamp : valid_binary 53 1024 (timestamp p) = true;
  wf_ring : 0 <= ring p < 2 ^ 16;
}.

Record wf_cloud (c : PPointCloud) : Prop := {
  wf_points : Forall wf_point (points c);
  wf_width : 0 <= pc_width c < 2 ^ 32;
  wf_height : 0 <= pc_height c < 2 ^ 32;
}.

Section reading.
Context (be : bool).

Lemma read_value_middle n pre v post off :
  Z.of_nat (length pre) = off -> 0 <= v < 256 ^ Z.of_nat n ->
  read_value be n (pre ++ host_bytes be n v ++ post) off = Some v.
Proof.
  intros <- Hv. unfold read_value. rewrite Nat2Z.id, drop_app_length.
  rewrite take_app_length' by (by rewrite length_host_bytes).
  rewrite decide_True by apply length_host_bytes. by rewrite host_value_bytes.
Qed.

Lemma read_value_shift n pre bytes off :
  0 <= off -> read_value be n (pre ++ bytes) (zlen pre + off) = read_value be n bytes off.
Proof.
  intros Ho. unfold read_value.
  by replace (Z.to_nat (zlen pre + off)) with (length pre + Z.to_nat off)%nat by lia;
    rewrite drop_app_add'.
Qed.

(** Each value of a packed point is read back at its field's offset. *)
Lemma read_compact p post :
  wf_point p ->
  let bytes := CompactPointXYZIT be p ++ post in
  read_value be 4 bytes 0 = Some (f32_bits (x p)) /\
  read_value be 4 bytes 4 = Some (f32_bits (y p)) /\
  read_value be 4 bytes 8 = Some (f32_bits (z p)) /\
  read_value be 4 bytes 12 = Some (f32_bits (intensity p)) /\
  read_value be 8 bytes 16 = Some (f64_bits (timestamp p)) /\
  read_value be 2 bytes 24 = Some (ring p).
Proof.
  intros [Hx Hy Hz Hi Ht Hr] bytes. subst bytes. unfold CompactPointXYZIT.
  apply (float_bits_range 24 128 ltac:(lia)) in Hx, Hy, Hz, Hi.
  apply (float_bits_range 53 1024 ltac:(lia)) in Ht. rewrite <- !app_assoc.
  set (bx := host_bytes be 4 (f32_bits (x p))). set (by_ := host_bytes be 4 (f32_bits (y p))).
  set (bz := host_bytes be 4 (f32_bits (z p))). set (bi := host_bytes be 4 (f32_bits (intensity p))).
  set (bt := host_bytes be 8 (f64_bits (timestamp p))).
  split_and!.
  - by apply (read_value_middle 4 []).
  - by apply (read_value_middle 4 bx); [subst bx; rewrite length_host_bytes|].
  - rewrite (app_assoc bx). apply read_value_middle; [|done].
    by subst bx by_; rewrite length_app, !length_host_bytes.
  - rewrite (app_assoc bx), (app_assoc (bx ++ by_)). apply read_value_middle; [|done].
    by subst bx by_ bz; rewrite !length_app, !length_host_bytes.
  - rewrite (app_assoc bx), (app_assoc (bx ++ by_)), (app_assoc ((bx ++ by_) ++ bz)).
    apply read_value_middle; [|done].
    by subst bx by_ bz bi; rewrite !length_app, !length_host_bytes.
  - rewrite (app_assoc bx), (app_assoc (bx ++ by_)), (app_assoc ((bx ++ by_) ++ bz)),
      (app_assoc (((bx ++ by_) ++ bz) ++ bi)).
    apply read_value_middle; [|done].
    by subst bx by_ bz bi bt; rewrite !length_app, !length_host_bytes.
Qed.

Lemma compact_bytes_split pts i p :
  pts !! i = Some p ->
  exists pre post, compact_bytes be pts = pre ++ CompactPointXYZIT be p ++ post /\
    zlen pre = 26 * Z.of_nat i.
Proof.
  intros Hp. exists (compact_bytes be (take i pts)), (compact_bytes be (drop (S i) pts)).
  split.
  - rewrite <- (take_drop_middle pts i p Hp) at 1. unfold compact_bytes.
    by rewrite bind_app, bind_cons.
  - rewrite length_compact_bytes, length_take.
    apply lookup_lt_Some in Hp. lia.
Qed.
End reading.

(** ** The whole message *)

Section message.
Context (dt : datatypes) (be : bool).

Lemma compact_dimensions_spec c h w :
  0 <= pc_width c < 2 ^ 32 -> 0 <= pc_height c < 2 ^ 32 -> zlen (points c) <= UINT32_MAX ->
  compact_dimensions c = (h, w) ->
  w * h = zlen (points c) /\ 0 <= w <= UINT32_MAX /\ 0 < h <= UINT32_MAX.
Proof.
  intros Hw Hh Hn. unfold compact_dimensions, UINT32_MAX in *.
  rewrite (uwrap_small 64) by nia. rewrite (uwrap_small 32) by lia.
  destruct (Z.eqb_spec (pc_height c) 0);
    destruct (Z.eqb_spec (pc_width c * pc_height c) (zlen (points c)));
    simpl; intros [= <- <-]; lia.
Qed.

Lemma copy_points_all {E} pts n :
  n = 26 * zlen pts ->
  copy_points (E := E) be 0 pts (replicate (Z.to_nat n) 0) = Ret (compact_bytes be pts).
Proof.
  intros ->. pose proof (copy_points_spec (E := E) be pts [] []
    (replicate (Z.to_nat (26 * zlen pts)) 0) eq_refl ltac:(rewrite length_replicate; lia)) as H.
  by rewrite !app_nil_r in H.
Qed.

Lemma read_point_spec out pts i p :
  data out = compact_bytes be pts -> fields out = compact_fields dt ->
  is_bigendian out = be -> point_step out = 26 ->
  Forall wf_point pts -> pts !! i = Some p -> read_point dt out (Z.of_nat i) = Some p.
Proof.
  intros Hd Hf Hb Hs Hwf Hi.
  pose proof (Forall_lookup_1 _ _ _ _ Hwf Hi) as Hp.
  destruct (compact_bytes_split be pts i p Hi) as (pre & post & Hsplit & Hpre).
  destruct (read_compact be p post Hp) as (R1 & R2 & R3 & R4 & R5 & R6).
  assert (forall name ty n off v,
    find_field name (compact_fields dt) = Some (pointField name off ty) -> 0 <= off ->
    read_value be n (CompactPointXYZIT be p ++ post) off = Some v ->
    read_field out name ty n (Z.of_nat i) = Some v) as Hread.
  { intros name ty n off v Hfind Ho Hv. unfold read_field. rewrite Hf, Hfind. simpl.
    rewrite decide_True by done. rewrite Hb, Hd, Hs, Hsplit.
    replace (Z.of_nat i * 26 + off) with (zlen pre + off) by lia.
    by rewrite read_value_shift. }
  unfold read_point.
  rewrite (Hread "x" _ _ _ _ eq_refl ltac:(lia) R1). simpl.
  rewrite (Hread "y" _ _ _ _ eq_refl ltac:(lia) R2). simpl.
  rewrite (Hread "z" _ _ _ _ eq_refl ltac:(lia) R3). simpl.
  rewrite (Hread "intensity" _ _ _ _ eq_refl ltac:(lia) R4). simpl.
  rewrite (Hread "timestamp" _ _ _ _ eq_refl ltac:(lia) R5). simpl.
  rewrite (Hread "ring" _ _ _ _ eq_refl ltac:(lia) R6). simpl.
  destruct Hp as [Hx Hy Hz Hi' Ht _]. unfold f32_bits, f32_of_bits, f64_bits, f64_of_bits.
  rewrite !float_of_bits_bits by (done || lia). by destruct p.
Qed.

(** C28: [makeCompactPointCloud2] never writes outside the message's buffer.
    It throws exactly when the cloud has 2^32 points or more, or a row of the
    chosen dimensions would not fit [row_step]; a cloud of up to 165 191 049
    points never throws. Otherwise the dimensions, [row_step] and buffer size
    agree with the number of points without overflow, and a subscriber that
    reads the message by its declared fields and byte order gets back every
    point, every value of every coordinate exactly. *)
Theorem compact_cloud_roundtrip (c : PPointCloud) (Hwf : wf_cloud c) :
  let n := zlen (points c) in
  match makeCompactPointCloud2 dt be c with
  | Undef => False
  | Err exceeds_width_range => UINT32_MAX < n
  | Err exceeds_row_step_range =>
      n <= UINT32_MAX /\ UINT32_MAX < 26 * (compact_dimensions c).2 <= 26 * n
  | Ret out =>
      width out * height out = n /\ row_step out = 26 * width out /\
      zlen (data out) = row_step out * height out /\
      forall i p, points c !! i = Some p -> read_point dt out (Z.of_nat i) = Some p
  end.
Proof.
  intros n. unfold makeCompactPointCloud2. fold n.
  destruct (Z.ltb_spec UINT32_MAX n) as [Hn|Hn]; [done|].
  destruct (compact_dimensions c) as [h w] eqn:Hd.
  destruct (compact_dimensions_spec c h w (wf_width _ Hwf) (wf_height _ Hwf) Hn Hd) as (Hwh & Hw & Hh). fold n in Hwh.
  unfold UINT32_MAX, kCompactPointStep in *.
  destruct (Z.ltb_spec ((2 ^ 32 - 1) / 26) w) as [Hrow|Hrow]; cbn [snd].
  - split; [done|]. change ((2 ^ 32 - 1) / 26) with 165191049 in Hrow. nia.
  - change ((2 ^ 32 - 1) / 26) with 165191049 in Hrow.
    rewrite (uwrap_small 32) by lia. rewrite (uwrap_small 64) by nia.
    rewrite copy_points_all by (fold n; nia). cbn [mbind outcome_bind Prelude.outcome_bind].
    cbn [width height row_step data]. split_and!; [done|lia| |].
    + rewrite length_compact_bytes. fold n. nia.
    + intros i p Hi. destruct Hwf as [Hpts _ _].
      eapply read_point_spec; [reflexivity..| |done|done|done].
      apply hostIsBigEndian_spec.
Qed.
End message.

Definition compact_example : PPointCloud :=
  {| pc_frame_id := "hesai"; pc_width := 2; pc_height := 1; pc_is_dense := false;
     points :=
       [{| x := f_lit 3 2; y := f_of_Z (-2); z := S754_zero true; intensity := f_of_Z 100;
           timestamp := d_lit 17000000001 10; ring := 31 |};
        {| x := S754_nan; y := S754_infinity true; z := f_lit 1 3; intensity := f_of_Z 0;
           timestamp := d_of_Z 5; ring := 65535 |}] |}.

Definition ros_datatypes : datatypes := {| UINT16 := 4; FLOAT32 := 7; FLOAT64 := 8 |}.

Lemma compact_cloud_roundtrip_witness :
  exists out, makeCompactPointCloud2 ros_datatypes true compact_example = Ret out /\
    zlen (data out) = 52 /\ read_point ros_datatypes out 1 = points compact_example !! 1%nat.
Proof.
  assert (wf_cloud compact_example) as Hwf.
  { split; [|done..]. repeat constructor; done. }
  pose proof (compact_cloud_roundtrip ros_datatypes true compact_example Hwf) as H.
  destruct (makeCompactPointCloud2 _ _ _) as [out| |] eqn:Hout.
  - exists out. destruct H as (_ & _ & _ & Hread). split; [done|].
    split; [|by apply (Hread 1%nat)].
    vm_compute in Hout. injection Hout as <-. reflexivity.
  - vm_compute in Hout. discriminate.
  - done.
Defined.
