(* ===== verification/Calendar.v ===== *)
(** [struct tm] and the C library's [mktime] as the packet parsers use them.

    [mktime] reads the process's time zone.  The parsers take it as a
    parameter; [mktime_utc] is its value under [TZ=UTC0], which
    [SetEnvironmentVariableTZ] installs when the environment has no [TZ].
    Out-of-range months are normalised as the C library does. *)
From S2P Require Import Prelude Ieee.
#[local] Open Scope Z_scope.

Record tm := {
  tm_sec : Z;
  tm_min : Z;
  tm_hour : Z;
  tm_mday : Z;
  tm_mon : Z;
  tm_year : Z;
  tm_isdst : Z;
}.

(** Days from 1970-01-01 to the given day of the proleptic Gregorian calendar;
    [m] is 1 to 12, years begin in March internally. *)
Definition days_from_civil (y m d : Z) : Z :=
  let y := if m <=? 2 then y - 1 else y in
  let era := y / 400 in
  let yoe := y mod 400 in
  let mp := (m + 9) mod 12 in
  let doy := (153 * mp + 2) / 5 + d - 1 in
  let doe := yoe * 365 + yoe / 4 - yoe / 100 + doy in
  era * 146097 + doe - 719468.

Definition mktime_utc (t : tm) : Z :=
  let y := 1900 + tm_year t + tm_mon t / 12 in
  let m := tm_mon t mod 12 + 1 in
  days_from_civil y m (tm_mday t) * 86400 + tm_hour t * 3600 + tm_min t * 60 + tm_sec t.

(** [SetEnvironmentVariableTZ], run by [Init]: [TZ] is the variable's value before,
    [block] what [malloc] left in the last byte of the block it returns, the one
    [copy] does not reach.  The result is the variable's value after. *)
Definition SetEnvironmentVariableTZ {E} (TZ : option string) (block : option Z) (putenv : Z)
    : outcome E (option string) :=
  match TZ with
  | Some zone => Ret (Some zone)
  | None =>
      match block with
      | None => Undef
      | Some last => if last =? 0 then Ret (if putenv =? 0 then Some "UTC0"%string else None) else Undef
      end
  end.

Example mktime_epoch :
  mktime_utc {| tm_sec := 0; tm_min := 0; tm_hour := 0; tm_mday := 1; tm_mon := 0;
                tm_year := 70; tm_isdst := 0 |} = 0.
Proof. reflexivity. Qed.

Example mktime_2024 :
  mktime_utc {| tm_sec := 56; tm_min := 34; tm_hour := 12; tm_mday := 29; tm_mon := 1;
                tm_year := 124; tm_isdst := 0 |} = 1709210096.
Proof. reflexivity. Qed.

(** ** The calendar *)

Definition leap (y : Z) : bool :=
  ((y mod 4 =? 0) && negb (y mod 100 =? 0)) || (y mod 400 =? 0).

Definition days_in_month (y m : Z) : Z :=
  if m =? 2 then (if leap y then 29 else 28)
  else if (m =? 4) || (m =? 6) || (m =? 9) || (m =? 11) then 30 else 31.

(** A UTC time as the sensor sends it: fields in their calendar ranges. *)
Record valid_tm (t : tm) : Prop := {
  valid_sec : 0 <= tm_sec t < 60;
  valid_min : 0 <= tm_min t < 60;
  valid_hour : 0 <= tm_hour t < 24;
  valid_mon : 0 <= tm_mon t < 12;
  valid_mday : 1 <= tm_mday t <= days_in_month (1900 + tm_year t) (tm_mon t + 1);
}.

(** The next second on the calendar. *)
Definition next_second (t : tm) : tm :=
  let set s mi h d mo y :=
    {| tm_sec := s; tm_min := mi; tm_hour := h; tm_mday := d; tm_mon := mo; tm_year := y;
       tm_isdst := tm_isdst t |} in
  if tm_sec t <? 59 then set (tm_sec t + 1) (tm_min t) (tm_hour t) (tm_mday t) (tm_mon t) (tm_year t)
  else if tm_min t <? 59 then set 0 (tm_min t + 1) (tm_hour t) (tm_mday t) (tm_mon t) (tm_year t)
  else if tm_hour t <? 23 then set 0 0 (tm_hour t + 1) (tm_mday t) (tm_mon t) (tm_year t)
  else if tm_mday t <? days_in_month (1900 + tm_year t) (tm_mon t + 1)
  then set 0 0 0 (tm_mday t + 1) (tm_mon t) (tm_year t)
  else if tm_mon t <? 11 then set 0 0 0 1 (tm_mon t + 1) (tm_year t)
  else set 0 0 0 1 0 (tm_year t + 1).

(** The calendar repeats every 400 years. *)
Lemma days_period q r m d : days_from_civil (400 * q + r) m d = q * 146097 + days_from_civil r m d.
Proof.
  unfold days_from_civil. destruct (m <=? 2).
  - replace (400 * q + r - 1) with (q * 400 + (r - 1)) by lia.
    rewrite Z.div_add_l, (Z.add_comm (q * 400)), Z.mod_add by lia. lia.
  - replace (400 * q + r) with (q * 400 + r) by lia.
    rewrite Z.div_add_l, (Z.add_comm (q * 400)), Z.mod_add by lia. lia.
Qed.

Lemma days_in_month_period q r m : days_in_month (400 * q + r) m = days_in_month r m.
Proof.
  unfold days_in_month, leap.
  replace ((400 * q + r) mod 4) with (r mod 4)
    by (replace (400 * q + r) with (r + 100 * q * 4) by lia; by rewrite Z.mod_add).
  replace ((400 * q + r) mod 100) with (r mod 100)
    by (replace (400 * q + r) with (r + 4 * q * 100) by lia; by rewrite Z.mod_add).
  replace ((400 * q + r) mod 400) with (r mod 400)
    by (replace (400 * q + r) with (r + q * 400) by lia; by rewrite Z.mod_add).
  done.
Qed.

(** The first of the next month follows the last day of this one: checked on
    one period. *)
Definition month_end_ok (y m : Z) : bool :=
  days_from_civil y (m + 1) 1 =? days_from_civil y m (days_in_month y m) + 1.

Lemma forallb_seqZ (f : Z -> bool) a n k :
  forallb f (seqZ a n) = true -> a <= k < a + n -> f k = true.
Proof. rewrite forallb_forall. intros H Hk. apply H. by apply list_elem_of_In, elem_of_seqZ. Qed.

Lemma month_ends_checked :
  forallb (fun y => forallb (month_end_ok y) (seqZ 1 11)) (seqZ 0 400) = true.
Proof. vm_compute. reflexivity. Qed.

Lemma days_next_month y m :
  1 <= m < 12 -> days_from_civil y (m + 1) 1 = days_from_civil y m (days_in_month y m) + 1.
Proof.
  intros Hm.
  rewrite (Z.div_mod y 400), !days_period, days_in_month_period by lia.
  assert (days_from_civil (y mod 400) (m + 1) 1 =
    days_from_civil (y mod 400) m (days_in_month (y mod 400) m) + 1) as Hn; [|lia].
  pose proof (Z.mod_pos_bound y 400 ltac:(lia)) as Hr. revert Hr. generalize (y mod 400).
  intros r Hr. apply Z.eqb_eq.
  apply (forallb_seqZ (month_end_ok r) 1 11); [|lia].
  exact (forallb_seqZ (fun y => forallb (month_end_ok y) (seqZ 1 11)) 0 400 r
    month_ends_checked Hr).
Qed.

Lemma days_next_year y : days_from_civil (y + 1) 1 1 = days_from_civil y 12 31 + 1.
Proof.
  unfold days_from_civil. change (1 <=? 2) with true. change (12 <=? 2) with false. cbv iota zeta.
  replace (y + 1 - 1) with y by lia.
  change ((153 * ((1 + 9) mod 12) + 2) / 5) with 306.
  change ((153 * ((12 + 9) mod 12) + 2) / 5) with 275. lia.
Qed.

Lemma days_next_day y m d : days_from_civil y m (d + 1) = days_from_civil y m d + 1.
Proof. unfold days_from_civil. cbv zeta. lia. Qed.

Lemma mktime_utc_next t : valid_tm t -> mktime_utc (next_second t) = mktime_utc t + 1.
Proof.
  intros [Hs Hmi Hh Hmo Hd]. unfold next_second, mktime_utc. destruct t as [s mi h d mo y dst].
  cbn [tm_sec tm_min tm_hour tm_mday tm_mon tm_year] in *.
  destruct (Z.ltb_spec s 59); cbn [tm_sec tm_min tm_hour tm_mday tm_mon tm_year]; [lia|].
  destruct (Z.ltb_spec mi 59); cbn [tm_sec tm_min tm_hour tm_mday tm_mon tm_year]; [lia|].
  destruct (Z.ltb_spec h 23); cbn [tm_sec tm_min tm_hour tm_mday tm_mon tm_year]; [lia|].
  rewrite (Z.div_small mo), (Z.mod_small mo), (Z.add_0_r (1900 + y)) by lia.
  destruct (Z.ltb_spec d (days_in_month (1900 + y) (mo + 1)));
    cbn [tm_sec tm_min tm_hour tm_mday tm_mon tm_year].
  { rewrite (Z.div_small mo), (Z.mod_small mo), (Z.add_0_r (1900 + y)), days_next_day by lia. lia. }
  assert (d = days_in_month (1900 + y) (mo + 1)) as -> by lia.
  destruct (Z.ltb_spec mo 11); cbn [tm_sec tm_min tm_hour tm_mday tm_mon tm_year].
  - rewrite (Z.div_small (mo + 1)), (Z.mod_small (mo + 1)), (Z.add_0_r (1900 + y)) by lia.
    rewrite (days_next_month (1900 + y) (mo + 1)) by lia. lia.
  - assert (mo = 11) as -> by lia. change (0 / 12) with 0. change (0 mod 12 + 1) with 1.
    replace (1900 + (y + 1) + 0) with (1900 + y + 1) by lia.
    rewrite days_next_year. change (days_in_month (1900 + y) (11 + 1)) with 31.
    change (11 + 1) with 12. lia.
Qed.
