(* ===== verification/PacketFormat.v ===== *)
(** The packet structures of [pandarGeneral_internal.h], [pandarXT.h] and
    [pandarQT.h], and the pieces the five packet parsers share: reading
    little-endian fields, the block and unit loops, the UTC tail.

    The signedness of [char] is implementation-defined (it is signed on x86,
    unsigned on ARM): it is the parameter [char_signed].  The parsed packet is a
    local variable of the caller whose blocks start indeterminate: a unit or an
    azimuth not yet written is [None]. *)
From S2P Require Import Prelude Ieee Calendar.
#[local] Open Scope Z_scope.

(** ** Sizes *)

Definition SOB_ANGLE_SIZE : Z := 4.
Definition RAW_MEASURE_SIZE : Z := 3.
Definition LASER_COUNT : Z := 40.
Definition BLOCKS_PER_PACKET : Z := 10.
Definition BLOCK_SIZE : Z := RAW_MEASURE_SIZE * LASER_COUNT + SOB_ANGLE_SIZE.
Definition TIMESTAMP_SIZE : Z := 4.
Definition FACTORY_INFO_SIZE : Z := 1.
Definition ECHO_SIZE : Z := 1.
Definition RESERVE_SIZE : Z := 8.
Definition REVOLUTION_SIZE : Z := 2.
Definition INFO_SIZE : Z :=
  TIMESTAMP_SIZE + FACTORY_INFO_SIZE + ECHO_SIZE + RESERVE_SIZE + REVOLUTION_SIZE.
Definition UTC_TIME : Z := 6.
Definition PACKET_SIZE : Z := BLOCK_SIZE * BLOCKS_PER_PACKET + INFO_SIZE + UTC_TIME.
Definition LASER_RETURN_TO_DISTANCE_RATE : float := d_lit 4 1000.
Definition SEQ_NUM_SIZE : Z := 4.

Definition HS_LIDAR_TIME_SIZE : Z := 6.
Definition HS_LIDAR_L64_HEAD_SIZE : Z := 8.
Definition HS_LIDAR_L64_BLOCK_NUMBER_6 : Z := 6.
Definition HS_LIDAR_L64_BLOCK_NUMBER_7 : Z := 7.
Definition HS_LIDAR_L64_BLOCK_HEADER_AZIMUTH : Z := 2.
Definition HS_LIDAR_L64_UNIT_NUM : Z := 64.
Definition HS_LIDAR_L64_UNIT_SIZE : Z := 3.
Definition HS_LIDAR_L64_BLOCK_SIZE : Z :=
  HS_LIDAR_L64_UNIT_SIZE * HS_LIDAR_L64_UNIT_NUM + HS_LIDAR_L64_BLOCK_HEADER_AZIMUTH.
Definition HS_LIDAR_L64_TIMESTAMP_SIZE : Z := 4.
Definition HS_LIDAR_L64_ECHO_SIZE : Z := 1.
Definition HS_LIDAR_L64_FACTORY_SIZE : Z := 1.
Definition HS_LIDAR_L64_RESERVED_SIZE : Z := 8.
Definition HS_LIDAR_L64_ENGINE_VELOCITY : Z := 2.
Definition HS_LIDAR_L64_6_BLOCK_PACKET_BODY_SIZE : Z :=
  HS_LIDAR_L64_BLOCK_SIZE * HS_LIDAR_L64_BLOCK_NUMBER_6.
Definition HS_LIDAR_L64_7_BLOCK_PACKET_BODY_SIZE : Z :=
  HS_LIDAR_L64_BLOCK_SIZE * HS_LIDAR_L64_BLOCK_NUMBER_7.
Definition HS_LIDAR_L64_PACKET_TAIL_SIZE : Z := 26.
Definition HS_LIDAR_L64_PACKET_TAIL_WITHOUT_UDPSEQ_SIZE : Z := 22.
Definition HS_LIDAR_L64_6PACKET_SIZE : Z :=
  HS_LIDAR_L64_HEAD_SIZE + HS_LIDAR_L64_6_BLOCK_PACKET_BODY_SIZE + HS_LIDAR_L64_PACKET_TAIL_SIZE.
Definition HS_LIDAR_L64_7PACKET_SIZE : Z :=
  HS_LIDAR_L64_HEAD_SIZE + HS_LIDAR_L64_7_BLOCK_PACKET_BODY_SIZE + HS_LIDAR_L64_PACKET_TAIL_SIZE.
Definition HS_LIDAR_L64_6PACKET_WITHOUT_UDPSEQ_SIZE : Z :=
  HS_LIDAR_L64_HEAD_SIZE + HS_LIDAR_L64_6_BLOCK_PACKET_BODY_SIZE +
  HS_LIDAR_L64_PACKET_TAIL_WITHOUT_UDPSEQ_SIZE.
Definition HS_LIDAR_L64_7PACKET_WITHOUT_UDPSEQ_SIZE : Z :=
  HS_LIDAR_L64_HEAD_SIZE + HS_LIDAR_L64_7_BLOCK_PACKET_BODY_SIZE +
  HS_LIDAR_L64_PACKET_TAIL_WITHOUT_UDPSEQ_SIZE.

Definition HS_LIDAR_L20_HEAD_SIZE : Z := 8.
Definition HS_LIDAR_L20_BLOCK_NUMBER : Z := 20.
Definition HS_LIDAR_L20_BLOCK_HEADER_AZIMUTH : Z := 2.
Definition HS_LIDAR_L20_UNIT_NUM : Z := 20.
Definition HS_LIDAR_L20_UNIT_SIZE : Z := 3.
Definition HS_LIDAR_L20_BLOCK_SIZE : Z :=
  HS_LIDAR_L20_UNIT_SIZE * HS_LIDAR_L20_UNIT_NUM + HS_LIDAR_L20_BLOCK_HEADER_AZIMUTH.
Definition HS_LIDAR_L20_TIMESTAMP_SIZE : Z := 4.
Definition HS_LIDAR_L20_ECHO_SIZE : Z := 1.
Definition HS_LIDAR_L20_FACTORY_SIZE : Z := 1.
Definition HS_LIDAR_L20_RESERVED_SIZE : Z := 8.
Definition HS_LIDAR_L20_ENGINE_VELOCITY : Z := 2.
Definition HS_LIDAR_L20_BLOCK_PACKET_BODY_SIZE : Z :=
  HS_LIDAR_L20_BLOCK_SIZE * HS_LIDAR_L20_BLOCK_NUMBER.
Definition HS_LIDAR_L20_PACKET_TAIL_SIZE : Z := 22.
Definition HS_LIDAR_L20_PACKET_SIZE : Z :=
  HS_LIDAR_L20_HEAD_SIZE + HS_LIDAR_L20_BLOCK_PACKET_BODY_SIZE + HS_LIDAR_L20_PACKET_TAIL_SIZE.

Definition HS_LIDAR_QT_HEAD_SIZE : Z := 12.
Definition HS_LIDAR_QT_BLOCK_NUMBER : Z := 4.
Definition HS_LIDAR_QT_BLOCK_HEADER_AZIMUTH : Z := 2.
Definition HS_LIDAR_QT_UNIT_NUM : Z := 64.
Definition HS_LIDAR_QT_UNIT_SIZE : Z := 4.
Definition HS_LIDAR_QT_BLOCK_SIZE : Z :=
  HS_LIDAR_QT_UNIT_SIZE * HS_LIDAR_QT_UNIT_NUM + HS_LIDAR_QT_BLOCK_HEADER_AZIMUTH.
Definition HS_LIDAR_QT_BODY_SIZE : Z := HS_LIDAR_QT_BLOCK_SIZE * HS_LIDAR_QT_BLOCK_NUMBER.
Definition HS_LIDAR_QT_RESERVED_SIZE : Z := 10.
Definition HS_LIDAR_QT_ENGINE_VELOCITY : Z := 2.
Definition HS_LIDAR_QT_TIMESTAMP_SIZE : Z := 4.
Definition HS_LIDAR_QT_ECHO_SIZE : Z := 1.
Definition HS_LIDAR_QT_FACTORY_SIZE : Z := 1.
Definition HS_LIDAR_QT_PACKET_TAIL_SIZE : Z := 28.
Definition HS_LIDAR_QT_PACKET_TAIL_WITHOUT_UDPSEQ_SIZE : Z := 24.
Definition HS_LIDAR_QT_PACKET_SIZE : Z :=
  HS_LIDAR_QT_HEAD_SIZE + HS_LIDAR_QT_BODY_SIZE + HS_LIDAR_QT_PACKET_TAIL_SIZE.
Definition HS_LIDAR_QT_PACKET_WITHOUT_UDPSEQ_SIZE : Z :=
  HS_LIDAR_QT_HEAD_SIZE + HS_LIDAR_QT_BODY_SIZE + HS_LIDAR_QT_PACKET_TAIL_WITHOUT_UDPSEQ_SIZE.

Definition HS_LIDAR_XT_HEAD_SIZE : Z := 12.
Definition HS_LIDAR_XT_BLOCK_NUMBER : Z := 8.
Definition HS_LIDAR_XT_BLOCK_HEADER_AZIMUTH : Z := 2.
Definition HS_LIDAR_XT_UNIT_NUM : Z := 32.
Definition HS_LIDAR_XT_UNIT_SIZE : Z := 4.
Definition HS_LIDAR_XT_BLOCK_SIZE : Z :=
  HS_LIDAR_XT_UNIT_SIZE * HS_LIDAR_XT_UNIT_NUM + HS_LIDAR_XT_BLOCK_HEADER_AZIMUTH.
Definition HS_LIDAR_XT_BODY_SIZE : Z := HS_LIDAR_XT_BLOCK_SIZE * HS_LIDAR_XT_BLOCK_NUMBER.
Definition HS_LIDAR_XT_RESERVED_SIZE : Z := 10.
Definition HS_LIDAR_XT_ENGINE_VELOCITY : Z := 2.
Definition HS_LIDAR_XT_ECHO_SIZE : Z := 1.
Definition HS_LIDAR_XT_UTC_SIZE : Z := 6.
Definition HS_LIDAR_XT_PACKET_TAIL_SIZE : Z := 28.
Definition HS_LIDAR_XT_PACKET_SIZE : Z :=
  HS_LIDAR_XT_HEAD_SIZE + HS_LIDAR_XT_BODY_SIZE + HS_LIDAR_XT_PACKET_TAIL_SIZE.
Definition HS_LIDAR_XT16_PACKET_SIZE : Z := 568.
Definition HS_LIDAR_XTM_PACKET_SIZE : Z := 820.

(** ** Structures *)

(** A unit; [confidence] is 0 for the models whose unit has no such member. *)
Record Unit := { distance : float; intensity : Z; confidence : Z }.

Record Block := { azimuth : option Z; units : list (option Unit) }.

(** The headers; the protocol version is 0 for the models that have none. *)
Record Header := {
  sob : Z;
  chProtocolMajor : Z;
  chProtocolMinor : Z;
  chLaserNumber : Z;
  chBlockNumber : Z;
  chReturnType : Z;
  chDisUnit : Z;
}.

(** [HS_LIDAR_L64_Packet], [HS_LIDAR_L20_Packet], [HS_LIDAR_QT_Packet] and
    [HS_LIDAR_XT_Packet]; [udp_sequence] is 0 except for the last. *)
Record Packet := {
  header : Header;
  blocks : list Block;
  timestamp : Z;
  udp_sequence : Z;
  echo : Z;
  addtime : list Z;
  timestamp_point : float;
  spin_speed : float;
}.

(** The blocks of an uninitialised packet. *)
Definition blank_blocks (block_number unit_number : Z) : list Block :=
  replicate (Z.to_nat block_number)
    {| azimuth := None; units := replicate (Z.to_nat unit_number) None |}.

(** ** Reading fields *)

Section reading.
Context {E : Type}.

Definition rd (buf : list Z) (index : Z) : outcome E Z :=
  b ← arr_get buf index; Ret (Z.land b 0xff).

Definition rd16 (buf : list Z) (index : Z) : outcome E Z :=
  b0 ← rd buf index; b1 ← rd buf (index + 1); Ret (Z.lor b0 (Z.shiftl b1 8)).

(** Four bytes as an [int], converted to [unsigned int]. *)
Definition rd32 (buf : list Z) (index : Z) : outcome E Z :=
  b0 ← rd buf index; b1 ← rd buf (index + 1);
  b2 ← rd buf (index + 2); b3 ← rd buf (index + 3);
  Ret (u32 (Z.lor (Z.lor (Z.lor b0 (Z.shiftl b1 8)) (Z.shiftl b2 16)) (Z.shiftl b3 24))).

(** The start-of-block marker is big-endian. *)
Definition rd_sob (buf : list Z) (index : Z) : outcome E Z :=
  b0 ← rd buf index; b1 ← rd buf (index + 1); Ret (Z.lor (Z.shiftl b0 8) b1).

(** The six UTC bytes. *)
Definition rd_addtime (buf : list Z) (index : Z) : outcome E (list Z) :=
  a0 ← rd buf index; a1 ← rd buf (index + 1); a2 ← rd buf (index + 2);
  a3 ← rd buf (index + 3); a4 ← rd buf (index + 4); a5 ← rd buf (index + 5);
  Ret [a0; a1; a2; a3; a4; a5].
End reading.

Definition to_char (char_signed : bool) (v : Z) : Z := if char_signed then swrap 8 v else u8 v.

(** ** The UTC tail *)

Definition tm_of_addtime (addtime : list Z) : tm :=
  let at_ i := nth i addtime 0 in
  let year := at_ 0%nat + 100 in
  {| tm_year := if year >=? 200 then year - 100 else year;
     tm_mon := at_ 1%nat - 1;
     tm_mday := at_ 2%nat;
     tm_hour := at_ 3%nat;
     tm_min := at_ 4%nat;
     tm_sec := at_ 5%nat;
     tm_isdst := 0 |}.

Definition timestamp_point_of (mktime : tm -> Z) (t : tm) (microseconds : Z) : float :=
  d_add (d_of_Z (mktime t)) (d_div (d_of_Z microseconds) (d_of_Z 1000000)).

(** ** The block loop

    The loops of [ParseL64Data], [ParseL20Data], [ParseQTData] and
    [ParseXTData] differ in the sizes, and in whether a unit has a confidence
    byte. *)
Section block_loop.
Context {E : Type} (chDisUnit laser_number unit_size header_azimuth : Z) (has_confidence : bool).

Definition unit_distance (unRange : Z) : float :=
  d_div (d_of_Z (u32 (unRange * chDisUnit))) (d_of_Z 1000).

Fixpoint parse_units (n : nat) (unit index : Z) (buf : list Z) (us : list (option Unit))
    : outcome E (Z * list (option Unit)) :=
  match n with
  | O => Ret (index, us)
  | S n =>
      unRange ← rd16 buf index;
      intensity ← rd buf (index + 2);
      confidence ← (if has_confidence then rd buf (index + 3) else Ret 0);
      us ← arr_set us unit (Some {| distance := unit_distance unRange;
                                     intensity := intensity; confidence := confidence |});
      parse_units n (unit + 1) (index + unit_size) buf us
  end.

Fixpoint parse_blocks (n : nat) (block index : Z) (buf : list Z) (bs : list Block)
    : outcome E (Z * list Block) :=
  match n with
  | O => Ret (index, bs)
  | S n =>
      b ← arr_get bs block;
      az ← rd16 buf index;
      '(index, us) ← parse_units (Z.to_nat laser_number) 0 (index + header_azimuth) buf (units b);
      bs ← arr_set bs block {| azimuth := Some az; units := us |};
      parse_blocks n (block + 1) index buf bs
  end.
End block_loop.

(** ** Reading what was encoded *)

Section reading_facts.
Context {E : Type}.

Lemma rd_lookup (buf : list Z) (i : Z) b :
  0 <= i -> buf !! Z.to_nat i = Some b -> is_byte b -> rd (E := E) buf i = Ret b.
Proof.
  intros Hi Hl Hb. unfold rd. rewrite (arr_get_lookup _ _ _ Hi Hl). simpl.
  by rewrite byte_land_ff.
Qed.

Lemma rd_mid (pre l post : list Z) (k : Z) b :
  0 <= k -> l !! Z.to_nat k = Some b -> is_byte b ->
  rd (E := E) (pre ++ l ++ post) (zlen pre + k) = Ret b.
Proof.
  intros Hk Hl Hb. apply rd_lookup; [lia| |done].
  replace (Z.to_nat (zlen pre + k)) with (length pre + Z.to_nat k)%nat by lia.
  rewrite lookup_app_r by lia.
  replace (length pre + Z.to_nat k - length pre)%nat with (Z.to_nat k) by lia.
  rewrite lookup_app_l; [done|]. by eapply lookup_lt_Some.
Qed.

Lemma rd_in (buf : list Z) (i : Z) : 0 <= i < zlen buf -> exists b, rd (E := E) buf i = Ret b.
Proof.
  intros Hi. unfold rd. destruct (arr_get_in (E := E) buf i Hi) as (b & _ & ->). simpl. eauto.
Qed.

Lemma le_split_bytes_2 v : 0 <= v < 2 ^ 16 ->
  exists b0 b1, le_split 2 v = [b0; b1] /\ is_byte b0 /\ is_byte b1 /\
    Z.lor b0 (Z.shiftl b1 8) = v.
Proof.
  intros Hv. exists (v mod 256), (v / 256 mod 256). split; [done|].
  assert (is_byte (v mod 256)) by (apply Z.mod_pos_bound; lia).
  assert (is_byte (v / 256 mod 256)) by (apply Z.mod_pos_bound; lia).
  split_and!; [done..|]. rewrite lor_shiftl_add by (unfold is_byte in *; lia).
  assert (v / 256 < 256) by (apply Z.div_lt_upper_bound; lia).
  assert (0 <= v / 256) by (apply Z.div_pos; lia).
  rewrite (Z.mod_small (v / 256)) by lia. pose proof (Z.div_mod v 256). lia.
Qed.

Lemma rd16_mid pre post v :
  0 <= v < 2 ^ 16 -> rd16 (E := E) (pre ++ le_split 2 v ++ post) (zlen pre) = Ret v.
Proof.
  intros Hv. destruct (le_split_bytes_2 v Hv) as (b0 & b1 & -> & H0 & H1 & Hlor).
  unfold rd16. rewrite <- (Z.add_0_r (zlen pre)) at 1.
  rewrite (rd_mid pre _ post 0 b0) by done. cbn [mbind outcome_bind].
  rewrite (rd_mid pre _ post 1 b1) by done. cbn [mbind outcome_bind]. by rewrite Hlor.
Qed.

Lemma rd16_at pre l post v i :
  0 <= v < 2 ^ 16 -> l = le_split 2 v -> i = zlen pre ->
  rd16 (E := E) (pre ++ l ++ post) i = Ret v.
Proof. intros Hv -> ->. by apply rd16_mid. Qed.

Lemma rd32_mid pre post v :
  0 <= v < 2 ^ 32 -> rd32 (E := E) (pre ++ le_split 4 v ++ post) (zlen pre) = Ret v.
Proof.
  intros Hv. pose proof (le_split_bytes 4 v) as Hb. pose proof (le_combine_split 4 v) as Hc.
  destruct (le_split 4 v) as [|b0 [|b1 [|b2 [|b3 [|]]]]] eqn:Hs; try done.
  apply Forall_cons in Hb as [H0 Hb]. apply Forall_cons in Hb as [H1 Hb].
  apply Forall_cons in Hb as [H2 Hb]. apply Forall_cons in Hb as [H3 _].
  unfold rd32. rewrite <- (Z.add_0_r (zlen pre)) at 1.
  rewrite (rd_mid pre _ post 0 b0) by done. cbn [mbind outcome_bind].
  rewrite (rd_mid pre _ post 1 b1) by done. cbn [mbind outcome_bind].
  rewrite (rd_mid pre _ post 2 b2) by done. cbn [mbind outcome_bind].
  rewrite (rd_mid pre _ post 3 b3) by done. cbn [mbind outcome_bind].
  rewrite le_combine_lor4, Hc by done. rewrite Z.mod_small by (simpl; lia).
  by rewrite uwrap_small.
Qed.

Lemma rd_addtime_mid pre post at_ :
  length at_ = 6%nat -> Forall is_byte at_ ->
  rd_addtime (E := E) (pre ++ at_ ++ post) (zlen pre) = Ret at_.
Proof.
  intros Hl Hb. destruct at_ as [|a0 [|a1 [|a2 [|a3 [|a4 [|a5 [|]]]]]]]; try done.
  repeat (apply Forall_cons in Hb as [? Hb]).
  unfold rd_addtime. rewrite <- (Z.add_0_r (zlen pre)) at 1.
  rewrite (rd_mid pre _ post 0 a0) by done. cbn [mbind outcome_bind]. rewrite (rd_mid pre _ post 1 a1) by done. cbn [mbind outcome_bind].
  rewrite (rd_mid pre _ post 2 a2) by done. cbn [mbind outcome_bind]. rewrite (rd_mid pre _ post 3 a3) by done. cbn [mbind outcome_bind].
  rewrite (rd_mid pre _ post 4 a4) by done. cbn [mbind outcome_bind]. by rewrite (rd_mid pre _ post 5 a5).
Qed.

(** In bounds, every field read is defined. *)
Lemma rd16_in buf i : 0 <= i -> i + 2 <= zlen buf -> exists v, rd16 (E := E) buf i = Ret v.
Proof.
  intros Hi Hl. unfold rd16. destruct (rd_in buf i) as [b0 ->]; [lia|]. simpl.
  destruct (rd_in buf (i + 1)) as [b1 ->]; [lia|]. simpl. eauto.
Qed.

Lemma rd32_in buf i : 0 <= i -> i + 4 <= zlen buf -> exists v, rd32 (E := E) buf i = Ret v.
Proof.
  intros Hi Hl. unfold rd32. destruct (rd_in buf i) as [b0 ->]; [lia|]. simpl.
  destruct (rd_in buf (i + 1)) as [b1 ->]; [lia|]. simpl.
  destruct (rd_in buf (i + 2)) as [b2 ->]; [lia|]. simpl.
  destruct (rd_in buf (i + 3)) as [b3 ->]; [lia|]. simpl. eauto.
Qed.

Lemma rd_addtime_in buf i :
  0 <= i -> i + 6 <= zlen buf -> exists v, rd_addtime (E := E) buf i = Ret v.
Proof.
  intros Hi Hl. unfold rd_addtime. destruct (rd_in buf i) as [b0 ->]; [lia|]. simpl.
  destruct (rd_in buf (i + 1)) as [b1 ->]; [lia|]. simpl.
  destruct (rd_in buf (i + 2)) as [b2 ->]; [lia|]. simpl.
  destruct (rd_in buf (i + 3)) as [b3 ->]; [lia|]. simpl.
  destruct (rd_in buf (i + 4)) as [b4 ->]; [lia|]. simpl.
  destruct (rd_in buf (i + 5)) as [b5 ->]; [lia|]. simpl. eauto.
Qed.
End reading_facts.

(** ** The wire format of blocks *)

(** A unit and a block as transmitted: 16-bit range, intensity, confidence. *)
Record raw_unit := { raw_range : Z; raw_intensity : Z; raw_confidence : Z }.
Record raw_block := { raw_azimuth : Z; raw_units : list raw_unit }.

Definition wf_unit (u : raw_unit) : Prop :=
  0 <= raw_range u < 2 ^ 16 /\ is_byte (raw_intensity u) /\ is_byte (raw_confidence u).
Definition wf_block (laser_number : Z) (b : raw_block) : Prop :=
  0 <= raw_azimuth b < 2 ^ 16 /\ zlen (raw_units b) = laser_number /\
  Forall wf_unit (raw_units b).

Definition encode_unit (has_confidence : bool) (u : raw_unit) : list Z :=
  le_split 2 (raw_range u) ++ raw_intensity u ::
    (if has_confidence then [raw_confidence u] else []).
Definition encode_units (has_confidence : bool) (us : list raw_unit) : list Z :=
  us ≫= encode_unit has_confidence.
Definition encode_block (has_confidence : bool) (b : raw_block) : list Z :=
  le_split 2 (raw_azimuth b) ++ encode_units has_confidence (raw_units b).
Definition encode_blocks (has_confidence : bool) (bs : list raw_block) : list Z :=
  bs ≫= encode_block has_confidence.

(** What the parsers make of them. *)
Definition decode_unit (chDisUnit : Z) (has_confidence : bool) (u : raw_unit) : Unit :=
  {| distance := unit_distance chDisUnit (raw_range u); intensity := raw_intensity u;
     confidence := if has_confidence then raw_confidence u else 0 |}.

(** A decoded block in a block with room for more units. *)
Definition decode_block (chDisUnit : Z) (has_confidence : bool) (b : raw_block) (room : Block)
    : Block :=
  {| azimuth := Some (raw_azimuth b);
     units := (Some ∘ decode_unit chDisUnit has_confidence <$> raw_units b) ++
              drop (length (raw_units b)) (units room) |}.

Section loop_facts.
Context {E : Type} (chDisUnit laser_number unit_size header_azimuth : Z) (has_confidence : bool).
Context (Hunit : unit_size = if has_confidence then 4 else 3) (Hheader : header_azimuth = 2).
Context (Hlaser : 0 <= laser_number).

Abbreviation punits := (parse_units (E := E) chDisUnit unit_size has_confidence).
Abbreviation pblocks :=
  (parse_blocks (E := E) chDisUnit laser_number unit_size header_azimuth has_confidence).

(** *** Safety *)

Lemma parse_units_in n unit index buf us :
  0 <= index -> index + Z.of_nat n * unit_size <= zlen buf ->
  0 <= unit -> unit + Z.of_nat n <= zlen us ->
  exists us', punits n unit index buf us = Ret (index + Z.of_nat n * unit_size, us') /\
    length us' = length us.
Proof using Hunit.
  revert unit index us. induction n as [|n IH]; intros unit index us Hi Hlen Hu Hus.
  { exists us. split; [|done]. simpl. do 2 f_equal. lia. }
  assert (3 <= unit_size) as Hsz by (rewrite Hunit; by destruct has_confidence).
  cbn [parse_units]. destruct (rd16_in (E := E) buf index) as [r ->]; [lia..|].
  cbn [mbind outcome_bind].
  destruct (rd_in (E := E) buf (index + 2)) as [it ->]; [lia|]. cbn [mbind outcome_bind].
  assert (exists c, (if has_confidence then rd (E := E) buf (index + 3) else Ret 0) = Ret c)
    as [c ->].
  { destruct has_confidence; [apply rd_in; lia|eauto]. }
  cbn [mbind outcome_bind]. rewrite arr_set_in by lia. cbn [mbind outcome_bind].
  edestruct (IH (unit + 1) (index + unit_size)) as (us' & -> & Hl);
    [lia|lia|lia|rewrite length_insert; lia|].
  exists us'. rewrite Hl, length_insert. split; [|done]. do 2 f_equal. lia.
Qed.

Definition room_for (b : Block) : Prop := laser_number <= zlen (units b).

Lemma parse_blocks_in n block index buf bs :
  0 <= index -> index + Z.of_nat n * (2 + laser_number * unit_size) <= zlen buf ->
  0 <= block -> block + Z.of_nat n <= zlen bs -> Forall room_for bs ->
  exists bs', pblocks n block index buf bs =
    Ret (index + Z.of_nat n * (2 + laser_number * unit_size), bs') /\
    length bs' = length bs.
Proof using Hunit Hheader Hlaser.
  revert block index bs. induction n as [|n IH]; intros block index bs Hi Hlen Hb Hbs Hroom.
  { exists bs. split; [|done]. simpl. do 2 f_equal. lia. }
  assert (3 <= unit_size) as Hsz by (rewrite Hunit; by destruct has_confidence).
  set (bsz := 2 + laser_number * unit_size) in *. assert (2 <= bsz) as Hbsz by (subst bsz; nia).
  cbn [parse_blocks].
  destruct (arr_get_in (E := E) bs block) as (b & Hbl & ->); [lia|]. cbn [mbind outcome_bind].
  pose proof (Forall_lookup_1 _ _ _ _ Hroom Hbl) as Hbr. unfold room_for in Hbr.
  destruct (rd16_in (E := E) buf index) as [az ->]; [lia|nia|]. cbn [mbind outcome_bind].
  destruct (parse_units_in (Z.to_nat laser_number) 0 (index + header_azimuth) buf (units b))
    as (us & -> & Hus); [lia| |lia|lia|].
  { rewrite Z2Nat.id, Hheader by lia. subst bsz. nia. }
  cbn [mbind outcome_bind]. rewrite arr_set_in by lia. cbn [mbind outcome_bind].
  replace (index + header_azimuth + Z.of_nat (Z.to_nat laser_number) * unit_size)
    with (index + bsz) by (subst bsz; rewrite Z2Nat.id; lia).
  edestruct (IH (block + 1) (index + bsz)) as (bs' & -> & Hl);
    [lia|lia|lia|rewrite length_insert; lia| |].
  { apply Forall_insert; [done|]. unfold room_for. cbn [units]. by rewrite Hus. }
  exists bs'. rewrite Hl, length_insert. split; [|done]. do 2 f_equal. subst bsz. lia.
Qed.

(** *** Decoding what was encoded *)

Lemma length_encode_unit u : zlen (encode_unit has_confidence u) = unit_size.
Proof using Hunit.
  unfold encode_unit. rewrite length_app, length_le_split. rewrite Hunit.
  by destruct has_confidence.
Qed.

Lemma length_encode_units us : zlen (encode_units has_confidence us) = zlen us * unit_size.
Proof using Hunit.
  induction us as [|u us IH]; [done|].
  change (encode_units has_confidence (u :: us))
    with (encode_unit has_confidence u ++ encode_units has_confidence us).
  rewrite length_app, Nat2Z.inj_add, length_encode_unit, IH. cbn [length]. lia.
Qed.

Lemma parse_unit_step u pre post :
  wf_unit u ->
  rd16 (E := E) (pre ++ encode_unit has_confidence u ++ post) (zlen pre) = Ret (raw_range u) /\
  rd (E := E) (pre ++ encode_unit has_confidence u ++ post) (zlen pre + 2) =
    Ret (raw_intensity u) /\
  (if has_confidence
   then rd (E := E) (pre ++ encode_unit has_confidence u ++ post) (zlen pre + 3) else Ret 0) =
    Ret (if has_confidence then raw_confidence u else 0).
Proof.
  intros (Hr & Hi & Hc). unfold encode_unit. split_and!.
  - rewrite <- app_assoc. by apply rd16_mid.
  - by apply rd_mid.
  - destruct has_confidence; [by apply rd_mid|done].
Qed.

Lemma parse_units_encoded us pre post (dn rest : list (option Unit)) :
  Forall wf_unit us -> (length us <= length rest)%nat ->
  punits (length us) (zlen dn) (zlen pre) (pre ++ encode_units has_confidence us ++ post)
    (dn ++ rest) =
  Ret (zlen pre + zlen us * unit_size,
       dn ++ (Some ∘ decode_unit chDisUnit has_confidence <$> us) ++ drop (length us) rest).
Proof using Hunit.
  intros Hwf. revert pre dn rest. induction Hwf as [|u us Hu _ IH]; intros pre dn rest Hl.
  { simpl. do 2 f_equal. lia. }
  destruct rest as [|r rest]; [simpl in Hl; lia|].
  change (encode_units has_confidence (u :: us))
    with (encode_unit has_confidence u ++ encode_units has_confidence us).
  rewrite <- app_assoc. cbn [length parse_units].
  destruct (parse_unit_step u pre (encode_units has_confidence us ++ post) Hu) as (-> & H2 & H3).
  cbn [mbind outcome_bind]. rewrite H2. cbn [mbind outcome_bind]. rewrite H3.
  cbn [mbind outcome_bind]. rewrite arr_set_in by (rewrite length_app; cbn [length]; lia).
  cbn [mbind outcome_bind]. rewrite Nat2Z.id, insert_app_r_alt, Nat.sub_diag by lia.
  cbn [insert list_insert]. fold (decode_unit chDisUnit has_confidence u).
  specialize (IH (pre ++ encode_unit has_confidence u)
    (dn ++ [Some (decode_unit chDisUnit has_confidence u)]) rest ltac:(simpl in Hl; lia)).
  rewrite !length_app, !Nat2Z.inj_add, length_encode_unit, <- !app_assoc in IH.
  change (zlen [Some (decode_unit chDisUnit has_confidence u)]) with 1 in IH.
  etrans; [exact IH|]. cbn [app fmap list_fmap length drop]. do 2 f_equal. lia.
Qed.

Lemma length_encode_block b :
  zlen (raw_units b) = laser_number ->
  zlen (encode_block has_confidence b) = 2 + laser_number * unit_size.
Proof using Hunit.
  intros Hb. unfold encode_block.
  rewrite length_app, Nat2Z.inj_add, length_le_split, length_encode_units, Hb. lia.
Qed.

Lemma parse_blocks_encoded bs pre post (dn rest : list Block) :
  Forall (wf_block laser_number) bs -> Forall room_for rest -> (length bs <= length rest)%nat ->
  pblocks (length bs) (zlen dn) (zlen pre) (pre ++ encode_blocks has_confidence bs ++ post)
    (dn ++ rest) =
  Ret (zlen pre + zlen bs * (2 + laser_number * unit_size),
       dn ++ zip_with (decode_block chDisUnit has_confidence) bs rest ++ drop (length bs) rest).
Proof using Hunit Hheader Hlaser.
  intros Hwf. revert pre dn rest.
  induction Hwf as [|b bs (Haz & Hn & Hus) _ IH]; intros pre dn rest Hroom Hl.
  { simpl. do 2 f_equal. lia. }
  destruct rest as [|r rest]; [simpl in Hl; lia|].
  apply Forall_cons in Hroom as [Hr Hroom]. unfold room_for in Hr.
  change (encode_blocks has_confidence (b :: bs))
    with (encode_block has_confidence b ++ encode_blocks has_confidence bs).
  rewrite <- app_assoc. set (tl := encode_blocks has_confidence bs ++ post).
  assert (pre ++ encode_block has_confidence b ++ tl =
    pre ++ le_split 2 (raw_azimuth b) ++ encode_units has_confidence (raw_units b) ++ tl) as Hbuf
    by (unfold encode_block; by rewrite <- app_assoc).
  cbn [length parse_blocks]. rewrite Hbuf.
  rewrite (arr_get_lookup _ _ r) by (lia || by rewrite Nat2Z.id, list_lookup_middle).
  cbn [mbind outcome_bind]. rewrite rd16_mid by done. cbn [mbind outcome_bind].
  pose proof (parse_units_encoded (raw_units b) (pre ++ le_split 2 (raw_azimuth b)) tl []
    (units r) Hus ltac:(lia)) as Hpu.
  rewrite length_app, Nat2Z.inj_add, length_le_split, <- !app_assoc in Hpu.
  cbn [app length] in Hpu. change (Z.of_nat 2) with 2 in Hpu. rewrite <- Hheader in Hpu.
  replace (Z.to_nat laser_number) with (length (raw_units b)) by lia.
  etrans; [apply (f_equal (fun m => m ≫= _)), Hpu|]. cbn [mbind outcome_bind].
  rewrite arr_set_in by (rewrite length_app; cbn [length]; lia).
  cbn [mbind outcome_bind]. rewrite Nat2Z.id, insert_app_r_alt, Nat.sub_diag by lia.
  cbn [insert list_insert]. fold (decode_block chDisUnit has_confidence b r).
  specialize (IH (pre ++ encode_block has_confidence b)
    (dn ++ [decode_block chDisUnit has_confidence b r]) rest Hroom ltac:(simpl in Hl; lia)).
  rewrite !length_app, !Nat2Z.inj_add, length_encode_block, <- !app_assoc in IH by done.
  fold tl in IH. rewrite Hbuf in IH.
  replace (zlen pre + header_azimuth + zlen (raw_units b) * unit_size)
    with (zlen pre + (2 + laser_number * unit_size)) by lia.
  etrans; [exact IH|]. cbn [app zip_with length drop]. do 2 f_equal. lia.
Qed.
End loop_facts.
