(* ===== verification/ParseXT.v ===== *)
(** [ParseXTData]: the PandarXT-32, PandarXT-16 and PandarXTM packets. *)
From S2P Require Import Prelude Ieee Calendar PacketDefenses PacketFormat.
#[local] Open Scope Z_scope.

(** [return -1]. *)
Inductive parse_error := rejected.

Section parser.
Context (char_signed : bool) (mktime : tm -> Z).
Abbreviation to_char := (to_char char_signed).

Definition ParseXTHeader (recvbuf : list Z) (index : Z) : outcome parse_error Header :=
  sob ← rd_sob recvbuf index;
  chProtocolMajor ← rd recvbuf (index + 2);
  chProtocolMinor ← rd recvbuf (index + 3);
  chLaserNumber ← rd recvbuf (index + 6);
  chBlockNumber ← rd recvbuf (index + 7);
  chReturnType ← rd recvbuf (index + 8);
  chDisUnit ← rd recvbuf (index + 9);
  Ret {| sob := u16 sob;
         chProtocolMajor := to_char chProtocolMajor;
         chProtocolMinor := to_char chProtocolMinor;
         chLaserNumber := to_char chLaserNumber;
         chBlockNumber := to_char chBlockNumber;
         chReturnType := to_char chReturnType;
         chDisUnit := to_char chDisUnit |}.

(** The size a packet with these counts must have. *)
Definition xt_expected_size (block_count laser_count : Z) : Z :=
  HS_LIDAR_XT_HEAD_SIZE +
  block_count * (HS_LIDAR_XT_BLOCK_HEADER_AZIMUTH + laser_count * HS_LIDAR_XT_UNIT_SIZE) +
  HS_LIDAR_XT_PACKET_TAIL_SIZE.

(** The fields after the blocks, in order. *)
Definition ParseXTTail (recvbuf : list Z) (index : Z)
    : outcome parse_error (Z * Z * list Z * Z) :=
  let index := index + HS_LIDAR_XT_RESERVED_SIZE in
  echo ← rd recvbuf index;
  let index := index + HS_LIDAR_XT_ECHO_SIZE in
  speed ← rd16 recvbuf index;
  let index := index + HS_LIDAR_XT_ENGINE_VELOCITY in
  addtime ← rd_addtime recvbuf index;
  let index := index + HS_LIDAR_XT_UTC_SIZE in
  timestamp ← rd32 recvbuf index;
  Ret (echo, speed, addtime, timestamp).

Definition ParseXTData (recvbuf : list Z) (len : Z) : outcome parse_error Packet :=
  if negb (len =? HS_LIDAR_XT_PACKET_SIZE) && negb (len =? HS_LIDAR_XT16_PACKET_SIZE) &&
     negb (len =? HS_LIDAR_XTM_PACKET_SIZE) then Err rejected
  else
    header ← ParseXTHeader recvbuf 0;
    let index := HS_LIDAR_XT_HEAD_SIZE in
    if negb (sob header =? 0xEEFF) then Err rejected
    else
      let block_count := u8 (chBlockNumber header) in
      let laser_count := u8 (chLaserNumber header) in
      let expected_size := u64 (xt_expected_size block_count laser_count) in
      if (block_count =? 0) || (HS_LIDAR_XT_BLOCK_NUMBER <? block_count) ||
         (laser_count =? 0) || (HS_LIDAR_XT_UNIT_NUM <? laser_count) ||
         negb (expected_size =? u64 len) then Err rejected
      else
        '(decoded, sequence) ← decodeXtUdpSequence (Some recvbuf) (u64 len) (Some 0);
        if negb decoded then Err rejected
        else
          '(index, bs) ←
            parse_blocks (chDisUnit header) (chLaserNumber header) HS_LIDAR_XT_UNIT_SIZE
              HS_LIDAR_XT_BLOCK_HEADER_AZIMUTH true (Z.to_nat (chBlockNumber header)) 0 index
              recvbuf (blank_blocks HS_LIDAR_XT_BLOCK_NUMBER HS_LIDAR_XT_UNIT_NUM);
          '(echo, speed, addtime, timestamp) ← ParseXTTail recvbuf index;
          Ret {| header := header;
                 blocks := bs;
                 timestamp := timestamp;
                 udp_sequence := default 0 sequence;
                 echo := echo;
                 addtime := addtime;
                 timestamp_point := timestamp_point_of mktime (tm_of_addtime addtime) timestamp;
                 spin_speed := f_of_Z speed |}.
End parser.

(** ** The three layouts *)

(** Packet size, block count, laser count. *)
Definition xt_layouts : list (Z * Z * Z) := [(568, 8, 16); (820, 6, 32); (1080, 8, 32)].

Lemma xt_layout_unique len b l :
  len = 568 \/ len = 820 \/ len = 1080 -> 0 < b <= 8 -> 0 < l <= 32 ->
  xt_expected_size b l = len -> (len, b, l) ∈ xt_layouts.
Proof.
  unfold xt_expected_size, HS_LIDAR_XT_HEAD_SIZE, HS_LIDAR_XT_BLOCK_HEADER_AZIMUTH,
    HS_LIDAR_XT_UNIT_SIZE, HS_LIDAR_XT_PACKET_TAIL_SIZE.
  intros Hlen Hb Hl He.
  assert (b = 1 \/ b = 2 \/ b = 3 \/ b = 4 \/ b = 5 \/ b = 6 \/ b = 7 \/ b = 8) as Hc by lia.
  unfold xt_layouts. rewrite !elem_of_cons, elem_of_nil.
  destruct Hc as [->|[->|[->|[->|[->|[->|[->| ->]]]]]]];
    destruct Hlen as [->|[->| ->]]; first [lia | left; f_equal; lia | right; left; f_equal; lia
      | right; right; left; f_equal; lia].
Qed.

Lemma xt_layout_bounds len b l :
  (len, b, l) ∈ xt_layouts ->
  isSupportedXtPacketSize len = true /\ 0 < b <= 8 /\ 0 < l <= 32 /\
  xt_expected_size b l = len /\ len <= 1080.
Proof.
  unfold xt_layouts. rewrite !elem_of_cons, elem_of_nil.
  intros [[= -> -> ->]|[[= -> -> ->]|[[= -> -> ->]|[]]]]; split_and!; done.
Qed.

(** The bytes the parser accepts. *)
Definition xt_acceptable (buf : list Z) (len : Z) : Prop :=
  buf !! 0%nat = Some 0xEE /\ buf !! 1%nat = Some 0xFF /\
  exists b l, buf !! 7%nat = Some b /\ buf !! 6%nat = Some l /\ (len, b, l) ∈ xt_layouts.

#[export] Instance xt_acceptable_dec buf len : Decision (xt_acceptable buf len).
Proof.
  unfold xt_acceptable.
  destruct (buf !! 7%nat) as [b|]; [|right; by intros (_ & _ & ? & ? & [=] & _)].
  destruct (buf !! 6%nat) as [l|]; [|right; by intros (_ & _ & ? & ? & _ & [=] & _)].
  destruct (decide (buf !! 0%nat = Some 0xEE /\ buf !! 1%nat = Some 0xFF /\
    (len, b, l) ∈ xt_layouts)) as [(H0 & H1 & Hl)|Hn].
  - left. split; [done|]. split; [done|]. by exists b, l.
  - right. intros (H0 & H1 & b' & l' & Hb & Hl & Hlay). apply Hn.
    injection Hb as ->. by injection Hl as ->.
Defined.

(** ** The wire format *)

(** An XT packet as transmitted, with every byte of it. *)
Record raw_xt := {
  rx_major : Z;
  rx_minor : Z;
  rx_gap1 : list Z;
  rx_lasers : Z;
  rx_return : Z;
  rx_disunit : Z;
  rx_gap2 : list Z;
  rx_blocks : list raw_block;
  rx_reserved : list Z;
  rx_echo : Z;
  rx_speed : Z;
  rx_utc : list Z;
  rx_timestamp : Z;
  rx_factory : Z;
  rx_sequence : Z;
}.

Record wf_xt (r : raw_xt) : Prop := {
  wf_bytes : Forall is_byte [rx_major r; rx_minor r; rx_return r; rx_disunit r; rx_echo r;
    rx_factory r];
  wf_gap1 : length (rx_gap1 r) = 2%nat /\ Forall is_byte (rx_gap1 r);
  wf_gap2 : length (rx_gap2 r) = 2%nat /\ Forall is_byte (rx_gap2 r);
  wf_blocks : Forall (wf_block (rx_lasers r)) (rx_blocks r);
  wf_layout : exists len, (len, zlen (rx_blocks r), rx_lasers r) ∈ xt_layouts;
  wf_reserved : length (rx_reserved r) = 10%nat /\ Forall is_byte (rx_reserved r);
  wf_speed : 0 <= rx_speed r < 2 ^ 16;
  wf_utc : length (rx_utc r) = 6%nat /\ Forall is_byte (rx_utc r);
  wf_ts : 0 <= rx_timestamp r < 2 ^ 32;
  wf_sequence : 0 <= rx_sequence r < 2 ^ 32;
}.

Definition encode_xt_header (r : raw_xt) : list Z :=
  [0xEE; 0xFF; rx_major r; rx_minor r] ++ rx_gap1 r ++
  [rx_lasers r; zlen (rx_blocks r); rx_return r; rx_disunit r] ++ rx_gap2 r.

Definition encode_xt_tail (r : raw_xt) : list Z :=
  rx_reserved r ++ [rx_echo r] ++ le_split 2 (rx_speed r) ++ rx_utc r ++
  le_split 4 (rx_timestamp r) ++ [rx_factory r] ++ le_split 4 (rx_sequence r).

Definition encode_xt (r : raw_xt) : list Z :=
  encode_xt_header r ++ encode_blocks true (rx_blocks r) ++ encode_xt_tail r.

(** The packet the parser should produce. *)
Definition decode_xt (char_signed : bool) (mktime : tm -> Z) (r : raw_xt) : Packet :=
  let ch := to_char char_signed in
  let blank := blank_blocks HS_LIDAR_XT_BLOCK_NUMBER HS_LIDAR_XT_UNIT_NUM in
  {| header :=
       {| sob := 0xEEFF; chProtocolMajor := ch (rx_major r); chProtocolMinor := ch (rx_minor r);
          chLaserNumber := rx_lasers r; chBlockNumber := zlen (rx_blocks r);
          chReturnType := ch (rx_return r); chDisUnit := ch (rx_disunit r) |};
     blocks := zip_with (decode_block (ch (rx_disunit r)) true) (rx_blocks r) blank ++
               drop (length (rx_blocks r)) blank;
     timestamp := rx_timestamp r;
     udp_sequence := rx_sequence r;
     echo := rx_echo r;
     addtime := rx_utc r;
     timestamp_point := timestamp_point_of mktime (tm_of_addtime (rx_utc r)) (rx_timestamp r);
     spin_speed := f_of_Z (rx_speed r) |}.

(** ** Safety and acceptance *)

Section safety.
Context (char_signed : bool) (mktime : tm -> Z).

Lemma to_char_small v : 0 <= v < 128 -> to_char char_signed v = v.
Proof.
  intros Hv. unfold to_char. destruct char_signed; [apply swrap_small|apply uwrap_small]; lia.
Qed.

Lemma u8_to_char v : is_byte v -> u8 (to_char char_signed v) = v.
Proof.
  intros Hv. unfold to_char. destruct char_signed.
  - rewrite uwrap_swrap by done. by apply uwrap_small.
  - rewrite uwrap_idem by done. by apply uwrap_small.
Qed.

Lemma blank_room n m : 0 <= m -> Forall (room_for m) (blank_blocks n m).
Proof.
  intros Hm. apply Forall_replicate. unfold room_for. cbn [units]. rewrite length_replicate. lia.
Qed.

Lemma rd_head buf (i : Z) :
  Forall is_byte buf -> 0 <= i < zlen buf ->
  exists b, buf !! Z.to_nat i = Some b /\ is_byte b /\ rd (E := parse_error) buf i = Ret b.
Proof.
  intros Hb Hi. destruct (lookup_lt_is_Some_2 buf (Z.to_nat i)) as [b Hl]; [lia|].
  pose proof (Forall_lookup_1 _ _ _ _ Hb Hl) as Hbb. exists b. split_and!; [done..|].
  by apply rd_lookup; [lia|..].
Qed.

Lemma sob_value b0 b1 :
  is_byte b0 -> is_byte b1 ->
  u16 (Z.lor (Z.shiftl b0 8) b1) = b0 * 256 + b1.
Proof.
  unfold is_byte. intros H0 H1. rewrite Z.lor_comm, lor_shiftl_add by lia.
  rewrite uwrap_small by lia. lia.
Qed.

Lemma ParseXTHeader_spec buf :
  Forall is_byte buf -> 12 <= zlen buf ->
  exists b0 b1 b6 b7 h, ParseXTHeader char_signed buf 0 = Ret h /\
    buf !! 0%nat = Some b0 /\ buf !! 1%nat = Some b1 /\ buf !! 6%nat = Some b6 /\
    buf !! 7%nat = Some b7 /\ is_byte b0 /\ is_byte b1 /\ is_byte b6 /\ is_byte b7 /\
    sob h = b0 * 256 + b1 /\ chLaserNumber h = to_char char_signed b6 /\
    chBlockNumber h = to_char char_signed b7.
Proof.
  intros Hb Hl.
  destruct (rd_head buf 0 Hb) as (b0 & L0 & B0 & R0); [lia|].
  destruct (rd_head buf 1 Hb) as (b1 & L1 & B1 & R1); [lia|].
  destruct (rd_head buf 2 Hb) as (b2 & _ & _ & R2); [lia|].
  destruct (rd_head buf 3 Hb) as (b3 & _ & _ & R3); [lia|].
  destruct (rd_head buf 6 Hb) as (b6 & L6 & B6 & R6); [lia|].
  destruct (rd_head buf 7 Hb) as (b7 & L7 & B7 & R7); [lia|].
  destruct (rd_head buf 8 Hb) as (b8 & _ & _ & R8); [lia|].
  destruct (rd_head buf 9 Hb) as (b9 & _ & _ & R9); [lia|].
  exists b0, b1, b6, b7. eexists. split.
  - unfold ParseXTHeader, rd_sob. rewrite !Z.add_0_l.
    rewrite R0. cbn [mbind outcome_bind]. rewrite R1. cbn [mbind outcome_bind].
    rewrite R2. cbn [mbind outcome_bind]. rewrite R3. cbn [mbind outcome_bind].
    rewrite R6. cbn [mbind outcome_bind]. rewrite R7. cbn [mbind outcome_bind].
    rewrite R8. cbn [mbind outcome_bind]. rewrite R9. reflexivity.
  - cbn [sob chLaserNumber chBlockNumber]. rewrite sob_value by done. split_and!; done.
Qed.
End safety.

(** ** Parsing what was encoded *)

Section roundtrip.
Context (char_signed : bool) (mktime : tm -> Z).
Implicit Types (r : raw_xt).

Lemma length_encode_xt_header r : wf_xt r -> zlen (encode_xt_header r) = 12.
Proof.
  intros Hr. unfold encode_xt_header. rewrite !length_app.
  rewrite (proj1 (wf_gap1 r Hr)), (proj1 (wf_gap2 r Hr)). done.
Qed.

Lemma length_encode_xt_tail r : wf_xt r -> zlen (encode_xt_tail r) = 28.
Proof.
  intros Hr. unfold encode_xt_tail. rewrite !length_app, !length_le_split.
  rewrite (proj1 (wf_reserved r Hr)), (proj1 (wf_utc r Hr)). done.
Qed.

Lemma length_encode_blocks laser_number bs :
  Forall (wf_block laser_number) bs ->
  zlen (encode_blocks true bs) = zlen bs * (2 + laser_number * 4).
Proof.
  induction 1 as [|b bs (_ & Hb & _) _ IH]; [done|].
  change (encode_blocks true (b :: bs)) with (encode_block true b ++ encode_blocks true bs).
  rewrite length_app, Nat2Z.inj_add, IH, (length_encode_block laser_number 4 true) by done.
  cbn [length]. lia.
Qed.

Lemma length_encode_xt r :
  wf_xt r -> zlen (encode_xt r) = xt_expected_size (zlen (rx_blocks r)) (rx_lasers r).
Proof.
  intros Hr. unfold encode_xt. rewrite !length_app, !Nat2Z.inj_add.
  rewrite length_encode_xt_header, length_encode_xt_tail by done.
  rewrite (length_encode_blocks (rx_lasers r)) by apply Hr.
  unfold xt_expected_size, HS_LIDAR_XT_HEAD_SIZE, HS_LIDAR_XT_BLOCK_HEADER_AZIMUTH,
    HS_LIDAR_XT_UNIT_SIZE, HS_LIDAR_XT_PACKET_TAIL_SIZE. lia.
Qed.

Lemma ParseXTHeader_encoded r post :
  wf_xt r ->
  ParseXTHeader char_signed (encode_xt_header r ++ post) 0 =
  Ret (header (decode_xt char_signed mktime r)).
Proof.
  intros Hr. unfold encode_xt_header, decode_xt. cbn [header].
  destruct (wf_gap1 r Hr) as [L1 B1], (wf_gap2 r Hr) as [L2 B2].
  destruct (rx_gap1 r) as [|g0 [|g1 [|]]]; try done.
  destruct (rx_gap2 r) as [|g2 [|g3 [|]]]; try done.
  destruct (wf_layout r Hr) as [len Hlay]. apply xt_layout_bounds in Hlay as (_ & Hb & Hl & _).
  pose proof (wf_bytes r Hr) as Hby. rewrite !Forall_cons in Hby.
  destruct Hby as (M1 & M2 & M3 & M4 & _).
  assert (forall k v, 0 <= k < 12 -> is_byte v ->
    ([0xEE; 0xFF; rx_major r; rx_minor r] ++ [g0; g1] ++ [rx_lasers r; zlen (rx_blocks r);
      rx_return r; rx_disunit r] ++ [g2; g3]) !! Z.to_nat k = Some v ->
    rd (E := parse_error) (([0xEE; 0xFF; rx_major r; rx_minor r] ++ [g0; g1] ++ [rx_lasers r;
      zlen (rx_blocks r); rx_return r; rx_disunit r] ++ [g2; g3]) ++ post) k = Ret v) as Hrd.
  { intros k v Hk Hv Hkv. apply rd_lookup; [lia| |done].
    rewrite lookup_app_l; [done|]. by eapply lookup_lt_Some. }
  unfold ParseXTHeader, rd_sob. rewrite !Z.add_0_l.
  rewrite (Hrd 0 0xEE) by done. cbn [mbind outcome_bind].
  rewrite (Hrd 1 0xFF) by done. cbn [mbind outcome_bind].
  rewrite (Hrd 2 (rx_major r)) by done. cbn [mbind outcome_bind].
  rewrite (Hrd 3 (rx_minor r)) by done. cbn [mbind outcome_bind].
  rewrite (Hrd 6 (rx_lasers r)) by (done || unfold is_byte; lia). cbn [mbind outcome_bind].
  rewrite (Hrd 7 (zlen (rx_blocks r))) by (done || unfold is_byte; lia).
  cbn [mbind outcome_bind].
  rewrite (Hrd 8 (rx_return r)) by done. cbn [mbind outcome_bind].
  rewrite (Hrd 9 (rx_disunit r)) by done. cbn [mbind outcome_bind].
  by rewrite (to_char_small char_signed (rx_lasers r)),
    (to_char_small char_signed (zlen (rx_blocks r))) by lia.
Qed.

Lemma ParseXTTail_encoded r pre post :
  wf_xt r ->
  ParseXTTail (pre ++ encode_xt_tail r ++ post) (zlen pre) =
  Ret (rx_echo r, rx_speed r, rx_utc r, rx_timestamp r).
Proof.
  intros Hr. unfold ParseXTTail, encode_xt_tail, HS_LIDAR_XT_RESERVED_SIZE, HS_LIDAR_XT_ECHO_SIZE,
    HS_LIDAR_XT_ENGINE_VELOCITY, HS_LIDAR_XT_UTC_SIZE.
  destruct (wf_reserved r Hr) as [Lr _], (wf_utc r Hr) as [Lu Bu].
  pose proof (wf_bytes r Hr) as Hby. rewrite !Forall_cons in Hby.
  destruct Hby as (_ & _ & _ & _ & Be & _).
  rewrite <- !app_assoc, (app_assoc pre).
  replace (zlen pre + 10) with (zlen (pre ++ rx_reserved r) + 0) by (rewrite length_app; lia).
  set (p1 := pre ++ rx_reserved r). rewrite (rd_mid p1 [rx_echo r] _ 0 (rx_echo r)) by done.
  cbn [mbind outcome_bind]. rewrite (app_assoc p1).
  replace (zlen p1 + 0 + 1) with (zlen (p1 ++ [rx_echo r])) by (rewrite length_app; simpl; lia).
  set (p2 := p1 ++ [rx_echo r]). rewrite rd16_mid by apply Hr.
  cbn [mbind outcome_bind]. rewrite (app_assoc p2).
  replace (zlen p2 + 2) with (zlen (p2 ++ le_split 2 (rx_speed r)))
    by (rewrite length_app, length_le_split; lia).
  set (p3 := p2 ++ le_split 2 (rx_speed r)). rewrite rd_addtime_mid by done.
  cbn [mbind outcome_bind]. rewrite (app_assoc p3).
  replace (zlen p3 + 6) with (zlen (p3 ++ rx_utc r)) by (rewrite length_app; lia).
  rewrite rd32_mid by apply Hr. done.
Qed.

(** The four bytes of the sequence number. *)
Lemma encode_xt_sequence r :
  wf_xt r ->
  drop (Z.to_nat (zlen (encode_xt r) - 4)) (encode_xt r) = le_split 4 (rx_sequence r).
Proof.
  intros Hr. unfold encode_xt, encode_xt_tail. rewrite !app_assoc.
  apply drop_app_length'. rewrite !length_app, !length_le_split. lia.
Qed.

Lemma encode_xt_bytes r : wf_xt r -> Forall is_byte (drop (Z.to_nat (zlen (encode_xt r) - 4)) (encode_xt r)).
Proof. intros Hr. rewrite encode_xt_sequence by done. apply le_split_bytes. Qed.

Lemma decode_sequence_encoded r junk :
  wf_xt r -> Forall is_byte (encode_xt r ++ junk) ->
  decodeXtUdpSequence (E := parse_error) (Some (encode_xt r ++ junk)) (zlen (encode_xt r)) (Some 0)
  = Ret (true, Some (rx_sequence r)).
Proof.
  intros Hr Hb. destruct (wf_layout r Hr) as [len Hlay].
  apply xt_layout_bounds in Hlay as (Hs & _ & _ & He & _).
  rewrite decode_sequence_value; [|done|rewrite length_app; lia|].
  2: { by rewrite length_encode_xt, He by done. }
  do 2 f_equal. f_equal. apply supported_size_range in Hs.
  rewrite drop_app_le by lia. rewrite encode_xt_sequence by done.
  rewrite take_app_length' by (by rewrite length_le_split).
  rewrite le_combine_split, Z.mod_small; [done|]. simpl. apply Hr.
Qed.

Lemma ParseXTData_encoded r junk :
  wf_xt r -> Forall is_byte (encode_xt r ++ junk) ->
  ParseXTData char_signed mktime (encode_xt r ++ junk) (zlen (encode_xt r)) =
  Ret (decode_xt char_signed mktime r).
Proof.
  intros Hr Hbytes. pose proof (decode_sequence_encoded r junk Hr Hbytes) as Hseq.
  destruct (wf_layout r Hr) as [len Hlay].
  apply xt_layout_bounds in Hlay as (Hs & Hb & Hl & He & _). apply supported_size_range in Hs.
  assert (zlen (encode_xt r) = len) as Hlen by (rewrite length_encode_xt; done).
  assert (encode_xt r ++ junk = encode_xt_header r ++ encode_blocks true (rx_blocks r) ++
    encode_xt_tail r ++ junk) as Hbuf by (unfold encode_xt; by rewrite <- !app_assoc).
  unfold ParseXTData. rewrite Hlen in *. rewrite Hbuf in *.
  assert (negb (len =? HS_LIDAR_XT_PACKET_SIZE) && negb (len =? HS_LIDAR_XT16_PACKET_SIZE) &&
    negb (len =? HS_LIDAR_XTM_PACKET_SIZE) = false) as -> by (by destruct Hs as [->|[->| ->]]).
  rewrite ParseXTHeader_encoded by done.
  cbn [mbind outcome_bind decode_xt header sob chBlockNumber chLaserNumber chDisUnit].
  rewrite (uwrap_small 8 (zlen (rx_blocks r))), (uwrap_small 8 (rx_lasers r)) by lia.
  rewrite He, !(uwrap_small 64 len), !Z.eqb_refl by lia. cbn [negb].
  destruct (Z.eqb_spec (zlen (rx_blocks r)) 0), (Z.eqb_spec (rx_lasers r) 0),
    (Z.ltb_spec HS_LIDAR_XT_BLOCK_NUMBER (zlen (rx_blocks r))),
    (Z.ltb_spec HS_LIDAR_XT_UNIT_NUM (rx_lasers r));
    unfold HS_LIDAR_XT_BLOCK_NUMBER, HS_LIDAR_XT_UNIT_NUM in *; try lia.
  cbn [orb negb]. rewrite Hseq. cbn [mbind outcome_bind negb default].
  change HS_LIDAR_XT_HEAD_SIZE with 12. rewrite <- (length_encode_xt_header r Hr).
  pose proof (parse_blocks_encoded (E := parse_error) (to_char char_signed (rx_disunit r))
    (rx_lasers r) HS_LIDAR_XT_UNIT_SIZE HS_LIDAR_XT_BLOCK_HEADER_AZIMUTH true eq_refl eq_refl
    ltac:(lia) (rx_blocks r) (encode_xt_header r) (encode_xt_tail r ++ junk) []
    (blank_blocks 8 32) (wf_blocks r Hr)) as Hp.
  rewrite Nat2Z.id. rewrite !app_nil_l in Hp. change (zlen []) with 0 in Hp.
  rewrite Hp; [| |unfold blank_blocks; rewrite length_replicate; lia].
  2: { eapply Forall_impl; [by apply (blank_room 8 32)|]. unfold room_for. intros b Hbl. lia. }
  cbn [mbind outcome_bind].
  replace (zlen (encode_xt_header r) + zlen (rx_blocks r) * (2 + rx_lasers r * HS_LIDAR_XT_UNIT_SIZE))
    with (zlen (encode_xt_header r ++ encode_blocks true (rx_blocks r)))
    by (rewrite length_app, Nat2Z.inj_add, (length_encode_blocks (rx_lasers r)) by apply Hr; done).
  rewrite (app_assoc (encode_xt_header r)), ParseXTTail_encoded by done. reflexivity.
Qed.
End roundtrip.

(** ** Every acceptable packet is the encoding of one *)

Section surjective.

Lemma split_bytes (n : nat) (l : list Z) :
  (n <= length l)%nat -> exists a b, l = a ++ b /\ length a = n.
Proof.
  intros Hl. exists (take n l), (drop n l). rewrite take_drop, length_take. split; [done|lia].
Qed.

Lemma le_split_of (n : nat) (bs : list Z) :
  length bs = n -> Forall is_byte bs ->
  exists v, 0 <= v < 256 ^ Z.of_nat n /\ le_split n v = bs.
Proof.
  intros <- Hb. exists (le_combine bs). split; [by apply le_combine_range|by apply le_split_combine].
Qed.

Lemma encode_units_surj (n : nat) (bytes : list Z) :
  Forall is_byte bytes -> length bytes = (4 * n)%nat ->
  exists us, length us = n /\ Forall wf_unit us /\ encode_units true us = bytes.
Proof.
  revert bytes. induction n as [|n IH]; intros bytes Hb Hl.
  { exists []. destruct bytes; [done|simpl in Hl; lia]. }
  destruct bytes as [|b0 [|b1 [|b2 [|b3 bytes]]]]; try (simpl in Hl; lia).
  rewrite !Forall_cons in Hb. destruct Hb as (B0 & B1 & B2 & B3 & Hb).
  destruct (IH bytes Hb) as (us & Hn & Hwf & <-); [simpl in Hl; lia|].
  destruct (le_split_of 2 [b0; b1]) as (v & Hv & Hs); [done|solve_Forall|].
  exists ({| raw_range := v; raw_intensity := b2; raw_confidence := b3 |} :: us).
  split; [simpl; lia|]. split; [by constructor|].
  change (encode_units true (?u :: us)) with (encode_unit true u ++ encode_units true us).
  unfold encode_unit. cbn [raw_range raw_intensity raw_confidence]. by rewrite Hs.
Qed.

Lemma encode_blocks_surj (n l : nat) (bytes : list Z) :
  Forall is_byte bytes -> length bytes = (n * (2 + l * 4))%nat ->
  exists bs, length bs = n /\ Forall (wf_block (Z.of_nat l)) bs /\ encode_blocks true bs = bytes.
Proof.
  revert bytes. induction n as [|n IH]; intros bytes Hb Hl.
  { exists []. destruct bytes; [done|simpl in Hl; lia]. }
  destruct (split_bytes (2 + l * 4) bytes) as (blk & rest & -> & Hblk); [lia|].
  rewrite length_app in Hl. apply Forall_app in Hb as [Hb1 Hb2].
  destruct (IH rest Hb2) as (bs & Hn & Hwf & <-); [lia|].
  destruct blk as [|b0 [|b1 ubytes]]; try (simpl in Hblk; lia).
  rewrite !Forall_cons in Hb1. destruct Hb1 as (B0 & B1 & Hub).
  destruct (encode_units_surj l ubytes Hub) as (us & Hus & Hwu & <-); [simpl in Hblk; lia|].
  destruct (le_split_of 2 [b0; b1]) as (v & Hv & Hs); [done|solve_Forall|].
  exists ({| raw_azimuth := v; raw_units := us |} :: bs). split; [simpl; lia|].
  split; [constructor; [|done]; split; [exact Hv|by split; [rewrite <- Hus|]]|].
  change (encode_blocks true (?b :: bs)) with (encode_block true b ++ encode_blocks true bs).
  unfold encode_block. cbn [raw_azimuth raw_units]. by rewrite Hs.
Qed.

(** The tail's fields. *)
Lemma encode_xt_tail_surj (tl : list Z) :
  Forall is_byte tl -> length tl = 28%nat ->
  exists rs ec sp ut ts fa sq,
    tl = rs ++ [ec] ++ le_split 2 sp ++ ut ++ le_split 4 ts ++ [fa] ++ le_split 4 sq /\
    (length rs = 10%nat /\ Forall is_byte rs) /\ is_byte ec /\ 0 <= sp < 2 ^ 16 /\
    (length ut = 6%nat /\ Forall is_byte ut) /\ 0 <= ts < 2 ^ 32 /\ is_byte fa /\
    0 <= sq < 2 ^ 32.
Proof.
  intros Hb Hl.
  destruct (split_bytes 10 tl) as (rs & t1 & -> & L1); [lia|]. rewrite length_app in Hl.
  apply Forall_app in Hb as [B1 Hb]. destruct t1 as [|ec t1]; [simpl in Hl; lia|].
  apply Forall_cons in Hb as [Be Hb]. simpl in Hl.
  destruct (split_bytes 2 t1) as (spb & t2 & -> & L2); [lia|]. rewrite length_app in Hl.
  apply Forall_app in Hb as [B2 Hb]. destruct (le_split_of 2 spb L2 B2) as (sp & Hsp & <-).
  destruct (split_bytes 6 t2) as (ut & t3 & -> & L3); [lia|]. rewrite length_app in Hl.
  apply Forall_app in Hb as [B3 Hb].
  destruct (split_bytes 4 t3) as (tsb & t4 & -> & L4); [lia|]. rewrite length_app in Hl.
  apply Forall_app in Hb as [B4 Hb]. destruct (le_split_of 4 tsb L4 B4) as (ts & Hts & <-).
  destruct t4 as [|fa t4]; [simpl in Hl; lia|]. apply Forall_cons in Hb as [Bf Hb]. simpl in Hl.
  destruct (le_split_of 4 t4 ltac:(lia) Hb) as (sq & Hsq & <-).
  exists rs, ec, sp, ut, ts, fa, sq. split_and!; done || lia.
Qed.

Lemma encode_xt_surj (pkt : list Z) :
  Forall is_byte pkt -> xt_acceptable pkt (zlen pkt) -> exists r, wf_xt r /\ encode_xt r = pkt.
Proof.
  intros Hb (H0 & H1 & nb & nl & H7 & H6 & Hlay).
  pose proof (xt_layout_bounds _ _ _ Hlay) as (_ & Hnb & Hnl & He & _).
  unfold xt_expected_size, HS_LIDAR_XT_HEAD_SIZE, HS_LIDAR_XT_BLOCK_HEADER_AZIMUTH,
    HS_LIDAR_XT_UNIT_SIZE, HS_LIDAR_XT_PACKET_TAIL_SIZE in He.
  destruct pkt as [|b0 [|b1 [|b2 [|b3 [|b4 [|b5 [|b6 [|b7 [|b8 [|b9 [|b10 [|b11 body]]]]]]]]]]]];
    try (simpl in He; nia).
  cbn [lookup list_lookup] in H0, H1, H7, H6. simplify_eq.
  rewrite !Forall_cons in Hb.
  destruct Hb as (_ & _ & B2 & B3 & B4 & B5 & _ & _ & B8 & B9 & B10 & B11 & Hb).
  destruct (split_bytes (Z.to_nat nb * (2 + Z.to_nat nl * 4)) body) as (bb & tl & -> & Lb).
  { simpl in He. nia. }
  apply Forall_app in Hb as [Bb Bt].
  destruct (encode_blocks_surj _ _ bb Bb Lb) as (bs & Ln & Hwf & <-).
  destruct (encode_xt_tail_surj tl Bt) as (rs & ec & sp & ut & ts & fa & sq & -> & Hrs & Bec &
    Hsp & Hut & Hts & Bfa & Hsq).
  { cbn [length] in He. rewrite length_app, Lb in He. nia. }
  assert (zlen bs = nb) as Hnbs by lia.
  exists {| rx_major := b2; rx_minor := b3; rx_gap1 := [b4; b5]; rx_lasers := nl;
    rx_return := b8; rx_disunit := b9; rx_gap2 := [b10; b11]; rx_blocks := bs;
    rx_reserved := rs; rx_echo := ec; rx_speed := sp; rx_utc := ut; rx_timestamp := ts;
    rx_factory := fa; rx_sequence := sq |}.
  split.
  - rewrite Z2Nat.id in Hwf by lia.
    split; cbn; try done; try solve_Forall; try (split; [done|solve_Forall]).
    eexists. by rewrite Hnbs.
  - unfold encode_xt, encode_xt_header, encode_xt_tail. cbn -[le_split]. by rewrite Hnbs.
Qed.
End surjective.

(** ** The theorems *)

Section theorems.
Context (char_signed : bool) (mktime : tm -> Z).

(** What the parser's checks let through is acceptable. *)
Lemma ParseXTData_rejects buf len :
  Forall is_byte buf -> len <= zlen buf -> ~ xt_acceptable buf len ->
  ParseXTData char_signed mktime buf len = Err rejected.
Proof.
  intros Hb Hlen Hna. unfold ParseXTData.
  destruct (negb (len =? HS_LIDAR_XT_PACKET_SIZE) && negb (len =? HS_LIDAR_XT16_PACKET_SIZE) &&
    negb (len =? HS_LIDAR_XTM_PACKET_SIZE)) eqn:Hs; [done|].
  assert (len = 568 \/ len = 820 \/ len = 1080) as Hl.
  { rewrite <- !negb_orb, negb_false_iff, !orb_true_iff, !Z.eqb_eq in Hs.
    change HS_LIDAR_XT_PACKET_SIZE with 1080 in Hs. change HS_LIDAR_XT16_PACKET_SIZE with 568 in Hs.
    change HS_LIDAR_XTM_PACKET_SIZE with 820 in Hs. lia. }
  destruct (ParseXTHeader_spec char_signed buf Hb ltac:(lia)) as
    (b0 & b1 & b6 & b7 & h & -> & L0 & L1 & L6 & L7 & B0 & B1 & B6 & B7 & Hsob & Hln & Hbn).
  cbn [mbind outcome_bind]. rewrite Hsob.
  destruct (Z.eqb_spec (b0 * 256 + b1) 0xEEFF) as [Hm|]; [cbn [negb]|done].
  rewrite Hln, Hbn, !u8_to_char by done. rewrite (uwrap_small 64 len) by lia.
  match goal with |- (if ?c then _ else _) = _ => destruct c eqn:Hc; [done|] end.
  exfalso. apply Hna. unfold is_byte in *.
  rewrite !orb_false_iff, negb_false_iff, !Z.eqb_neq, !Z.ltb_ge, Z.eqb_eq in Hc.
  destruct Hc as ((((Hc1 & Hc2) & Hc3) & Hc4) & Hc5).
  change HS_LIDAR_XT_BLOCK_NUMBER with 8 in Hc2. change HS_LIDAR_XT_UNIT_NUM with 32 in Hc4.
  split; [rewrite L0; f_equal; lia|]. split; [rewrite L1; f_equal; lia|].
  exists b7, b6. split; [done|]. split; [done|].
  apply xt_layout_unique; [done|lia|lia|].
  rewrite uwrap_small in Hc5; [done|].
  unfold xt_expected_size, HS_LIDAR_XT_HEAD_SIZE, HS_LIDAR_XT_BLOCK_HEADER_AZIMUTH,
    HS_LIDAR_XT_UNIT_SIZE, HS_LIDAR_XT_PACKET_TAIL_SIZE. nia.
Qed.

Lemma ParseXTData_accepts buf len :
  Forall is_byte buf -> len <= zlen buf -> xt_acceptable buf len ->
  exists r, wf_xt r /\ take (Z.to_nat len) buf = encode_xt r /\
    ParseXTData char_signed mktime buf len = Ret (decode_xt char_signed mktime r).
Proof.
  intros Hb Hlen Ha. pose proof Ha as (H0 & H1 & nb & nl & H7 & H6 & Hlay).
  pose proof (xt_layout_bounds _ _ _ Hlay) as (Hs & _ & _ & _ & _).
  apply supported_size_range in Hs.
  assert (zlen (take (Z.to_nat len) buf) = len) as Hl by (rewrite length_take; lia).
  destruct (encode_xt_surj (take (Z.to_nat len) buf)) as (r & Hr & Henc).
  { by apply Forall_take. }
  { rewrite Hl. unfold xt_acceptable. rewrite !lookup_take_lt by lia. split_and!; [done..|].
    by exists nb, nl. }
  exists r. split; [done|]. split; [done|].
  pose proof (ParseXTData_encoded char_signed mktime r (drop (Z.to_nat len) buf) Hr) as Hp.
  rewrite Henc, take_drop, Hl in Hp. by apply Hp.
Qed.

(** C22: whatever bytes arrive, [ParseXTData] never reads or writes out of
    bounds. It returns -1 exactly when the packet is not acceptable (size,
    start-of-packet marker and block/laser counts consistent with one of the
    three layouts), and otherwise its result is the decoding of the unique
    field values that encode to the received bytes. *)
Theorem xt_parse_total (buf : list Z) (len : Z)
    (Hbytes : Forall is_byte buf) (Hlen : len <= zlen buf) :
  match ParseXTData char_signed mktime buf len with
  | Undef => False
  | Err _ => ~ xt_acceptable buf len
  | Ret p =>
      xt_acceptable buf len /\
      exists r, wf_xt r /\ take (Z.to_nat len) buf = encode_xt r /\
        p = decode_xt char_signed mktime r
  end.
Proof.
  destruct (decide (xt_acceptable buf len)) as [Ha|Hna].
  - destruct (ParseXTData_accepts buf len Hbytes Hlen Ha) as (r & Hr & Ht & ->).
    split; [done|]. by exists r.
  - by rewrite ParseXTData_rejects.
Qed.

(** C33: a packet assembled from any field values of one of the three layouts,
    followed by whatever else the receive buffer holds, parses to exactly those
    values. *)
Theorem xt_parse_roundtrip (r : raw_xt) (junk : list Z)
    (Hr : wf_xt r) (Hjunk : Forall is_byte (encode_xt r ++ junk)) :
  ParseXTData char_signed mktime (encode_xt r ++ junk) (zlen (encode_xt r)) =
  Ret (decode_xt char_signed mktime r).
Proof. by apply ParseXTData_encoded. Qed.
End theorems.

Definition xt_example : raw_xt :=
  {| rx_major := 6; rx_minor := 1; rx_gap1 := [0; 0]; rx_lasers := 16; rx_return := 1;
     rx_disunit := 4; rx_gap2 := [0; 0];
     rx_blocks := replicate 8 {| raw_azimuth := 35999; raw_units := replicate 16
       {| raw_range := 2500; raw_intensity := 77; raw_confidence := 1 |} |};
     rx_reserved := replicate 10 0; rx_echo := 0x37; rx_speed := 600;
     rx_utc := [24; 2; 29; 12; 34; 56]; rx_timestamp := 250000; rx_factory := 66;
     rx_sequence := 0xFFFFFFFE |}.

Lemma xt_example_wf : wf_xt xt_example.
Proof.
  split; try (split; [done|]); try done; try (by solve_Forall); try (by apply Forall_replicate).
  - apply Forall_replicate. split_and!; try done. by apply Forall_replicate.
  - exists 568. by apply list_elem_of_here.
Qed.

Lemma xt_parse_roundtrip_witness :
  exists p, ParseXTData true mktime_utc (encode_xt xt_example) 568 = Ret p /\
    udp_sequence p = 0xFFFFFFFE /\ timestamp_point p = d_lit 1709210096250000 1000000.
Proof.
  pose proof (xt_parse_roundtrip true mktime_utc xt_example [] xt_example_wf) as H.
  rewrite app_nil_r in H. eexists. split; [apply H|split; vm_compute; reflexivity].
  apply (bool_decide_unpack _). vm_compute. exact I.
Defined.

Lemma xt_parse_total_witness :
  match ParseXTData true mktime_utc (replicate 1500 0) 568 with
  | Err _ => True | _ => False end /\
  match ParseXTData true mktime_utc (encode_xt xt_example ++ replicate 932 0) 568 with
  | Ret p => xt_acceptable (encode_xt xt_example ++ replicate 932 0) 568 | _ => False end.
Proof.
  split; [vm_compute; exact I|].
  pose proof (xt_parse_total true mktime_utc (encode_xt xt_example ++ replicate 932 0) 568
    ltac:(apply (bool_decide_unpack _); vm_compute; exact I)
    ltac:(vm_compute; discriminate)) as H.
  destruct (ParseXTData _ _ _ _) eqn:Hp; [apply H|..]; vm_compute in Hp; discriminate.
Defined.
