(* ===== verification/ParseLegacy.v ===== *)
(** [ParseRawData] (Pandar40), [ParseL64Data], [ParseL20Data], [ParseQTData]
    and [ParseGPS]. *)
From S2P Require Import Prelude Ieee Calendar PacketFormat ParseXT IeeeRound.
#[local] Open Scope Z_scope.

(** ** Pandar40 *)

Record Pandar40PBlock := {
  p40_azimuth : Z;
  p40_sob : Z;
  p40_units : list Unit;
}.

Record Pandar40PPacket := {
  p40_blocks : list Pandar40PBlock;
  p40_t : tm;
  p40_usec : Z;
  p40_echo : Z;
  p40_timestamp_point : float;
  p40_spin_speed : float;
}.

(** The condition of the filter for wrong data. *)
Definition p40_wrong (distance : float) (intensity : Z) : bool :=
  (SFeqb distance (d_of_Z 0x010101) && (intensity =? 0x0101)) ||
  SFltb (d_of_Z (200 * 1000 / 2)) distance.

Definition parse40_unit (buf : list Z) (index : Z) : outcome parse_error Unit :=
  range ← rd16 buf index;
  let distance := d_mul (d_of_Z range) LASER_RETURN_TO_DISTANCE_RATE in
  intensity ← rd buf (index + 2);
  Ret (if p40_wrong distance intensity
       then {| distance := S754_zero false; intensity := 0; confidence := 0 |}
       else {| distance := distance; intensity := intensity; confidence := 0 |}).

(** The loop over the units; the arrays have exactly as many elements as the
    loops have iterations. *)
Fixpoint parse40_units (n : nat) (index : Z) (buf : list Z) : outcome parse_error (list Unit) :=
  match n with
  | O => Ret []
  | S n =>
      u ← parse40_unit buf index;
      us ← parse40_units n (index + RAW_MEASURE_SIZE) buf;
      Ret (u :: us)
  end.

Fixpoint parse40_blocks (n : nat) (index : Z) (buf : list Z)
    : outcome parse_error (list Pandar40PBlock) :=
  match n with
  | O => Ret []
  | S n =>
      sob ← rd16 buf index;
      azimuth ← rd16 buf (index + 2);
      us ← parse40_units (Z.to_nat LASER_COUNT) (index + SOB_ANGLE_SIZE) buf;
      bs ← parse40_blocks n (index + SOB_ANGLE_SIZE + LASER_COUNT * RAW_MEASURE_SIZE) buf;
      Ret ({| p40_azimuth := azimuth; p40_sob := sob; p40_units := us |} :: bs)
  end.

Section parsers.
Context (char_signed : bool) (mktime : tm -> Z).
Abbreviation to_char := (to_char char_signed).

Definition ParseRawData (buf : list Z) (len : Z) : outcome parse_error Pandar40PPacket :=
  if negb (len =? PACKET_SIZE) && negb (len =? PACKET_SIZE + SEQ_NUM_SIZE) then Err rejected
  else
    bs ← parse40_blocks (Z.to_nat BLOCKS_PER_PACKET) 0 buf;
    let index := BLOCKS_PER_PACKET * BLOCK_SIZE in
    let index := index + RESERVE_SIZE in
    speed ← rd16 buf index;
    let index := index + REVOLUTION_SIZE in
    usec ← rd32 buf index;
    let usec := usec mod 1000000 in
    let index := index + TIMESTAMP_SIZE in
    echo ← rd buf index;
    let index := index + (FACTORY_INFO_SIZE + ECHO_SIZE) in
    utc ← rd_addtime buf index;
    let t := tm_of_addtime utc in
    Ret {| p40_blocks := bs; p40_t := t; p40_usec := usec; p40_echo := echo;
           p40_timestamp_point := timestamp_point_of mktime t usec;
           p40_spin_speed := f_of_Z speed |}.

(** ** Pandar64, Pandar20A/B *)

Definition ParseL64Header (recvbuf : list Z) (index : Z) : outcome parse_error Header :=
  sob ← rd_sob recvbuf index;
  chLaserNumber ← rd recvbuf (index + 2);
  chBlockNumber ← rd recvbuf (index + 3);
  chReturnType ← rd recvbuf (index + 4);
  chDisUnit ← rd recvbuf (index + 5);
  Ret {| sob := u16 sob; chProtocolMajor := 0; chProtocolMinor := 0;
         chLaserNumber := to_char chLaserNumber; chBlockNumber := to_char chBlockNumber;
         chReturnType := to_char chReturnType; chDisUnit := to_char chDisUnit |}.

(** The fields after the blocks: reserved bytes, engine velocity, timestamp,
    echo, factory byte, UTC time. *)
Definition ParseTail (reserved : Z) (recvbuf : list Z) (index : Z)
    : outcome parse_error (Z * Z * Z * list Z) :=
  let index := index + reserved in
  speed ← rd16 recvbuf index;
  let index := index + 2 in
  timestamp ← rd32 recvbuf index;
  let index := index + 4 in
  echo ← rd recvbuf index;
  let index := index + 1 + 1 in
  addtime ← rd_addtime recvbuf index;
  Ret (speed, timestamp, echo, addtime).

Definition packet_of (header : Header) (bs : list Block) (tail : Z * Z * Z * list Z) : Packet :=
  let '(speed, timestamp, echo, addtime) := tail in
  {| header := header; blocks := bs; timestamp := timestamp; udp_sequence := 0; echo := echo;
     addtime := addtime;
     timestamp_point := timestamp_point_of mktime (tm_of_addtime addtime) timestamp;
     spin_speed := f_of_Z speed |}.

Definition ParseL64Data (recvbuf : list Z) (len : Z) : outcome parse_error Packet :=
  if negb (len =? HS_LIDAR_L64_6PACKET_SIZE) && negb (len =? HS_LIDAR_L64_7PACKET_SIZE) &&
     negb (len =? HS_LIDAR_L64_6PACKET_WITHOUT_UDPSEQ_SIZE) &&
     negb (len =? HS_LIDAR_L64_7PACKET_WITHOUT_UDPSEQ_SIZE) && negb (len =? 1270)
  then Err rejected
  else
    header ← ParseL64Header recvbuf 0;
    let index := HS_LIDAR_L64_HEAD_SIZE in
    if negb (sob header =? 0xEEFF) then Err rejected
    else
      '(index, bs) ←
        parse_blocks (chDisUnit header) (chLaserNumber header) HS_LIDAR_L64_UNIT_SIZE
          HS_LIDAR_L64_BLOCK_HEADER_AZIMUTH false (Z.to_nat (chBlockNumber header)) 0 index
          recvbuf (blank_blocks HS_LIDAR_L64_BLOCK_NUMBER_7 HS_LIDAR_L64_UNIT_NUM);
      tail ← ParseTail HS_LIDAR_L64_RESERVED_SIZE recvbuf index;
      Ret (packet_of header bs tail).

Definition ParseL20Data (recvbuf : list Z) (len : Z) : outcome parse_error Packet :=
  if negb (len =? HS_LIDAR_L20_PACKET_SIZE) then Err rejected
  else
    header ← ParseL64Header recvbuf 0;
    let index := HS_LIDAR_L20_HEAD_SIZE in
    if negb (sob header =? 0xEEFF) then Err rejected
    else
      '(index, bs) ←
        parse_blocks (chDisUnit header) (chLaserNumber header) HS_LIDAR_L20_UNIT_SIZE
          HS_LIDAR_L20_BLOCK_HEADER_AZIMUTH false (Z.to_nat (chBlockNumber header)) 0 index
          recvbuf (blank_blocks HS_LIDAR_L20_BLOCK_NUMBER HS_LIDAR_L20_UNIT_NUM);
      tail ← ParseTail HS_LIDAR_L20_RESERVED_SIZE recvbuf index;
      Ret (packet_of header bs tail).

(** ** PandarQT *)

Definition ParseQTData (recvbuf : list Z) (len : Z) : outcome parse_error Packet :=
  if negb (len =? HS_LIDAR_QT_PACKET_SIZE) && negb (len =? HS_LIDAR_QT_PACKET_WITHOUT_UDPSEQ_SIZE)
  then Err rejected
  else
    header ← ParseXTHeader char_signed recvbuf 0;
    let index := HS_LIDAR_QT_HEAD_SIZE in
    if negb (sob header =? 0xEEFF) then Err rejected
    else
      '(index, bs) ←
        parse_blocks (chDisUnit header) (chLaserNumber header) HS_LIDAR_QT_UNIT_SIZE
          HS_LIDAR_QT_BLOCK_HEADER_AZIMUTH true (Z.to_nat (chBlockNumber header)) 0 index
          recvbuf (blank_blocks HS_LIDAR_QT_BLOCK_NUMBER HS_LIDAR_QT_UNIT_NUM);
      tail ← ParseTail HS_LIDAR_QT_RESERVED_SIZE recvbuf index;
      Ret (packet_of header bs tail).
End parsers.

(** ** GPS *)

Record PandarGPS := {
  flag : Z;
  year : Z;
  month : Z;
  day : Z;
  second : Z;
  minute : Z;
  hour : Z;
  fineTime : Z;
}.

Definition GPS_PACKET_SIZE : Z := 512.

(** [(recvbuf[index] & 0xff - 0x30) + (recvbuf[index + 1] & 0xff - 0x30) * 10]:
    [-] binds tighter than [&]. *)
Definition gps_two_digits (recvbuf : list Z) (index : Z) : outcome parse_error Z :=
  b0 ← arr_get recvbuf index;
  b1 ← arr_get recvbuf (index + 1);
  Ret (u16 (Z.land b0 (0xff - 0x30) + Z.land b1 (0xff - 0x30) * 10)).

Definition ParseGPS (recvbuf : list Z) (size : Z) : outcome parse_error PandarGPS :=
  if negb (size =? GPS_PACKET_SIZE) then Err rejected
  else
    flag ← rd16 recvbuf 0;
    year ← gps_two_digits recvbuf 2;
    month ← gps_two_digits recvbuf 4;
    day ← gps_two_digits recvbuf 6;
    second ← gps_two_digits recvbuf 8;
    minute ← gps_two_digits recvbuf 10;
    hour ← gps_two_digits recvbuf 12;
    fineTime ← rd32 recvbuf 14;
    Ret {| flag := flag; year := year; month := month; day := day; second := second;
           minute := minute; hour := hour; fineTime := fineTime |}.

(** [ProcessGps]: the time passed to [gps_callback_]. *)
Definition ProcessGps (mktime : tm -> Z) (tz_second_ : Z) (gpsMsg : PandarGPS) : float :=
  let t := {| tm_sec := second gpsMsg; tm_min := minute gpsMsg; tm_hour := hour gpsMsg;
              tm_mday := day gpsMsg; tm_mon := month gpsMsg - 1; tm_year := year gpsMsg + 100;
              tm_isdst := 0 |} in
  d_of_Z (mktime t + tz_second_).

(** ** Pandar40: the parser and its dead filter *)

(** Distances are at most 65535 * 4 mm. *)
Lemma p40_filter_dead range it :
  0 <= range < 2 ^ 16 -> is_byte it ->
  p40_wrong (d_mul (d_of_Z range) LASER_RETURN_TO_DISTANCE_RATE) it = false.
Proof.
  unfold is_byte. intros Hr Hi. unfold p40_wrong.
  rewrite (proj2 (Z.eqb_neq it 0x0101)), andb_false_r by lia.
  destruct (d_of_Z_between 0 range 65536) as [Hv [Hlo Hhi]];
    [solve_valid|solve_valid|vm_compute; reflexivity..|lia|].
  assert (dval (d_of_Z 65536) * dval LASER_RETURN_TO_DISTANCE_RATE <=
    dval (d_of_Z 100000) * 2 ^ 1074) as Hmax by (vm_compute; discriminate).
  assert (0 < dval LASER_RETURN_TO_DISTANCE_RATE) as Hrate by (vm_compute; reflexivity).
  change (dval (d_of_Z 0)) with 0 in Hlo.
  destruct (d_mul_between (d_of_Z range) LASER_RETURN_TO_DISTANCE_RATE (d_of_Z 0) (d_of_Z 100000))
    as [Hd [_ Hle]]; [done|solve_valid|solve_valid|solve_valid| |].
  - revert Hlo Hhi Hmax Hrate. change (dval (d_of_Z 0)) with 0.
    generalize (dval (d_of_Z range)), (dval (d_of_Z 65536)), (dval LASER_RETURN_TO_DISTANCE_RATE),
      (dval (d_of_Z 100000) * 2 ^ 1074). intros; nia.
  - cbn [orb]. apply SFleb_ltb_false. rewrite (SFleb_fval 53 1024 ltac:(lia));
      [by apply Z.leb_le|done|change (200 * 1000 / 2) with 100000; solve_valid].
Qed.

Lemma rd16_value {E} buf i :
  Forall is_byte buf -> 0 <= i -> i + 2 <= zlen buf ->
  exists v, rd16 (E := E) buf i = Ret v /\ 0 <= v < 2 ^ 16.
Proof.
  intros Hb Hi Hl. unfold rd16.
  destruct (lookup_lt_is_Some_2 buf (Z.to_nat i)) as [b0 H0]; [lia|].
  destruct (lookup_lt_is_Some_2 buf (Z.to_nat (i + 1))) as [b1 H1]; [lia|].
  pose proof (Forall_lookup_1 _ _ _ _ Hb H0) as B0. pose proof (Forall_lookup_1 _ _ _ _ Hb H1) as B1.
  rewrite (rd_lookup (E := E) buf i b0 Hi H0 B0). cbn [mbind outcome_bind].
  rewrite (rd_lookup (E := E) buf (i + 1) b1 ltac:(lia) H1 B1). cbn [mbind outcome_bind].
  eexists. split; [done|]. unfold is_byte in *. rewrite lor_shiftl_add by lia. lia.
Qed.

Lemma rd_byte {E} buf i :
  Forall is_byte buf -> 0 <= i < zlen buf -> exists v, rd (E := E) buf i = Ret v /\ is_byte v.
Proof.
  intros Hb Hi. destruct (lookup_lt_is_Some_2 buf (Z.to_nat i)) as [b H]; [lia|].
  pose proof (Forall_lookup_1 _ _ _ _ Hb H) as B. exists b. split; [|done].
  by apply rd_lookup; [lia|..].
Qed.

(** The unit at [index], read directly. *)
Definition p40_unit_at (buf : list Z) (index : Z) (u : Unit) : Prop :=
  exists range it, rd16 (E := parse_error) buf index = Ret range /\
    rd (E := parse_error) buf (index + 2) = Ret it /\
    u = {| distance := d_mul (d_of_Z range) LASER_RETURN_TO_DISTANCE_RATE;
           intensity := it; confidence := 0 |}.

Lemma parse40_units_spec n index buf :
  Forall is_byte buf -> 0 <= index -> index + Z.of_nat n * 3 <= zlen buf ->
  exists us, parse40_units n index buf = Ret us /\ length us = n /\
    forall (j : nat) u, us !! j = Some u -> p40_unit_at buf (index + 3 * Z.of_nat j) u.
Proof.
  intros Hb. revert index. induction n as [|n IH]; intros index Hi Hl.
  { exists []. split_and!; [done..|]. intros j u. by rewrite lookup_nil. }
  cbn [parse40_units]. unfold parse40_unit.
  destruct (rd16_value (E := parse_error) buf index Hb) as (r & Er & Hr); [lia..|].
  destruct (rd_byte (E := parse_error) buf (index + 2) Hb) as (it & Ei & Hit); [lia|].
  rewrite Er. cbn [mbind outcome_bind]. rewrite Ei. cbn [mbind outcome_bind].
  rewrite p40_filter_dead by done. cbn [mbind outcome_bind].
  change RAW_MEASURE_SIZE with 3.
  destruct (IH (index + 3)) as (us & -> & Hn & Hus); [lia..|]. cbn [mbind outcome_bind].
  eexists. split; [done|]. split; [simpl; by rewrite Hn|]. intros [|j] u; cbn [lookup list_lookup].
  - intros [= <-]. rewrite Z.add_0_r. by exists r, it.
  - intros Hu. apply Hus in Hu. by replace (index + 3 * Z.of_nat (S j)) with
      (index + 3 + 3 * Z.of_nat j) by lia.
Qed.

Definition p40_block_at (buf : list Z) (index : Z) (b : Pandar40PBlock) : Prop :=
  rd16 (E := parse_error) buf index = Ret (p40_sob b) /\
  rd16 (E := parse_error) buf (index + 2) = Ret (p40_azimuth b) /\
  length (p40_units b) = 40%nat /\
  forall (j : nat) u, p40_units b !! j = Some u -> p40_unit_at buf (index + 4 + 3 * Z.of_nat j) u.

Lemma parse40_blocks_spec n index buf :
  Forall is_byte buf -> 0 <= index -> index + Z.of_nat n * 124 <= zlen buf ->
  exists bs, parse40_blocks n index buf = Ret bs /\ length bs = n /\
    forall (i : nat) b, bs !! i = Some b -> p40_block_at buf (index + 124 * Z.of_nat i) b.
Proof.
  intros Hb. revert index. induction n as [|n IH]; intros index Hi Hl.
  { exists []. split_and!; [done..|]. intros j u. by rewrite lookup_nil. }
  cbn [parse40_blocks].
  destruct (rd16_value (E := parse_error) buf index Hb) as (s & Es & _); [lia..|].
  destruct (rd16_value (E := parse_error) buf (index + 2) Hb) as (a & Ea & _); [lia..|].
  rewrite Es. cbn [mbind outcome_bind]. rewrite Ea. cbn [mbind outcome_bind].
  change SOB_ANGLE_SIZE with 4. change (Z.to_nat LASER_COUNT) with 40%nat.
  change (LASER_COUNT * RAW_MEASURE_SIZE) with 120.
  destruct (parse40_units_spec 40 (index + 4) buf Hb) as (us & -> & Hn & Hus); [lia..|].
  cbn [mbind outcome_bind].
  destruct (IH (index + 4 + 120)) as (bs & -> & Hbn & Hbs); [lia..|]. cbn [mbind outcome_bind].
  eexists. split; [done|]. split; [simpl; by rewrite Hbn|].
  intros [|i] b; cbn [lookup list_lookup].
  - intros [= <-]. rewrite Z.add_0_r. by split_and!.
  - intros Hbi. apply Hbs in Hbi. by replace (index + 124 * Z.of_nat (S i)) with
      (index + 4 + 120 + 124 * Z.of_nat i) by lia.
Qed.

Section raw40.
Context (mktime : tm -> Z).

(** What [ParseRawData] makes of a buffer. *)
Definition raw40_of (buf : list Z) (p : Pandar40PPacket) : Prop :=
  length (p40_blocks p) = 10%nat /\
  (forall (i : nat) b, p40_blocks p !! i = Some b -> p40_block_at buf (124 * Z.of_nat i) b) /\
  0 <= p40_usec p < 1000000 /\
  p40_timestamp_point p = timestamp_point_of mktime (p40_t p) (p40_usec p) /\
  exists speed, p40_spin_speed p = f_of_Z speed /\ 0 <= speed < 2 ^ 16.

Lemma ParseRawData_cases (buf : list Z) (len : Z) :
  Forall is_byte buf -> len <= zlen buf ->
  match ParseRawData mktime buf len with
  | Undef => False
  | Err _ => len <> 1262 /\ len <> 1266
  | Ret p => (len = 1262 \/ len = 1266) /\ raw40_of buf p
  end.
Proof.
  intros Hbytes Hlen.
  unfold ParseRawData. change PACKET_SIZE with 1262. change (1262 + SEQ_NUM_SIZE) with 1266.
  destruct (negb (len =? 1262) && negb (len =? 1266)) eqn:Hsize.
  { apply andb_true_iff in Hsize as [?%negb_true_iff%Z.eqb_neq ?%negb_true_iff%Z.eqb_neq]. done. }
  apply andb_false_iff in Hsize.
  assert (len = 1262 \/ len = 1266) as Hl
    by (destruct Hsize as [?%negb_false_iff%Z.eqb_eq|?%negb_false_iff%Z.eqb_eq]; auto).
  destruct (parse40_blocks_spec (Z.to_nat BLOCKS_PER_PACKET) 0 buf Hbytes)
    as (bs & -> & Hn & Hbs); [lia|change (Z.of_nat (Z.to_nat BLOCKS_PER_PACKET)) with 10; lia|].
  cbn [mbind outcome_bind].
  change (BLOCKS_PER_PACKET * BLOCK_SIZE + RESERVE_SIZE) with 1248.
  destruct (rd16_value (E := parse_error) buf 1248 Hbytes) as (sp & -> & Hsp); [lia..|].
  cbn [mbind outcome_bind]. destruct (rd32_in (E := parse_error) buf (1248 + REVOLUTION_SIZE)) as [us ->];
    [unfold REVOLUTION_SIZE; lia..|]. cbn [mbind outcome_bind].
  change (1248 + REVOLUTION_SIZE + TIMESTAMP_SIZE) with 1254.
  destruct (rd_in (E := parse_error) buf 1254) as [ec ->]; [lia|]. cbn [mbind outcome_bind].
  change (1254 + (FACTORY_INFO_SIZE + ECHO_SIZE)) with 1256.
  destruct (rd_addtime_in (E := parse_error) buf 1256) as [ut ->]; [lia..|].
  cbn [mbind outcome_bind]. unfold raw40_of.
  cbn [p40_blocks p40_usec p40_timestamp_point p40_t p40_spin_speed].
  split_and!; try done; try (apply Z.mod_pos_bound; lia). by exists sp.
Qed.

(** C39: [ParseRawData] rejects exactly the packets that are not 1262 or 1266
    bytes long, never leaves the buffer, and takes block [i] from offset 124*i
    and unit [j] of a block from offset 4+3*j of it; its filter for wrong data
    (distances above 100 000 m) removes nothing. *)
Theorem raw40_parse_spec (buf : list Z) (len : Z)
    (Hbytes : Forall is_byte buf) (Hlen : len <= zlen buf) :
  match ParseRawData mktime buf len with
  | Undef => False
  | Err _ => len <> 1262 /\ len <> 1266
  | Ret p =>
      (len = 1262 \/ len = 1266) /\ length (p40_blocks p) = 10%nat /\
      (forall (i : nat) b, p40_blocks p !! i = Some b -> p40_block_at buf (124 * Z.of_nat i) b) /\
      0 <= p40_usec p < 1000000 /\
      p40_timestamp_point p = timestamp_point_of mktime (p40_t p) (p40_usec p)
  end.
Proof.
  pose proof (ParseRawData_cases buf len Hbytes Hlen) as H.
  destruct (ParseRawData mktime buf len); [|done|done]. by destruct H as (? & ? & ? & ? & ? & _).
Qed.
End raw40.

Lemma raw40_parse_spec_witness :
  match ParseRawData mktime_utc (replicate 1262 7) 1262 with
  | Ret p => length (p40_blocks p) = 10%nat /\ 0 <= p40_usec p < 1000000
  | _ => False
  end.
Proof.
  pose proof (raw40_parse_spec mktime_utc (replicate 1262 7) 1262
    ltac:(apply (bool_decide_unpack _); vm_compute; exact I)
    ltac:(vm_compute; discriminate)) as H.
  destruct (ParseRawData _ _ _) eqn:Hp; [split; apply H|..]; vm_compute in Hp; discriminate.
Defined.

(** ** The other models trust their header *)

Section legacy.
Context (char_signed : bool) (mktime : tm -> Z).

Lemma ParseTail_in reserved buf index :
  0 <= reserved -> 0 <= index -> index + reserved + 14 <= zlen buf ->
  exists t, ParseTail reserved buf index = Ret t.
Proof.
  intros Hr Hi Hl. unfold ParseTail.
  destruct (rd16_in (E := parse_error) buf (index + reserved)) as [sp ->]; [lia..|].
  cbn [mbind outcome_bind].
  destruct (rd32_in (E := parse_error) buf (index + reserved + 2)) as [ts ->]; [lia..|].
  cbn [mbind outcome_bind].
  destruct (rd_in (E := parse_error) buf (index + reserved + 2 + 4)) as [ec ->]; [lia..|].
  cbn [mbind outcome_bind].
  destruct (rd_addtime_in (E := parse_error) buf (index + reserved + 2 + 4 + 1 + 1)) as [ut ->];
    [lia..|]. cbn [mbind outcome_bind]. eauto.
Qed.

Lemma ParseL64Header_in buf :
  12 <= zlen buf -> exists h, ParseL64Header char_signed buf 0 = Ret h.
Proof.
  intros Hl. unfold ParseL64Header, rd_sob. rewrite !Z.add_0_l.
  destruct (rd_in (E := parse_error) buf 0) as [b0 ->]; [lia|]. cbn [mbind outcome_bind].
  destruct (rd_in (E := parse_error) buf 1) as [b1 ->]; [lia|]. cbn [mbind outcome_bind].
  destruct (rd_in (E := parse_error) buf 2) as [b2 ->]; [lia|]. cbn [mbind outcome_bind].
  destruct (rd_in (E := parse_error) buf 3) as [b3 ->]; [lia|]. cbn [mbind outcome_bind].
  destruct (rd_in (E := parse_error) buf 4) as [b4 ->]; [lia|]. cbn [mbind outcome_bind].
  destruct (rd_in (E := parse_error) buf 5) as [b5 ->]; [lia|]. eauto.
Qed.

(** The header's counts fit the structure ([max_blocks] blocks of [max_lasers]
    units) and, with the fixed head and tail, the bytes received. *)
Definition counts_fit (max_blocks max_lasers fixed unit_size : Z) (h : Header) (len : Z) : Prop :=
  0 <= chBlockNumber h <= max_blocks /\ 0 <= chLaserNumber h <= max_lasers /\
  fixed + chBlockNumber h * (2 + chLaserNumber h * unit_size) <= len.

Lemma parse_body_in max_blocks max_lasers head reserved unit_size has_confidence h buf len :
  unit_size = (if has_confidence : bool then 4 else 3) -> 0 <= head -> 0 <= reserved ->
  counts_fit max_blocks max_lasers (head + reserved + 14) unit_size h len -> len <= zlen buf ->
  exists index bs t,
    parse_blocks (E := parse_error) (chDisUnit h) (chLaserNumber h) unit_size 2 has_confidence
      (Z.to_nat (chBlockNumber h)) 0 head buf (blank_blocks max_blocks max_lasers) =
      Ret (index, bs) /\
    ParseTail reserved buf index = Ret t.
Proof.
  intros Hu Hh Hr (Hb & Hl & Hfit) Hlen.
  assert (3 <= unit_size) by (rewrite Hu; by destruct has_confidence).
  destruct (parse_blocks_in (E := parse_error) (chDisUnit h) (chLaserNumber h) unit_size 2
    has_confidence Hu eq_refl ltac:(lia) (Z.to_nat (chBlockNumber h)) 0 head buf
    (blank_blocks max_blocks max_lasers)) as (bs & Hpb & _).
  { lia. } { rewrite Z2Nat.id by lia. lia. } { lia. }
  { unfold blank_blocks. rewrite length_replicate. lia. }
  { apply Forall_replicate. unfold room_for. cbn [units]. rewrite length_replicate. lia. }
  rewrite Z2Nat.id in Hpb by lia. eexists _, bs.
  destruct (ParseTail_in reserved buf
    (head + chBlockNumber h * (2 + chLaserNumber h * unit_size))) as [t Ht]; [lia|nia|lia|].
  by exists t.
Qed.

(** [ParseL64Data], [ParseL20Data] and [ParseQTData] stay in bounds on every
    packet whose header counts fit the packet structure and the bytes
    received. *)
Theorem legacy_parse_fits (buf : list Z) (len : Z) (h : Header) (Hlen : len <= zlen buf) :
  (ParseL64Header char_signed buf 0 = Ret h -> counts_fit 7 64 30 3 h len ->
    defined (ParseL64Data char_signed mktime buf len)) /\
  (ParseL64Header char_signed buf 0 = Ret h -> counts_fit 20 20 30 3 h len ->
    defined (ParseL20Data char_signed mktime buf len)) /\
  (ParseXTHeader char_signed buf 0 = Ret h -> counts_fit 4 64 36 4 h len ->
    defined (ParseQTData char_signed mktime buf len)).
Proof.
  unfold defined, ParseL64Data, ParseL20Data, ParseQTData.
  split_and!; intros -> Hfit; (case_match; [done|]); cbn [mbind outcome_bind];
    (case_match; [done|]).
  - destruct (parse_body_in 7 64 8 8 3 false h buf len) as (i & bs & t & Hb & Ht); try done.
    unfold HS_LIDAR_L64_UNIT_SIZE, HS_LIDAR_L64_BLOCK_HEADER_AZIMUTH, HS_LIDAR_L64_HEAD_SIZE,
      HS_LIDAR_L64_BLOCK_NUMBER_7, HS_LIDAR_L64_UNIT_NUM, HS_LIDAR_L64_RESERVED_SIZE.
    rewrite Hb. cbn [mbind outcome_bind]. by rewrite Ht.
  - destruct (parse_body_in 20 20 8 8 3 false h buf len) as (i & bs & t & Hb & Ht); try done.
    unfold HS_LIDAR_L20_UNIT_SIZE, HS_LIDAR_L20_BLOCK_HEADER_AZIMUTH, HS_LIDAR_L20_HEAD_SIZE,
      HS_LIDAR_L20_BLOCK_NUMBER, HS_LIDAR_L20_UNIT_NUM, HS_LIDAR_L20_RESERVED_SIZE.
    rewrite Hb. cbn [mbind outcome_bind]. by rewrite Ht.
  - destruct (parse_body_in 4 64 12 10 4 true h buf len) as (i & bs & t & Hb & Ht); try done.
    unfold HS_LIDAR_QT_UNIT_SIZE, HS_LIDAR_QT_BLOCK_HEADER_AZIMUTH, HS_LIDAR_QT_HEAD_SIZE,
      HS_LIDAR_QT_BLOCK_NUMBER, HS_LIDAR_QT_UNIT_NUM, HS_LIDAR_QT_RESERVED_SIZE.
    rewrite Hb. cbn [mbind outcome_bind]. by rewrite Ht.
Qed.

(** A receive buffer of 1500 bytes that starts with the given header. *)
Definition rx_buffer (head : list Z) : list Z := head ++ replicate (1500 - length head) 0.

(** Unlike [ParseXTData], the three parsers do not check the header's
    counts: for each there is a packet of a supported size with a valid
    start-of-packet marker that makes it write outside the packet structure. *)
Theorem legacy_counts_unchecked :
  ParseL64Data char_signed mktime (rx_buffer [0xEE; 0xFF; 64; 8; 0; 4; 0; 0]) 1194 = Undef /\
  ParseL20Data char_signed mktime (rx_buffer [0xEE; 0xFF; 21; 20; 0; 4; 0; 0]) 1270 = Undef /\
  ParseQTData char_signed mktime
    (rx_buffer [0xEE; 0xFF; 3; 1; 0; 0; 64; 5; 0; 4; 0; 0]) 1072 = Undef.
Proof.
  destruct char_signed; split_and!; vm_compute; reflexivity.
Qed.
End legacy.

Lemma legacy_parse_fits_witness :
  defined (ParseL64Data true mktime_utc (rx_buffer [0xEE; 0xFF; 64; 6; 0; 4; 0; 0]) 1194).
Proof.
  eapply (legacy_parse_fits true mktime_utc (rx_buffer [0xEE; 0xFF; 64; 6; 0; 4; 0; 0]) 1194);
    [vm_compute; discriminate|vm_compute; reflexivity|].
  split_and!; vm_compute; (discriminate || reflexivity).
Defined.

(** ** GPS *)

(** A two-digit field is sent as ASCII, units first. *)
Definition ascii_digit (d : Z) : Z := 0x30 + d.

Lemma gps_mask d : 0 <= d < 10 -> Z.land (ascii_digit d) (0xff - 0x30) = d.
Proof.
  intros Hd. unfold ascii_digit.
  assert (d = 0 \/ d = 1 \/ d = 2 \/ d = 3 \/ d = 4 \/ d = 5 \/ d = 6 \/ d = 7 \/ d = 8 \/ d = 9)
    as Hc by lia.
  by destruct Hc as [->|[->|[->|[->|[->|[->|[->|[->|[->| ->]]]]]]]]].
Qed.

Lemma gps_two_digits_spec pre post units tens :
  0 <= units < 10 -> 0 <= tens < 10 ->
  gps_two_digits (pre ++ [ascii_digit units; ascii_digit tens] ++ post) (zlen pre) =
  Ret (units + 10 * tens).
Proof.
  intros Hu Ht. unfold gps_two_digits.
  pose proof (arr_get_app_r (E := parse_error) pre
    ([ascii_digit units; ascii_digit tens] ++ post)) as Hg.
  rewrite <- (Z.add_0_r (zlen pre)) at 1. rewrite !Hg by lia. cbn [app].
  rewrite (arr_get_lookup _ 0 (ascii_digit units)) by done. cbn [mbind outcome_bind].
  rewrite (arr_get_lookup _ 1 (ascii_digit tens)) by done. cbn [mbind outcome_bind].
  rewrite !gps_mask by done. rewrite uwrap_small by lia. f_equal. lia.
Qed.

(** The six two-digit fields in transmission order: year, month, day, second,
    minute, hour. *)
Definition gps_digits (vs : list Z) : list Z :=
  vs ≫= fun v => [ascii_digit (v mod 10); ascii_digit (v / 10)].

Lemma gps_field pre v post rest :
  0 <= v < 100 -> rest = [ascii_digit (v mod 10); ascii_digit (v / 10)] ++ post ->
  gps_two_digits (pre ++ rest) (zlen pre) = Ret v.
Proof.
  intros Hv ->. rewrite gps_two_digits_spec.
  - f_equal. pose proof (Z.div_mod v 10). lia.
  - apply Z.mod_pos_bound. lia.
  - split; [apply Z.div_pos; lia|apply Z.div_lt_upper_bound; lia].
Qed.

(** [ParseGPS] accepts exactly the 512-byte packets and reads each two-digit
    field sent as ASCII digits, units first, and the fine time; the callback of
    [ProcessGps] gets the seconds [mktime] gives to that date plus the zone's
    offset. *)
Theorem gps_parse_roundtrip (mktime : tm -> Z) (tz : Z)
    (fl y mo d s mi h fine : Z) (rest : list Z)
    (Hfl : 0 <= fl < 2 ^ 16) (Hfine : 0 <= fine < 2 ^ 32)
    (Hv : Forall (fun v => 0 <= v < 100) [y; mo; d; s; mi; h]) :
  let pkt := le_split 2 fl ++ gps_digits [y; mo; d; s; mi; h] ++ le_split 4 fine ++ rest in
  let g := {| flag := fl; year := y; month := mo; day := d; second := s; minute := mi; hour := h;
              fineTime := fine |} in
  (forall size, ParseGPS pkt size = if size =? 512 then Ret g else Err rejected) /\
  ProcessGps mktime tz g =
    d_of_Z (mktime {| tm_sec := s; tm_min := mi; tm_hour := h; tm_mday := d; tm_mon := mo - 1;
                      tm_year := y + 100; tm_isdst := 0 |} + tz).
Proof.
  intros pkt g. split; [|done]. intros size. unfold ParseGPS, GPS_PACKET_SIZE.
  destruct (Z.eqb_spec size 512); cbn [negb]; [|done].
  rewrite !Forall_cons in Hv. destruct Hv as (Hy & Hmo & Hd & Hs & Hmi & Hh & _).
  assert (forall (k : nat) v, [y; mo; d; s; mi; h] !! k = Some v -> 0 <= v < 100 ->
    gps_two_digits pkt (2 + 2 * Z.of_nat k) = Ret v) as Hf.
  { intros k v Hk Hv.
    pose proof (take_drop_middle _ _ _ Hk) as Hsplit.
    subst pkt. rewrite <- Hsplit. unfold gps_digits. rewrite bind_app, bind_cons.
    rewrite <- !app_assoc, app_assoc.
    replace (2 + 2 * Z.of_nat k) with (zlen (le_split 2 fl ++ gps_digits (take k [y; mo; d; s; mi; h]))).
    { by eapply gps_field. }
    rewrite length_app, length_le_split.
    assert (length (take k [y; mo; d; s; mi; h]) = k) as Hk'
      by (rewrite length_take; apply lookup_lt_Some in Hk; lia).
    assert (forall vs, length (gps_digits vs) = (2 * length vs)%nat) as ->
      by (intros vs; induction vs; simpl; lia). lia. }
  assert (rd16 (E := parse_error) pkt 0 = Ret fl) as E0
    by (by apply (rd16_at [] (le_split 2 fl))).
  assert (rd32 (E := parse_error) pkt 14 = Ret fine) as E1.
  { subst pkt. rewrite app_assoc.
    by apply (rd32_mid (le_split 2 fl ++ gps_digits [y; mo; d; s; mi; h])). }
  rewrite E0. cbn [mbind outcome_bind].
  rewrite (Hf 0%nat y eq_refl Hy : gps_two_digits pkt 2 = _). cbn [mbind outcome_bind].
  rewrite (Hf 1%nat mo eq_refl Hmo : gps_two_digits pkt 4 = _). cbn [mbind outcome_bind].
  rewrite (Hf 2%nat d eq_refl Hd : gps_two_digits pkt 6 = _). cbn [mbind outcome_bind].
  rewrite (Hf 3%nat s eq_refl Hs : gps_two_digits pkt 8 = _). cbn [mbind outcome_bind].
  rewrite (Hf 4%nat mi eq_refl Hmi : gps_two_digits pkt 10 = _). cbn [mbind outcome_bind].
  rewrite (Hf 5%nat h eq_refl Hh : gps_two_digits pkt 12 = _). cbn [mbind outcome_bind].
  by rewrite E1.
Qed.

Lemma gps_parse_roundtrip_witness :
  ParseGPS (le_split 2 0xFFEE ++ gps_digits [24; 2; 29; 56; 34; 12] ++ le_split 4 123456 ++
    replicate 494 0) 512 =
  Ret {| flag := 0xFFEE; year := 24; month := 2; day := 29; second := 56; minute := 34;
         hour := 12; fineTime := 123456 |}.
Proof.
  apply (gps_parse_roundtrip mktime_utc 0 0xFFEE 24 2 29 56 34 12 123456 (replicate 494 0)).
  - done.
  - done.
  - solve_Forall.
Defined.
