(* ===== verification/IeeeInterval.v ===== *)
(** Interval arithmetic over the exactly rounded operations of [Ieee].

    [within l h x]: [x] is finite and its exact value lies between the integers
    [l] and [h].  Integers up to [2 ^ prec] are representable, so rounding never
    leaves such an interval; the lemmas carry it through the operations, the
    conversions between [float] and [double] and the conversion to [int]. *)
From S2P Require Import Prelude Ieee IeeeRound.
#[local] Open Scope Z_scope.

Section within.
Context (prec emax : Z) (Hprec : 1 < prec < emax).
Abbreviation emin := (emin prec emax).
Abbreviation fval := (fval prec emax).
Abbreviation valid_finite := (valid_finite prec emax).
Abbreviation U := (2 ^ (- emin)).

Definition within (l h : Z) (x : float) : Prop := valid_finite x /\ l * U <= fval x <= h * U.

(** The integers a format represents. *)
Definition representable (n : Z) : Prop := - 2 ^ prec < n < 2 ^ prec.

Lemma U_pos : 0 < U.
Proof. pose proof (emin_neg prec emax Hprec). apply pow2_pos. lia. Qed.

(** A number of [prec] bits whose last one is worth [2 ^ k]. *)
Lemma representable_at n k :
  representable n -> emin + prec - 1 <= k <= emax - prec ->
  exists z, valid_finite z /\ fval z = n * 2 ^ (k - emin).
Proof.
  intros Hn Hk. destruct (decide (n = 0)) as [->|H0].
  { exists (S754_zero false). by split. }
  set (m := Z.to_pos (Z.abs n)). assert (Zpos m = Z.abs n) as Em by (subst m; lia).
  pose proof (digits2_pos_bounds m) as Hd. set (d := Zpos (digits2_pos m)) in *.
  assert (1 <= d) as Hd1 by (subst d; lia).
  assert (d - 1 < prec) by (apply pow2_le_inv; unfold representable in Hn; lia).
  pose proof (pow2_pos (prec - d) ltac:(lia)) as Hp.
  set (M := Z.to_pos (Zpos m * 2 ^ (prec - d))).
  assert (Zpos M = Zpos m * 2 ^ (prec - d)) as EM by (subst M; rewrite Z2Pos.id; lia).
  assert (2 ^ prec = 2 ^ d * 2 ^ (prec - d)) as E1
    by (rewrite <- Z.pow_add_r by lia; f_equal; lia).
  assert (2 ^ (prec - 1) = 2 ^ (d - 1) * 2 ^ (prec - d)) as E2
    by (rewrite <- Z.pow_add_r by lia; f_equal; lia).
  assert (canon prec emax (Zpos M) (k + d - prec)) as Hc.
  { unfold canon. rewrite EM, E1, E2. split; [lia|]. split; [nia|right; nia]. }
  exists (S754_finite (n <? 0) M (k + d - prec)). split.
  { split; [done|]. cbn [valid_binary]. by apply bounded_canon. }
  cbn [Ieee.fval]. rewrite EM. destruct Hc as [Hc _].
  rewrite <- Z.mul_assoc, <- Z.pow_add_r by lia.
  replace (prec - d + (k + d - prec - emin)) with (k - emin) by lia.
  rewrite Em. destruct (Z.ltb_spec n 0); cbn [cond_Zopp]; lia.
Qed.

Lemma representable_float n : representable n -> exists z, valid_finite z /\ fval z = n * U.
Proof.
  intros Hn. rewrite <- Z.sub_0_l. apply representable_at; [done|].
  unfold SpecFloat.emin. lia.
Qed.

(** An exact result that is a number of the format is not rounded. *)
Lemma rounds_to_exact v r z :
  rounds_to prec emax v r -> valid_binary prec emax r = true ->
  valid_finite z -> fval z = v -> valid_finite r /\ fval r = v.
Proof.
  intros Hr Vr Hz Ev.
  destruct (rounds_to_between prec emax Hprec v r z z Hr Vr Hz Hz ltac:(lia)) as [? ?].
  split; [done|lia].
Qed.

Lemma within_rounds l h v r :
  representable l -> representable h ->
  rounds_to prec emax v r -> valid_binary prec emax r = true -> l * U <= v <= h * U ->
  within l h r.
Proof.
  intros Hl Hh Hr Vr Hv.
  destruct (representable_float l Hl) as (zl & Vl & El).
  destruct (representable_float h Hh) as (zh & Vh & Eh).
  unfold within. rewrite <- El, <- Eh in *.
  by apply (rounds_to_between prec emax Hprec v).
Qed.

Lemma within_valid l h x : within l h x -> valid_finite x.
Proof. by intros [? _]. Qed.

Lemma within_mono l h l' h' x : l' <= l -> h <= h' -> within l h x -> within l' h' x.
Proof. intros Hl Hh [Hx Hv]. split; [done|]. pose proof U_pos. nia. Qed.

Lemma within_of_Z n :
  representable n -> within n n (binary_normalize prec emax n 0 false).
Proof.
  intros Hn. apply (within_rounds _ _ (n * U)); [done|done| | |lia].
  - by apply of_Z_rounds.
  - by apply binary_normalize_valid.
Qed.

Lemma SFadd_valid x y :
  valid_finite x -> valid_finite y -> valid_binary prec emax (SFadd prec emax x y) = true.
Proof.
  intros [Fx Vx] [Fy Vy].
  destruct x as [[]| | |sx mx ex], y as [[]| | |sy my ey]; try done.
  all: by apply binary_normalize_valid.
Qed.

Lemma within_add a b c d x y :
  within a b x -> within c d y -> representable (a + c) -> representable (b + d) ->
  within (a + c) (b + d) (SFadd prec emax x y).
Proof.
  intros [Vx Hx] [Vy Hy] Hl Hh. apply (within_rounds _ _ (fval x + fval y)); [done|done| | |lia].
  - by apply SFadd_rounds.
  - by apply SFadd_valid.
Qed.

Lemma within_sub a b c d x y :
  within a b x -> within c d y -> representable (a - d) -> representable (b - c) ->
  within (a - d) (b - c) (SFsub prec emax x y).
Proof.
  intros [Vx Hx] [Vy Hy] Hl Hh. apply (within_rounds _ _ (fval x - fval y)); [done|done| | |lia].
  - by apply SFsub_rounds.
  - by apply SFsub_valid.
Qed.

(** A factor [y] that is at most [h / b]. *)
Lemma within_mul b h x y :
  within 0 b x -> valid_finite y -> 0 <= fval y -> 0 <= b -> b * fval y <= h * U ->
  representable h -> within 0 h (SFmul prec emax x y).
Proof.
  intros [Vx Hx] Vy Hy Hb Hbh Hh. pose proof U_pos.
  assert (0 <= h) by nia.
  destruct (representable_float 0) as (zl & Vl & El); [unfold representable in *; lia|].
  destruct (representable_float h Hh) as (zh & Vh & Eh).
  destruct (SFmul_rounds prec emax Hprec x y Vx Vy) as [Hr Vr].
  unfold within. rewrite <- El, <- Eh. apply (mul_rounds_to_between prec emax Hprec x y); try done.
  rewrite El, Eh. split; [nia|].
  transitivity (b * U * fval y); [nia|].
  replace (b * U * fval y) with (b * fval y * U) by lia. nia.
Qed.

(** Factors of either sign. *)
Lemma within_mul_abs a b x y :
  within (- a) a x -> within (- b) b y -> representable (a * b) ->
  within (- (a * b)) (a * b) (SFmul prec emax x y).
Proof.
  intros [Vx Hx] [Vy Hy] Hab. pose proof U_pos.
  destruct (representable_float (- (a * b))) as (zl & Vl & El); [unfold representable in *; lia|].
  destruct (representable_float (a * b) Hab) as (zh & Vh & Eh).
  destruct (SFmul_rounds prec emax Hprec x y Vx Vy) as [Hr Vr].
  unfold within. rewrite <- El, <- Eh. apply (mul_rounds_to_between prec emax Hprec x y); try done.
  rewrite El, Eh.
  assert (Z.abs (fval x * fval y) <= (a * U) * (b * U)) as Habs
    by (rewrite Z.abs_mul; apply Z.mul_le_mono_nonneg; lia).
  replace (- (a * b) * U * U) with (- ((a * U) * (b * U))) by ring.
  replace (a * b * U * U) with ((a * U) * (b * U)) by ring. lia.
Qed.

(** Truncation towards zero. *)
Lemma trunc_quot x : valid_finite x -> trunc x = Some (Z.quot (fval x) U).
Proof.
  pose proof U_pos. intros [Fx Vx]. destruct x as [s| | |s m e]; try done.
  cbn [trunc Ieee.fval]. f_equal. cbn [valid_binary] in Vx.
  apply bounded_canon in Vx; [|done]. destruct Vx as (He & _).
  assert (Z.shiftl (Zpos m) e = Z.quot (Zpos m * 2 ^ (e - emin)) U) as Hq.
  { pose proof (pow2_pos (e - emin) ltac:(lia)).
    rewrite Z.quot_div_nonneg by lia. destruct (decide (0 <= e)) as [|Hn].
    - rewrite Z.shiftl_mul_pow2 by done. replace (e - emin) with (e + - emin) by lia.
      rewrite Z.pow_add_r, Z.mul_assoc, Z.div_mul by (pose proof (emin_neg prec emax Hprec); lia).
      done.
    - replace e with (- (- e)) at 1 by lia.
      rewrite <- Z.shiftr_opp_r, Z.opp_involutive, Z.shiftr_div_pow2 by lia.
      replace (- emin) with (- e + (e - emin)) by lia.
      rewrite Z.pow_add_r, Z.div_mul_cancel_r by
        (pose proof (pow2_pos (- e) ltac:(lia)); lia). done. }
  rewrite Hq. destruct s; cbn [cond_Zopp]; [|done].
  rewrite Z.quot_opp_l by lia. done.
Qed.

Lemma within_trunc l h x : within l h x -> exists z, trunc x = Some z /\ l <= z <= h.
Proof.
  intros [Vx Hx]. pose proof U_pos. exists (Z.quot (fval x) U). split; [by apply trunc_quot|].
  rewrite <- (Z.quot_mul l U), <- (Z.quot_mul h U) by lia.
  split; apply Z.quot_le_mono; lia.
Qed.

Lemma within_to_signed {E} l h x :
  within l h x -> - 2 ^ 31 <= l -> h < 2 ^ 31 ->
  exists z, to_signed (E := E) 32 x = Ret z /\ l <= z <= h.
Proof.
  intros Hx Hl Hh. destruct (within_trunc l h x Hx) as (z & Hz & Hb). exists z. split; [|done].
  unfold to_signed. rewrite Hz. rewrite decide_True; [done|]. simpl. lia.
Qed.

Lemma binary_round_valid s (m : positive) e :
  valid_binary prec emax (binary_round prec emax s m e) = true.
Proof.
  pose proof (binary_normalize_valid prec emax Hprec (cond_Zopp s (Zpos m)) e false) as H.
  by destruct s.
Qed.
End within.

(** ** Conversions between the formats *)

Lemma within_convert prec1 emax1 prec2 emax2 l h x :
  1 < prec1 < emax1 -> 1 < prec2 < emax2 ->
  representable prec2 l -> representable prec2 h ->
  within prec1 emax1 l h x -> within prec2 emax2 l h (convert prec2 emax2 x).
Proof.
  intros H1 H2 Hl Hh [[Fx Vx] Hx].
  destruct (representable_float prec2 emax2 H2 l Hl) as (zl & Vl & El).
  destruct (representable_float prec2 emax2 H2 h Hh) as (zh & Vh & Eh).
  pose proof (emin_neg _ _ H1) as N1. pose proof (emin_neg _ _ H2) as N2.
  pose proof (U_pos _ _ H1) as U1. pose proof (U_pos _ _ H2) as U2.
  destruct x as [s| | |s m e]; try done.
  { cbn [convert]. split; [done|]. cbn [Ieee.fval] in *. nia. }
  cbn [convert]. cbn [valid_binary] in Vx.
  pose proof (proj1 (bounded_canon _ _ H1 _ _) Vx) as [He _].
  set (K := Z.max (- emin prec1 emax1) (- emin prec2 emax2)).
  pose proof (binary_round_valid _ _ H2 s m e) as Vr.
  assert (cond_Zopp s (Zpos m) * 2 ^ (e + K) =
    fval prec1 emax1 (S754_finite s m e) * 2 ^ (emin prec1 emax1 + K)) as Ev.
  { cbn [Ieee.fval]. replace (e + K) with ((e - emin prec1 emax1) + (emin prec1 emax1 + K)) by lia.
    rewrite Z.pow_add_r by lia. destruct s; cbn [cond_Zopp]; lia. }
  assert (forall k, k * 2 ^ (- emin prec1 emax1) * 2 ^ (emin prec1 emax1 + K) = k * 2 ^ K) as E1.
  { intros k. rewrite <- Z.mul_assoc, <- Z.pow_add_r by lia. do 2 f_equal; lia. }
  assert (forall k, k * 2 ^ (- emin prec2 emax2) * 2 ^ (emin prec2 emax2 + K) = k * 2 ^ K) as E2.
  { intros k. rewrite <- Z.mul_assoc, <- Z.pow_add_r by lia. do 2 f_equal; lia. }
  pose proof (pow2_pos (emin prec1 emax1 + K) ltac:(lia)) as P1.
  pose proof (proj2 (binary_round_le _ _ H2 s m e zl K Vl ltac:(lia) ltac:(lia))) as Hrl.
  pose proof (proj1 (binary_round_le _ _ H2 s m e zh K Vh ltac:(lia) ltac:(lia))) as Hrh.
  rewrite Ev, El, E2, <- E1 in Hrl. rewrite Ev, Eh, E2, <- E1 in Hrh.
  specialize (Hrl ltac:(nia)). specialize (Hrh ltac:(nia)).
  set (r := binary_round prec2 emax2 s m e) in *.
  assert (isfinite r = true) as Fr.
  { destruct r as [|[]| |]; [done| | | |done]; destruct Vl as [Fl _], Vh as [Fh _];
      by destruct zl, zh. }
  rewrite (SFleb_fval prec2 emax2 H2) in Hrl, Hrh by done.
  apply Z.leb_le in Hrl, Hrh. split; [done|]. by rewrite <- El, <- Eh.
Qed.

Abbreviation fwithin := (within 24 128).
Abbreviation dwithin := (within 53 1024).

Lemma f_add_within a b c d x y :
  fwithin a b x -> fwithin c d y -> - 2 ^ 24 < a + c < 2 ^ 24 -> - 2 ^ 24 < b + d < 2 ^ 24 ->
  fwithin (a + c) (b + d) (f_add x y).
Proof. intros. apply within_add; done. Qed.

Lemma f_sub_within a b c d x y :
  fwithin a b x -> fwithin c d y -> - 2 ^ 24 < a - d < 2 ^ 24 -> - 2 ^ 24 < b - c < 2 ^ 24 ->
  fwithin (a - d) (b - c) (f_sub x y).
Proof. intros. apply within_sub; done. Qed.

Lemma f_of_Z_within n : - 2 ^ 24 < n < 2 ^ 24 -> fwithin n n (f_of_Z n).
Proof. intros. by apply within_of_Z. Qed.

Lemma d_of_f_within l h x :
  - 2 ^ 24 < l < 2 ^ 24 -> - 2 ^ 24 < h < 2 ^ 24 -> fwithin l h x -> dwithin l h (d_of_f x).
Proof. intros Hl Hh. apply within_convert; [lia|lia|unfold representable; lia..]. Qed.

Lemma f_of_d_within l h x :
  - 2 ^ 24 < l < 2 ^ 24 -> - 2 ^ 24 < h < 2 ^ 24 -> dwithin l h x -> fwithin l h (f_of_d x).
Proof. intros Hl Hh. by apply within_convert. Qed.
