(* ===== verification/Stamps.v ===== *)
(** Splitting a [double] number of seconds into the [sec] and [nanosec] of a ROS
    stamp.

    Both places of the code that do it (the raw packet of [ProcessLiarPacket]
    and the cloud of [lidarCallback]) subtract the whole seconds and multiply by
    1e9; the lemmas show that the subtraction is exact and that rounding the
    product never carries the nanoseconds into the next second. *)
From S2P Require Import Prelude Ieee IeeeRound IeeeInterval.
#[local] Open Scope Z_scope.

(** A time the message can hold: seconds of a 32-bit signed integer, not before
    1970.  Both conversions are defined on it. *)
Definition good_stamp (x : float) : Prop := dwithin 0 (2 ^ 31 - 1) x.

Definition whole_seconds (n : Z) (x : float) : Prop :=
  n * 2 ^ 1074 <= dval x < (n + 1) * 2 ^ 1074.

Lemma trunc_seconds x :
  good_stamp x -> exists n, trunc x = Some n /\ 0 <= n < 2 ^ 31 /\ whole_seconds n x.
Proof.
  intros Hx. pose proof Hx as [Vx Hb].
  change (2 ^ (- emin 53 1024)) with (2 ^ 1074) in Hb.
  pose proof (pow2_pos 1074 ltac:(lia)) as Hp.
  destruct (within_trunc 53 1024 ltac:(lia) _ _ _ Hx) as (n & Hn & Hnb).
  pose proof (trunc_quot 53 1024 ltac:(lia) x Vx) as Hq.
  change (2 ^ (- emin 53 1024)) with (2 ^ 1074) in Hq.
  rewrite Hn in Hq. injection Hq as Hq. rewrite Z.quot_div_nonneg in Hq by lia.
  exists n. unfold whole_seconds. split_and!; [done|lia|lia| |].
  - pose proof (Z.mul_div_le (dval x) (2 ^ 1074) Hp). lia.
  - pose proof (Z.mul_succ_div_gt (dval x) (2 ^ 1074) Hp). lia.
Qed.

(** The whole seconds taken away, the nanoseconds are at most 10^9. *)
Lemma nanoseconds_bounded x y n :
  dvalid x -> dvalid y -> dval y = n * 2 ^ 1074 -> whole_seconds n x ->
  exists ns, trunc (d_mul (d_sub x y) (d_of_Z 1000000000)) = Some ns /\ 0 <= ns <= 1000000000.
Proof.
  intros Vx Vy Ey Hn. unfold whole_seconds in Hn.
  assert (dwithin 0 1 (d_sub x y)) as [Vd Hd].
  { apply (within_rounds 53 1024 ltac:(lia) 0 1 (dval x - dval y));
      [unfold representable; lia|unfold representable; lia| | |].
    - by apply SFsub_rounds.
    - by apply SFsub_valid.
    - change (2 ^ (- emin 53 1024)) with (2 ^ 1074). lia. }
  apply (within_trunc 53 1024 ltac:(lia)).
  destruct (within_of_Z 53 1024 ltac:(lia) 1000000000 ltac:(unfold representable; lia))
    as [V1 H1].
  change (2 ^ (- emin 53 1024)) with (2 ^ 1074) in H1, Hd.
  pose proof (pow2_pos 1074 ltac:(lia)).
  apply (within_mul 53 1024 ltac:(lia) 1 1000000000); [done|done|unfold d_of_Z; lia|lia| |].
  - change (2 ^ (- emin 53 1024)) with (2 ^ 1074). unfold d_of_Z. lia.
  - unfold representable. lia.
Qed.

(** The last bit of a number from one on is worth at least 2^-52. *)
Lemma above_one_multiple x :
  dvalid x -> 2 ^ 1074 <= dval x -> exists k, dval x = k * 2 ^ 1022.
Proof.
  intros [Fx Vx] Hx. destruct x as [s| | |s m e]; try done.
  cbn [valid_binary] in Vx. apply bounded_canon in Vx as (He & Hm & _); [|lia].
  change (emin 53 1024) with (-1074) in He. cbn [fval] in *. change (emin 53 1024) with (-1074) in *.
  replace (e - -1074) with (e + 1074) in * by lia.
  assert (1074 < 53 + (e + 1074)) as Hexp.
  { apply pow2_le_inv; [lia..|]. rewrite Z.pow_add_r by lia.
    pose proof (pow2_pos (e + 1074) ltac:(lia)). destruct s; cbn [cond_Zopp] in Hx; nia. }
  exists (cond_Zopp s (Zpos m) * 2 ^ (e + 52)).
  rewrite <- Z.mul_assoc, <- Z.pow_add_r by lia. replace (e + 52 + 1022) with (e + 1074) by lia. destruct s; cbn [cond_Zopp]; lia.
Qed.

(** The fraction of a second: exact, and at most 1 - 2^-52. *)
Lemma fraction_exact x y n :
  dvalid x -> dvalid y -> 2 ^ 1074 <= dval x -> dval y = n * 2 ^ 1074 -> whole_seconds n x ->
  exists k, 0 <= k < 2 ^ 52 /\ dval x - dval y = k * 2 ^ 1022 /\
    dvalid (d_sub x y) /\ dval (d_sub x y) = k * 2 ^ 1022.
Proof.
  intros Vx Vy Hx Ey Hn. destruct (above_one_multiple x Vx Hx) as [k Hk].
  unfold whole_seconds in Hn. rewrite Ey, Hk in *.
  change (2 ^ 1074) with (2 ^ 52 * 2 ^ 1022) in *. pose proof (pow2_pos 1022 ltac:(lia)) as Hp.
  set (U := 2 ^ 1022) in *. exists (k - n * 2 ^ 52).
  assert (0 <= k - n * 2 ^ 52 < 2 ^ 52) as Hr by nia.
  split; [done|]. split; [lia|].
  destruct (representable_at 53 1024 ltac:(lia) (k - n * 2 ^ 52) (-52)) as (z & Vz & Ez);
    [unfold representable; lia|done|].
  change (2 ^ (-52 - emin 53 1024)) with U in Ez. rewrite <- Ez.
  apply (rounds_to_exact 53 1024 ltac:(lia) _ _ z); [|by apply SFsub_valid|done|done].
  replace (fval 53 1024 z) with (dval x - dval y) by lia. by apply SFsub_rounds.
Qed.

(** The greatest [double] under 1e9. *)
Lemma below_billion :
  exists z, dvalid z /\ dval z = (1000000000 * 2 ^ 23 - 1) * 2 ^ 1051.
Proof.
  apply (representable_at 53 1024 ltac:(lia) (1000000000 * 2 ^ 23 - 1) (-23));
    [unfold representable; lia|done].
Qed.

Lemma d_of_Z_exact n : representable 53 n -> dvalid (d_of_Z n) /\ dval (d_of_Z n) = n * 2 ^ 1074.
Proof.
  intros Hn. destruct (within_of_Z 53 1024 ltac:(lia) n Hn) as [V E]. split; [done|].
  change (2 ^ (- emin 53 1024)) with (2 ^ 1074) in E. unfold d_of_Z. lia.
Qed.

(** The nanoseconds stay below a second, and are off by at most one. *)
Lemma nanoseconds_spec x y n :
  dvalid x -> dvalid y -> 2 ^ 1074 <= dval x -> dval y = n * 2 ^ 1074 -> whole_seconds n x ->
  exists ns, trunc (d_mul (d_sub x y) (d_of_Z 1000000000)) = Some ns /\ 0 <= ns <= 999999999 /\
    (ns - 1) * 2 ^ 1074 <= (dval x - n * 2 ^ 1074) * 1000000000 < (ns + 1) * 2 ^ 1074.
Proof.
  intros Vx Vy Hx Ey Hn.
  destruct (fraction_exact x y n Vx Vy Hx Ey Hn) as (k & Hk & Hd & Vd & Ed).
  rewrite <- Ey, Hd. destruct below_billion as (top & Vtop & Etop).
  destruct (d_of_Z_exact 1000000000 ltac:(unfold representable; lia)) as [Vb Eb].
  pose proof (Z.div_mod (k * 1000000000) (2 ^ 52) ltac:(lia)) as Hq.
  pose proof (Z.mod_pos_bound (k * 1000000000) (2 ^ 52) ltac:(lia)) as Hm.
  set (q := k * 1000000000 / 2 ^ 52) in *.
  assert (0 <= q < 1000000000) as Hqb by lia.
  destruct (d_of_Z_exact q ltac:(unfold representable; lia)) as [Vq Eq].
  destruct (d_of_Z_exact (q + 1) ltac:(unfold representable; lia)) as [Vq1 Eq1].
  pose proof (pow2_pos 1022 ltac:(lia)) as Hp.
  change (2 ^ 1051) with (2 ^ 29 * 2 ^ 1022) in *. change (2 ^ 1074) with (2 ^ 52 * 2 ^ 1022) in *.
  set (U := 2 ^ 1022) in *.
  destruct (d_mul_between (d_sub x y) (d_of_Z 1000000000) (d_of_Z q) (d_of_Z (q + 1)))
    as [Vr Hr1]; [done..|rewrite Ed, Eb, Eq, Eq1; change (2 ^ 1074) with (2 ^ 52 * U); nia|].
  destruct (d_mul_between (d_sub x y) (d_of_Z 1000000000) (d_of_Z q) top)
    as [_ Hr2]; [done..|rewrite Ed, Eb, Eq, Etop; change (2 ^ 1074) with (2 ^ 52 * U); nia|].
  rewrite Eq, Eq1 in Hr1. rewrite Etop in Hr2.
  exists (Z.quot (dval (d_mul (d_sub x y) (d_of_Z 1000000000))) (2 ^ 1074)).
  rewrite (trunc_quot 53 1024 ltac:(lia) _ Vr). split; [done|].
  rewrite Z.quot_div_nonneg by (unfold U in *; lia).
  change (2 ^ 1074) with (2 ^ 52 * U).
  set (r := dval (d_mul _ _)) in *.
  pose proof (Z.div_mod r (2 ^ 52 * U) ltac:(nia)).
  pose proof (Z.mod_pos_bound r (2 ^ 52 * U) ltac:(nia)).
  set (ns := r / (2 ^ 52 * U)) in *.
  assert (q <= ns <= q + 1 /\ ns <= 999999999) by nia.
  nia.
Qed.
