(* ===== verification/GuardCascade.v ===== *)
(** Two guards in a row: the driver's guard on reception times and the node's on
    cloud times have the same tolerance, so the second never refuses a time the
    first has let through, whatever is left out in between.

    From one second after the epoch on, the difference of two times within a
    second is exact, so acceptance is a statement about exact values. *)
From stdpp Require Import sorting.
From S2P Require Import Prelude Ieee IeeeRound IeeeInterval Stamps PacketDefenses.
#[local] Open Scope Z_scope.

Definition timely (x : float) : Prop := dvalid x /\ 2 ^ 1074 <= dval x.

(** [y] is not earlier than [x] by more than the tolerance. *)
Definition close (x y : float) : Prop := dval x - dval y <= dval kTimestampRegressionToleranceSec.

Lemma tolerance_valid : dvalid kTimestampRegressionToleranceSec.
Proof. done. Qed.

Lemma tolerance_range : 0 <= dval kTimestampRegressionToleranceSec < 2 ^ 1073.
Proof. vm_compute. by split. Qed.

(** A difference below every number above the tolerance is within it. *)
Lemma close_exact x y :
  timely x -> timely y ->
  (forall z, dvalid z -> dval kTimestampRegressionToleranceSec < dval z -> dval x - dval y < dval z) ->
  close x y.
Proof.
  intros [Vx Hx] [Vy Hy] Hz. unfold close. pose proof tolerance_range as Ht.
  destruct (above_one_multiple x Vx Hx) as [i Hi], (above_one_multiple y Vy Hy) as [j Hj].
  apply Z.nlt_ge. intros Hlt. pose proof (pow2_pos 1022 ltac:(lia)) as Hp.
  destruct (representable_at 53 1024 ltac:(lia) 1 (-1)) as (half & Vh & Eh);
    [unfold representable; lia|done|].
  change (1 * 2 ^ (-1 - emin 53 1024)) with (2 ^ 51 * 2 ^ 1022) in Eh.
  change (2 ^ 1073) with (2 ^ 51 * 2 ^ 1022) in Ht.
  pose proof (Hz half Vh ltac:(lia)) as Hhalf. rewrite Hi, Hj, Eh in *.
  set (U := 2 ^ 1022) in *. assert (i - j < 2 ^ 51) as Hij by nia. assert (0 < i - j) as Hpos by nia.
  destruct (representable_at 53 1024 ltac:(lia) (i - j) (-52)) as (z & Vz & Ez);
    [unfold representable; lia|done|].
  change (2 ^ (-52 - emin 53 1024)) with U in Ez.
  pose proof (Hz z Vz ltac:(nia)). nia.
Qed.

Definition armed (g : TimestampGuard) : Prop :=
  tolerance_sec_ g = kTimestampRegressionToleranceSec /\
  (guard_initialized_ g = true -> timely (last_timestamp_ g)).

Lemma not_tsRegression_accepted d :
  td_status d = tsAccepted -> timestamp_accepted d = true.
Proof. unfold timestamp_accepted. by intros ->. Qed.
Lemma tsRegression_rejected d : td_status d = tsRegression -> timestamp_accepted d = false.
Proof. unfold timestamp_accepted. by intros ->. Qed.

(** What acceptance of a time means, and what it leaves. *)
Lemma armed_observe ts g :
  armed g -> timely ts ->
  let '(d, g') := guard_observe ts g in
  if timestamp_accepted d then
    armed g' /\ guard_initialized_ g' = true /\ dval ts <= dval (last_timestamp_ g') /\
    (last_timestamp_ g' = ts \/ guard_initialized_ g = true /\ last_timestamp_ g' = last_timestamp_ g) /\
    (guard_initialized_ g = true -> close (last_timestamp_ g) ts /\
       dval (last_timestamp_ g) <= dval (last_timestamp_ g'))
  else g' = g /\ guard_initialized_ g = true /\ ~ close (last_timestamp_ g) ts.
Proof.
  intros [Htol Hlast] Hts. destruct (guard_initialized_ g) eqn:Hi.
  - specialize (Hlast eq_refl). pose proof Hlast as [Vl _]. pose proof Hts as [Vt _].
    pose proof (guard_observe_cases g ts Hi Vl ltac:(by rewrite Htol) Vt) as Hc.
    destruct (guard_observe ts g) as [d g']. rewrite Htol in Hc.
    destruct Hc as [(Hd & Hi' & Ht' & Hl' & Hz)|(Hd & -> & Hz)].
    + rewrite not_tsRegression_accepted by done.
      assert (close (last_timestamp_ g) ts) as Hclose by (by apply close_exact).
      unfold armed. rewrite Hl', Ht'. case_decide; split_and!; auto; try lia;
        intros _; split; (done || lia).
    + rewrite tsRegression_rejected by done. split_and!; [done..|]. unfold close. lia.
  - unfold guard_observe. rewrite (proj1 (proj1 Hts)), Hi. cbn.
    change (timestamp_accepted _) with true. unfold armed. cbn. split_and!; auto; lia.
Qed.

(** ** The times let through *)

(** All times of [l] have passed [g], in this order. *)
Record passed (g : TimestampGuard) (l : list float) : Prop := {
  pa_armed : armed g;
  pa_timely : Forall timely l;
  pa_sorted : StronglySorted close l;
  pa_last : l <> [] -> guard_initialized_ g = true;
  pa_le : Forall (fun x => dval x <= dval (last_timestamp_ g)) l;
}.

Lemma passed_nil g : armed g -> passed g [].
Proof. intros Hg. split; [done|constructor|constructor|done|constructor]. Qed.

Lemma StronglySorted_add {A} (R : A -> A -> Prop) l x :
  StronglySorted R l -> Forall (fun y => R y x) l -> StronglySorted R (l ++ [x]).
Proof.
  induction 1 as [|y l Hl IH Hall]; intros Hx; [repeat constructor|].
  apply Forall_cons in Hx as [Hy Hx]. cbn. constructor; [auto|]. by apply Forall_app_2; [|constructor].
Qed.

Lemma close_refl x : close x x.
Proof. unfold close. pose proof tolerance_range. lia. Qed.

(** The same time may be passed on any number of times. *)
Lemma passed_again g l x :
  passed g l -> timely x -> guard_initialized_ g = true -> dval x <= dval (last_timestamp_ g) ->
  Forall (fun y => close y x) l -> passed g (l ++ [x]).
Proof.
  intros [Ha Ht Hs _ Hle] Hx Hi Hxl Hall. split; [done|..|done|].
  - by apply Forall_app_2; [|constructor].
  - by apply StronglySorted_add.
  - by apply Forall_app_2; [|constructor].
Qed.

Lemma passed_repeat g l x xs :
  passed g l -> timely x -> guard_initialized_ g = true -> dval x <= dval (last_timestamp_ g) ->
  Forall (fun y => close y x) l -> Forall (fun y => y = x) xs -> passed g (l ++ xs).
Proof.
  intros Hp Hx Hi Hxl Hall Hxs. revert l Hp Hall.
  induction Hxs as [|y xs -> _ IH]; intros l Hp Hall; [by rewrite app_nil_r|].
  rewrite cons_middle, app_assoc. apply IH; [by apply passed_again|].
  apply Forall_app_2; [done|]. constructor; [apply close_refl|constructor].
Qed.

Lemma passed_observe g l ts d g' xs :
  passed g l -> timely ts -> guard_observe ts g = (d, g') -> timestamp_accepted d = true ->
  Forall (fun y => y = ts) xs -> passed g' (l ++ xs).
Proof.
  intros [Ha Ht Hs Hl Hle] Hts Ho Hd Hxs. pose proof (armed_observe ts g Ha Hts) as H.
  rewrite Ho, Hd in H. destruct H as (Ha' & Hi' & Hle' & _ & Hold).
  assert (Forall (fun x => dval x <= dval (last_timestamp_ g') /\ close x ts) l) as Hall.
  { destruct l as [|y l]; [constructor|]. destruct (Hold (Hl ltac:(done))) as [Hc Hm].
    eapply Forall_impl; [exact Hle|]. intros x Hx. unfold close in *. lia. }
  apply (passed_repeat g' l ts); try done.
  - split; try done. eapply Forall_impl; [exact Hall|]. by intros ? [].
  - eapply Forall_impl; [exact Hall|]. by intros ? [].
Qed.

Lemma passed_refused g l ts d g' :
  passed g l -> (isfinite ts = true -> timely ts) -> guard_observe ts g = (d, g') ->
  timestamp_accepted d = false -> passed g' l.
Proof.
  intros Hp Hts Ho Hd. destruct (isfinite ts) eqn:Hf.
  - pose proof (armed_observe ts g (pa_armed _ _ Hp) (Hts eq_refl)) as H. rewrite Ho, Hd in H.
    by destruct H as [-> _].
  - destruct (guard_observe_nonfinite ts g Hf) as [_ Hg]. rewrite Ho in Hg. cbn in Hg. by subst.
Qed.

(** ** The second guard *)

(** [g] has seen [seen], a selection of times the first guard has let through. *)
Definition behind (g : TimestampGuard) (seen : list float) : Prop :=
  tolerance_sec_ g = kTimestampRegressionToleranceSec /\ Forall timely seen /\
  (guard_initialized_ g = true -> last_timestamp_ g ∈ seen).

Lemma behind_armed g seen : behind g seen -> armed g.
Proof.
  intros (Ht & Hall & Hin). split; [done|]. intros Hi. rewrite Forall_forall in Hall. by apply Hall, Hin.
Qed.

Lemma behind_accepts g seen x :
  behind g seen -> timely x -> Forall (fun y => close y x) seen ->
  timestamp_accepted (guard_observe x g).1 = true /\ behind (guard_observe x g).2 (seen ++ [x]).
Proof.
  intros Hb Hx Hall. pose proof Hb as (Ht & Hseen & Hin).
  pose proof (armed_observe x g (behind_armed _ _ Hb) Hx) as H.
  destruct (guard_observe x g) as [d g']. cbn [fst snd].
  destruct (timestamp_accepted d).
  - split; [done|]. destruct H as ((Ht' & _) & _ & _ & Hlast & _). split; [done|].
    split; [by apply Forall_app_2; [|constructor]|]. intros _. rewrite elem_of_app.
    destruct Hlast as [->|[Hi ->]]; [right; by apply list_elem_of_singleton|left; auto].
  - destruct H as (_ & Hi & Hn). rewrite Forall_forall in Hall. by destruct Hn; apply Hall, Hin.
Qed.

(** A selection in order of a list in which any later time is close. *)
Lemma sorted_sublist l k : sublist k l -> StronglySorted close l -> StronglySorted close k.
Proof.
  induction 1 as [|x k l Hk IH|x k l Hk IH]; intros Hs; [done|..];
    apply StronglySorted_inv in Hs as [Hs Hall]; [|auto].
  constructor; [auto|]. rewrite Forall_forall in *. intros y Hy. apply Hall.
  by eapply sublist_subseteq.
Qed.

Lemma sorted_split seen x rest :
  StronglySorted close (seen ++ x :: rest) -> Forall (fun y => close y x) seen.
Proof.
  induction seen as [|y seen IH]; cbn; intros Hs; [constructor|].
  apply StronglySorted_inv in Hs as [Hs Hall]. constructor; [|auto].
  apply Forall_app in Hall as [_ Hall]. by apply Forall_cons in Hall as [].
Qed.
