(* ===== verification/LidarTables.v ===== *)
(** The calibration tables: the constants of [pandarGeneral_internal.cc],
    [pandarXT.h] and [pandarQT.h], and what [Init] makes of them.

    An array member of the class starts indeterminate: an element [Init] does
    not assign is [None].  [sinf] and [cosf] come from the C library, which does
    not fix their last bit: they are parameters.  A vector of 36000 sines is the
    function of its index, undefined outside the vector. *)
From S2P Require Import Prelude Ieee PacketFormat.
#[local] Open Scope Z_scope.

(** A [float] literal. *)
#[local] Abbreviation F n d := (f_lit n d) (only parsing).

Definition assign_all (n : nat) (assignments : list (nat * float)) : list (option float) :=
  foldl (fun a '(i, v) => <[i := Some v]> a) (replicate n None) assignments.

(** ** Constants *)

Definition pandar40p_elev_angle_map : list float :=
  [F 150 10; F 110 10; F 80 10; F 50 10; F 30 10; F 20 10; F 167 100; F 133 100; F 10 10;
   F 67 100; F 33 100; F 0 10; F (-33) 100; F (-67) 100; F (-10) 10; F (-133) 100; F (-166) 100;
   F (-20) 10; F (-233) 100; F (-267) 100; F (-30) 10; F (-333) 100; F (-367) 100; F (-40) 10;
   F (-433) 100; F (-467) 100; F (-50) 10; F (-533) 100; F (-567) 100; F (-60) 10; F (-70) 10;
   F (-80) 10; F (-90) 10; F (-100) 10; F (-110) 10; F (-120) 10; F (-130) 10; F (-140) 10;
   F (-190) 10; F (-250) 10]%f32.

Definition pandarGeneral_elev_angle_map : list float :=
  [F 14882 1000; F 11032 1000; F 8059 1000; F 5057 1000; F 304 100; F 2028 1000; F 186 100;
   F 1688 1000; F 1522 1000; F 1351 1000; F 1184 1000; F 1013 1000; F 846 1000; F 675 1000;
   F 508 1000; F 337 1000; F 169 1000; F 0 10; F (-169) 1000; F (-337) 1000; F (-508) 1000;
   F (-675) 1000; F (-845) 1000; F (-1013) 1000; F (-1184) 1000; F (-1351) 1000; F (-1522) 1000;
   F (-1688) 1000; F (-186) 100; F (-2028) 1000; F (-2198) 1000; F (-2365) 1000; F (-2536) 1000;
   F (-27) 10; F (-2873) 1000; F (-304) 100; F (-321) 100; F (-3375) 1000; F (-3548) 1000;
   F (-3712) 1000; F (-3884) 1000; F (-405) 100; F (-4221) 1000; F (-4385) 1000; F (-4558) 1000;
   F (-472) 100; F (-4892) 1000; F (-5057) 1000; F (-5229) 1000; F (-5391) 1000; F (-5565) 1000;
   F (-5726) 1000; F (-5898) 1000; F (-6061) 1000; F (-7063) 1000; F (-8059) 1000; F (-906) 100;
   F (-9885) 1000; F (-11032) 1000; F (-12006) 1000; F (-12974) 1000; F (-1393) 100;
   F (-18889) 1000; F (-24897) 1000]%f32.

Definition pandar40p_horizatal_azimuth_offset_map : list float :=
  [F (-1042) 1000; F (-1042) 1000; F (-1042) 1000; F (-1042) 1000; F (-1042) 1000;
   F (-1042) 1000; F 3125 1000; F (-5208) 1000; F (-1042) 1000; F 3125 1000; F (-5208) 1000;
   F (-1042) 1000; F 3125 1000; F (-5208) 1000; F (-1042) 1000; F 3125 1000; F (-5208) 1000;
   F (-1042) 1000; F 3125 1000; F (-5208) 1000; F (-1042) 1000; F 3125 1000; F (-5208) 1000;
   F (-1042) 1000; F 3125 1000; F (-5208) 1000; F (-1042) 1000; F 3125 1000; F (-5208) 1000;
   F (-1042) 1000; F (-1042) 1000; F (-1042) 1000; F (-1042) 1000; F (-1042) 1000;
   F (-1042) 1000; F (-1042) 1000; F (-1042) 1000; F (-1042) 1000; F (-1042) 1000; F (-1042) 1000]%f32.

Definition pandarGeneral_horizatal_azimuth_offset_map : list float :=
  [F (-1042) 1000; F (-1042) 1000; F (-1042) 1000; F (-1042) 1000; F (-1042) 1000;
   F (-1042) 1000; F 1042 1000; F 3125 1000; F 5208 1000; F (-5208) 1000; F (-3125) 1000;
   F (-1042) 1000; F 1042 1000; F 3125 1000; F 5208 1000; F (-5208) 1000; F (-3125) 1000;
   F (-1042) 1000; F 1042 1000; F 3125 1000; F 5208 1000; F (-5208) 1000; F (-3125) 1000;
   F (-1042) 1000; F 1042 1000; F 3125 1000; F 5208 1000; F (-5208) 1000; F (-3125) 1000;
   F (-1042) 1000; F 1042 1000; F 3125 1000; F 5208 1000; F (-5208) 1000; F (-3125) 1000;
   F (-1042) 1000; F 1042 1000; F 3125 1000; F 5208 1000; F (-5208) 1000; F (-3125) 1000;
   F (-1042) 1000; F 1042 1000; F 3125 1000; F 5208 1000; F (-5208) 1000; F (-3125) 1000;
   F (-1042) 1000; F 1042 1000; F 3125 1000; F 5208 1000; F (-5208) 1000; F (-3125) 1000;
   F (-1042) 1000; F (-1042) 1000; F (-1042) 1000; F (-1042) 1000; F (-1042) 1000;
   F (-1042) 1000; F (-1042) 1000; F (-1042) 1000; F (-1042) 1000; F (-1042) 1000; F (-1042) 1000]%f32.

Definition pandar20_elev_angle_map : list float :=
  [F 80 10; F 50 10; F 30 10; F 20 10; F 167 100; F 10 10; F 33 100; F (-33) 100; F (-10) 10;
   F (-20) 10; F (-30) 10; F (-40) 10; F (-50) 10; F (-60) 10; F (-80) 10; F (-100) 10;
   F (-120) 10; F (-140) 10; F (-190) 10; F (-250) 10]%f32.

Definition pandar20_horizatal_azimuth_offset_map : list float :=
  [F (-1042) 1000; F (-1042) 1000; F (-1042) 1000; F (-1042) 1000; F 3125 1000; F (-1042) 1000;
   F (-5208) 1000; F 3125 1000; F (-1042) 1000; F (-1042) 1000; F (-1042) 1000; F (-1042) 1000;
   F (-1042) 1000; F (-1042) 1000; F (-1042) 1000; F (-1042) 1000; F (-1042) 1000;
   F (-1042) 1000; F (-1042) 1000; F (-1042) 1000]%f32.

Definition pandarQT_elev_angle_map : list float :=
  [F (-52121) 1000; F (-49785) 1000; F (-47577) 1000; F (-45477) 1000; F (-43465) 1000;
   F (-41528) 1000; F (-39653) 1000; F (-37831) 1000; F (-36055) 1000; F (-34320) 1000;
   F (-32619) 1000; F (-30950) 1000; F (-29308) 1000; F (-27690) 1000; F (-26094) 1000;
   F (-24517) 1000; F (-22964) 1000; F (-21420) 1000; F (-19889) 1000; F (-18372) 1000;
   F (-16865) 1000; F (-15368) 1000; F (-13880) 1000; F (-12399) 1000; F (-10925) 1000;
   F (-9457) 1000; F (-7994) 1000; F (-6535) 1000; F (-5079) 1000; F (-3626) 1000;
   F (-2175) 1000; F (-725) 1000; F 725 1000; F 2175 1000; F 3626 1000; F 5079 1000; F 6534 1000;
   F 7993 1000; F 9456 1000; F 10923 1000; F 12397 1000; F 13877 1000; F 15365 1000;
   F 16861 1000; F 18368 1000; F 19885 1000; F 21415 1000; F 22959 1000; F 24524 1000;
   F 26101 1000; F 27697 1000; F 29315 1000; F 30957 1000; F 32627 1000; F 34328 1000;
   F 36064 1000; F 37840 1000; F 39662 1000; F 41537 1000; F 43475 1000; F 45487 1000;
   F 47587 1000; F 49795 1000; F 52133 1000]%f32.

Definition pandarQT_horizatal_azimuth_offset_map : list float :=
  [F 8736 1000; F 8314 1000; F 7964 1000; F 7669 1000; F 7417 1000; F 7198 1000; F 7007 1000;
   F 6838 1000; F 6688 1000; F 6554 1000; F 6434 1000; F 6326 1000; F 6228 1000; F 6140 1000;
   F 6059 1000; F 5987 1000; F (-5270) 1000; F (-5216) 1000; F (-5167) 1000; F (-5123) 1000;
   F (-5083) 1000; F (-5047) 1000; F (-5016) 1000; F (-4988) 1000; F (-4963) 1000;
   F (-4942) 1000; F (-4924) 1000; F (-4910) 1000; F (-4898) 1000; F (-4889) 1000;
   F (-4884) 1000; F (-4881) 1000; F 5493 1000; F 5496 1000; F 5502 1000; F 5512 1000;
   F 5525 1000; F 5541 1000; F 5561 1000; F 5584 1000; F 5611 1000; F 5642 1000; F 5676 1000;
   F 5716 1000; F 5759 1000; F 5808 1000; F 5862 1000; F 5921 1000; F (-5330) 1000;
   F (-5396) 1000; F (-5469) 1000; F (-5550) 1000; F (-5640) 1000; F (-5740) 1000;
   F (-5850) 1000; F (-5974) 1000; F (-6113) 1000; F (-6269) 1000; F (-6447) 1000;
   F (-6651) 1000; F (-6887) 1000; F (-7163) 1000; F (-7493) 1000; F (-7892) 1000]%f32.

Definition pandarXT_elev_angle_map : list float :=
  [F 150 10; F 140 10; F 130 10; F 120 10; F 110 10; F 100 10; F 90 10; F 80 10; F 70 10;
   F 60 10; F 50 10; F 40 10; F 30 10; F 20 10; F 10 10; F 0 10; F (-10) 10; F (-20) 10;
   F (-30) 10; F (-40) 10; F (-50) 10; F (-60) 10; F (-70) 10; F (-80) 10; F (-90) 10;
   F (-100) 10; F (-110) 10; F (-120) 10; F (-130) 10; F (-140) 10; F (-150) 10; F (-160) 10]%f32.

Definition pandarXT_horizatal_azimuth_offset_map : list float :=
  [F 0 10; F 0 10; F 0 10; F 0 10; F 0 10; F 0 10; F 0 10; F 0 10; F 0 10; F 0 10; F 0 10;
   F 0 10; F 0 10; F 0 10; F 0 10; F 0 10; F 0 10; F 0 10; F 0 10; F 0 10; F 0 10; F 0 10;
   F 0 10; F 0 10; F 0 10; F 0 10; F 0 10; F 0 10; F 0 10; F 0 10; F 0 10; F 0 10]%f32.

Definition blockXTOffsetDual : list float :=
  [F 5632 1000 - F 500 10 * F 30 10; F 5632 1000 - F 500 10 * F 30 10;
   F 5632 1000 - F 500 10 * F 20 10; F 5632 1000 - F 500 10 * F 20 10;
   F 5632 1000 - F 500 10 * F 10 10; F 5632 1000 - F 500 10 * F 10 10;
   F 5632 1000 - F 500 10 * F 0 10; F 5632 1000 - F 500 10 * F 0 10]%f32.

Definition blockXTOffsetSingle : list float :=
  [F 5632 1000 - F 500 10 * F 70 10; F 5632 1000 - F 500 10 * F 60 10;
   F 5632 1000 - F 500 10 * F 50 10; F 5632 1000 - F 500 10 * F 40 10;
   F 5632 1000 - F 500 10 * F 30 10; F 5632 1000 - F 500 10 * F 20 10;
   F 5632 1000 - F 500 10 * F 10 10; F 5632 1000 - F 500 10 * F 0 10]%f32.

Definition laserXTOffset : list float :=
  [F 1512 1000 * F 0 10 + F 368 1000; F 1512 1000 * F 10 10 + F 368 1000;
   F 1512 1000 * F 20 10 + F 368 1000; F 1512 1000 * F 30 10 + F 368 1000;
   F 1512 1000 * F 40 10 + F 368 1000; F 1512 1000 * F 50 10 + F 368 1000;
   F 1512 1000 * F 60 10 + F 368 1000; F 1512 1000 * F 70 10 + F 368 1000;
   F 1512 1000 * F 80 10 + F 368 1000; F 1512 1000 * F 90 10 + F 368 1000;
   F 1512 1000 * F 100 10 + F 368 1000; F 1512 1000 * F 110 10 + F 368 1000;
   F 1512 1000 * F 120 10 + F 368 1000; F 1512 1000 * F 130 10 + F 368 1000;
   F 1512 1000 * F 140 10 + F 368 1000; F 1512 1000 * F 150 10 + F 368 1000;
   F 1512 1000 * F 160 10 + F 368 1000; F 1512 1000 * F 170 10 + F 368 1000;
   F 1512 1000 * F 180 10 + F 368 1000; F 1512 1000 * F 190 10 + F 368 1000;
   F 1512 1000 * F 200 10 + F 368 1000; F 1512 1000 * F 210 10 + F 368 1000;
   F 1512 1000 * F 220 10 + F 368 1000; F 1512 1000 * F 230 10 + F 368 1000;
   F 1512 1000 * F 240 10 + F 368 1000; F 1512 1000 * F 250 10 + F 368 1000;
   F 1512 1000 * F 260 10 + F 368 1000; F 1512 1000 * F 270 10 + F 368 1000;
   F 1512 1000 * F 280 10 + F 368 1000; F 1512 1000 * F 290 10 + F 368 1000;
   F 1512 1000 * F 300 10 + F 368 1000; F 1512 1000 * F 310 10 + F 368 1000]%f32.

Definition pandarXTM_elev_angle_map : list float :=
  [F 195 10; F 182 10; F 169 10; F 156 10; F 143 10; F 130 10; F 117 10; F 104 10; F 91 10;
   F 78 10; F 65 10; F 52 10; F 39 10; F 26 10; F 13 10; F 0 10; F (-13) 10; F (-26) 10;
   F (-39) 10; F (-52) 10; F (-65) 10; F (-78) 10; F (-91) 10; F (-104) 10; F (-117) 10;
   F (-130) 10; F (-143) 10; F (-156) 10; F (-169) 10; F (-182) 10; F (-195) 10; F (-208) 10]%f32.

Definition pandarXTM_horizatal_azimuth_offset_map : list float :=
  [F 0 10; F 0 10; F 0 10; F 0 10; F 0 10; F 0 10; F 0 10; F 0 10; F 0 10; F 0 10; F 0 10;
   F 0 10; F 0 10; F 0 10; F 0 10; F 0 10; F 0 10; F 0 10; F 0 10; F 0 10; F 0 10; F 0 10;
   F 0 10; F 0 10; F 0 10; F 0 10; F 0 10; F 0 10; F 0 10; F 0 10; F 0 10; F 0 10]%f32.

Definition blockXTMOffsetTriple : list float :=
  [F 5632 1000 - F 500 10 * F 10 10; F 5632 1000 - F 500 10 * F 10 10;
   F 5632 1000 - F 500 10 * F 10 10; F 5632 1000 - F 500 10 * F 0 10;
   F 5632 1000 - F 500 10 * F 0 10; F 5632 1000 - F 500 10 * F 0 10;
   F 5632 1000 - F 500 10 * F 0 10; F 5632 1000 - F 500 10 * F 0 10]%f32.

Definition blockXTMOffsetDual : list float :=
  [F 5632 1000 - F 500 10 * F 20 10; F 5632 1000 - F 500 10 * F 20 10;
   F 5632 1000 - F 500 10 * F 10 10; F 5632 1000 - F 500 10 * F 10 10;
   F 5632 1000 - F 500 10 * F 0 10; F 5632 1000 - F 500 10 * F 0 10;
   F 5632 1000 - F 500 10 * F 0 10; F 5632 1000 - F 500 10 * F 0 10]%f32.

Definition blockXTMOffsetSingle : list float :=
  [F 5632 1000 - F 500 10 * F 50 10; F 5632 1000 - F 500 10 * F 40 10;
   F 5632 1000 - F 500 10 * F 30 10; F 5632 1000 - F 500 10 * F 20 10;
   F 5632 1000 - F 500 10 * F 10 10; F 5632 1000 - F 500 10 * F 0 10;
   F 5632 1000 - F 500 10 * F 0 10; F 5632 1000 - F 500 10 * F 0 10]%f32.

Definition laserXTMOffset : list float :=
  [F 2856 1000 * F 0 10 + F 368 1000; F 2856 1000 * F 10 10 + F 368 1000;
   F 2856 1000 * F 20 10 + F 368 1000; F 2856 1000 * F 30 10 + F 368 1000;
   F 2856 1000 * F 40 10 + F 368 1000; F 2856 1000 * F 50 10 + F 368 1000;
   F 2856 1000 * F 60 10 + F 368 1000; F 2856 1000 * F 70 10 + F 368 1000;
   F 2856 1000 * F 80 10 + F 368 1000; F 2856 1000 * F 90 10 + F 368 1000;
   F 2856 1000 * F 100 10 + F 368 1000; F 2856 1000 * F 110 10 + F 368 1000;
   F 2856 1000 * F 120 10 + F 368 1000; F 2856 1000 * F 130 10 + F 368 1000;
   F 2856 1000 * F 140 10 + F 368 1000; F 2856 1000 * F 150 10 + F 368 1000;
   F 2856 1000 * F 0 10 + F 368 1000; F 2856 1000 * F 10 10 + F 368 1000;
   F 2856 1000 * F 20 10 + F 368 1000; F 2856 1000 * F 30 10 + F 368 1000;
   F 2856 1000 * F 40 10 + F 368 1000; F 2856 1000 * F 50 10 + F 368 1000;
   F 2856 1000 * F 60 10 + F 368 1000; F 2856 1000 * F 70 10 + F 368 1000;
   F 2856 1000 * F 80 10 + F 368 1000; F 2856 1000 * F 90 10 + F 368 1000;
   F 2856 1000 * F 100 10 + F 368 1000; F 2856 1000 * F 110 10 + F 368 1000;
   F 2856 1000 * F 120 10 + F 368 1000; F 2856 1000 * F 130 10 + F 368 1000;
   F 2856 1000 * F 140 10 + F 368 1000; F 2856 1000 * F 150 10 + F 368 1000]%f32.

(** *** The assignments of [Init], in order *)

Definition block40OffsetSingle_ : list (option float) :=
  assign_all 10
  [(9%nat, F 5556 100 * F 0 10 + F 2858 100); (8%nat, F 5556 100 * F 10 10 + F 2858 100);
   (7%nat, F 5556 100 * F 20 10 + F 2858 100); (6%nat, F 5556 100 * F 30 10 + F 2858 100);
   (5%nat, F 5556 100 * F 40 10 + F 2858 100); (4%nat, F 5556 100 * F 50 10 + F 2858 100);
   (3%nat, F 5556 100 * F 60 10 + F 2858 100); (2%nat, F 5556 100 * F 70 10 + F 2858 100);
   (1%nat, F 5556 100 * F 80 10 + F 2858 100); (0%nat, F 5556 100 * F 90 10 + F 2858 100)]%f32.

Definition block40OffsetDual_ : list (option float) :=
  assign_all 10
  [(9%nat, F 5556 100 * F 0 10 + F 2858 100); (8%nat, F 5556 100 * F 0 10 + F 2858 100);
   (7%nat, F 5556 100 * F 10 10 + F 2858 100); (6%nat, F 5556 100 * F 10 10 + F 2858 100);
   (5%nat, F 5556 100 * F 20 10 + F 2858 100); (4%nat, F 5556 100 * F 20 10 + F 2858 100);
   (3%nat, F 5556 100 * F 30 10 + F 2858 100); (2%nat, F 5556 100 * F 30 10 + F 2858 100);
   (1%nat, F 5556 100 * F 40 10 + F 2858 100); (0%nat, F 5556 100 * F 40 10 + F 2858 100)]%f32.

Definition laser40Offset_ : list (option float) :=
  assign_all 40
  [(3%nat, F 362 100); (39%nat, F 362 100); (35%nat, F 492 100); (27%nat, F 623 100);
   (11%nat, F 819 100); (15%nat, F 819 100); (31%nat, F 95 10); (23%nat, F 1147 100);
   (28%nat, F 1277 100); (16%nat, F 1474 100); (2%nat, F 1604 100); (38%nat, F 1604 100);
   (34%nat, F 1735 100); (24%nat, F 1865 100); (8%nat, F 2062 100); (12%nat, F 2062 100);
   (30%nat, F 2192 100); (20%nat, F 2389 100); (25%nat, F 2519 100); (13%nat, F 2716 100);
   (1%nat, F 2847 100); (37%nat, F 2847 100); (33%nat, F 2977 100); (5%nat, F 3174 100);
   (21%nat, F 317447 10000); (9%nat, F 3371 100); (29%nat, F 3501 100); (17%nat, F 3698 100);
   (22%nat, F 3895 100); (10%nat, F 4091 100); (0%nat, F 4222 100); (36%nat, F 4222 100);
   (32%nat, F 4352 100); (4%nat, F 4549 100); (18%nat, F 4549 100); (6%nat, F 4746 100);
   (26%nat, F 4876 100); (14%nat, F 5073 100); (19%nat, F 527 10); (9%nat, F 5467 100)]%f32.

Definition block64OffsetSingle_ : list (option float) :=
  assign_all 6
  [(5%nat, F 5556 100 * F 0 10 + F 4258 100); (4%nat, F 5556 100 * F 10 10 + F 4258 100);
   (3%nat, F 5556 100 * F 20 10 + F 4258 100); (2%nat, F 5556 100 * F 30 10 + F 4258 100);
   (1%nat, F 5556 100 * F 40 10 + F 4258 100); (0%nat, F 5556 100 * F 50 10 + F 4258 100)]%f32.

Definition block64OffsetDual_ : list (option float) :=
  assign_all 6
  [(5%nat, F 5556 100 * F 0 10 + F 4258 100); (4%nat, F 5556 100 * F 0 10 + F 4258 100);
   (3%nat, F 5556 100 * F 10 10 + F 4258 100); (2%nat, F 5556 100 * F 10 10 + F 4258 100);
   (1%nat, F 5556 100 * F 20 10 + F 4258 100); (0%nat, F 5556 100 * F 20 10 + F 4258 100)]%f32.

Definition laser64Offset_ : list (option float) :=
  assign_all 64
  [(50%nat, F 1304 1000 * F 0 10 + F 1968 1000 * F 0 10 + F 362 100);
   (60%nat, F 1304 1000 * F 0 10 + F 1968 1000 * F 0 10 + F 362 100);
   (44%nat, F 1304 1000 * F 10 10 + F 1968 1000 * F 0 10 + F 362 100);
   (59%nat, F 1304 1000 * F 10 10 + F 1968 1000 * F 0 10 + F 362 100);
   (38%nat, F 1304 1000 * F 20 10 + F 1968 1000 * F 0 10 + F 362 100);
   (56%nat, F 1304 1000 * F 20 10 + F 1968 1000 * F 0 10 + F 362 100);
   (8%nat, F 1304 1000 * F 30 10 + F 1968 1000 * F 0 10 + F 362 100);
   (54%nat, F 1304 1000 * F 30 10 + F 1968 1000 * F 0 10 + F 362 100);
   (48%nat, F 1304 1000 * F 40 10 + F 1968 1000 * F 0 10 + F 362 100);
   (62%nat, F 1304 1000 * F 40 10 + F 1968 1000 * F 0 10 + F 362 100);
   (42%nat, F 1304 1000 * F 50 10 + F 1968 1000 * F 0 10 + F 362 100);
   (58%nat, F 1304 1000 * F 50 10 + F 1968 1000 * F 0 10 + F 362 100);
   (6%nat, F 1304 1000 * F 60 10 + F 1968 1000 * F 0 10 + F 362 100);
   (55%nat, F 1304 1000 * F 60 10 + F 1968 1000 * F 0 10 + F 362 100);
   (52%nat, F 1304 1000 * F 70 10 + F 1968 1000 * F 0 10 + F 362 100);
   (63%nat, F 1304 1000 * F 70 10 + F 1968 1000 * F 0 10 + F 362 100);
   (46%nat, F 1304 1000 * F 80 10 + F 1968 1000 * F 0 10 + F 362 100);
   (61%nat, F 1304 1000 * F 80 10 + F 1968 1000 * F 0 10 + F 362 100);
   (40%nat, F 1304 1000 * F 90 10 + F 1968 1000 * F 0 10 + F 362 100);
   (57%nat, F 1304 1000 * F 90 10 + F 1968 1000 * F 0 10 + F 362 100);
   (5%nat, F 1304 1000 * F 100 10 + F 1968 1000 * F 0 10 + F 362 100);
   (53%nat, F 1304 1000 * F 100 10 + F 1968 1000 * F 0 10 + F 362 100);
   (4%nat, F 1304 1000 * F 110 10 + F 1968 1000 * F 0 10 + F 362 100);
   (47%nat, F 1304 1000 * F 110 10 + F 1968 1000 * F 0 10 + F 362 100);
   (3%nat, F 1304 1000 * F 120 10 + F 1968 1000 * F 0 10 + F 362 100);
   (49%nat, F 1304 1000 * F 120 10 + F 1968 1000 * F 0 10 + F 362 100);
   (2%nat, F 1304 1000 * F 130 10 + F 1968 1000 * F 0 10 + F 362 100);
   (51%nat, F 1304 1000 * F 130 10 + F 1968 1000 * F 0 10 + F 362 100);
   (1%nat, F 1304 1000 * F 140 10 + F 1968 1000 * F 0 10 + F 362 100);
   (45%nat, F 1304 1000 * F 140 10 + F 1968 1000 * F 0 10 + F 362 100);
   (0%nat, F 1304 1000 * F 150 10 + F 1968 1000 * F 0 10 + F 362 100);
   (43%nat, F 1304 1000 * F 150 10 + F 1968 1000 * F 0 10 + F 362 100);
   (23%nat, F 1304 1000 * F 150 10 + F 1968 1000 * F 10 10 + F 362 100);
   (32%nat, F 1304 1000 * F 150 10 + F 1968 1000 * F 10 10 + F 362 100);
   (26%nat, F 1304 1000 * F 150 10 + F 1968 1000 * F 20 10 + F 362 100);
   (41%nat, F 1304 1000 * F 150 10 + F 1968 1000 * F 20 10 + F 362 100);
   (20%nat, F 1304 1000 * F 150 10 + F 1968 1000 * F 30 10 + F 362 100);
   (35%nat, F 1304 1000 * F 150 10 + F 1968 1000 * F 30 10 + F 362 100);
   (14%nat, F 1304 1000 * F 150 10 + F 1968 1000 * F 40 10 + F 362 100);
   (29%nat, F 1304 1000 * F 150 10 + F 1968 1000 * F 40 10 + F 362 100);
   (21%nat, F 1304 1000 * F 150 10 + F 1968 1000 * F 50 10 + F 362 100);
   (36%nat, F 1304 1000 * F 150 10 + F 1968 1000 * F 50 10 + F 362 100);
   (15%nat, F 1304 1000 * F 150 10 + F 1968 1000 * F 60 10 + F 362 100);
   (30%nat, F 1304 1000 * F 150 10 + F 1968 1000 * F 60 10 + F 362 100);
   (9%nat, F 1304 1000 * F 150 10 + F 1968 1000 * F 70 10 + F 362 100);
   (24%nat, F 1304 1000 * F 150 10 + F 1968 1000 * F 70 10 + F 362 100);
   (18%nat, F 1304 1000 * F 150 10 + F 1968 1000 * F 80 10 + F 362 100);
   (33%nat, F 1304 1000 * F 150 10 + F 1968 1000 * F 80 10 + F 362 100);
   (12%nat, F 1304 1000 * F 150 10 + F 1968 1000 * F 90 10 + F 362 100);
   (27%nat, F 1304 1000 * F 150 10 + F 1968 1000 * F 90 10 + F 362 100);
   (19%nat, F 1304 1000 * F 150 10 + F 1968 1000 * F 100 10 + F 362 100);
   (34%nat, F 1304 1000 * F 150 10 + F 1968 1000 * F 100 10 + F 362 100);
   (13%nat, F 1304 1000 * F 150 10 + F 1968 1000 * F 110 10 + F 362 100);
   (28%nat, F 1304 1000 * F 150 10 + F 1968 1000 * F 110 10 + F 362 100);
   (7%nat, F 1304 1000 * F 150 10 + F 1968 1000 * F 120 10 + F 362 100);
   (22%nat, F 1304 1000 * F 150 10 + F 1968 1000 * F 120 10 + F 362 100);
   (16%nat, F 1304 1000 * F 150 10 + F 1968 1000 * F 130 10 + F 362 100);
   (31%nat, F 1304 1000 * F 150 10 + F 1968 1000 * F 130 10 + F 362 100);
   (10%nat, F 1304 1000 * F 150 10 + F 1968 1000 * F 140 10 + F 362 100);
   (25%nat, F 1304 1000 * F 150 10 + F 1968 1000 * F 140 10 + F 362 100);
   (17%nat, F 1304 1000 * F 150 10 + F 1968 1000 * F 150 10 + F 362 100);
   (37%nat, F 1304 1000 * F 150 10 + F 1968 1000 * F 150 10 + F 362 100);
   (11%nat, F 1304 1000 * F 150 10 + F 1968 1000 * F 160 10 + F 362 100);
   (39%nat, F 1304 1000 * F 150 10 + F 1968 1000 * F 160 10 + F 362 100)]%f32.

Definition laser20AOffset_ : list (option float) :=
  assign_all 20
  [(1%nat, F 1304 1000 * F 0 10 + F 1968 1000 * F 0 10 + F 362 100);
   (19%nat, F 1304 1000 * F 0 10 + F 1968 1000 * F 0 10 + F 362 100);
   (16%nat, F 1304 1000 * F 10 10 + F 1968 1000 * F 0 10 + F 362 100);
   (14%nat, F 1304 1000 * F 30 10 + F 1968 1000 * F 10 10 + F 362 100);
   (11%nat, F 1304 1000 * F 30 10 + F 1968 1000 * F 20 10 + F 362 100);
   (0%nat, F 1304 1000 * F 50 10 + F 1968 1000 * F 30 10 + F 362 100);
   (18%nat, F 1304 1000 * F 50 10 + F 1968 1000 * F 30 10 + F 362 100);
   (5%nat, F 1304 1000 * F 70 10 + F 1968 1000 * F 40 10 + F 362 100);
   (7%nat, F 1304 1000 * F 70 10 + F 1968 1000 * F 40 10 + F 362 100);
   (10%nat, F 1304 1000 * F 80 10 + F 1968 1000 * F 50 10 + F 362 100);
   (17%nat, F 1304 1000 * F 100 10 + F 1968 1000 * F 60 10 + F 362 100);
   (15%nat, F 1304 1000 * F 110 10 + F 1968 1000 * F 60 10 + F 362 100);
   (3%nat, F 1304 1000 * F 110 10 + F 1968 1000 * F 70 10 + F 362 100);
   (13%nat, F 1304 1000 * F 120 10 + F 1968 1000 * F 80 10 + F 362 100);
   (9%nat, F 1304 1000 * F 120 10 + F 1968 1000 * F 90 10 + F 362 100);
   (6%nat, F 1304 1000 * F 120 10 + F 1968 1000 * F 110 10 + F 362 100);
   (2%nat, F 1304 1000 * F 140 10 + F 1968 1000 * F 120 10 + F 362 100);
   (4%nat, F 1304 1000 * F 140 10 + F 1968 1000 * F 130 10 + F 362 100);
   (12%nat, F 1304 1000 * F 150 10 + F 1968 1000 * F 130 10 + F 362 100);
   (8%nat, F 1304 1000 * F 150 10 + F 1968 1000 * F 140 10 + F 362 100)]%f32.

Definition laser20BOffset_ : list (option float) :=
  assign_all 20
  [(17%nat, F 1304 1000 * F 10 10 + F 1968 1000 * F 0 10 + F 362 100);
   (5%nat, F 1304 1000 * F 20 10 + F 1968 1000 * F 10 10 + F 362 100);
   (15%nat, F 1304 1000 * F 30 10 + F 1968 1000 * F 10 10 + F 362 100);
   (11%nat, F 1304 1000 * F 30 10 + F 1968 1000 * F 20 10 + F 362 100);
   (8%nat, F 1304 1000 * F 40 10 + F 1968 1000 * F 30 10 + F 362 100);
   (19%nat, F 1304 1000 * F 50 10 + F 1968 1000 * F 30 10 + F 362 100);
   (3%nat, F 1304 1000 * F 70 10 + F 1968 1000 * F 40 10 + F 362 100);
   (6%nat, F 1304 1000 * F 70 10 + F 1968 1000 * F 40 10 + F 362 100);
   (14%nat, F 1304 1000 * F 80 10 + F 1968 1000 * F 40 10 + F 362 100);
   (10%nat, F 1304 1000 * F 80 10 + F 1968 1000 * F 50 10 + F 362 100);
   (18%nat, F 1304 1000 * F 100 10 + F 1968 1000 * F 60 10 + F 362 100);
   (16%nat, F 1304 1000 * F 110 10 + F 1968 1000 * F 60 10 + F 362 100);
   (1%nat, F 1304 1000 * F 110 10 + F 1968 1000 * F 70 10 + F 362 100);
   (13%nat, F 1304 1000 * F 120 10 + F 1968 1000 * F 80 10 + F 362 100);
   (4%nat, F 1304 1000 * F 120 10 + F 1968 1000 * F 110 10 + F 362 100);
   (0%nat, F 1304 1000 * F 140 10 + F 1968 1000 * F 120 10 + F 362 100);
   (9%nat, F 1304 1000 * F 140 10 + F 1968 1000 * F 120 10 + F 362 100);
   (2%nat, F 1304 1000 * F 140 10 + F 1968 1000 * F 130 10 + F 362 100);
   (12%nat, F 1304 1000 * F 150 10 + F 1968 1000 * F 130 10 + F 362 100);
   (7%nat, F 1304 1000 * F 150 10 + F 1968 1000 * F 140 10 + F 362 100)]%f32.

Definition blockQTOffsetSingle_ : list (option float) :=
  assign_all 4
  [(0%nat, F 2571 100); (1%nat, F 2571 100 + F 16667 100); (2%nat, F 2571 100 + F 33333 100);
   (3%nat, F 2571 100 + F 50000 100)]%f32.

Definition blockQTOffsetDual_ : list (option float) :=
  assign_all 4
  [(0%nat, F 2571 100); (1%nat, F 2571 100); (2%nat, F 2571 100 + F 16667 100);
   (3%nat, F 2571 100 + F 16667 100)]%f32.

Definition laserQTOffset_ : list (option float) :=
  assign_all 64
  [(0%nat, F 100 10 + F 231 100); (1%nat, F 100 10 + F 437 100); (2%nat, F 100 10 + F 643 100);
   (3%nat, F 100 10 + F 849 100); (4%nat, F 100 10 + F 1054 100); (5%nat, F 100 10 + F 1260 100);
   (6%nat, F 100 10 + F 1466 100); (7%nat, F 100 10 + F 1671 100);
   (8%nat, F 100 10 + F 1916 100); (9%nat, F 100 10 + F 2122 100);
   (10%nat, F 100 10 + F 2328 100); (11%nat, F 100 10 + F 2534 100);
   (12%nat, F 100 10 + F 2739 100); (13%nat, F 100 10 + F 2945 100);
   (14%nat, F 100 10 + F 3150 100); (15%nat, F 100 10 + F 3356 100);
   (16%nat, F 100 10 + F 3661 100); (17%nat, F 100 10 + F 3867 100);
   (18%nat, F 100 10 + F 4073 100); (19%nat, F 100 10 + F 4278 100);
   (20%nat, F 100 10 + F 4484 100); (21%nat, F 100 10 + F 4690 100);
   (22%nat, F 100 10 + F 4895 100); (23%nat, F 100 10 + F 5101 100);
   (24%nat, F 100 10 + F 5345 100); (25%nat, F 100 10 + F 5552 100);
   (26%nat, F 100 10 + F 5758 100); (27%nat, F 100 10 + F 5963 100);
   (28%nat, F 100 10 + F 6169 100); (29%nat, F 100 10 + F 6374 100);
   (30%nat, F 100 10 + F 6580 100); (31%nat, F 100 10 + F 6786 100);
   (32%nat, F 100 10 + F 7090 100); (33%nat, F 100 10 + F 7297 100);
   (34%nat, F 100 10 + F 7502 100); (35%nat, F 100 10 + F 7708 100);
   (36%nat, F 100 10 + F 7914 100); (37%nat, F 100 10 + F 8119 100);
   (38%nat, F 100 10 + F 8325 100); (39%nat, F 100 10 + F 8530 100);
   (40%nat, F 100 10 + F 8775 100); (41%nat, F 100 10 + F 8982 100);
   (42%nat, F 100 10 + F 9187 100); (43%nat, F 100 10 + F 9393 100);
   (44%nat, F 100 10 + F 9598 100); (45%nat, F 100 10 + F 9804 100);
   (46%nat, F 100 10 + F 10010 100); (47%nat, F 100 10 + F 10215 100);
   (48%nat, F 100 10 + F 10520 100); (49%nat, F 100 10 + F 10726 100);
   (50%nat, F 100 10 + F 10932 100); (51%nat, F 100 10 + F 11138 100);
   (52%nat, F 100 10 + F 11343 100); (53%nat, F 100 10 + F 11549 100);
   (54%nat, F 100 10 + F 11754 100); (55%nat, F 100 10 + F 11960 100);
   (56%nat, F 100 10 + F 12205 100); (57%nat, F 100 10 + F 12411 100);
   (58%nat, F 100 10 + F 12617 100); (59%nat, F 100 10 + F 12822 100);
   (60%nat, F 100 10 + F 13028 100); (61%nat, F 100 10 + F 13234 100);
   (62%nat, F 100 10 + F 13439 100); (63%nat, F 100 10 + F 13645 100)]%f32.

(** The loop over [block20OffsetSingle_] and [block20OffsetDual_]. *)
Definition block20OffsetSingle_ : list (option float) :=
  (fun i => Some (f_add (F 2858 100) (f_mul (f_of_Z (HS_LIDAR_L20_BLOCK_NUMBER - 1 - i)) (F 5556 100))))
    <$> seqZ 0 HS_LIDAR_L20_BLOCK_NUMBER.

Definition block20OffsetDual_ : list (option float) :=
  (fun i => Some (f_add (F 2858 100)
     (f_mul (f_of_Z (Z.quot (HS_LIDAR_L20_BLOCK_NUMBER - 1 - i) 2)) (F 5556 100))))
    <$> seqZ 0 HS_LIDAR_L20_BLOCK_NUMBER.

(** ** Angles *)

Definition M_PI : float := S754_finite false 7074237752028440 (-51).
Definition degreeToRadian (degree : float) : float := d_div (d_mul degree M_PI) (d_of_Z 180).

Definition MAX_LASER_NUM : Z := 256.
Definition MAX_AZIMUTH_DEGREE_NUM : Z := 36000.
Definition HS_LIDAR_XT16_UNIT_NUM : Z := 16.
Definition HS_LIDAR_XT_COORDINATE_CORRECTION_H : float := d_lit 315 10000.
Definition HS_LIDAR_XT_COORDINATE_CORRECTION_B : float := d_lit 13 1000.
Definition HS_LIDAR_XTM_COORDINATE_CORRECTION_H : float := d_lit 305 10000.
Definition HS_LIDAR_XTM_COORDINATE_CORRECTION_B : float := d_lit 13 1000.

(** The lidar types [Init] knows. *)
Record Calibration := {
  General_elev_angle_map_ : list (option float);
  General_horizatal_azimuth_offset_map_ : list (option float);
  m_sin_elevation_map_ : list float;
  m_cos_elevation_map_ : list float;
  laserXTOffset_ : list (option float);
  blockXTOffsetSingle_ : list (option float);
  blockXTOffsetDual_ : list (option float);
  blockXTOffsetTriple_ : list (option float);
}.

(** A loop that assigns the first elements of an array. *)
Definition set_prefix (l : list float) (a : list (option float)) : list (option float) :=
  (Some <$> l) ++ drop (length l) a.

(** [pandarXT_elev_angle_map[i*2]] and the like. *)
Definition every_other (l : list float) : list float :=
  (fun i => nth (Z.to_nat (i * 2)) l S754_nan) <$> seqZ 0 HS_LIDAR_XT16_UNIT_NUM.

Section init.
Context (sinf cosf : float -> float).

Definition azimuth_angle (i : Z) : float :=
  f_of_d (d_div (d_mul (d_of_Z i) M_PI) (d_of_Z 18000)).

Definition azimuth_entry {E} (v : Z -> float) (i : Z) : outcome E float :=
  if decide (0 <= i < MAX_AZIMUTH_DEGREE_NUM) then Ret (v i) else Undef.

Definition m_sin_azimuth_map_ {E} : Z -> outcome E float :=
  azimuth_entry (fun i => sinf (azimuth_angle i)).
Definition m_cos_azimuth_map_ {E} : Z -> outcome E float :=
  azimuth_entry (fun i => cosf (azimuth_angle i)).

Definition correction_h (m_sLidarType : string) : float :=
  if bool_decide (m_sLidarType = "PandarXTM") then HS_LIDAR_XTM_COORDINATE_CORRECTION_H
  else HS_LIDAR_XT_COORDINATE_CORRECTION_H.
Definition correction_b (m_sLidarType : string) : float :=
  if bool_decide (m_sLidarType = "PandarXTM") then HS_LIDAR_XTM_COORDINATE_CORRECTION_B
  else HS_LIDAR_XT_COORDINATE_CORRECTION_B.

Definition m_sin_azimuth_map_h {E} (m_sLidarType : string) : Z -> outcome E float :=
  azimuth_entry (fun i => f_of_d (d_mul (d_of_f (sinf (azimuth_angle i))) (correction_h m_sLidarType))).
Definition m_cos_azimuth_map_h {E} (m_sLidarType : string) : Z -> outcome E float :=
  azimuth_entry (fun i => f_of_d (d_mul (d_of_f (cosf (azimuth_angle i))) (correction_h m_sLidarType))).
Definition m_sin_azimuth_map_b {E} (m_sLidarType : string) : Z -> outcome E float :=
  azimuth_entry (fun i => f_of_d (d_mul (d_of_f (sinf (azimuth_angle i))) (correction_b m_sLidarType))).
Definition m_cos_azimuth_map_b {E} (m_sLidarType : string) : Z -> outcome E float :=
  azimuth_entry (fun i => f_of_d (d_mul (d_of_f (cosf (azimuth_angle i))) (correction_b m_sLidarType))).

(** The members before the per-type part of [Init]. *)
Definition calibration_blank : Calibration :=
  {| General_elev_angle_map_ := replicate (Z.to_nat MAX_LASER_NUM) None;
     General_horizatal_azimuth_offset_map_ := replicate (Z.to_nat MAX_LASER_NUM) None;
     m_sin_elevation_map_ := []; m_cos_elevation_map_ := [];
     laserXTOffset_ := replicate (Z.to_nat HS_LIDAR_XT_UNIT_NUM) None;
     blockXTOffsetSingle_ := replicate (Z.to_nat HS_LIDAR_XT_BLOCK_NUMBER) None;
     blockXTOffsetDual_ := replicate (Z.to_nat HS_LIDAR_XT_BLOCK_NUMBER) None;
     blockXTOffsetTriple_ := replicate (Z.to_nat HS_LIDAR_XT_BLOCK_NUMBER) None |}.

Definition sin_elevation (elev : float) : float := sinf (f_of_d (degreeToRadian (d_of_f elev))).
Definition cos_elevation (elev : float) : float := cosf (f_of_d (degreeToRadian (d_of_f elev))).

(** The loop every type runs over its elevation and azimuth tables. *)
Definition init_lasers (elev azimuth : list float) (c : Calibration) : Calibration :=
  {| General_elev_angle_map_ := set_prefix elev (General_elev_angle_map_ c);
     General_horizatal_azimuth_offset_map_ :=
       set_prefix azimuth (General_horizatal_azimuth_offset_map_ c);
     m_sin_elevation_map_ := sin_elevation <$> elev;
     m_cos_elevation_map_ := cos_elevation <$> elev;
     laserXTOffset_ := laserXTOffset_ c;
     blockXTOffsetSingle_ := blockXTOffsetSingle_ c;
     blockXTOffsetDual_ := blockXTOffsetDual_ c;
     blockXTOffsetTriple_ := blockXTOffsetTriple_ c |}.

Definition init_xt_lasers (offsets : list float) (c : Calibration) : Calibration :=
  {| General_elev_angle_map_ := General_elev_angle_map_ c;
     General_horizatal_azimuth_offset_map_ := General_horizatal_azimuth_offset_map_ c;
     m_sin_elevation_map_ := m_sin_elevation_map_ c;
     m_cos_elevation_map_ := m_cos_elevation_map_ c;
     laserXTOffset_ := set_prefix offsets (laserXTOffset_ c);
     blockXTOffsetSingle_ := blockXTOffsetSingle_ c;
     blockXTOffsetDual_ := blockXTOffsetDual_ c;
     blockXTOffsetTriple_ := blockXTOffsetTriple_ c |}.

Definition init_xt_blocks (single dual triple : list float) (c : Calibration) : Calibration :=
  {| General_elev_angle_map_ := General_elev_angle_map_ c;
     General_horizatal_azimuth_offset_map_ := General_horizatal_azimuth_offset_map_ c;
     m_sin_elevation_map_ := m_sin_elevation_map_ c;
     m_cos_elevation_map_ := m_cos_elevation_map_ c;
     laserXTOffset_ := laserXTOffset_ c;
     blockXTOffsetSingle_ := set_prefix single (blockXTOffsetSingle_ c);
     blockXTOffsetDual_ := set_prefix dual (blockXTOffsetDual_ c);
     blockXTOffsetTriple_ := set_prefix triple (blockXTOffsetTriple_ c) |}.

(** The per-type part of [Init]. *)
Definition Init (m_sLidarType : string) : Calibration :=
  let is_type t := bool_decide (m_sLidarType = t) in
  let c := calibration_blank in
  let c := if is_type "Pandar40P" || is_type "Pandar40M"
           then init_lasers pandar40p_elev_angle_map pandar40p_horizatal_azimuth_offset_map c
           else c in
  let c := if is_type "Pandar64"
           then init_lasers pandarGeneral_elev_angle_map pandarGeneral_horizatal_azimuth_offset_map c
           else c in
  let c := if is_type "Pandar20A" || is_type "Pandar20B"
           then init_lasers pandar20_elev_angle_map pandar20_horizatal_azimuth_offset_map c
           else c in
  let c := if is_type "PandarQT"
           then init_lasers pandarQT_elev_angle_map pandarQT_horizatal_azimuth_offset_map c
           else c in
  let c := if is_type "PandarXT-32"
           then init_xt_lasers laserXTOffset
                  (init_lasers pandarXT_elev_angle_map pandarXT_horizatal_azimuth_offset_map c)
           else c in
  let c := if is_type "PandarXT-16"
           then init_xt_lasers (every_other laserXTOffset)
                  (init_lasers (every_other pandarXT_elev_angle_map)
                     (every_other pandarXT_horizatal_azimuth_offset_map) c)
           else c in
  let c := init_xt_blocks blockXTOffsetSingle blockXTOffsetDual [] c in
  if is_type "PandarXTM"
  then init_xt_blocks blockXTMOffsetSingle blockXTMOffsetDual blockXTMOffsetTriple
         (init_xt_lasers laserXTMOffset
            (init_lasers pandarXTM_elev_angle_map pandarXTM_horizatal_azimuth_offset_map c))
  else c.
End init.

(** ** The tables are complete, but for one entry *)

Definition assigned (a : list (option float)) (n : nat) : bool :=
  (n <=? length a)%nat && forallb (fun v => bool_decide (is_Some v)) (take n a).

Definition strictly_ordered (lt : float -> float -> bool) (l : list float) : bool :=
  forallb (fun '(a, b) => lt a b) (zip l (tail l)).

Definition unassigned (a : list (option float)) : list nat :=
  zip (seq 0 (length a)) a ≫= fun '(i, v) => match v with Some _ => [] | None => [i] end.

(** Each lidar type [Init] knows, with its number of lasers. *)
Definition lidar_types : list (string * nat) :=
  [("Pandar40P", 40); ("Pandar40M", 40); ("Pandar64", 64); ("Pandar20A", 20); ("Pandar20B", 20);
   ("PandarQT", 64); ("PandarXT-32", 32); ("PandarXT-16", 16); ("PandarXTM", 32)]%nat%string.

(** [Init] assigns every entry of the block and laser time offset tables of
    the Pandar64, Pandar20 and PandarQT, and of the Pandar40 except
    [laser40Offset_[7]], which it leaves indeterminate while it assigns
    [laser40Offset_[9]] twice. *)
Theorem init_offsets_assigned :
  forallb (fun '(a, n) => assigned a n)
    [(block40OffsetSingle_, 10); (block40OffsetDual_, 10);
     (block64OffsetSingle_, 6); (block64OffsetDual_, 6); (laser64Offset_, 64);
     (block20OffsetSingle_, 20); (block20OffsetDual_, 20); (laser20AOffset_, 20);
     (laser20BOffset_, 20);
     (blockQTOffsetSingle_, 4); (blockQTOffsetDual_, 4); (laserQTOffset_, 64)]%nat = true /\
  length laser40Offset_ = 40%nat /\ unassigned laser40Offset_ = [7%nat] /\
  laser40Offset_ !! 9%nat = Some (Some (f_lit 5467 100)).
Proof. split_and!; vm_compute; reflexivity. Qed.

Definition elevations (c : Calibration) : list float := omap id (General_elev_angle_map_ c).

Definition is_xt (t : string) : bool :=
  bool_decide (t ∈ ["PandarXT-32"; "PandarXT-16"; "PandarXTM"]%string).

(** What [Init] must leave behind for a type with [n] lasers. *)
Definition calibrated (t : string) (n : nat) (c : Calibration) : Prop :=
  length (m_sin_elevation_map_ c) = n /\ length (m_cos_elevation_map_ c) = n /\
  assigned (General_elev_angle_map_ c) n = true /\
  assigned (General_horizatal_azimuth_offset_map_ c) n = true /\
  length (elevations c) = n /\
  strictly_ordered (if bool_decide (t = "PandarQT") then SFltb else flip SFltb) (elevations c) =
    true /\
  (is_xt t = true ->
    assigned (laserXTOffset_ c) n = true /\ assigned (blockXTOffsetSingle_ c) 8 = true /\
    assigned (blockXTOffsetDual_ c) 8 = true /\
    assigned (blockXTOffsetTriple_ c) 8 = bool_decide (t = "PandarXTM")).

Lemma lidar_types_calibrated (sinf cosf : float -> float) :
  Forall (fun '(t, n) => calibrated t n (Init sinf cosf t)) lidar_types.
Proof.
  solve_Forall; (split_and!; [vm_compute; reflexivity..|]); intros Hx;
    first [vm_compute in Hx; discriminate | split_and!; vm_compute; reflexivity].
Qed.

(** For each type it knows, [Init] leaves exactly one sine and cosine per
    laser, assigns the angles and XT offsets of every laser, and orders the
    lasers strictly by elevation (upwards for the PandarQT, downwards for the
    others); the triple-return XT offsets are assigned for the PandarXTM only.
    For any other type, "XT" included, it leaves the elevation maps empty. *)
Theorem init_types_calibrated (sinf cosf : float -> float) :
  Forall (fun '(t, n) => calibrated t n (Init sinf cosf t)) lidar_types /\
  forall t, t ∉ lidar_types.*1 -> m_cos_elevation_map_ (Init sinf cosf t) = [].
Proof.
  split.
  - apply lidar_types_calibrated.
  - intros t Ht. unfold lidar_types in Ht. simpl in Ht. rewrite !not_elem_of_cons in Ht.
    unfold Init. rewrite !bool_decide_eq_false_2 by tauto. done.
Qed.

Lemma init_types_calibrated_witness : m_cos_elevation_map_ (Init id id "XT") = [].
Proof.
  apply (init_types_calibrated id id). apply (bool_decide_unpack _). vm_compute. exact I.
Defined.
