(* ===== verification/PointCalc.v ===== *)
(** The point computation: [CalcPointXYZIT], [CalcL64PointXYZIT],
    [CalcL20PointXYZIT], [CalcQTPointXYZIT] and [CalcXTPointXYZIT] of
    [pandarGeneral_internal.cc].

    Arithmetic is exactly rounded in the type each C++ expression has, without
    contraction; [sqrt] of a [float] is the [float] overload.  [sinf], [cosf]
    and the two affine maps the tf library delivers are parameters. *)
From S2P Require Import Prelude Ieee IeeeRound IeeeInterval Calendar CompactCloud.
From S2P Require Import PacketFormat ParseXT ParseLegacy LidarTables.
From stdpp Require Import gmap.
#[local] Open Scope Z_scope.

(** ** State and settings *)

Definition MAX_POINT_CLOUD_NUM : Z := 1000000.

(** The members that collect the points of the current frame.  [m_vPointCloud]
    is a vector of [MAX_POINT_CLOUD_NUM] points, here the finite map of those
    written. *)
Record Frame := {
  m_iPointCloudIndex : Z;
  m_vPointCloud : gmap Z PPoint;
  m_vPointCloudList : list (list PPoint);
}.

Record Settings := {
  m_sTimestampType : string;
  tz_second_ : Z;
  pcl_type_ : bool;
  m_sLidarType : string;
  m_bCoordinateCorrectionFlag : bool;
  m_sFrameId : string;
}.

(** The current transformations, [None] when the frame name is empty. *)
Record Transforms := {
  to_fixed : option (float * float * float -> float * float * float);
  to_target : option (float * float * float -> float * float * float);
}.

Definition transformPoint (tf : Transforms) (p : float * float * float) : float * float * float :=
  let p := match to_fixed tf with Some f => f p | None => p end in
  match to_target tf with Some f => f p | None => p end.

(** Reading an array element that may be indeterminate. *)
Definition arr_value {E} (a : list (option float)) (i : Z) : outcome E float :=
  v ← arr_get a i; match v with Some v => Ret v | None => Undef end.

Definition GetFiretimeOffset (spinSpeed deltMicrosecond : float) : float :=
  f_of_d (d_mul (d_of_f (f_mul spinSpeed deltMicrosecond)) (d_lit 6 1000000)).

Section calc.
Context {E : Type} (sinf cosf : float -> float) (c : Calibration) (s : Settings) (tf : Transforms).

(** The azimuth index of a point: [General * 100 + azimuth -/+ firetime * 100],
    as an [int], brought into one turn. *)
Definition azimuth_index (subtract : bool) (general : float) (azimuth : Z) (firetime : float)
    : outcome E Z :=
  let base := f_add (f_mul general (f_of_Z 100)) (f_of_Z azimuth) in
  let shift := f_mul firetime (f_of_Z 100) in
  azimuth ← to_signed 32 (if subtract then f_sub base shift else f_add base shift);
  let azimuth := if azimuth <? 0 then azimuth + 36000 else azimuth in
  Ret (if azimuth >=? 36000 then azimuth - 36000 else azimuth).

(** [unit.distance <= 0.1 || unit.distance > 200.0]. *)
Definition wrong_point (distance : float) : bool :=
  SFleb distance (d_lit 1 10) || SFltb (d_of_Z 200) distance.

(** Coordinates without correction. *)
Definition plain_xyz (distance : float) (i azimuth : Z) : outcome E (float * float * float) :=
  cos_elevation ← arr_get (m_cos_elevation_map_ c) i;
  let xyDistance := f_of_d (d_mul distance (d_of_f cos_elevation)) in
  sin_azimuth ← m_sin_azimuth_map_ sinf azimuth;
  cos_azimuth ← m_cos_azimuth_map_ cosf azimuth;
  sin_elevation ← arr_get (m_sin_elevation_map_ c) i;
  Ret (f_mul xyDistance sin_azimuth, f_mul xyDistance cos_azimuth,
       f_of_d (d_mul distance (d_of_f sin_elevation))).

(** [static_cast<double>(block_offset + laser_offset) / 1000000.0f]. *)
Definition seconds_offset (block_offset laser_offset : float) : float :=
  d_div (d_of_f (f_add block_offset laser_offset)) (d_of_Z 1000000).

(** The point's time before the offsets; [m_dPktTimestamp] with the "realtime"
    type. *)
Definition lidar_time (timestamp_point : float) : float :=
  d_add timestamp_point (d_of_Z (tz_second_ s)).

Definition make_point (p : float * float * float) (intensity : Z) (timestamp : float) (ring : Z)
    : PPoint :=
  let '(x, y, z) := transformPoint tf p in
  {| CompactCloud.x := x; CompactCloud.y := y; CompactCloud.z := z;
     CompactCloud.intensity := f_of_Z intensity; CompactCloud.timestamp := timestamp;
     CompactCloud.ring := u16 ring |}.

(** [m_vPointCloud[m_iPointCloudIndex] = point]. *)
Definition put_point (point : PPoint) (fr : Frame) : outcome E Frame :=
  if decide (0 <= m_iPointCloudIndex fr < MAX_POINT_CLOUD_NUM) then
    Ret {| m_iPointCloudIndex := m_iPointCloudIndex fr;
           m_vPointCloud := <[m_iPointCloudIndex fr := point]> (m_vPointCloud fr);
           m_vPointCloudList := m_vPointCloudList fr |}
  else Undef.

(** [m_iPointCloudIndex++] of an [int], whose overflow is undefined. *)
Definition INT_MAX : Z := 2 ^ 31 - 1.
Definition bump_index (fr : Frame) : outcome E Frame :=
  if m_iPointCloudIndex fr <? INT_MAX then
    Ret {| m_iPointCloudIndex := m_iPointCloudIndex fr + 1; m_vPointCloud := m_vPointCloud fr;
           m_vPointCloudList := m_vPointCloudList fr |}
  else Undef.

(** [m_vPointCloudList[i].push_back(point)]. *)
Definition push_point (i : Z) (point : PPoint) (fr : Frame) : outcome E Frame :=
  channel ← arr_get (m_vPointCloudList fr) i;
  channels ← arr_set (m_vPointCloudList fr) i (channel ++ [point]);
  Ret {| m_iPointCloudIndex := m_iPointCloudIndex fr; m_vPointCloud := m_vPointCloud fr;
         m_vPointCloudList := channels |}.

Definition store_point (i : Z) (point : PPoint) (fr : Frame) : outcome E Frame :=
  if pcl_type_ s then push_point i point fr
  else fr ← put_point point fr; bump_index fr.

(** The end of [CalcQTPointXYZIT]: without braces, the index is incremented in
    both cases. *)
Definition store_point_qt (i : Z) (point : PPoint) (fr : Frame) : outcome E Frame :=
  fr ← (if pcl_type_ s then push_point i point fr else put_point point fr);
  bump_index fr.

Definition realtime : bool := bool_decide (m_sTimestampType s = "realtime").

(** ** Pandar40 *)

Definition calc40_timestamp (pkt : Pandar40PPacket) (m_dPktTimestamp : float) (blockid i : Z)
    : outcome E float :=
  if realtime then Ret m_dPktTimestamp
  else
    block_offset ← arr_value
      (if p40_echo pkt =? 0x39 then block40OffsetDual_ else block40OffsetSingle_) blockid;
    laser_offset ← arr_value laser40Offset_ i;
    Ret (d_sub (lidar_time (p40_timestamp_point pkt)) (seconds_offset block_offset laser_offset)).

Definition CalcUnit (pkt : Pandar40PPacket) (m_dPktTimestamp : float) (blockid i : Z)
    (fr : Frame) : outcome E Frame :=
  block ← arr_get (p40_blocks pkt) blockid;
  unit ← arr_get (p40_units block) i;
  if wrong_point (distance unit) then Ret fr
  else
    general ← arr_value (General_horizatal_azimuth_offset_map_ c) i;
    laser_offset ← arr_value laser40Offset_ i;
    azimuth ← azimuth_index true general (p40_azimuth block)
                (GetFiretimeOffset (p40_spin_speed pkt) laser_offset);
    xyz ← plain_xyz (distance unit) i azimuth;
    timestamp ← calc40_timestamp pkt m_dPktTimestamp blockid i;
    store_point i (make_point xyz (intensity unit) timestamp i) fr.

(** The loop [for (int i = 0; i < lasers; ++i)] over the units of a block. *)
Fixpoint for_lasers (body : Z -> Frame -> outcome E Frame) (n : nat) (i : Z) (fr : Frame)
    : outcome E Frame :=
  match n with
  | O => Ret fr
  | S n => fr ← body i fr; for_lasers body n (i + 1) fr
  end.

Definition CalcPointXYZIT (pkt : Pandar40PPacket) (m_dPktTimestamp : float) (blockid : Z)
    (fr : Frame) : outcome E Frame :=
  for_lasers (CalcUnit pkt m_dPktTimestamp blockid) (Z.to_nat LASER_COUNT) 0 fr.

(** ** Units of the other models *)

(** The unit read by the loop body, with the block's azimuth. *)
Definition packet_unit (pkt : Packet) (blockid i : Z) : outcome E (Z * Unit) :=
  block ← arr_get (blocks pkt) blockid;
  unit ← arr_get (units block) i;
  match azimuth block, unit with
  | Some azimuth, Some unit => Ret (azimuth, unit)
  | _, _ => Undef
  end.

(** ** Pandar64 *)

Definition calc64_timestamp (pkt : Packet) (m_dPktTimestamp : float) (blockid i : Z)
    : outcome E float :=
  if realtime then Ret m_dPktTimestamp
  else
    block_offset ← arr_value
      (if echo pkt =? 0x39 then block64OffsetDual_ else block64OffsetSingle_) blockid;
    laser_offset ← arr_value laser64Offset_ i;
    Ret (d_sub (lidar_time (timestamp_point pkt)) (seconds_offset block_offset laser_offset)).

Definition CalcL64Unit (pkt : Packet) (m_dPktTimestamp : float) (blockid i : Z) (fr : Frame)
    : outcome E Frame :=
  '(block_azimuth, unit) ← packet_unit pkt blockid i;
  if wrong_point (distance unit) then Ret fr
  else
    general ← arr_value (General_horizatal_azimuth_offset_map_ c) i;
    laser_offset ← arr_value laser64Offset_ i;
    azimuth ← azimuth_index true general block_azimuth
                (GetFiretimeOffset (spin_speed pkt) laser_offset);
    xyz ← plain_xyz (distance unit) i azimuth;
    timestamp ← calc64_timestamp pkt m_dPktTimestamp blockid i;
    store_point i (make_point xyz (intensity unit) timestamp i) fr.

Definition CalcL64PointXYZIT (pkt : Packet) (m_dPktTimestamp : float) (blockid chLaserNumber : Z)
    (fr : Frame) : outcome E Frame :=
  for_lasers (CalcL64Unit pkt m_dPktTimestamp blockid) (Z.to_nat chLaserNumber) 0 fr.

(** ** Pandar20A/B *)

Definition calc20_timestamp (pkt : Packet) (m_dPktTimestamp : float) (blockid i : Z)
    : outcome E float :=
  if realtime then Ret m_dPktTimestamp
  else
    let time := lidar_time (timestamp_point pkt) in
    let block := if echo pkt =? 0x39 then block20OffsetDual_ else block20OffsetSingle_ in
    if bool_decide (m_sLidarType s = "Pandar20A") then
      block_offset ← arr_value block blockid;
      laser_offset ← arr_value laser20AOffset_ i;
      Ret (d_sub time (seconds_offset block_offset laser_offset))
    else if bool_decide (m_sLidarType s = "Pandar20B") then
      block_offset ← arr_value block blockid;
      laser_offset ← arr_value laser20BOffset_ i;
      Ret (d_sub time (seconds_offset block_offset laser_offset))
    else Ret time.

Definition CalcL20Unit (pkt : Packet) (m_dPktTimestamp : float) (blockid i : Z) (fr : Frame)
    : outcome E Frame :=
  '(block_azimuth, unit) ← packet_unit pkt blockid i;
  if wrong_point (distance unit) then Ret fr
  else
    general ← arr_value (General_horizatal_azimuth_offset_map_ c) i;
    laser_offset ← arr_value laser20BOffset_ i;
    azimuth ← azimuth_index false general block_azimuth
                (GetFiretimeOffset (spin_speed pkt) laser_offset);
    xyz ← plain_xyz (distance unit) i azimuth;
    timestamp ← calc20_timestamp pkt m_dPktTimestamp blockid i;
    store_point i (make_point xyz (intensity unit) timestamp i) fr.

Definition CalcL20PointXYZIT (pkt : Packet) (m_dPktTimestamp : float) (blockid chLaserNumber : Z)
    (fr : Frame) : outcome E Frame :=
  for_lasers (CalcL20Unit pkt m_dPktTimestamp blockid) (Z.to_nat chLaserNumber) 0 fr.

(** ** PandarXT *)

Definition calcXT_timestamp (pkt : Packet) (m_dPktTimestamp : float) (blockid i : Z)
    : outcome E float :=
  if realtime then Ret m_dPktTimestamp
  else
    let time := lidar_time (timestamp_point pkt) in
    block_offset ← arr_value
      (if echo pkt =? 0x3d then blockXTOffsetTriple_ c
       else if (echo pkt =? 0x39) || (echo pkt =? 0x3b) || (echo pkt =? 0x3c)
       then blockXTOffsetDual_ c else blockXTOffsetSingle_ c) blockid;
    laser_offset ← arr_value (laserXTOffset_ c) i;
    Ret (d_add time (seconds_offset block_offset laser_offset)).

(** The index [abs(int(General_horizatal_azimuth_offset_map_[i] * 100))]. *)
Definition general_index (general : float) : outcome E Z :=
  v ← to_signed 32 (f_mul general (f_of_Z 100)); Ret (Z.abs v).

(** Coordinates with the correction for the offset of the optical centre. *)
Definition corrected_xt_xyz (general distance : float) (i azimuth : Z)
    : outcome E (float * float * float) :=
  let t := m_sLidarType s in
  g ← general_index general;
  cos_g_h ← m_cos_azimuth_map_h cosf t g;
  cos_elevation ← arr_get (m_cos_elevation_map_ c) i;
  sin_g_b ← m_sin_azimuth_map_b sinf t g;
  let distance := f_of_d (d_sub distance
    (d_of_f (f_sub (f_mul cos_g_h cos_elevation) (f_mul sin_g_b cos_elevation)))) in
  let xyDistance := f_mul distance cos_elevation in
  sin_azimuth ← m_sin_azimuth_map_ sinf azimuth;
  cos_b ← m_cos_azimuth_map_b cosf t azimuth;
  sin_h ← m_sin_azimuth_map_h sinf t azimuth;
  cos_azimuth ← m_cos_azimuth_map_ cosf azimuth;
  sin_b ← m_sin_azimuth_map_b sinf t azimuth;
  cos_h ← m_cos_azimuth_map_h cosf t azimuth;
  sin_elevation ← arr_get (m_sin_elevation_map_ c) i;
  Ret (f_add (f_sub (f_mul xyDistance sin_azimuth) cos_b) sin_h,
       f_add (f_add (f_mul xyDistance cos_azimuth) sin_b) cos_h,
       f_mul distance sin_elevation).

Definition CalcXTUnit (pkt : Packet) (m_dPktTimestamp : float) (blockid i : Z) (fr : Frame)
    : outcome E Frame :=
  '(block_azimuth, unit) ← packet_unit pkt blockid i;
  if wrong_point (distance unit) then Ret fr
  else
    general ← arr_value (General_horizatal_azimuth_offset_map_ c) i;
    laser_offset ← arr_value (laserXTOffset_ c) i;
    azimuth ← azimuth_index false general block_azimuth
                (GetFiretimeOffset (spin_speed pkt) laser_offset);
    xyz ← (if m_bCoordinateCorrectionFlag s
           then corrected_xt_xyz general (distance unit) i azimuth
           else plain_xyz (distance unit) i azimuth);
    timestamp ← calcXT_timestamp pkt m_dPktTimestamp blockid i;
    store_point i (make_point xyz (intensity unit) timestamp i) fr.

Definition CalcXTPointXYZIT (pkt : Packet) (m_dPktTimestamp : float) (blockid chLaserNumber : Z)
    (fr : Frame) : outcome E Frame :=
  for_lasers (CalcXTUnit pkt m_dPktTimestamp blockid) (Z.to_nat chLaserNumber) 0 fr.

(** ** PandarQT *)

Definition HS_LIDAR_QT_COORDINATE_CORRECTION_ODOG : float := d_lit 298 10000.
Definition HS_LIDAR_QT_COORDINATE_CORRECTION_ODOT : float := d_lit 72 10000.

Definition calcQT_timestamp (pkt : Packet) (m_dPktTimestamp : float) (blockid i : Z)
    : outcome E float :=
  if realtime then Ret m_dPktTimestamp
  else
    let time := lidar_time (timestamp_point pkt) in
    block_offset ← arr_value
      (if echo pkt =? 0x05 then blockQTOffsetDual_ else blockQTOffsetSingle_) blockid;
    laser_offset ← arr_value laserQTOffset_ i;
    Ret (d_add time (seconds_offset block_offset laser_offset)).

Abbreviation ODOG := HS_LIDAR_QT_COORDINATE_CORRECTION_ODOG (only parsing).
Abbreviation ODOT := HS_LIDAR_QT_COORDINATE_CORRECTION_ODOT (only parsing).

(** The test for the wrong one of two intersection points: the ray direction
    and the point from the optical centre enclose an obtuse angle. *)
Definition behind (sinE cosE sinA cosA : float) (p : float * float * float) : bool :=
  let '(x, y, z) := p in
  SFleb
    (d_add
       (d_add (d_mul (d_mul (d_add (d_of_f x) ODOT) (d_of_f cosE)) (d_of_f sinA))
              (d_mul (d_mul (d_sub (d_of_f y) ODOG) (d_of_f cosE)) (d_of_f cosA)))
       (d_of_f (f_mul z sinE)))
    (d_of_Z 0).

(** [(- b + sqrt(D)) / n] and [(- b - sqrt(D)) / n]. *)
Definition root (minus : bool) (b D n : float) : float :=
  f_div ((if minus then f_sub else f_add) (SFopp b) (f_sqrt D)) n.

(** A ray with an elevation: the quadratic is in [z]. *)
Definition corrected_qt_elevated (sinE cosE sinA cosA distance : float) (minus : bool)
    : float * float * float :=
  let c := f_of_d (d_mul (d_mul
    (d_sub (d_add (d_mul ODOG ODOG) (d_mul ODOT ODOT)) (d_mul distance distance))
    (d_of_f sinE)) (d_of_f sinE)) in
  let b := f_of_d (d_mul (d_of_f (f_mul (f_mul (f_of_Z 2) sinE) cosE))
    (d_sub (d_mul ODOG (d_of_f cosA)) (d_mul ODOT (d_of_f sinA)))) in
  let z := root minus b (f_sub (f_mul b b) (f_mul (f_of_Z 4) c)) (f_of_Z 2) in
  let x := f_of_d (d_sub (d_of_f (f_div (f_mul (f_mul z sinA) cosE) sinE)) ODOT) in
  let y := f_of_d (d_add (d_of_f (f_div (f_mul (f_mul z cosA) cosE) sinE)) ODOG) in
  (x, y, z).

(** A horizontal ray: the quadratic is in [y]. *)
Definition corrected_qt_horizontal (sinA cosA distance : float) (minus : bool)
    : float * float * float :=
  let tan_azimuth := f_div sinA cosA in
  let arm := d_add (d_mul ODOG (d_of_f tan_azimuth)) ODOT in
  let c := f_of_d (d_sub (d_mul arm arm) (d_mul distance distance)) in
  let a := f_add (f_of_Z 1) (f_mul tan_azimuth tan_azimuth) in
  let b := f_of_d (d_mul (d_of_f (f_mul (f_of_Z (-2)) tan_azimuth)) arm) in
  let y := root minus b (f_sub (f_mul b b) (f_mul (f_mul (f_of_Z 4) a) c))
             (f_mul (f_of_Z 2) a) in
  let x := f_of_d (d_sub (d_mul (d_sub (d_of_f y) ODOG) (d_of_f tan_azimuth)) ODOT) in
  (x, y, f_of_Z 0).

(** A horizontal ray along the x axis. *)
Definition corrected_qt_sideways (distance : float) (minus : bool) : float * float * float :=
  let x := d_sqrt (d_sub (d_mul distance distance) (d_mul ODOG ODOG)) in
  (f_of_d (if minus then SFopp x else x), f_of_d ODOG, f_of_Z 0).

Definition corrected_qt_xyz (distance : float) (i azimuth : Z)
    : outcome E (float * float * float) :=
  sinE ← arr_get (m_sin_elevation_map_ c) i;
  cosE ← arr_get (m_cos_elevation_map_ c) i;
  sinA ← m_sin_azimuth_map_ sinf azimuth;
  cosA ← m_cos_azimuth_map_ cosf azimuth;
  let solution :=
    if negb (SFeqb sinE (f_of_Z 0)) then corrected_qt_elevated sinE cosE sinA cosA distance
    else if negb (SFeqb cosA (f_of_Z 0)) then corrected_qt_horizontal sinA cosA distance
    else corrected_qt_sideways distance in
  Ret (if behind sinE cosE sinA cosA (solution false) then solution true else solution false).

Definition CalcQTUnit (pkt : Packet) (m_dPktTimestamp : float) (blockid i : Z) (fr : Frame)
    : outcome E Frame :=
  '(block_azimuth, unit) ← packet_unit pkt blockid i;
  if wrong_point (distance unit) then Ret fr
  else
    general ← arr_value (General_horizatal_azimuth_offset_map_ c) i;
    laser_offset ← arr_value laserQTOffset_ i;
    azimuth ← azimuth_index false general block_azimuth
                (GetFiretimeOffset (spin_speed pkt) laser_offset);
    xyz ← (if m_bCoordinateCorrectionFlag s
           then corrected_qt_xyz (distance unit) i azimuth
           else plain_xyz (distance unit) i azimuth);
    timestamp ← calcQT_timestamp pkt m_dPktTimestamp blockid i;
    store_point_qt i (make_point xyz (intensity unit) timestamp i) fr.

Definition CalcQTPointXYZIT (pkt : Packet) (m_dPktTimestamp : float) (blockid chLaserNumber : Z)
    (fr : Frame) : outcome E Frame :=
  for_lasers (CalcQTUnit pkt m_dPktTimestamp blockid) (Z.to_nat chLaserNumber) 0 fr.
End calc.

(** ** The azimuth index *)

(** Bounds on one laser's contribution, in integers: [general * 100] between
    [gl] and [gh], and the rotation during the firing time at most [T] degrees
    at the highest encodable speed. *)
Definition floor_val (x : float) : Z := fval 24 128 x / 2 ^ 149.
Definition ceil_val (x : float) : Z := - (- fval 24 128 x / 2 ^ 149).

Definition validb (x : float) : bool := isfinite x && valid_binary 24 128 x.

(** [0.000006] times [2 ^ 70]. *)
Definition six_micro : Z := 7083549724304468.

Lemma six_micro_spec : dval (d_lit 6 1000000) = six_micro * 2 ^ 1004.
Proof. vm_compute. reflexivity. Qed.

Definition index_bounds_ok (subtract : bool) (general delta : float) : bool :=
  let g := f_mul general (f_of_Z 100) in
  let N := - (- (65535 * fval 24 128 delta) / 2 ^ 149) in
  let T := - (- (N * six_micro) / 2 ^ 70) in
  validb g && validb delta && (0 <=? fval 24 128 delta) && (N <? 2 ^ 24) && (0 <=? T) &&
  (T <? 10000) && (-36000 <? floor_val g) && (ceil_val g <? 36000) &&
  (if subtract then (-36000 <=? floor_val g - 100 * T) && (ceil_val g + 65535 <? 72000)
   else ceil_val g + 65535 + 100 * T <? 72000).

Lemma validb_valid x : validb x = true <-> valid_finite 24 128 x.
Proof. unfold validb, valid_finite. apply andb_true_iff. Qed.

Lemma floor_ceil_within x : valid_finite 24 128 x -> fwithin (floor_val x) (ceil_val x) x.
Proof.
  intros Vx. split; [done|]. unfold floor_val, ceil_val.
  change (2 ^ (- emin 24 128)) with (2 ^ 149).
  pose proof (pow2_pos 149 ltac:(lia)) as Hp.
  pose proof (Z.mul_div_le (fval 24 128 x) (2 ^ 149) Hp).
  pose proof (Z.mul_div_le (- fval 24 128 x) (2 ^ 149) Hp). lia.
Qed.

Lemma div_ceil_le a b : 0 < b -> a <= - (- a / b) * b.
Proof. intros Hb. pose proof (Z.mul_div_le (- a) b Hb). lia. Qed.

(** [GetFiretimeOffset(speed, delta) * 100]. *)
Lemma firetime_within delta N T speed :
  valid_finite 24 128 delta -> 0 <= fval 24 128 delta ->
  65535 * fval 24 128 delta <= N * 2 ^ 149 -> N < 2 ^ 24 ->
  N * dval (d_lit 6 1000000) <= T * 2 ^ 1074 -> 0 <= T < 10000 ->
  0 <= speed < 65536 ->
  fwithin 0 (100 * T) (f_mul (GetFiretimeOffset (f_of_Z speed) delta) (f_of_Z 100)).
Proof.
  intros Vd Hd HN HN2 HT HT2 Hs. unfold GetFiretimeOffset.
  assert (0 <= N) by (pose proof (pow2_pos 149 ltac:(lia)); nia).
  assert (fwithin 0 65535 (f_of_Z speed)) as Hspeed.
  { apply (within_mono 24 128 ltac:(lia) speed speed); [lia|lia|]. apply f_of_Z_within. lia. }
  assert (fwithin 0 N (f_mul (f_of_Z speed) delta)) as H1.
  { apply (within_mul 24 128 ltac:(lia) 65535 N); [done..|lia|done|].
    unfold representable. lia. }
  apply d_of_f_within in H1; [|lia..].
  assert (dwithin 0 T (d_mul (d_of_f (f_mul (f_of_Z speed) delta)) (d_lit 6 1000000))) as H2.
  { apply (within_mul 53 1024 ltac:(lia) N T); [done|solve_valid| |lia|exact HT|].
    - vm_compute. discriminate.
    - unfold representable. lia. }
  apply f_of_d_within in H2; [|lia..].
  destruct (f_of_Z_within 100 ltac:(lia)) as [V100 H100].
  apply (within_mul 24 128 ltac:(lia) T (100 * T)); [done|done| |lia| |].
  - pose proof (U_pos 24 128 ltac:(lia)). lia.
  - nia.
  - unfold representable. lia.
Qed.

Lemma wrap_turn z : -36000 <= z < 72000 ->
  let z' := if z <? 0 then z + 36000 else z in
  (if z' >=? 36000 then z' - 36000 else z') = z mod 36000.
Proof.
  intros Hz z'. subst z'. rewrite Z.geb_leb.
  destruct (Z.ltb_spec z 0).
  - destruct (Z.leb_spec 36000 (z + 36000)); [lia|].
    apply Z.mod_unique with (-1); lia.
  - destruct (Z.leb_spec 36000 z).
    + apply Z.mod_unique with 1; lia.
    + symmetry. apply Z.mod_small. lia.
Qed.

(** The sum truncated by [azimuth_index]. *)
Definition azimuth_sum (subtract : bool) (general : float) (azimuth : Z) (firetime : float)
    : float :=
  (if subtract then f_sub else f_add)
    (f_add (f_mul general (f_of_Z 100)) (f_of_Z azimuth)) (f_mul firetime (f_of_Z 100)).

Lemma azimuth_index_wraps {E} subtract general delta azimuth speed :
  index_bounds_ok subtract general delta = true ->
  0 <= azimuth < 65536 -> 0 <= speed < 65536 ->
  exists z,
    trunc (azimuth_sum subtract general azimuth (GetFiretimeOffset (f_of_Z speed) delta)) = Some z /\
    azimuth_index (E := E) subtract general azimuth (GetFiretimeOffset (f_of_Z speed) delta) =
      Ret (z mod 36000).
Proof.
  unfold index_bounds_ok. intros Hok Ha Hs. rewrite !andb_true_iff in Hok.
  destruct Hok as [[[[[[[[Vg Vd] Hd] HN] HT0] HT] Hgl] Hgh] Hb].
  apply validb_valid in Vg, Vd. apply Z.leb_le in Hd, HT0. apply Z.ltb_lt in HN, HT, Hgl, Hgh.
  set (N := - (- (65535 * fval 24 128 delta) / 2 ^ 149)) in *.
  set (T := - (- (N * six_micro) / 2 ^ 70)) in *.
  assert (fwithin 0 (100 * T) (f_mul (GetFiretimeOffset (f_of_Z speed) delta) (f_of_Z 100)))
    as Hfire.
  { apply (firetime_within delta N T); try done.
    - apply div_ceil_le. by apply pow2_pos.
    - rewrite six_micro_spec. change 1074 with (70 + 1004). rewrite Z.pow_add_r, !Z.mul_assoc by lia.
      apply Z.mul_le_mono_nonneg_r; [by apply Z.pow_nonneg|].
      apply div_ceil_le. by apply pow2_pos. }
  pose proof (floor_ceil_within _ Vg) as Hg.
  set (g := f_mul general (f_of_Z 100)) in *.
  assert (floor_val g <= ceil_val g) as Hfc.
  { destruct Hg as [_ Hg]. pose proof (U_pos 24 128 ltac:(lia)). nia. }
  assert (fwithin 0 65535 (f_of_Z azimuth)) as Haz.
  { apply (within_mono 24 128 ltac:(lia) azimuth azimuth); [lia|lia|]. apply f_of_Z_within. lia. }
  pose proof (f_add_within _ _ _ _ _ _ Hg Haz ltac:(lia) ltac:(lia)) as Hbase.
  assert (exists l h, fwithin l h (azimuth_sum subtract general azimuth
    (GetFiretimeOffset (f_of_Z speed) delta)) /\ -36000 <= l /\ h < 72000) as (l & h & Hw & Hl & Hh).
  { unfold azimuth_sum. fold g. destruct subtract.
    - apply andb_true_iff in Hb as [Hb1 Hb2]. apply Z.leb_le in Hb1. apply Z.ltb_lt in Hb2.
      eexists _, _. split; [apply (f_sub_within _ _ _ _ _ _ Hbase Hfire); lia|lia].
    - apply Z.ltb_lt in Hb.
      eexists _, _. split; [apply (f_add_within _ _ _ _ _ _ Hbase Hfire); lia|lia]. }
  destruct (within_trunc 24 128 ltac:(lia) _ _ _ Hw) as (z & Hz & Hzb).
  exists z. split; [done|]. unfold azimuth_index. fold g.
  replace (if subtract then f_sub (f_add g (f_of_Z azimuth)) _ else f_add _ _)
    with (azimuth_sum subtract general azimuth (GetFiretimeOffset (f_of_Z speed) delta))
    by (unfold azimuth_sum; by destruct subtract).
  unfold to_signed. rewrite Hz, decide_True by (simpl; lia). cbn [mbind outcome_bind].
  f_equal. apply wrap_turn. lia.
Qed.

(** How each model's point computation combines angle and firing time: the
    sign of the firing time, and the table of firing times. *)
Definition firing (t : string) (c : Calibration) : bool * list (option float) :=
  if bool_decide (t ∈ ["Pandar40P"; "Pandar40M"]%string) then (true, laser40Offset_)
  else if bool_decide (t = "Pandar64"%string) then (true, laser64Offset_)
  else if bool_decide (t ∈ ["Pandar20A"; "Pandar20B"]%string) then (false, laser20BOffset_)
  else if bool_decide (t = "PandarQT"%string) then (false, laserQTOffset_)
  else (false, laserXTOffset_ c).

Definition lasers_bounded (t : string) (n : nat) (c : Calibration) : bool :=
  forallb (fun '(general, delta) =>
      match general, delta with
      | Some general, Some delta => index_bounds_ok (firing t c).1 general delta
      | Some _, None => true
      | None, _ => false
      end)
    (zip (take n (General_horizatal_azimuth_offset_map_ c)) (take n (firing t c).2)).

(** Every time offset of a block and a laser is at most a second. *)
Definition second (negative : bool) : float := S754_finite negative 4503599627370496 (-52).
Definition second_ok (x : float) : bool :=
  isfinite x && valid_binary 53 1024 x && SFleb (second true) x && SFleb x (second false).

Definition offsets_small (blocks lasers : list (option float)) : bool :=
  forallb (fun b => forallb (fun l =>
      match b, l with Some b, Some l => second_ok (seconds_offset b l) | _, _ => true end) lasers) blocks.

Definition times_small (c : Calibration) : bool :=
  offsets_small (blockXTOffsetSingle_ c) (laserXTOffset_ c) &&
  offsets_small (blockXTOffsetDual_ c) (laserXTOffset_ c) &&
  offsets_small (blockXTOffsetTriple_ c) (laserXTOffset_ c).

Lemma offset_within blocks lasers (b l : nat) bo lo :
  offsets_small blocks lasers = true -> blocks !! b = Some (Some bo) -> lasers !! l = Some (Some lo) ->
  dwithin (-1) 1 (seconds_offset bo lo).
Proof.
  unfold offsets_small. rewrite forallb_forall. intros Hall Hb Hl.
  specialize (Hall (Some bo) (proj1 (list_elem_of_In _ _) (list_elem_of_lookup_2 _ _ _ Hb))).
  rewrite forallb_forall in Hall.
  specialize (Hall (Some lo) (proj1 (list_elem_of_In _ _) (list_elem_of_lookup_2 _ _ _ Hl))).
  cbv beta iota in Hall. unfold second_ok in Hall.
  apply andb_true_iff in Hall as [[[Hf Hv]%andb_true_iff Hlo]%andb_true_iff Hhi].
  rewrite (SFleb_fval 53 1024) in Hlo, Hhi by done. apply Z.leb_le in Hlo, Hhi. split; [by split|].
  change (dval (second true)) with (- 2 ^ 1074) in Hlo. change (dval (second false)) with (2 ^ 1074) in Hhi.
  change (2 ^ (- emin 53 1024)) with (2 ^ 1074). lia.
Qed.

(** A calibration with entries for [n] lasers of type [t], whose azimuth offsets
    keep the azimuth index in the tables, and whose time offsets are small. *)
Record usable (t : string) (n : nat) (c : Calibration) : Prop := {
  us_sin : (n <= length (m_sin_elevation_map_ c))%nat;
  us_cos : (n <= length (m_cos_elevation_map_ c))%nat;
  us_elev : assigned (General_elev_angle_map_ c) n = true;
  us_general : assigned (General_horizatal_azimuth_offset_map_ c) n = true;
  us_bounded : lasers_bounded t n c = true;
  us_xt : is_xt t = true ->
    assigned (laserXTOffset_ c) n = true /\ assigned (blockXTOffsetSingle_ c) 8 = true /\
    assigned (blockXTOffsetDual_ c) 8 = true /\
    assigned (blockXTOffsetTriple_ c) 8 = bool_decide (t = "PandarXTM"%string);
  us_times : times_small c = true;
}.

Lemma tables_timed (sinf cosf : float -> float) :
  forallb (fun '(t, _) => times_small (Init sinf cosf t)) lidar_types = true.
Proof. vm_compute. reflexivity. Qed.

Lemma tables_bounded (sinf cosf : float -> float) :
  forallb (fun '(t, n) => lasers_bounded t n (Init sinf cosf t)) lidar_types = true.
Proof. vm_compute. reflexivity. Qed.

(** The built-in tables are usable. *)
Lemma init_usable (sinf cosf : float -> float) t n :
  (t, n) ∈ lidar_types -> usable t n (Init sinf cosf t).
Proof.
  intros Ht. pose proof (lidar_types_calibrated sinf cosf) as Hall. rewrite Forall_forall in Hall.
  destruct (Hall _ Ht) as (Hsin & Hcos & He & Hg & _ & _ & Hx).
  pose proof (tables_bounded sinf cosf) as Hb. rewrite forallb_forall in Hb.
  specialize (Hb _ (proj1 (list_elem_of_In _ _) Ht)).
  pose proof (tables_timed sinf cosf) as Htimes. rewrite forallb_forall in Htimes.
  specialize (Htimes _ (proj1 (list_elem_of_In _ _) Ht)). by split; rewrite ?Hsin, ?Hcos.
Qed.

Lemma laser_bounded t n c (i : nat) general delta :
  usable t n c -> (i < n)%nat ->
  General_horizatal_azimuth_offset_map_ c !! i = Some (Some general) ->
  (firing t c).2 !! i = Some (Some delta) ->
  index_bounds_ok (firing t c).1 general delta = true.
Proof.
  intros Hc Hi Hg Hd. pose proof (us_bounded _ _ _ Hc) as Hall.
  unfold lasers_bounded in Hall. rewrite forallb_forall in Hall.
  specialize (Hall (Some general, Some delta)). apply Hall.
  apply list_elem_of_In, list_elem_of_lookup. exists i.
  rewrite lookup_zip_with, !lookup_take_lt, Hg, Hd by done. done.
Qed.

(** C25: with the built-in tables or any usable ones, whatever azimuth and
    rotation speed a packet claims, every laser's azimuth index is an index of
    the sine and cosine tables: it is the truncated angle in hundredths of a
    degree, modulo one turn. *)
Theorem azimuth_index_in_table {E} (sinf : float -> float) (t : string) (n i : nat)
    (c : Calibration) (general delta : float) (azimuth speed : Z)
    (Hc : usable t n c) (Hi : (i < n)%nat)
    (Hg : General_horizatal_azimuth_offset_map_ c !! i = Some (Some general))
    (Hd : (firing t c).2 !! i = Some (Some delta))
    (Ha : 0 <= azimuth < 65536) (Hs : 0 <= speed < 65536) :
  let firetime := GetFiretimeOffset (f_of_Z speed) delta in
  let subtract := (firing t c).1 in
  exists z, trunc (azimuth_sum subtract general azimuth firetime) = Some z /\
    azimuth_index (E := E) subtract general azimuth firetime = Ret (z mod 36000) /\
    exists v, m_sin_azimuth_map_ (E := E) sinf (z mod 36000) = Ret v.
Proof.
  intros firetime subtract.
  destruct (azimuth_index_wraps (E := E) subtract general delta azimuth speed) as (z & Hz & Hr);
    [by eapply laser_bounded|done..|].
  exists z. split; [done|]. split; [done|]. unfold m_sin_azimuth_map_, azimuth_entry.
  rewrite decide_True; [by eexists|]. pose proof (Z.mod_pos_bound z 36000).
  unfold MAX_AZIMUTH_DEGREE_NUM. lia.
Qed.

Lemma azimuth_index_in_table_witness :
  exists z, azimuth_index (E := unit) false (f_lit 8736 1000) 65535
      (GetFiretimeOffset (f_of_Z 65535) (f_add (f_lit 100 10) (f_lit 231 100))) =
    Ret (z mod 36000).
Proof.
  assert (("PandarQT"%string, 64%nat) ∈ lidar_types) as Ht
    by (apply (bool_decide_unpack _); vm_compute; exact I).
  destruct (azimuth_index_in_table (E := unit) id "PandarQT" 64 0 (Init id id "PandarQT")
    (f_lit 8736 1000) (f_add (f_lit 100 10) (f_lit 231 100)) 65535 65535 (init_usable id id _ _ Ht)
    ltac:(apply Nat.lt_0_succ) ltac:(vm_compute; reflexivity) ltac:(vm_compute; reflexivity)
    ltac:(lia) ltac:(lia)) as (z & _ & H & _).
  exists z. exact H.
Defined.

(** ** Where the points go *)

(** A value-initialised element of [m_vPointCloud]. *)
Definition blank_point : PPoint :=
  {| CompactCloud.x := S754_zero false; CompactCloud.y := S754_zero false;
     CompactCloud.z := S754_zero false; CompactCloud.intensity := S754_zero false;
     CompactCloud.timestamp := S754_zero false; CompactCloud.ring := 0 |}.

(** The points of the current frame, as [EmitBackMessege] copies them. *)
Definition cloud_points (fr : Frame) : list PPoint :=
  (fun i => default blank_point (m_vPointCloud fr !! i)) <$> seqZ 0 (m_iPointCloudIndex fr).

(** One accepted point. *)
Definition store_one (s : Settings) (fr : Frame) (p : PPoint) : Frame :=
  if pcl_type_ s then
    {| m_iPointCloudIndex := m_iPointCloudIndex fr; m_vPointCloud := m_vPointCloud fr;
       m_vPointCloudList :=
         alter (fun ch => ch ++ [p]) (Z.to_nat (CompactCloud.ring p)) (m_vPointCloudList fr) |}
  else
    {| m_iPointCloudIndex := m_iPointCloudIndex fr + 1;
       m_vPointCloud := <[m_iPointCloudIndex fr := p]> (m_vPointCloud fr);
       m_vPointCloudList := m_vPointCloudList fr |}.

Definition store_points (s : Settings) : list PPoint -> Frame -> Frame :=
  flip (foldl (store_one s)).

(** Room for one point of each of the lasers below [n]. *)
Definition room (s : Settings) (n : Z) (fr : Frame) : Prop :=
  if pcl_type_ s then n <= zlen (m_vPointCloudList fr)
  else 0 <= m_iPointCloudIndex fr /\ m_iPointCloudIndex fr + n <= MAX_POINT_CLOUD_NUM.

Lemma store_point_Ret {E} s i p fr n :
  0 <= i < n -> n <= 256 -> room s (if pcl_type_ s then n else 1) fr ->
  CompactCloud.ring p = u16 i ->
  store_point (E := E) s i p fr = Ret (store_one s fr p).
Proof.
  intros Hi Hn Hroom Hring. unfold store_point, store_one, room in *.
  rewrite Hring, uwrap_small by lia. destruct (pcl_type_ s).
  - unfold push_point.
    destruct (arr_get_in (E := E) (m_vPointCloudList fr) i) as (ch & Hl & ->); [lia|].
    cbn [mbind outcome_bind]. rewrite arr_set_in by lia. cbn [mbind outcome_bind].
    do 2 f_equal. symmetry. apply list_eq. intros k. destruct (decide (k = Z.to_nat i)) as [->|Hk].
    + rewrite list_lookup_alter_eq, Hl, list_lookup_insert_eq by (apply lookup_lt_Some in Hl; done).
      done.
    + by rewrite list_lookup_alter_ne, list_lookup_insert_ne.
  - unfold put_point. rewrite decide_True by lia. cbn [mbind outcome_bind]. unfold bump_index.
    cbn [m_iPointCloudIndex]. by replace (m_iPointCloudIndex fr <? INT_MAX) with true
      by (unfold INT_MAX, MAX_POINT_CLOUD_NUM in *; lia).
Qed.

(** In array mode the frame's points grow by the stored ones, in order. *)
Lemma store_points_array s pts fr :
  pcl_type_ s = false -> 0 <= m_iPointCloudIndex fr ->
  m_iPointCloudIndex (store_points s pts fr) = m_iPointCloudIndex fr + zlen pts /\
  cloud_points (store_points s pts fr) = cloud_points fr ++ pts /\
  m_vPointCloudList (store_points s pts fr) = m_vPointCloudList fr.
Proof.
  intros Hs. revert fr. induction pts as [|p pts IH]; intros fr Hi.
  { rewrite app_nil_r. unfold store_points. simpl. split_and!; [lia|done|done]. }
  unfold store_points in *. cbn [flip foldl] in *.
  destruct (IH (store_one s fr p)) as (H1 & H2 & H3).
  { unfold store_one. rewrite Hs. simpl. lia. }
  rewrite H1, H2, H3. unfold store_one. rewrite Hs. simpl. split_and!; [lia| |done].
  rewrite cons_middle, app_assoc. f_equal. unfold cloud_points. simpl.
  rewrite seqZ_app, fmap_app by lia. simpl. rewrite lookup_insert_eq. simpl. f_equal.
  apply list_fmap_ext. intros k x Hx. apply list_elem_of_lookup_2, elem_of_seqZ in Hx.
  rewrite lookup_insert_ne by lia. done.
Qed.

(** In channel mode each channel grows by the stored points of its ring. *)
Lemma store_points_channels s pts fr :
  pcl_type_ s = true ->
  m_iPointCloudIndex (store_points s pts fr) = m_iPointCloudIndex fr /\
  m_vPointCloudList (store_points s pts fr) =
    imap (fun i ch => ch ++ filter (fun p => Z.to_nat (CompactCloud.ring p) = i) pts)
      (m_vPointCloudList fr).
Proof.
  intros Hs. revert fr. induction pts as [|p pts IH]; intros fr.
  { split; [done|]. unfold store_points. simpl. symmetry.
    apply list_eq. intros k. rewrite list_lookup_imap.
    destruct (m_vPointCloudList fr !! k); simpl; [by rewrite app_nil_r|done]. }
  unfold store_points in *. cbn [flip foldl] in *.
  destruct (IH (store_one s fr p)) as (H1 & H2). rewrite H1, H2.
  unfold store_one. rewrite Hs. simpl. split; [done|].
  apply list_eq. intros k. rewrite !list_lookup_imap.
  destruct (decide (k = Z.to_nat (CompactCloud.ring p))) as [->|Hk].
  - rewrite list_lookup_alter_eq. destruct (_ !! _); cbn [fmap option_fmap option_map]; [|done].
    rewrite filter_cons, decide_True by done. by rewrite <- app_assoc.
  - rewrite list_lookup_alter_ne by done.
    destruct (_ !! k); cbn [fmap option_fmap option_map]; [|done].
    by rewrite filter_cons, decide_False.
Qed.

Lemma room_store_one s fr p n :
  room s n fr -> room s (if pcl_type_ s then n else n - 1) (store_one s fr p).
Proof.
  unfold room, store_one. destruct (pcl_type_ s); simpl; [|lia].
  by rewrite length_alter.
Qed.

(** A loop whose body stores at most one point per laser. *)
Lemma for_lasers_emit {E} s (body : Z -> Frame -> outcome E Frame) (f : Z -> option PPoint)
    (lasers : Z) (n : nat) (i : Z) (fr : Frame) :
  (forall j fr, i <= j < i + Z.of_nat n -> room s (if pcl_type_ s then lasers else 1) fr ->
    body j fr = Ret (match f j with Some p => store_one s fr p | None => fr end)) ->
  0 <= i -> i + Z.of_nat n <= lasers ->
  room s (if pcl_type_ s then lasers else Z.of_nat n) fr ->
  for_lasers body n i fr = Ret (store_points s (omap f (seqZ i (Z.of_nat n))) fr).
Proof.
  revert i fr. induction n as [|n IH]; intros i fr Hbody Hi Hl Hroom; [done|].
  cbn [for_lasers]. rewrite Hbody; [|lia|].
  2: { unfold room in *. destruct (pcl_type_ s); lia. }
  cbn [mbind outcome_bind].
  rewrite seqZ_cons by lia. replace (Z.pred (Z.of_nat (S n))) with (Z.of_nat n) by lia.
  rewrite <- Z.add_1_r. cbn [omap list_omap].
  rewrite IH; [destruct (f i); done| | lia | lia|].
  - intros j fr' Hj. apply Hbody. lia.
  - destruct (f i) as [p|].
    + pose proof (room_store_one s fr p _ Hroom) as H. unfold room in *.
      destruct (pcl_type_ s); [done|]. lia.
    + unfold room in *. destruct (pcl_type_ s); lia.
Qed.

(** ** PandarXT: the points of a block *)

Definition ret_option {E A} (m : outcome E A) : option A :=
  match m with Ret a => Some a | _ => None end.

Section xt_points.
Context (sinf cosf : float -> float) (t : string) (n : nat) (c : Calibration) (s : Settings).
Context (tf : Transforms).
Context (char_signed : bool) (mktime : tm -> Z) (m_dPktTimestamp : float).

(** The packets the configured lidar sends: no more lasers than the type has,
    and the triple return mode only from the PandarXTM. *)
Record xt_packet (r : raw_xt) : Prop := {
  xp_wf : wf_xt r;
  xp_lasers : rx_lasers r <= Z.of_nat n;
  xp_echo : rx_echo r = 0x3d -> t = "PandarXTM"%string;
}.

(** What the point of laser [i] should be, from the fields of the packet. *)
Definition xt_point (r : raw_xt) (b : nat) (i : Z) : option PPoint :=
  let dis := to_char char_signed (rx_disunit r) in
  blk ← rx_blocks r !! b;
  u ← raw_units blk !! Z.to_nat i;
  let d := unit_distance dis (raw_range u) in
  if wrong_point d then None
  else
    general ← mjoin (General_horizatal_azimuth_offset_map_ c !! Z.to_nat i);
    delta ← mjoin (laserXTOffset_ c !! Z.to_nat i);
    z ← trunc (azimuth_sum false general (raw_azimuth blk)
                 (GetFiretimeOffset (f_of_Z (rx_speed r)) delta));
    xyz ← ret_option (E := unit)
            (if m_bCoordinateCorrectionFlag s
             then corrected_xt_xyz sinf cosf c s general d i (z mod 36000)
             else plain_xyz sinf cosf c d i (z mod 36000));
    offset ← mjoin ((if rx_echo r =? 0x3d then blockXTOffsetTriple_ c
                     else if (rx_echo r =? 0x39) || (rx_echo r =? 0x3b) || (rx_echo r =? 0x3c)
                     then blockXTOffsetDual_ c else blockXTOffsetSingle_ c) !! b);
    let utc := timestamp_point_of mktime (tm_of_addtime (rx_utc r)) (rx_timestamp r) in
    Some (make_point tf xyz (raw_intensity u)
            (if realtime s then m_dPktTimestamp
             else d_add (lidar_time s utc) (seconds_offset offset delta)) i).

Definition xt_points (r : raw_xt) (b : nat) : list PPoint :=
  omap (xt_point r b) (seqZ 0 (rx_lasers r)).

(** The lasers whose measurement is not wrong. *)
Definition xt_hit (r : raw_xt) (b : nat) (i : Z) : bool :=
  match rx_blocks r !! b ≫= fun blk => raw_units blk !! Z.to_nat i with
  | Some u =>
      negb (wrong_point (unit_distance (to_char char_signed (rx_disunit r)) (raw_range u)))
  | None => false
  end.
End xt_points.

Lemma assigned_value {E} (a : list (option float)) (n : nat) (i : Z) :
  assigned a n = true -> 0 <= i < Z.of_nat n ->
  exists v, a !! Z.to_nat i = Some (Some v) /\ arr_value (E := E) a i = Ret v.
Proof.
  unfold assigned. rewrite andb_true_iff, forallb_forall, Nat.leb_le. intros [Hl Hall] Hi.
  destruct (lookup_lt_is_Some_2 a (Z.to_nat i)) as [o Ho]; [lia|].
  assert (is_Some o) as [v ->].
  { apply (bool_decide_eq_true_1 (is_Some o)), Hall, list_elem_of_In, list_elem_of_lookup.
    exists (Z.to_nat i). by rewrite lookup_take_lt by lia. }
  exists v. split; [done|]. unfold arr_value. rewrite (arr_get_lookup a i (Some v)); [done|lia|done].
Qed.

(** The angle of a laser, as an index of the correction tables. *)
Lemma general_index_in subtract general delta :
  index_bounds_ok subtract general delta = true ->
  exists g, (forall E, general_index (E := E) general = Ret g) /\ 0 <= g < 36000.
Proof.
  unfold index_bounds_ok. rewrite !andb_true_iff.
  intros [[[[[[[[Vg _] _] _] _] _] Hgl] Hgh] _]. apply validb_valid in Vg.
  apply Z.ltb_lt in Hgl, Hgh.
  destruct (within_trunc 24 128 ltac:(lia) _ _ _ (floor_ceil_within _ Vg)) as (z & Hz & Hzb).
  exists (Z.abs z). split; [|lia]. intros E. unfold general_index, to_signed.
  by rewrite Hz, decide_True by (simpl; lia).
Qed.

Lemma azimuth_entry_in {E} v i :
  0 <= i < 36000 -> azimuth_entry (E := E) v i = Ret (v i).
Proof. intros Hi. unfold azimuth_entry. rewrite decide_True; [done|]. exact Hi. Qed.

Lemma assigned_value_Ret {E} (a : list (option float)) i v :
  a !! Z.to_nat i = Some (Some v) -> 0 <= i -> arr_value (E := E) a i = Ret v.
Proof.
  intros Ha Hi. unfold arr_value. rewrite (arr_get_lookup a i (Some v)); done.
Qed.

Section xt_unit.
Context {E : Type} (sinf cosf : float -> float) (t : string) (n : nat) (c : Calibration).
Context (s : Settings) (tf : Transforms).
Context (char_signed : bool) (mktime : tm -> Z) (m_dPktTimestamp : float).
Context (Hxt : is_xt t = true) (Hc : usable t n c).

(** The coordinates are defined for every laser and azimuth index, and the same
    whatever the error type. *)
Lemma xt_xyz_defined general delta d i az :
  0 <= i < Z.of_nat n -> 0 <= az < 36000 -> index_bounds_ok false general delta = true ->
  exists xyz, forall E',
    (if m_bCoordinateCorrectionFlag s then corrected_xt_xyz (E := E') sinf cosf c s general d i az
     else plain_xyz sinf cosf c d i az) = Ret xyz.
Proof.
  intros Hi Haz Hg. pose proof (us_sin _ _ _ Hc) as Hsin. pose proof (us_cos _ _ _ Hc) as Hcos.
  destruct (lookup_lt_is_Some_2 (m_sin_elevation_map_ c) (Z.to_nat i)) as [se Hse]; [lia|].
  destruct (lookup_lt_is_Some_2 (m_cos_elevation_map_ c) (Z.to_nat i)) as [ce Hce]; [lia|].
  destruct (m_bCoordinateCorrectionFlag s).
  - destruct (general_index_in _ _ _ Hg) as (g & Hgi & Hgb).
    eexists. intros E'. unfold corrected_xt_xyz. rewrite Hgi. cbn [mbind outcome_bind].
    unfold m_cos_azimuth_map_h, m_sin_azimuth_map_h, m_sin_azimuth_map_b, m_cos_azimuth_map_b,
      m_sin_azimuth_map_, m_cos_azimuth_map_.
    rewrite !azimuth_entry_in by lia. cbn [mbind outcome_bind].
    rewrite (arr_get_lookup (m_cos_elevation_map_ c) i ce) by (done || lia). cbn [mbind outcome_bind].
    rewrite (arr_get_lookup (m_sin_elevation_map_ c) i se) by (done || lia). cbn [mbind outcome_bind]. reflexivity.
  - eexists. intros E'. unfold plain_xyz, m_sin_azimuth_map_, m_cos_azimuth_map_.
    rewrite (arr_get_lookup (m_cos_elevation_map_ c) i ce) by (done || lia). cbn [mbind outcome_bind].
    rewrite !azimuth_entry_in by lia. cbn [mbind outcome_bind].
    rewrite (arr_get_lookup (m_sin_elevation_map_ c) i se) by (done || lia). cbn [mbind outcome_bind]. reflexivity.
Qed.

Lemma xt_packet_unit r b blk i u :
  wf_xt r -> rx_blocks r !! b = Some blk -> 0 <= i -> raw_units blk !! Z.to_nat i = Some u ->
  packet_unit (E := E) (decode_xt char_signed mktime r) (Z.of_nat b) i =
    Ret (raw_azimuth blk, decode_unit (to_char char_signed (rx_disunit r)) true u).
Proof.
  intros Hr Hb Hi Hu. destruct (wf_layout r Hr) as [len Hlay].
  pose proof (xt_layout_bounds _ _ _ Hlay) as (_ & Hnb & Hnl & _).
  pose proof (lookup_lt_Some _ _ _ Hb) as Hblt.
  unfold packet_unit. cbn [decode_xt blocks].
  destruct (lookup_lt_is_Some_2 (blank_blocks HS_LIDAR_XT_BLOCK_NUMBER HS_LIDAR_XT_UNIT_NUM) b)
    as [room Hroom].
  { unfold blank_blocks. rewrite length_replicate. unfold HS_LIDAR_XT_BLOCK_NUMBER in *. lia. }
  rewrite (arr_get_lookup _ _ (decode_block (to_char char_signed (rx_disunit r)) true blk room));
    [|lia|].
  2: { rewrite Nat2Z.id, lookup_app_l, lookup_zip_with, Hb, Hroom; [done|].
       rewrite length_zip_with. apply lookup_lt_Some in Hroom. lia. }
  cbn [mbind outcome_bind decode_block units azimuth].
  pose proof (lookup_lt_Some _ _ _ Hu).
  rewrite (arr_get_lookup _ _ (Some (decode_unit (to_char char_signed (rx_disunit r)) true u)));
    [done|done|].
  rewrite lookup_app_l by (rewrite length_fmap; done). by rewrite list_lookup_fmap, Hu.
Qed.

(** Which block time offsets the echo byte selects. *)
Lemma xt_block_offset r (b : nat) :
  xt_packet t n r -> (b < length (rx_blocks r))%nat ->
  let table := if rx_echo r =? 0x3d then blockXTOffsetTriple_ c
    else if (rx_echo r =? 0x39) || (rx_echo r =? 0x3b) || (rx_echo r =? 0x3c)
    then blockXTOffsetDual_ c else blockXTOffsetSingle_ c in
  exists v, table !! b = Some (Some v) /\ arr_value (E := E) table (Z.of_nat b) = Ret v.
Proof.
  intros [Hwf _ Hecho] Hb table. destruct (wf_layout r Hwf) as [len Hlay].
  pose proof (xt_layout_bounds _ _ _ Hlay) as (_ & Hnb & _).
  destruct (us_xt _ _ _ Hc Hxt) as (_ & Hsingle & Hdual & Htriple).
  assert (assigned table 8 = true) as Hassigned.
  { subst table. destruct (Z.eqb_spec (rx_echo r) 0x3d) as [He|].
    - rewrite Htriple. by apply bool_decide_eq_true_2, Hecho.
    - by destruct (_ || _). }
  destruct (assigned_value (E := E) table 8 (Z.of_nat b) Hassigned ltac:(lia)) as (v & Hv & Ha).
  rewrite Nat2Z.id in Hv. by exists v.
Qed.

(** The tables and the azimuth index of one laser. *)
Lemma xt_laser_angle i az speed :
  0 <= i < Z.of_nat n -> 0 <= az < 65536 -> 0 <= speed < 65536 ->
  exists general delta z,
    General_horizatal_azimuth_offset_map_ c !! Z.to_nat i = Some (Some general) /\
    arr_value (E := E) (General_horizatal_azimuth_offset_map_ c) i = Ret general /\
    laserXTOffset_ c !! Z.to_nat i = Some (Some delta) /\
    arr_value (E := E) (laserXTOffset_ c) i = Ret delta /\
    index_bounds_ok false general delta = true /\
    trunc (azimuth_sum false general az (GetFiretimeOffset (f_of_Z speed) delta)) = Some z /\
    azimuth_index (E := E) false general az (GetFiretimeOffset (f_of_Z speed) delta) =
      Ret (z mod 36000).
Proof.
  intros Hi Haz Hs. pose proof (us_general _ _ _ Hc) as Hgen.
  destruct (us_xt _ _ _ Hc Hxt) as (Hlaser & _).
  destruct (assigned_value (E := E) _ n i Hgen Hi) as (g & Hg & Hga).
  destruct (assigned_value (E := E) _ n i Hlaser Hi) as (delta & Hd & Hda).
  assert (firing t c = (false, laserXTOffset_ c)) as Hfiring.
  { unfold is_xt in Hxt. apply bool_decide_eq_true_1 in Hxt. unfold firing.
    repeat (apply elem_of_cons in Hxt as [->|Hxt]; [reflexivity|]). by apply elem_of_nil in Hxt. }
  pose proof (laser_bounded t n c (Z.to_nat i) g delta Hc ltac:(lia) Hg) as Hbound.
  rewrite Hfiring in Hbound. specialize (Hbound Hd). cbn [fst] in Hbound.
  destruct (azimuth_index_wraps (E := E) false g delta az speed Hbound Haz Hs)
    as (z & Hz & Hidx).
  by exists g, delta, z.
Qed.

(** One iteration: laser [i] stores exactly its specified point, or nothing if
    its measurement is wrong. *)
Lemma CalcXTUnit_spec r (b : nat) i fr :
  m_sLidarType s = t -> xt_packet t n r -> (b < length (rx_blocks r))%nat ->
  0 <= i < rx_lasers r -> room s (if pcl_type_ s then rx_lasers r else 1) fr ->
  let p := xt_point sinf cosf c s tf char_signed mktime m_dPktTimestamp r b i in
  CalcXTUnit (E := E) sinf cosf c s tf (decode_xt char_signed mktime r) m_dPktTimestamp
    (Z.of_nat b) i fr = Ret (match p with Some p => store_one s fr p | None => fr end) /\
  (if xt_hit char_signed r b i then exists q, p = Some q /\ CompactCloud.ring q = i else p = None).
Proof.
  intros Hs Hp Hb Hi Hroom p. pose proof Hp as [Hwf Hn _].
  destruct (wf_layout r Hwf) as [len Hlay].
  pose proof (xt_layout_bounds _ _ _ Hlay) as (_ & _ & Hnl & _).
  destruct (lookup_lt_is_Some_2 (rx_blocks r) b Hb) as [blk Hblk].
  pose proof (Forall_lookup_1 _ _ _ _ (wf_blocks r Hwf) Hblk) as (Haz & Hlen & _).
  destruct (lookup_lt_is_Some_2 (raw_units blk) (Z.to_nat i)) as [u Hu]; [lia|].
  subst p. unfold CalcXTUnit, xt_point, xt_hit.
  rewrite (xt_packet_unit r b blk i u) by (done || lia). rewrite Hblk. cbn [mbind option_bind].
  rewrite Hu. cbn [mbind outcome_bind option_bind decode_unit distance intensity].
  destruct (wrong_point _) eqn:Hwrong; cbn [negb]; [done|].
  destruct (xt_laser_angle i (raw_azimuth blk) (rx_speed r) ltac:(lia) Haz (wf_speed r Hwf))
    as (g & delta & z & Hg & -> & Hd & -> & Hbound & Hz & Hidx).
  cbn [mbind outcome_bind]. rewrite Hg, Hd. cbn [mjoin option_join mbind option_bind].
  cbn [decode_xt spin_speed]. rewrite Hidx, Hz. cbn [mbind outcome_bind option_bind].
  destruct (xt_xyz_defined g delta
    (unit_distance (to_char char_signed (rx_disunit r)) (raw_range u)) i
    (z mod 36000) ltac:(lia) (Z.mod_pos_bound z 36000 ltac:(lia)) Hbound) as (xyz & Hxyz).
  rewrite !Hxyz. cbn [mbind outcome_bind option_bind ret_option].
  destruct (xt_block_offset r b Hp Hb) as (v & Hv & Hav). rewrite Hv.
  unfold calcXT_timestamp. cbn [decode_xt echo timestamp_point mjoin option_join mbind option_bind].
  rewrite Hav, (assigned_value_Ret (laserXTOffset_ c) i delta Hd) by lia.
  set (q := make_point tf xyz (raw_intensity u) _ i).
  assert (CompactCloud.ring q = i) as Hring.
  { subst q. unfold make_point. destruct (transformPoint tf xyz) as [[??]?].
    apply uwrap_small. lia. }
  split; [|by exists q].
  destruct (realtime s) eqn:Hrt; cbn [mbind outcome_bind]; subst q; rewrite ?Hrt in *.
  all: apply (store_point_Ret s i _ fr (rx_lasers r)); try done; try lia.
  all: rewrite Hring, uwrap_small; lia.
Qed.

Lemma CalcXT_spec r (b : nat) fr :
  m_sLidarType s = t -> xt_packet t n r -> (b < length (rx_blocks r))%nat ->
  room s (rx_lasers r) fr ->
  CalcXTPointXYZIT (E := E) sinf cosf c s tf (decode_xt char_signed mktime r) m_dPktTimestamp
    (Z.of_nat b) (rx_lasers r) fr =
  Ret (store_points s (xt_points sinf cosf c s tf char_signed mktime m_dPktTimestamp r b) fr).
Proof.
  intros Hs Hp Hb Hroom. pose proof Hp as [Hwf Hn _].
  destruct (wf_layout r Hwf) as [len Hlay].
  pose proof (xt_layout_bounds _ _ _ Hlay) as (_ & _ & Hnl & _).
  unfold CalcXTPointXYZIT, xt_points.
  replace (seqZ 0 (rx_lasers r)) with (seqZ 0 (Z.of_nat (Z.to_nat (rx_lasers r))))
    by (f_equal; lia).
  apply (for_lasers_emit s _ _ (rx_lasers r)); [|lia|lia|].
  - intros j fr' Hj Hr. apply CalcXTUnit_spec; try done. lia.
  - destruct (pcl_type_ s) eqn:Hpcl; [done|]. rewrite Z2Nat.id by lia. done.
Qed.

Lemma xt_points_rings r (b : nat) :
  m_sLidarType s = t -> xt_packet t n r -> (b < length (rx_blocks r))%nat ->
  CompactCloud.ring <$>
    xt_points sinf cosf c s tf char_signed mktime m_dPktTimestamp r b =
  filter (fun i => xt_hit char_signed r b i = true) (seqZ 0 (rx_lasers r)).
Proof.
  intros Hs Hp Hb. unfold xt_points.
  set (fr := {| m_iPointCloudIndex := 0; m_vPointCloud := (empty : gmap Z PPoint);
    m_vPointCloudList := replicate 256 [] |}).
  assert (forall l, Forall (fun i => 0 <= i < rx_lasers r) l ->
    CompactCloud.ring <$> omap (xt_point sinf cosf c s tf char_signed mktime m_dPktTimestamp r b) l
    = filter (fun i => xt_hit char_signed r b i = true) l) as Hall.
  { induction 1 as [|i l Hi _ IH]; [done|]. cbn [omap list_omap].
    destruct (CalcXTUnit_spec r b i fr Hs Hp Hb Hi) as (_ & Hhit).
    { unfold room. destruct Hp as [Hwf _ _]. destruct (wf_layout r Hwf) as [len Hlay].
      pose proof (xt_layout_bounds _ _ _ Hlay) as (_ & _ & Hnl & _).
      destruct (pcl_type_ s); simpl; unfold MAX_POINT_CLOUD_NUM; lia. }
    rewrite filter_cons. destruct (xt_hit char_signed r b i).
    - destruct Hhit as (q & -> & Hq). rewrite decide_True by done. cbn [fmap list_fmap].
      rewrite Hq. by f_equal.
    - rewrite Hhit, decide_False by done. done. }
  apply Hall, Forall_forall. intros i Hi. apply elem_of_seqZ in Hi. lia.
Qed.
End xt_unit.


Definition xt16_settings : Settings :=
  {| m_sTimestampType := ""; tz_second_ := 0; pcl_type_ := false; m_sLidarType := "PandarXT-16";
     m_bCoordinateCorrectionFlag := true; m_sFrameId := "lidar" |}.
Definition no_transforms : Transforms := {| to_fixed := None; to_target := None |}.
Definition empty_frame : Frame :=
  {| m_iPointCloudIndex := 0; m_vPointCloud := empty; m_vPointCloudList := replicate 256 [] |}.


(** ** Table entries the code does not set *)

(** Three reads of entries that do not exist or were never assigned, as soon
    as the measurement is not wrong: laser 7 of a Pandar40 ([laser40Offset_[7]]),
    the seventh block of a Pandar64 packet (its block tables have six entries)
    unless times are "realtime", and any laser of the lidar type "XT", which is
    accepted as a PandarXT but not known to [Init]. *)
Theorem calc_unset_entries {E} (sinf cosf : float -> float) (c : Calibration) (s : Settings)
    (tf : Transforms) (m_dPktTimestamp : float) (fr : Frame) :
  (forall pkt b block u,
    arr_get (E := E) (p40_blocks pkt) b = Ret block ->
    arr_get (E := E) (p40_units block) 7 = Ret u -> wrong_point (distance u) = false ->
    CalcUnit (E := E) sinf cosf c s tf pkt m_dPktTimestamp b 7 fr = Undef) /\
  (forall pkt i az u,
    packet_unit (E := E) pkt 6 i = Ret (az, u) -> wrong_point (distance u) = false ->
    realtime s = false ->
    forall fr', CalcL64Unit (E := E) sinf cosf c s tf pkt m_dPktTimestamp 6 i fr <> Ret fr') /\
  (forall pkt b i az u,
    packet_unit (E := E) pkt b i = Ret (az, u) -> wrong_point (distance u) = false ->
    m_sLidarType s = "XT"%string -> forall fr',
    CalcXTUnit (E := E) sinf cosf (Init sinf cosf "XT") s tf pkt m_dPktTimestamp b i fr <> Ret fr').
Proof.
  split; [|split].
  - intros pkt b block u Hb Hu Hw. unfold CalcUnit. rewrite Hb. cbn [mbind outcome_bind].
    rewrite Hu. cbn [mbind outcome_bind]. rewrite Hw.
    assert (arr_value (E := E) laser40Offset_ 7 = Undef) as -> by reflexivity.
    unfold arr_value. unfold arr_get. case_decide; [|done].
    by destruct (_ !! _) as [[]|].
  - intros pkt i az u Hu Hw Hrt fr' H. unfold CalcL64Unit in H. rewrite Hu in H.
    cbn [mbind outcome_bind] in H. rewrite Hw in H.
    repeat (apply bind_Ret_inv in H as (? & ? & H)).
    match goal with Ht : calc64_timestamp _ _ _ _ _ = _ |- _ => rename Ht into Htime end.
    unfold calc64_timestamp in Htime. rewrite Hrt in Htime.
    apply bind_Ret_inv in Htime as (? & Hv & _). by destruct (echo pkt =? 0x39).
  - intros pkt b i az u Hu Hw Ht fr' H. unfold CalcXTUnit in H. rewrite Hu in H.
    cbn [mbind outcome_bind] in H. rewrite Hw in H.
    apply bind_Ret_inv in H as (g & Hg & _).
    unfold arr_value in Hg. apply bind_Ret_inv in Hg as (o & Hg & Ho).
    apply arr_get_Ret in Hg as [_ Hg].
    assert (General_horizatal_azimuth_offset_map_ (Init sinf cosf "XT") = replicate 256 None)
      as Hx by reflexivity.
    rewrite Hx in Hg. apply lookup_replicate in Hg as [-> _]. done.
Qed.

Lemma calc_unset_entries_witness :
  let u := {| distance := d_of_Z 3; intensity := 9; confidence := 0 |} in
  let block := {| p40_azimuth := 100; p40_sob := 0xffee; p40_units := replicate 40 u |} in
  let pkt := {| p40_blocks := replicate 10 block; p40_t := tm_of_addtime [20; 1; 1; 0; 0; 0];
                p40_usec := 0; p40_echo := 0x37; p40_timestamp_point := d_of_Z 0;
                p40_spin_speed := f_of_Z 600 |} in
  CalcUnit (E := unit) id id (Init id id "Pandar40P") xt16_settings no_transforms pkt (d_of_Z 0)
    0 7 empty_frame = Undef.
Proof.
  intros u block pkt.
  apply (proj1 (calc_unset_entries id id (Init id id "Pandar40P") xt16_settings no_transforms
    (d_of_Z 0) empty_frame) pkt 0 block u); vm_compute; reflexivity.
Defined.

(** In channel mode the PandarQT's missing braces still advance the index of the
    unused array, up to its overflow: only [Start] resets it. *)
Lemma qt_index_advances {E} s i p fr :
  pcl_type_ s = true ->
  (forall fr', store_point_qt (E := E) s i p fr = Ret fr' ->
     m_iPointCloudIndex fr' = m_iPointCloudIndex fr + 1 /\ m_vPointCloud fr' = m_vPointCloud fr) /\
  (INT_MAX <= m_iPointCloudIndex fr -> forall fr', store_point_qt (E := E) s i p fr <> Ret fr').
Proof.
  intros Hs. unfold store_point_qt, push_point, bump_index. rewrite Hs.
  split; [intros fr' H|intros Hmax fr' H];
    apply bind_Ret_inv in H as (fr1 & H & Hb);
    apply bind_Ret_inv in H as (ch & _ & H); apply bind_Ret_inv in H as (chs & _ & [= <-]);
    cbn [m_iPointCloudIndex] in Hb; destruct (Z.ltb_spec (m_iPointCloudIndex fr) INT_MAX);
    try discriminate; [by injection Hb as <-|lia].
Qed.
