(* ===== verification/Correction.v ===== *)
(** The lidar correction file: [LoadCorrectionFile] and [SaveCorrectionFile] of
    [pandarGeneral_internal.cc].

    Text is a list of bytes.  The first part is what the two functions use of
    [std::istringstream], [std::getline], the formatted inputs [>> int] and
    [>> double] and the formatted output [<< float] of the standard library (as
    libstdc++ implements them). *)
From S2P Require Import Prelude Ieee PacketFormat LidarTables PointCalc.
From stdpp Require Import pretty.
#[local] Open Scope Z_scope.

(** ** Text *)

Definition str (s : string) : list Z :=
  (fun a => Z.of_N (Ascii.N_of_ascii a)) <$> String.list_ascii_of_string s.

Definition newline : Z := 10.
Definition comma : Z := 44.

(** An input string stream: what is left, and the end-of-file flag. *)
Record istream := { unread : list Z; eofbit : bool }.

Definition stream (s : list Z) : istream := {| unread := s; eofbit := false |}.

Fixpoint take_line (delim : Z) (s : list Z) : list Z * option (list Z) :=
  match s with
  | [] => ([], None)
  | b :: s =>
      if b =? delim then ([], Some s)
      else let '(l, rest) := take_line delim s in (b :: l, rest)
  end.

(** [std::getline(ifs, line, delim)]: success, the new value of [line] and the
    stream.  At end of file nothing is extracted and [line] keeps its value. *)
Definition getline (delim : Z) (line : list Z) (ifs : istream) : bool * list Z * istream :=
  if eofbit ifs then (false, line, ifs)
  else match take_line delim (unread ifs) with
    | (l, Some rest) => (true, l, {| unread := rest; eofbit := false |})
    | (l, None) => (bool_decide (l <> []), l, {| unread := []; eofbit := true |})
    end.

Definition is_space (b : Z) : bool := (b =? 32) || ((9 <=? b) && (b <=? 13)).
Definition is_digit (b : Z) : bool := (48 <=? b) && (b <=? 57).

Fixpoint skip_spaces (s : list Z) : list Z :=
  match s with
  | b :: s' => if is_space b then skip_spaces s' else s
  | [] => []
  end.

Fixpoint take_digits (s : list Z) : list Z * list Z :=
  match s with
  | b :: s' => if is_digit b then let '(ds, rest) := take_digits s' in (b :: ds, rest) else ([], s)
  | [] => ([], [])
  end.

Definition digits_value (ds : list Z) : Z := foldl (fun v d => 10 * v + (d - 48)) 0 ds.

Definition take_sign (s : list Z) : bool * list Z :=
  match s with
  | 45 :: s' => (true, s')
  | 43 :: s' => (false, s')
  | _ => (false, s)
  end.

(** [std::stringstream(s) >> i] for an [int] that holds [old]: kept when there
    is nothing but blanks, 0 when there is no number, saturated when the number
    does not fit. *)
Definition scan_int (s : list Z) (old : Z) : Z :=
  match skip_spaces s with
  | [] => old
  | s =>
      let '(neg, s) := take_sign s in
      let '(ds, _) := take_digits s in
      let v := if neg then - digits_value ds else digits_value ds in
      Z.max (- 2 ^ 31) (Z.min (2 ^ 31 - 1) v)
  end.

(** The [double] nearest to [n / d]: the quotient to well below the least
    subnormal, with a sticky bit for the rest, rounded once. *)
Definition d_of_ratio (n d : Z) : float :=
  let s := 1200 + Z.log2_up d in
  let q := Z.shiftl n s / d in
  let sticky := if Z.shiftl n s mod d =? 0 then 0 else 1 in
  binary_normalize 53 1024 (2 * q + sticky) (- (s + 1)) false.

Definition DBL_MAX : float := S754_finite false (2 ^ 53 - 1)%positive 971.

(** A decimal [digits * 10 ^ k]; overflow saturates. *)
Definition decimal_value (n k : Z) : float :=
  let r := if 0 <=? k then d_of_ratio (n * 10 ^ k) 1 else d_of_ratio n (10 ^ (- k)) in
  if isfinite r then r else DBL_MAX.

(** [std::stringstream(s) >> d] for a [double]: [None] leaves it unchanged
    (nothing but blanks). *)
Definition scan_double (s : list Z) : option float :=
  match skip_spaces s with
  | [] => None
  | s =>
      let '(neg, s) := take_sign s in
      let '(whole, s) := take_digits s in
      let '(frac, s) := match s with 46 :: s => take_digits s | _ => ([], s) end in
      let no_digits := bool_decide (whole ++ frac = []) in
      let ex :=
        match s with
        | 69 :: s | 101 :: s =>
            let '(eneg, s) := take_sign s in
            let '(ds, _) := take_digits s in
            if bool_decide (ds = []) then None
            else Some (if eneg then - digits_value ds else digits_value ds)
        | _ => Some 0
        end in
      match ex with
      | Some ex =>
          if no_digits then Some (S754_zero false)
          else
            let v := decimal_value (digits_value (whole ++ frac)) (ex - zlen frac) in
            Some (if neg then SFopp v else v)
      | None => Some (S754_zero false)
      end
  end.

Example scan_double_ex :
  (f64_bits <$> scan_double (str " -14.5")) = Some (f64_bits (d_lit (-145) 10)) /\
  (f64_bits <$> scan_double (str "1.25e2;")) = Some (f64_bits (d_of_Z 125)) /\
  scan_double (str " ") = None /\ scan_int (str "17x") 0 = 17.
Proof. split_and!; vm_compute; reflexivity. Qed.

(** The last [w] decimal digits of a number. *)
Fixpoint dec_digits (w : nat) (n : Z) : list Z :=
  match w with
  | O => []
  | S w => dec_digits w (n / 10) ++ [48 + n mod 10]
  end.

Fixpoint drop_zeros (ds : list Z) : list Z :=
  match ds with
  | 48 :: ds => drop_zeros ds
  | _ => ds
  end.

(** A fraction without its trailing zeros, and without its point if nothing is
    left. *)
Definition fraction (ds : list Z) : list Z :=
  match drop_zeros (reverse ds) with
  | [] => []
  | ds => 46 :: reverse ds
  end.

(** The greatest [k >= from] with [10 ^ k <= n / d], searching [fuel] steps. *)
Fixpoint log10_ratio (fuel : nat) (k n d : Z) : Z :=
  match fuel with
  | O => k
  | S fuel =>
      let reached := if 0 <=? k + 1 then d * 10 ^ (k + 1) <=? n else d <=? n * 10 ^ (- (k + 1)) in
      if reached then log10_ratio fuel (k + 1) n d else k
  end.

Definition round_half_even (n d : Z) : Z :=
  let q := n / d in
  let r := n mod d in
  if 2 * r <? d then q else if d <? 2 * r then q + 1 else if Z.even q then q else q + 1.

(** [os << x]: six significant digits, as [printf]'s [%g].  The range of
    [float] is from [10 ^ -45] to [10 ^ 39]. *)
Definition format_float (x : float) : list Z :=
  match x with
  | S754_zero s => (if s then [45] else []) ++ [48]
  | S754_infinity s => (if s then [45] else []) ++ str "inf"
  | S754_nan => str "nan"
  | S754_finite s m e =>
      let '(n, d) := if 0 <=? e then (Zpos m * 2 ^ e, 1) else (Zpos m, 2 ^ (- e)) in
      let k := log10_ratio 90 (-46) n d in
      let q := if 0 <=? 5 - k then round_half_even (n * 10 ^ (5 - k)) d
               else round_half_even n (d * 10 ^ (k - 5)) in
      let '(k, q) := if q =? 10 ^ 6 then (k + 1, 10 ^ 5) else (k, q) in
      (if s then [45] else []) ++
      if (k <? -4) || (6 <=? k) then
        (48 + q / 10 ^ 5) :: fraction (dec_digits 5 q) ++
        101 :: (if k <? 0 then 45 else 43) :: dec_digits 2 (Z.abs k)
      else
        let decimals := Z.to_nat (5 - k) in
        str (pretty (q / 10 ^ (5 - k))) ++ fraction (dec_digits decimals q)
  end.

Example format_float_ex :
  format_float (f_lit (-14882) 1000) = str "-14.882" /\ format_float (f_of_Z 15) = str "15" /\
  format_float (f_lit 1 3) = str "0.333333" /\ format_float (f_of_Z 123456789) = str "1.23457e+08".
Proof. split_and!; vm_compute; reflexivity. Qed.

(** ** SaveCorrectionFile *)

(** [hesai_lidar::msg::PandarPacket]. *)
Record PandarPacketMsg := {
  stamp_sec : Z;
  stamp_nanosec : Z;
  data : list Z;
  size : Z;
}.

Definition correction_header : list Z := str "Laser id,Elevation,Azimuth".

Definition correction_line (id : Z) (elevation azimuth : list Z) : list Z :=
  str (pretty id) ++ comma :: elevation ++ comma :: azimuth.

Fixpoint save_lines {E} (c : Calibration) (n : nat) (i : Z) : outcome E (list Z) :=
  match n with
  | O => Ret []
  | S n =>
      elevation ← arr_value (General_elev_angle_map_ c) i;
      azimuth ← arr_value (General_horizatal_azimuth_offset_map_ c) i;
      rest ← save_lines c n (i + 1);
      Ret (correction_line (i + 1) (format_float elevation) (format_float azimuth) ++
           newline :: rest)
  end.

Definition SaveCorrectionFile {E} (c : Calibration) (laserNumber : Z)
    : outcome E PandarPacketMsg :=
  lines ← save_lines c (Z.to_nat laserNumber) 0;
  let content := correction_header ++ newline :: lines in
  let length := i32 (zlen content) in
  Ret {| stamp_sec := 0; stamp_nanosec := 0; size := u32 length;
         data := [0x47; 0x74; 0x05; 0x00;
                  Z.land (Z.shiftr length 24) 0xff; Z.land (Z.shiftr length 16) 0xff;
                  Z.land (Z.shiftr length 8) 0xff; Z.land length 0xff] ++ content |}.

(** ** LoadCorrectionFile *)

(** The two arrays of [HS_LIDAR_L64_UNIT_NUM] doubles on the stack. *)
Record Columns := { elev_angle : list (option float); azimuthOffset : list (option float) }.

Definition blank_columns : Columns :=
  {| elev_angle := replicate (Z.to_nat HS_LIDAR_L64_UNIT_NUM) None;
     azimuthOffset := replicate (Z.to_nat HS_LIDAR_L64_UNIT_NUM) None |}.

(** The three fields of a line; a missing field repeats the last one read. *)
Definition scan_line (line : list Z) : Z * option float * option float :=
  let ss := stream line in
  let '(_, subline, ss) := getline comma [] ss in
  let lineId := scan_int subline 0 in
  let '(_, subline, ss) := getline comma subline ss in
  let elev := scan_double subline in
  let '(_, subline, _) := getline comma subline ss in
  let azimuth := scan_double subline in
  (lineId, elev, azimuth).

(** The loop over the lines; [fuel] bounds it by the bytes left to read. *)
Fixpoint load_lines {E} (fuel : nat) (line : list Z) (ifs : istream) (lineCounter : Z)
    (cols : Columns) : outcome E (Z * Columns) :=
  match fuel with
  | O => Ret (lineCounter, cols)
  | S fuel =>
      let '(ok, line, ifs) := getline newline line ifs in
      if negb ok then Ret (lineCounter, cols)
      else if zlen line <? 5 then Ret (lineCounter, cols)
      else
        let lineCounter := lineCounter + 1 in
        let '(lineId, elev, azimuth) := scan_line line in
        if negb (lineId =? lineCounter) then Ret (lineCounter, cols)
        else
          elevs ← arr_set (elev_angle cols) (lineId - 1) elev;
          azimuths ← arr_set (azimuthOffset cols) (lineId - 1) azimuth;
          load_lines fuel line ifs lineCounter
            {| elev_angle := elevs; azimuthOffset := azimuths |}
  end.

Section load.
Context {E : Type} (sinf cosf : float -> float).

(** One iteration of the loop that copies the columns to the members. *)
Definition load_laser (cols : Columns) (i : Z) (c : Calibration) : outcome E Calibration :=
  elev ← arr_value (elev_angle cols) i;
  elevs ← arr_set (General_elev_angle_map_ c) i (Some (f_of_d elev));
  sins ← arr_set (m_sin_elevation_map_ c) i (sin_elevation sinf (f_of_d elev));
  coss ← arr_set (m_cos_elevation_map_ c) i (cos_elevation cosf (f_of_d elev));
  azimuth ← arr_value (azimuthOffset cols) i;
  azimuths ← arr_set (General_horizatal_azimuth_offset_map_ c) i (Some (f_of_d azimuth));
  Ret {| General_elev_angle_map_ := elevs;
         General_horizatal_azimuth_offset_map_ := azimuths;
         m_sin_elevation_map_ := sins; m_cos_elevation_map_ := coss;
         laserXTOffset_ := laserXTOffset_ c;
         blockXTOffsetSingle_ := blockXTOffsetSingle_ c;
         blockXTOffsetDual_ := blockXTOffsetDual_ c;
         blockXTOffsetTriple_ := blockXTOffsetTriple_ c |}.

Fixpoint load_lasers (cols : Columns) (n : nat) (i : Z) (c : Calibration)
    : outcome E Calibration :=
  match n with
  | O => Ret c
  | S n => c ← load_laser cols i c; load_lasers cols n (i + 1) c
  end.

(** [v.resize(n)]: new elements are zero. *)
Definition resize (n : Z) (v : list float) : list float :=
  take (Z.to_nat n) v ++ replicate (Z.to_nat n - length v) (S754_zero false).

Definition resize_maps (n : Z) (c : Calibration) : Calibration :=
  {| General_elev_angle_map_ := General_elev_angle_map_ c;
     General_horizatal_azimuth_offset_map_ := General_horizatal_azimuth_offset_map_ c;
     m_sin_elevation_map_ := resize n (m_sin_elevation_map_ c);
     m_cos_elevation_map_ := resize n (m_cos_elevation_map_ c);
     laserXTOffset_ := laserXTOffset_ c;
     blockXTOffsetSingle_ := blockXTOffsetSingle_ c;
     blockXTOffsetDual_ := blockXTOffsetDual_ c;
     blockXTOffsetTriple_ := blockXTOffsetTriple_ c |}.

(** Always returns 0. *)
Definition LoadCorrectionFile (correction_content : list Z) (c : Calibration)
    : outcome E (Z * Calibration) :=
  let '(_, line, ifs) := getline newline [] (stream correction_content) in
  '(lineCounter, cols) ← load_lines (S (length correction_content)) line ifs 0 blank_columns;
  c ← load_lasers cols (Z.to_nat lineCounter) 0 (resize_maps lineCounter c);
  Ret (0, c).
End load.

(** ** What a well-formed file loads to *)

(** The text of the lines from number [id] on. *)
Fixpoint file_lines (id : Z) (rows : list (list Z * list Z)) : list Z :=
  match rows with
  | [] => []
  | (elevation, azimuth) :: rows =>
      correction_line id elevation azimuth ++ newline :: file_lines (id + 1) rows
  end.

(** A field: printable, without separators, and a number [>>] reads. *)
Definition field (s : list Z) (v : float) : Prop :=
  s <> [] /\ (comma ∉ s) /\ (newline ∉ s) /\ scan_double s = Some v.

Lemma take_line_found delim l rest :
  delim ∉ l -> take_line delim (l ++ delim :: rest) = (l, Some rest).
Proof.
  induction l as [|b l IH]; intros Hl; cbn [app take_line].
  - by rewrite Z.eqb_refl.
  - rewrite not_elem_of_cons in Hl. destruct Hl as [Hb Hl].
    destruct (Z.eqb_spec b delim); [congruence|]. by rewrite IH.
Qed.

Lemma take_line_end delim l : delim ∉ l -> take_line delim l = (l, None).
Proof.
  induction l as [|b l IH]; intros Hl; cbn [take_line]; [done|].
  rewrite not_elem_of_cons in Hl. destruct Hl as [Hb Hl].
  destruct (Z.eqb_spec b delim); [congruence|]. by rewrite IH.
Qed.

Lemma getline_found delim old l rest :
  delim ∉ l -> getline delim old (stream (l ++ delim :: rest)) = (true, l, stream rest).
Proof. intros Hl. unfold getline. simpl. by rewrite take_line_found. Qed.

Lemma getline_last delim old l :
  delim ∉ l -> l <> [] ->
  getline delim old (stream l) = (true, l, {| unread := []; eofbit := true |}).
Proof.
  intros Hl Hne. unfold getline. simpl. rewrite take_line_end by done.
  by rewrite bool_decide_eq_true_2.
Qed.

(** The bound on the number of lines is never reached: more of it changes nothing. *)
Lemma take_line_shrinks delim s l rest :
  take_line delim s = (l, Some rest) -> (length rest < length s)%nat.
Proof.
  revert l. induction s as [|b s IH]; intros l; cbn [take_line]; [done|].
  destruct (b =? delim); [intros [= _ <-]; cbn; lia|].
  destruct (take_line delim s) as [l' [r|]]; [|done]. intros [= _ <-].
  specialize (IH l' eq_refl). cbn. lia.
Qed.

Lemma getline_shrinks delim line ifs l ifs' :
  getline delim line ifs = (true, l, ifs') -> (length (unread ifs') < length (unread ifs))%nat.
Proof.
  unfold getline. destruct (eofbit ifs); [done|].
  destruct (take_line delim (unread ifs)) as [l' [rest|]] eqn:Ht.
  - intros [= _ <-]. by apply take_line_shrinks in Ht.
  - destruct (unread ifs) as [|b s] eqn:Hu; [injection Ht as <-; done|].
    intros [= _ _ <-]. cbn. lia.
Qed.

Lemma load_lines_fuel {E} (fuel more : nat) line ifs lineCounter cols :
  (length (unread ifs) < fuel)%nat ->
  load_lines (E := E) (fuel + more) line ifs lineCounter cols =
  load_lines fuel line ifs lineCounter cols.
Proof.
  revert line ifs lineCounter cols. induction fuel as [|fuel IH]; intros line ifs k cols Hf; [lia|].
  cbn [Nat.add load_lines]. destruct (getline newline line ifs) as [[[] l] ifs'] eqn:Hg; [|done].
  apply getline_shrinks in Hg. cbn [negb]. destruct (zlen l <? 5); [done|].
  destruct (scan_line l) as [[id elev] azimuth]. destruct (id =? k + 1); [|done]. cbn [negb].
  destruct (arr_set (elev_angle cols) _ _) as [elevs| |]; cbn [mbind outcome_bind]; [|done..].
  destruct (arr_set (azimuthOffset cols) _ _); cbn [mbind outcome_bind]; [|done..]. apply IH. lia.
Qed.

(** [10 ^ k <= n / d], for [k] of either sign. *)
Definition reaches (n d k : Z) : Prop := d * 10 ^ Z.max 0 k <= n * 10 ^ Z.max 0 (- k).

Lemma log10_ratio_spec (fuel : nat) k n d :
  reaches n d k -> ~ reaches n d (k + Z.of_nat fuel) ->
  reaches n d (log10_ratio fuel k n d) /\ ~ reaches n d (log10_ratio fuel k n d + 1).
Proof.
  revert k. induction fuel as [|fuel IH]; intros k Hlo Hhi.
  { by rewrite Z.add_0_r in Hhi. }
  cbn [log10_ratio].
  assert ((if 0 <=? k + 1 then d * 10 ^ (k + 1) <=? n else d <=? n * 10 ^ (- (k + 1))) = true <->
    reaches n d (k + 1)) as Hr.
  { unfold reaches. destruct (Z.leb_spec 0 (k + 1)); rewrite Z.leb_le.
    - rewrite Z.max_r, Z.max_l, Z.mul_1_r by lia. done.
    - rewrite Z.max_l, Z.max_r, Z.mul_1_r by lia. done. }
  destruct (if 0 <=? k + 1 then _ else _); cbn zeta.
  - apply IH; [by apply Hr|]. replace (k + 1 + Z.of_nat fuel) with (k + Z.of_nat (S fuel)) by lia. done.
  - split; [done|]. by intros H%Hr.
Qed.

(** The search of [format_float] covers every [float]: its exact value [n / d]
    is between [2 ^ -149] and [2 ^ 128]. *)
Lemma log10_ratio_float (n d : Z) :
  0 < d -> d <= n * 2 ^ 149 -> n < d * 2 ^ 128 ->
  let k := log10_ratio 90 (-46) n d in reaches n d k /\ ~ reaches n d (k + 1).
Proof.
  intros Hd Hlo Hhi. apply log10_ratio_spec; unfold reaches.
  - change (Z.max 0 (- -46)) with 46. change (Z.max 0 (-46)) with 0.
    assert (2 ^ 149 <= 10 ^ 46) by (vm_compute; discriminate). nia.
  - change (Z.max 0 (-46 + Z.of_nat 90)) with 44. change (Z.max 0 (- (-46 + Z.of_nat 90))) with 0.
    assert (2 ^ 128 <= 10 ^ 44) by (vm_compute; discriminate). nia.
Qed.

(** Line numbers are read back as written, and hold no separator. *)
Lemma line_id_text id :
  1 <= id <= 64 ->
  scan_int (str (pretty id)) 0 = id /\ (comma ∉ str (pretty id)) /\
  (newline ∉ str (pretty id)) /\ str (pretty id) <> [].
Proof.
  intros Hid.
  assert (forallb (fun id => bool_decide (scan_int (str (pretty id)) 0 = id /\
    (comma ∉ str (pretty id)) /\ (newline ∉ str (pretty id)) /\ str (pretty id) <> []))
    (seqZ 1 64) = true) as Hall by (vm_compute; reflexivity).
  rewrite forallb_forall in Hall.
  apply (bool_decide_eq_true_1 _), Hall, list_elem_of_In, elem_of_seqZ. lia.
Qed.

Lemma scan_line_correction id elevation azimuth v w :
  1 <= id <= 64 -> field elevation v -> field azimuth w ->
  scan_line (correction_line id elevation azimuth) = (id, Some v, Some w).
Proof.
  intros Hid (He & Hec & _ & Hv) (Ha & Hac & _ & Hw).
  destruct (line_id_text id Hid) as (Hscan & Hc & _).
  unfold scan_line, correction_line.
  rewrite getline_found by done. rewrite getline_found by done.
  rewrite getline_last by done. by rewrite Hscan, Hv, Hw.
Qed.

Lemma correction_line_text id elevation azimuth v w :
  1 <= id <= 64 -> field elevation v -> field azimuth w ->
  (newline ∉ correction_line id elevation azimuth) /\
  5 <= zlen (correction_line id elevation azimuth).
Proof.
  intros Hid (He & _ & Hen & _) (Ha & _ & Han & _).
  destruct (line_id_text id Hid) as (_ & _ & Hn & Hne). unfold correction_line. split.
  - rewrite !elem_of_app, !elem_of_cons, elem_of_app, elem_of_cons. unfold comma, newline in *.
    intros [?|[?|[?|[?|?]]]]; done.
  - destruct elevation, azimuth, (str (pretty id)); try done. cbn [length app].
    rewrite !length_app. cbn [length]. rewrite length_app. cbn [length]. lia.
Qed.

(** The first [i] elements of [f <$> l] written over [old]. *)
Definition fill {A B} (f : A -> B) (l : list A) (old : list B) (i : nat) : list B :=
  (f <$> take i l) ++ drop i old.

Lemma arr_set_fill {E A B} (f : A -> B) l old (i : nat) x :
  l !! i = Some x -> (i < length old)%nat ->
  arr_set (E := E) (fill f l old i) (Z.of_nat i) (f x) = Ret (fill f l old (S i)).
Proof.
  intros Hx Hi. pose proof (lookup_lt_Some _ _ _ Hx).
  assert (length (f <$> take i l) = i) as Hl by (rewrite length_fmap, length_take; lia).
  unfold fill. rewrite arr_set_in by (rewrite length_app, Hl, length_drop; lia). f_equal.
  rewrite Nat2Z.id, insert_app_r_alt by lia. rewrite Hl, Nat.sub_diag.
  destruct (lookup_lt_is_Some_2 old i Hi) as [o Ho].
  rewrite (drop_S old o i) by done. cbn [insert list_insert].
  rewrite (take_S_r l i x), fmap_app by done. by rewrite <- app_assoc.
Qed.

Lemma fill_full {A B} (f : A -> B) l old :
  length old = length l -> fill f l old (length l) = f <$> l.
Proof.
  intros Hl. unfold fill. rewrite firstn_all, drop_ge by lia. by rewrite app_nil_r.
Qed.

(** [cols] holds the first [k] values. *)
Definition columns (elevs azimuths : list float) (k : nat) : Columns :=
  {| elev_angle := fill Some elevs (replicate 64 None) k;
     azimuthOffset := fill Some azimuths (replicate 64 None) k |}.

Lemma load_lines_rows {E} (rows : list (list Z * list Z)) rest elevs azimuths fuel line (k : nat) :
  Forall2 (fun row v => field row.1 v) rows (drop k elevs) ->
  Forall2 (fun row v => field row.2 v) rows (drop k azimuths) ->
  (k + length rows <= 64)%nat ->
  length elevs = (k + length rows)%nat -> length azimuths = (k + length rows)%nat ->
  exists line',
    load_lines (E := E) (length rows + fuel) line
      (stream (file_lines (Z.of_nat k + 1) rows ++ rest)) (Z.of_nat k) (columns elevs azimuths k) =
    load_lines fuel line' (stream rest) (Z.of_nat (k + length rows))
      (columns elevs azimuths (k + length rows)).
Proof.
  revert line k. induction rows as [|[e a] rows IH];
    intros line k He Ha Hk Hle Hla; cbn [length plus] in *.
  { exists line. cbn [file_lines app]. by rewrite Nat.add_0_r. }
  inversion He as [|? v ? vs Hv Hvs E1 E2]; subst. inversion Ha as [|? w ? ws Hw Hws E3 E4]; subst.
  assert (elevs !! k = Some v /\ drop (S k) elevs = vs) as [Hek Hed].
  { rewrite <- (Nat.add_0_r k) at 1. rewrite <- lookup_drop, <- E2. split; [done|].
    rewrite <- Nat.add_1_r, <- drop_drop, <- E2. done. }
  assert (azimuths !! k = Some w /\ drop (S k) azimuths = ws) as [Hak Had].
  { rewrite <- (Nat.add_0_r k) at 1. rewrite <- lookup_drop, <- E4. split; [done|].
    rewrite <- Nat.add_1_r, <- drop_drop, <- E4. done. }
  cbn [fst snd] in Hv, Hw.
  destruct (correction_line_text (Z.of_nat k + 1) e a v w ltac:(lia) Hv Hw) as [Hn Hlen].
  cbn [file_lines load_lines]. rewrite <- app_assoc. cbn [app].
  rewrite getline_found by done. cbn [negb].
  destruct (Z.ltb_spec (zlen (correction_line (Z.of_nat k + 1) e a)) 5); [lia|].
  rewrite (scan_line_correction _ e a v w) by (done || lia). rewrite Z.eqb_refl. cbn [negb].
  replace (Z.of_nat k + 1 - 1) with (Z.of_nat k) by lia.
  cbn [columns elev_angle azimuthOffset].
  rewrite (arr_set_fill Some elevs _ k v) by (done || (rewrite length_replicate; lia)).
  cbn [mbind outcome_bind].
  rewrite (arr_set_fill Some azimuths _ k w) by (done || (rewrite length_replicate; lia)).
  cbn [mbind outcome_bind].
  pose proof (IH (correction_line (Z.of_nat k + 1) e a) (S k)) as Hrec.
  replace (Z.of_nat (S k)) with (Z.of_nat k + 1) in Hrec by lia.
  replace (k + S (length rows))%nat with (S k + length rows)%nat by lia.
  apply Hrec; try lia; [by rewrite Hed|by rewrite Had].
Qed.

Section load_facts.
Context {E : Type} (sinf cosf : float -> float).

(** The members after [i] iterations of the copying loop. *)
Definition loaded (elevs azimuths : list float) (c : Calibration) (i : nat) : Calibration :=
  {| General_elev_angle_map_ := fill (Some ∘ f_of_d) elevs (General_elev_angle_map_ c) i;
     General_horizatal_azimuth_offset_map_ :=
       fill (Some ∘ f_of_d) azimuths (General_horizatal_azimuth_offset_map_ c) i;
     m_sin_elevation_map_ := fill (sin_elevation sinf ∘ f_of_d) elevs (m_sin_elevation_map_ c) i;
     m_cos_elevation_map_ := fill (cos_elevation cosf ∘ f_of_d) elevs (m_cos_elevation_map_ c) i;
     laserXTOffset_ := laserXTOffset_ c;
     blockXTOffsetSingle_ := blockXTOffsetSingle_ c;
     blockXTOffsetDual_ := blockXTOffsetDual_ c;
     blockXTOffsetTriple_ := blockXTOffsetTriple_ c |}.

(** Room for [n] lasers in every member. *)
Definition holds (n : nat) (c : Calibration) : Prop :=
  (n <= length (General_elev_angle_map_ c))%nat /\
  (n <= length (General_horizatal_azimuth_offset_map_ c))%nat /\
  (n <= length (m_sin_elevation_map_ c))%nat /\ (n <= length (m_cos_elevation_map_ c))%nat.

Lemma load_lasers_loaded elevs azimuths c (m i : nat) :
  (i + m)%nat = length elevs -> length azimuths = length elevs -> (length elevs <= 64)%nat ->
  holds (length elevs) c ->
  load_lasers (E := E) sinf cosf (columns elevs azimuths (length elevs)) m (Z.of_nat i)
    (loaded elevs azimuths c i) = Ret (loaded elevs azimuths c (length elevs)).
Proof.
  intros Hm Hla Hk (H1 & H2 & H3 & H4). revert i Hm.
  induction m as [|m IH]; intros i Hm.
  { rewrite <- Hm, Nat.add_0_r. done. }
  destruct (lookup_lt_is_Some_2 elevs i) as [v Hv]; [lia|].
  destruct (lookup_lt_is_Some_2 azimuths i) as [w Hw]; [lia|].
  assert (forall l x, l !! i = Some x -> length l = length elevs ->
    arr_value (E := E) (fill Some l (replicate 64 None) (length elevs)) (Z.of_nat i) = Ret x) as Hcol.
  { intros l x Hx Hl. apply assigned_value_Ret; [|lia]. rewrite Nat2Z.id. unfold fill.
    rewrite lookup_app_l by (rewrite length_fmap, length_take; lia).
    rewrite list_lookup_fmap, lookup_take_lt, Hx by lia. done. }
  cbn [load_lasers]. unfold load_laser, columns. cbn [elev_angle azimuthOffset loaded
    General_elev_angle_map_ General_horizatal_azimuth_offset_map_ m_sin_elevation_map_
    m_cos_elevation_map_ laserXTOffset_ blockXTOffsetSingle_ blockXTOffsetDual_
    blockXTOffsetTriple_].
  rewrite (Hcol elevs v) by done. cbn [mbind outcome_bind].
  rewrite (arr_set_fill (Some ∘ f_of_d) elevs _ i v) by (done || lia). cbn [mbind outcome_bind].
  rewrite (arr_set_fill (sin_elevation sinf ∘ f_of_d) elevs _ i v) by (done || lia).
  cbn [mbind outcome_bind].
  rewrite (arr_set_fill (cos_elevation cosf ∘ f_of_d) elevs _ i v) by (done || lia).
  cbn [mbind outcome_bind]. rewrite (Hcol azimuths w) by done. cbn [mbind outcome_bind].
  rewrite (arr_set_fill (Some ∘ f_of_d) azimuths _ i w) by (done || lia).
  cbn [mbind outcome_bind]. rewrite <- (IH (S i)) by lia.
  replace (Z.of_nat (S i)) with (Z.of_nat i + 1) by lia. reflexivity.
Qed.
End load_facts.

Lemma length_resize n v : 0 <= n -> length (resize n v) = Z.to_nat n.
Proof. intros Hn. unfold resize. rewrite length_app, length_take, length_replicate. lia. Qed.

Lemma load_lasers_app {E} sinf cosf cols (n m : nat) i c :
  load_lasers (E := E) sinf cosf cols (n + m) i c =
  (c ← load_lasers sinf cosf cols n i c; load_lasers sinf cosf cols m (i + Z.of_nat n) c).
Proof.
  revert i c. induction n as [|n IH]; intros i c.
  { cbn [plus load_lasers mbind outcome_bind]. by rewrite Z.add_0_r. }
  cbn [plus load_lasers]. destruct (load_laser sinf cosf cols i c); cbn [mbind outcome_bind];
    [|done|done].
  rewrite IH. by replace (i + 1 + Z.of_nat n) with (i + Z.of_nat (S n)) by lia.
Qed.

Lemma loaded_init_lasers sinf cosf elevs azimuths c :
  length azimuths = length elevs ->
  length (m_sin_elevation_map_ c) = length elevs -> length (m_cos_elevation_map_ c) = length elevs ->
  loaded sinf cosf elevs azimuths c (length elevs) =
  init_lasers sinf cosf (f_of_d <$> elevs) (f_of_d <$> azimuths) c.
Proof.
  intros Hla Hs Hc. unfold loaded, init_lasers, set_prefix. f_equal.
  - unfold fill. by rewrite firstn_all, length_fmap, list_fmap_compose.
  - unfold fill. by rewrite <- Hla, firstn_all, length_fmap, list_fmap_compose.
  - rewrite fill_full by done. apply list_fmap_compose.
  - rewrite fill_full by done. apply list_fmap_compose.
Qed.

Lemma length_file_lines id rows : (length rows <= length (file_lines id rows))%nat.
Proof.
  revert id. induction rows as [|[e a] rows IH]; intros id; cbn [file_lines]; [done|].
  rewrite length_app. cbn [length]. specialize (IH (id + 1)). lia.
Qed.

Section load_file.
Context {E : Type} (sinf cosf : float -> float) (header : list Z).
Context (rows : list (list Z * list Z)) (elevs azimuths : list float).
Context (Hheader : newline ∉ header) (Hrows : (length rows <= 64)%nat).
Context (He : Forall2 (fun row v => field row.1 v) rows elevs).
Context (Ha : Forall2 (fun row v => field row.2 v) rows azimuths).

(** The lines of a file up to the rows. *)
Lemma load_prefix rest :
  exists fuel line',
    (let '(_, line, ifs) := getline newline []
       (stream (header ++ newline :: file_lines 1 rows ++ rest)) in
     load_lines (E := E)
       (S (length (header ++ newline :: file_lines 1 rows ++ rest))) line ifs 0 blank_columns) =
    load_lines (S fuel) line' (stream rest) (Z.of_nat (length rows))
      (columns elevs azimuths (length rows)).
Proof.
  rewrite getline_found by done.
  assert (S (length (header ++ newline :: file_lines 1 rows ++ rest)) =
    length rows + S (S (length header) +
      (length (file_lines 1 rows) - length rows) + length rest))%nat as ->.
  { rewrite length_app. cbn [length]. rewrite length_app.
    pose proof (length_file_lines 1 rows). lia. }
  pose proof (Forall2_length _ _ _ He). pose proof (Forall2_length _ _ _ Ha).
  destruct (load_lines_rows (E := E) rows rest elevs azimuths
    (S (S (length header) + (length (file_lines 1 rows) - length rows) + length rest)) header 0)
    as [line' Hl]; [by rewrite drop_0..|lia|lia|lia|].
  exists (S (length header) + (length (file_lines 1 rows) - length rows) + length rest)%nat, line'.
  exact Hl.
Qed.

Lemma load_file_spec c :
  (length rows <= length (General_elev_angle_map_ c))%nat ->
  (length rows <= length (General_horizatal_azimuth_offset_map_ c))%nat ->
  LoadCorrectionFile (E := E) sinf cosf (header ++ newline :: file_lines 1 rows) c =
  Ret (0, init_lasers sinf cosf (f_of_d <$> elevs) (f_of_d <$> azimuths) c).
Proof.
  intros H1 H2. pose proof (Forall2_length _ _ _ He) as Hle.
  pose proof (Forall2_length _ _ _ Ha) as Hla.
  unfold LoadCorrectionFile. destruct (load_prefix []) as (fuel & line' & Hl).
  rewrite app_nil_r in Hl. destruct (getline _ _ _) as [[? line] ifs]. rewrite Hl.
  cbn [load_lines getline stream eofbit unread take_line]. cbn [mbind outcome_bind negb].
  rewrite bool_decide_eq_false_2 by (intros Hn; by apply Hn). cbn [negb mbind outcome_bind].
  rewrite Nat2Z.id. set (c' := resize_maps (Z.of_nat (length rows)) c).
  assert (holds (length elevs) c') as Hc'.
  { unfold holds. cbn [c' resize_maps General_elev_angle_map_ m_sin_elevation_map_
      General_horizatal_azimuth_offset_map_ m_cos_elevation_map_].
    rewrite !length_resize by lia. lia. }
  pose proof (load_lasers_loaded (E := E) sinf cosf elevs azimuths c' (length elevs) 0
    ltac:(lia) ltac:(lia) ltac:(lia) Hc') as Hload.
  rewrite Hle. change (Z.of_nat 0) with 0 in Hload.
  replace (loaded sinf cosf elevs azimuths c' 0) with c' in Hload by (by destruct c').
  rewrite Hload. cbn [mbind outcome_bind]. do 2 f_equal.
  rewrite loaded_init_lasers; [done|lia|..];
    cbn [c' resize_maps m_sin_elevation_map_ m_cos_elevation_map_]; rewrite length_resize; lia.
Qed.

(** A counted line without its entry: the copying loop reads an element that was
    never written. *)
Lemma load_lasers_missing c :
  (length rows < length (General_elev_angle_map_ c))%nat ->
  (length rows < length (General_horizatal_azimuth_offset_map_ c))%nat ->
  load_lasers (E := E) sinf cosf (columns elevs azimuths (length rows)) (S (length rows)) 0
    (resize_maps (Z.of_nat (S (length rows))) c) = Undef.
Proof.
  intros H1 H2. pose proof (Forall2_length _ _ _ He) as Hle.
  pose proof (Forall2_length _ _ _ Ha) as Hla.
  set (c' := resize_maps (Z.of_nat (S (length rows))) c).
  assert (holds (length elevs) c') as Hc'.
  { unfold holds. cbn [c' resize_maps General_elev_angle_map_ m_sin_elevation_map_
      General_horizatal_azimuth_offset_map_ m_cos_elevation_map_].
    rewrite !length_resize by lia. lia. }
  pose proof (load_lasers_loaded (E := E) sinf cosf elevs azimuths c' (length elevs) 0
    ltac:(lia) ltac:(lia) ltac:(lia) Hc') as Hload.
  replace (loaded sinf cosf elevs azimuths c' 0) with c' in Hload by (by destruct c').
  rewrite <- Nat.add_1_r, load_lasers_app, Hle. change (Z.of_nat 0) with 0 in Hload.
  rewrite Hload. cbn [mbind outcome_bind load_lasers].
  unfold load_laser, columns. cbn [elev_angle].
  assert (arr_value (E := E) (fill Some elevs (replicate 64 None) (length elevs))
    (0 + Z.of_nat (length elevs)) = Undef) as ->; [|done].
  unfold arr_value, arr_get. rewrite decide_True by lia.
  unfold fill. rewrite lookup_app_r by (rewrite length_fmap, length_take; lia).
  rewrite length_fmap, firstn_all, lookup_drop.
  destruct (_ !! _) as [o|] eqn:Ho; [|done]. by apply lookup_replicate in Ho as [-> _].
Qed.

(** Lines with the wrong number, or past the 64th. *)
Lemma load_file_bad_line bad rest c :
  newline ∉ bad -> 5 <= zlen bad ->
  length rows = 64%nat \/ (scan_line bad).1.1 <> Z.of_nat (length rows) + 1 ->
  (length rows < length (General_elev_angle_map_ c))%nat ->
  (length rows < length (General_horizatal_azimuth_offset_map_ c))%nat ->
  LoadCorrectionFile (E := E) sinf cosf
    (header ++ newline :: file_lines 1 rows ++ bad ++ newline :: rest) c = Undef.
Proof.
  intros Hn Hlen Hbad H1 H2. unfold LoadCorrectionFile.
  destruct (load_prefix (bad ++ newline :: rest)) as (fuel & line' & Hl).
  destruct (getline _ _ (stream (header ++ _))) as [[? line] ifs]. rewrite Hl. clear Hl.
  cbn [load_lines]. rewrite getline_found by done. cbn [negb].
  destruct (Z.ltb_spec (zlen bad) 5); [lia|].
  destruct (scan_line bad) as [[id e] a]. cbn [fst] in Hbad.
  destruct (Z.eqb_spec id (Z.of_nat (length rows) + 1)) as [->|Hne]; cbn [negb].
  - destruct Hbad as [Hbad|]; [|done].
    assert (forall x, arr_set (E := E) (elev_angle (columns elevs azimuths (length rows)))
      (Z.of_nat (length rows) + 1 - 1) x = Undef) as Hset.
    { intros x. unfold arr_set. rewrite decide_False; [done|]. cbn [columns elev_angle]. unfold fill.
      rewrite length_app, length_fmap, length_take, length_drop, length_replicate.
      pose proof (Forall2_length _ _ _ He). lia. }
    by rewrite Hset.
  - cbn [mbind outcome_bind].
    replace (Z.of_nat (length rows) + 1) with (Z.of_nat (S (length rows))) by lia.
    rewrite Nat2Z.id, load_lasers_missing by done. done.
Qed.
End load_file.

(** C37: a correction file whose lines carry the numbers 1, 2, ... and two
    numeric fields, at most 64 of them, replaces the calibration exactly as
    [Init] would from tables holding the file's values; whatever the header line
    says. *)
Theorem load_correction_rows {E} (sinf cosf : float -> float) (header : list Z)
    (rows : list (list Z * list Z)) (elevs azimuths : list float) (c : Calibration)
    (Hheader : newline ∉ header) (Hrows : (length rows <= 64)%nat)
    (He : Forall2 (fun row v => field row.1 v) rows elevs)
    (Ha : Forall2 (fun row v => field row.2 v) rows azimuths)
    (Hc1 : (length rows <= length (General_elev_angle_map_ c))%nat)
    (Hc2 : (length rows <= length (General_horizatal_azimuth_offset_map_ c))%nat) :
  LoadCorrectionFile (E := E) sinf cosf (header ++ newline :: file_lines 1 rows) c =
  Ret (0, init_lasers sinf cosf (f_of_d <$> elevs) (f_of_d <$> azimuths) c).
Proof. by apply load_file_spec. Qed.

Lemma load_correction_rows_witness :
  m_sin_elevation_map_ <$> (snd <$> LoadCorrectionFile (E := unit) id id
    (str "id,el,az" ++ newline :: file_lines 1 [(str " -7.5", str "0.25")])
    (Init id id "PandarXT-16")) =
  Ret [sin_elevation id (f_lit (-75) 10)].
Proof.
  rewrite (load_correction_rows id id (str "id,el,az") [(str " -7.5", str "0.25")]
    [d_lit (-75) 10] [d_lit 25 100]).
  - vm_compute. reflexivity.
  - apply (bool_decide_unpack _). vm_compute. exact I.
  - vm_compute. lia.
  - constructor; [|constructor]. split_and!; [discriminate| | |vm_compute; reflexivity];
      apply (bool_decide_unpack _); vm_compute; exact I.
  - constructor; [|constructor]. split_and!; [discriminate| | |vm_compute; reflexivity];
      apply (bool_decide_unpack _); vm_compute; exact I.
  - apply (bool_decide_unpack _). vm_compute. exact I.
  - apply (bool_decide_unpack _). vm_compute. exact I.
Defined.

(** [LoadCorrectionFile] neither bounds the number of lines nor rejects a
    line with the wrong number: after any well-formed lines, a line that does
    not continue the numbering, or a 65th line, makes it use array elements that
    do not exist or were never written. *)
Theorem load_correction_faults {E} (sinf cosf : float -> float) (header : list Z)
    (rows : list (list Z * list Z)) (elevs azimuths : list float) (bad rest : list Z)
    (c : Calibration)
    (Hheader : newline ∉ header) (Hrows : (length rows <= 64)%nat)
    (He : Forall2 (fun row v => field row.1 v) rows elevs)
    (Ha : Forall2 (fun row v => field row.2 v) rows azimuths)
    (Hbad : newline ∉ bad) (Hlen : 5 <= zlen bad)
    (Hid : length rows = 64%nat \/ (scan_line bad).1.1 <> Z.of_nat (length rows) + 1)
    (Hc1 : (length rows < length (General_elev_angle_map_ c))%nat)
    (Hc2 : (length rows < length (General_horizatal_azimuth_offset_map_ c))%nat) :
  LoadCorrectionFile (E := E) sinf cosf
    (header ++ newline :: file_lines 1 rows ++ bad ++ newline :: rest) c = Undef.
Proof. by eapply load_file_bad_line. Qed.

Lemma load_correction_faults_witness :
  LoadCorrectionFile (E := unit) id id (str "Laser id" ++ newline :: str "2,1.5,0" ++ [newline])
    (Init id id "PandarXT-16") = Undef.
Proof.
  apply (load_correction_faults id id (str "Laser id") [] [] [] (str "2,1.5,0") []).
  - apply (bool_decide_unpack _). vm_compute. exact I.
  - apply (bool_decide_unpack _). vm_compute. exact I.
  - constructor.
  - constructor.
  - apply (bool_decide_unpack _). vm_compute. exact I.
  - vm_compute. discriminate.
  - right. vm_compute. discriminate.
  - apply (bool_decide_unpack _). vm_compute. exact I.
  - apply (bool_decide_unpack _). vm_compute. exact I.
Defined.

(** ** What [SaveCorrectionFile] writes *)

(** A value as it is read back: to six digits. *)
Definition reread (x : float) : float := f_of_d (default (S754_zero false) (scan_double (format_float x))).

(** A text without separators or blanks. *)
Definition printed (l : list Z) : Prop := Forall (fun b => 43 <= b /\ b <> comma) l.

#[local] Ltac solve_printed := split; [vm_compute; discriminate|discriminate].

Lemma printed_digits w n : printed (dec_digits w n).
Proof.
  revert n. induction w as [|w IH]; intros n; cbn [dec_digits]; [constructor|].
  apply Forall_app_2; [apply IH|]. constructor; [|constructor].
  pose proof (Z.mod_pos_bound n 10 ltac:(lia)). unfold comma. lia.
Qed.

Lemma length_dec_digits w n : length (dec_digits w n) = w.
Proof.
  revert n. induction w as [|w IH]; intros n; cbn [dec_digits]; [done|].
  rewrite length_app, IH. cbn [length]. lia.
Qed.

Lemma drop_zeros_suffix ds : exists l, ds = l ++ drop_zeros ds.
Proof.
  induction ds as [|d ds [l IH]]; [by exists []|]. cbn [drop_zeros].
  destruct (decide (d = 48)) as [->|Hd].
  - exists (48 :: l). cbn [app]. by rewrite <- IH.
  - exists []. repeat (case_match; try done).
Qed.

Lemma fraction_text ds : printed ds -> printed (fraction ds) /\ (length (fraction ds) <= S (length ds))%nat.
Proof.
  intros Hds. unfold fraction. destruct (drop_zeros_suffix (reverse ds)) as [l Hl].
  destruct (drop_zeros (reverse ds)) as [|d rest]; [split; [constructor|cbn; lia]|].
  assert (printed (d :: rest) /\ (length (d :: rest) <= length ds)%nat) as [H1 H2].
  { split.
    - assert (printed (reverse ds)) as Hr by by apply Forall_reverse.
      rewrite Hl in Hr. by apply Forall_app in Hr as [_ Hr].
    - apply (f_equal length) in Hl. rewrite length_reverse, length_app in Hl. lia. }
  split; [|cbn [length]; rewrite length_reverse; cbn [length] in *; lia].
  constructor; [solve_printed|]. by apply Forall_reverse.
Qed.

Lemma pretty_char_printed n : printed (str (String (pretty_N_char n) "")).
Proof. unfold pretty_N_char. repeat case_match; (constructor; [solve_printed|constructor]). Qed.

(** The digits of a number, the most significant first. *)
Lemma pretty_go_text (w : nat) (x : N) (s : string) :
  (x < 10 ^ N.of_nat w)%N -> printed (str s) ->
  printed (str (pretty_N_go x s)) /\
  (length (str s) <= length (str (pretty_N_go x s)) <= w + length (str s))%nat.
Proof.
  revert x s. induction w as [|w IH]; intros x s Hx Hs.
  { assert (x = 0%N) as -> by (cbn in Hx; lia). rewrite pretty_N_go_0. split; [done|lia]. }
  destruct (decide (x = 0%N)) as [->|Hne]; [rewrite pretty_N_go_0; split; [done|lia]|].
  rewrite pretty_N_go_step by lia. set (s' := String (pretty_N_char (x `mod` 10)) s).
  assert (str s' = str (String (pretty_N_char (x `mod` 10)) "") ++ str s) as Hc by done.
  destruct (IH (x `div` 10)%N s') as [H1 H2].
  - rewrite Nat2N.inj_succ, N.pow_succ_r' in Hx. apply N.Div0.div_lt_upper_bound. lia.
  - rewrite Hc. apply Forall_app_2; [apply pretty_char_printed|done].
  - split; [done|]. rewrite Hc, length_app in H2. change (length (str (String _ ""))) with 1%nat in H2. lia.
Qed.

Lemma pretty_text (w : nat) (z : Z) :
  0 <= z < 10 ^ Z.of_nat w -> (0 < w)%nat ->
  printed (str (pretty z)) /\ str (pretty z) <> [] /\ (length (str (pretty z)) <= w)%nat.
Proof.
  intros Hz Hw. destruct z as [|x|x]; [|clear Hw|lia].
  { split; [constructor; [solve_printed|constructor]|]. split; [discriminate|cbn; lia]. }
  change (pretty (Zpos x)) with (pretty (Npos x)). unfold pretty, pretty_N.
  rewrite decide_False by done. rewrite pretty_N_go_step by lia.
  destruct w as [|w]; [cbn in Hz; lia|].
  destruct (pretty_go_text w (Npos x `div` 10) (String (pretty_N_char (Npos x `mod` 10)) ""))
    as [H1 H2]; [|apply pretty_char_printed|].
  - apply N.Div0.div_lt_upper_bound. rewrite <- N.pow_succ_r'. 
    apply N2Z.inj_lt. rewrite N2Z.inj_pow, N2Z.inj_succ, nat_N_Z. cbn [Z.of_N].
    rewrite Nat2Z.inj_succ in Hz. lia.
  - change (length (str (String _ ""))) with 1%nat in H2. split; [done|].
    split; [|lia]. intros Hnil. rewrite Hnil in H2. cbn in H2. lia.
Qed.

(** The scaled value [format_float] rounds has at most six digits. *)
Lemma round_half_even_bound n d b : 0 <= n -> 0 < d -> n < d * b -> 0 <= round_half_even n d <= b.
Proof.
  intros Hn Hd Hb. unfold round_half_even.
  assert (0 <= n / d < b) by (split; [by apply Z.div_pos|by apply Z.div_lt_upper_bound]).
  repeat case_match; lia.
Qed.

Lemma scaled_bound n d k :
  0 <= n -> 0 < d -> ~ reaches n d (k + 1) ->
  0 <= (if 0 <=? 5 - k then round_half_even (n * 10 ^ (5 - k)) d
        else round_half_even n (d * 10 ^ (k - 5))) <= 10 ^ 6.
Proof.
  intros Hn Hd Hk. unfold reaches in Hk. destruct (Z.leb_spec 0 (5 - k)).
  - apply round_half_even_bound; [pose proof (Z.pow_nonneg 10 (5 - k)); lia|done|].
    destruct (decide (0 <= k + 1)).
    + rewrite Z.max_r, Z.max_l in Hk by lia. 
      replace 6 with ((k + 1) + (5 - k)) by lia. rewrite Z.pow_add_r by lia.
      pose proof (Z.pow_pos_nonneg 10 (5 - k) ltac:(lia) ltac:(lia)). nia.
    + rewrite Z.max_l, Z.max_r in Hk by lia.
      replace (5 - k) with (- (k + 1) + 6) by lia. rewrite Z.pow_add_r by lia. lia.
  - pose proof (Z.pow_pos_nonneg 10 (k - 5) ltac:(lia) ltac:(lia)).
    apply round_half_even_bound; [lia|lia|].
    rewrite Z.max_r, Z.max_l in Hk by lia. rewrite <- Z.mul_assoc, <- Z.pow_add_r by lia.
    replace (k - 5 + 6) with (k + 1) by lia. lia.
Qed.

(** The exact value of a [float] as a fraction. *)
Lemma float_ratio m e :
  valid_binary 24 128 (S754_finite false m e) = true ->
  let '(n, d) := if 0 <=? e then (Zpos m * 2 ^ e, 1) else (Zpos m, 2 ^ (- e)) in
  0 < n /\ 0 < d /\ d <= n * 2 ^ 149 /\ n < d * 2 ^ 128.
Proof.
  intros Hv. cbn [valid_binary] in Hv. apply (bounded_canon 24 128 ltac:(lia)) in Hv.
  destruct Hv as (He & Hm & _). change (emin 24 128) with (-149) in He.
  change (128 - 24) with 104 in He.
  destruct (Z.leb_spec 0 e).
  - assert (1 <= 2 ^ e <= 2 ^ 104) by (split; [by apply (Z.pow_le_mono_r 2 0)|apply Z.pow_le_mono_r; lia]).
    assert (2 ^ 24 * 2 ^ 104 = 1 * 2 ^ 128) by reflexivity. nia.
  - assert (1 <= 2 ^ (- e) <= 2 ^ 149)
      by (split; [apply (Z.pow_le_mono_r 2 0); lia|apply Z.pow_le_mono_r; lia]).
    assert (2 ^ 24 < 2 ^ 128) by reflexivity. nia.
Qed.

Lemma format_float_text x :
  valid_binary 24 128 x = true ->
  printed (format_float x) /\ format_float x <> [] /\ (length (format_float x) <= 20)%nat.
Proof.
  assert (forall b : bool, printed (if b then [45] else []) /\ (length (if b then [45%Z] else []) <= 1)%nat) as Hsign.
  { intros []; (split; [|cbn; lia]); [constructor; [solve_printed|]|]; constructor. }
  destruct x as [b|b| |b m e]; intros Hv; unfold format_float.
  - destruct b; (split; [|split; [discriminate|cbn; lia]]);
      repeat (constructor; [solve_printed|]); constructor.
  - destruct b; (split; [|split; [discriminate|cbn; lia]]);
      repeat (constructor; [solve_printed|]); constructor.
  - split; [|split; [discriminate|cbn; lia]].
    repeat (constructor; [solve_printed|]); constructor.
  - pose proof (float_ratio m e Hv) as Hr.
    destruct (if 0 <=? e then _ else _) as [n d]. destruct Hr as (Hn & Hd & Hlo & Hhi).
    destruct (log10_ratio_float n d Hd Hlo Hhi) as [_ Hk]. set (k := log10_ratio 90 (-46) n d) in *.
    pose proof (scaled_bound n d k ltac:(lia) Hd Hk) as Hq.
    set (q := if 0 <=? 5 - k then _ else _) in *. clearbody q k. clear Hk Hlo Hhi Hv.
    assert (exists k1 q1, (if q =? 10 ^ 6 then (k + 1, 10 ^ 5) else (k, q)) = (k1, q1) /\
      0 <= q1 < 10 ^ 6) as (k1 & q1 & -> & Hq1).
    { destruct (Z.eqb_spec q (10 ^ 6)); eexists _, _; (split; [reflexivity|lia]). }
    destruct (Hsign b) as [Hb Hb'].
    match goal with |- context [_ ++ ?l] => set (body := l) end.
    assert (printed body /\ body <> [] /\ (length body <= 19)%nat) as (H1 & H2 & H3).
    { subst body. destruct ((k1 <? -4) || (6 <=? k1)) eqn:Hx.
      - destruct (fraction_text _ (printed_digits 5 q1)) as [Hf Hfl]. rewrite length_dec_digits in Hfl.
        assert (0 <= q1 / 10 ^ 5) by (apply Z.div_pos; lia). split; [|split; [done|]].
        + constructor; [unfold comma; lia|]. apply Forall_app_2; [done|].
          constructor; [solve_printed|].
          constructor; [destruct (k1 <? 0); solve_printed|apply printed_digits].
        + cbn [length]. rewrite length_app. cbn [length]. rewrite length_dec_digits. lia.
      - apply orb_false_iff in Hx as [Hx1%Z.ltb_ge Hx2%Z.leb_gt].
        destruct (fraction_text _ (printed_digits (Z.to_nat (5 - k1)) q1)) as [Hf Hfl].
        rewrite length_dec_digits in Hfl.
        assert (1 <= 10 ^ (5 - k1)) by (apply (Z.pow_le_mono_r 10 0); lia).
        destruct (pretty_text 6 (q1 / 10 ^ (5 - k1))) as (Hp & Hne & Hl); [|lia|].
        { split; [apply Z.div_pos; lia|]. change (Z.of_nat 6) with 6.
          apply Z.div_lt_upper_bound; [lia|]. nia. }
        split; [by apply Forall_app_2|]. split.
        + by intros [? _]%app_eq_nil.
        + rewrite length_app. lia. }
    split; [by apply Forall_app_2|]. split; [by intros [_ ?]%app_eq_nil|]. rewrite length_app.
    lia.
Qed.

(** Every value of type [float] is written as a field. *)
Lemma format_float_field x :
  valid_binary 24 128 x = true -> exists v, field (format_float x) v /\ f_of_d v = reread x.
Proof.
  intros Hv. destruct (format_float_text x Hv) as (Hp & Hne & _). unfold reread, field.
  assert ((comma ∉ format_float x) /\ (newline ∉ format_float x)) as [Hc Hn].
  { unfold printed in Hp. rewrite Forall_forall in Hp.
    split; intros Hin; apply Hp in Hin as [? ?]; [done|unfold newline in *; lia]. }
  assert (exists v, scan_double (format_float x) = Some v) as [v Hs].
  { destruct (format_float x) as [|b l]; [done|]. apply Forall_cons in Hp as [[Hb _] _].
    unfold scan_double. cbn [skip_spaces].
    assert (is_space b = false) as -> by (unfold is_space; lia).
    destruct (take_sign (b :: l)) as [neg s1]. destruct (take_digits s1) as [whole s2].
    destruct (match s2 with 46 :: s => take_digits s | _ => ([], s2) end) as [frac s3].
    destruct (match s3 with 69 :: s | 101 :: s => _ | _ => _ end); [|by eexists].
    destruct (bool_decide _); by eexists. }
  exists v. rewrite Hs. by split_and!.
Qed.

(** The rows of the saved file. *)
Definition saved_rows (elevs azimuths : list float) : list (list Z * list Z) :=
  zip_with (fun elev azimuth => (format_float elev, format_float azimuth)) elevs azimuths.

Lemma save_lines_rows {E} c elevs azimuths (i : nat) :
  length azimuths = length elevs ->
  (forall j v, elevs !! j = Some v -> General_elev_angle_map_ c !! (i + j)%nat = Some (Some v)) ->
  (forall j v, azimuths !! j = Some v ->
     General_horizatal_azimuth_offset_map_ c !! (i + j)%nat = Some (Some v)) ->
  save_lines (E := E) c (length elevs) (Z.of_nat i) =
    Ret (file_lines (Z.of_nat i + 1) (saved_rows elevs azimuths)).
Proof.
  revert azimuths i. induction elevs as [|elev elevs IH]; intros [|azimuth azimuths] i Hl He Ha; try done.
  cbn [length save_lines saved_rows zip_with file_lines].
  pose proof (He 0%nat elev eq_refl) as He0. pose proof (Ha 0%nat azimuth eq_refl) as Ha0.
  rewrite Nat.add_0_r in He0, Ha0.
  rewrite (assigned_value_Ret (General_elev_angle_map_ c) (Z.of_nat i) elev); [|rewrite Nat2Z.id; exact He0|lia]. cbn [mbind outcome_bind].
  rewrite (assigned_value_Ret (General_horizatal_azimuth_offset_map_ c) (Z.of_nat i) azimuth);
    [|rewrite Nat2Z.id; exact Ha0|lia]. cbn [mbind outcome_bind].
  replace (Z.of_nat i + 1) with (Z.of_nat (S i)) by lia.
  rewrite (IH azimuths (S i)); [|by injection Hl| |].
  - cbn [mbind outcome_bind]. do 2 f_equal. 
  - intros j v Hj. rewrite Nat.add_succ_comm. by apply He.
  - intros j v Hj. rewrite Nat.add_succ_comm. by apply Ha.
Qed.

Lemma saved_rows_fields (f : list Z * list Z -> list Z) (l : list float) (elevs azimuths : list float) :
  length azimuths = length elevs ->
  (f = fst /\ l = elevs) \/ (f = snd /\ l = azimuths) ->
  Forall (fun x => valid_binary 24 128 x = true) (elevs ++ azimuths) ->
  exists vs, Forall2 (fun row v => field (f row) v) (saved_rows elevs azimuths) vs /\
    f_of_d <$> vs = reread <$> l.
Proof.
  intros Hl Hf Hv. revert azimuths l Hl Hf Hv.
  induction elevs as [|elev elevs IH]; intros [|azimuth azimuths] l Hl Hf Hv; try done.
  { exists []. split; [constructor|]. by destruct Hf as [[_ ->]|[_ ->]]. }
  cbn [app] in Hv. apply Forall_cons in Hv as [Hv1 Hv]. apply Forall_app in Hv as [Hve Hva].
  apply Forall_cons in Hva as [Hv2 Hva].
  destruct (format_float_field elev Hv1) as (v & Hfv & Hrv).
  destruct (format_float_field azimuth Hv2) as (w & Hfw & Hrw).
  destruct Hf as [[-> ->]|[-> ->]].
  - destruct (IH azimuths elevs) as (vs & Hvs & Hre); [by injection Hl|by left|by apply Forall_app_2|].
    exists (v :: vs). split; [by constructor|]. cbn [fmap list_fmap]. by rewrite Hrv, Hre.
  - destruct (IH azimuths azimuths) as (vs & Hvs & Hre); [by injection Hl|by right|by apply Forall_app_2|].
    exists (w :: vs). split; [by constructor|]. cbn [fmap list_fmap]. by rewrite Hrw, Hre.
Qed.

Lemma length_saved_rows elevs azimuths :
  length azimuths = length elevs -> length (saved_rows elevs azimuths) = length elevs.
Proof. intros Hl. unfold saved_rows. rewrite length_zip_with. lia. Qed.

(** The file is short. *)
Lemma saved_file_short elevs azimuths (i : nat) :
  Forall (fun x => valid_binary 24 128 x = true) (elevs ++ azimuths) ->
  length azimuths = length elevs -> (i + length elevs <= 64)%nat ->
  (length (file_lines (Z.of_nat i + 1) (saved_rows elevs azimuths)) <= 45 * length elevs)%nat.
Proof.
  revert azimuths i. induction elevs as [|elev elevs IH]; intros [|azimuth azimuths] i Hv Hl Hi; try done.
  cbn [app] in Hv. apply Forall_cons in Hv as [Hv1 Hv]. apply Forall_app in Hv as [Hve Hva].
  apply Forall_cons in Hva as [Hv2 Hva]. cbn [length] in *.
  destruct (format_float_text elev Hv1) as (_ & _ & H1).
  destruct (format_float_text azimuth Hv2) as (_ & _ & H2).
  destruct (pretty_text 2 (Z.of_nat i + 1)) as (_ & _ & H3); [cbn; lia|lia|].
  cbn [saved_rows zip_with file_lines]. unfold correction_line.
  rewrite !length_app. cbn [length]. rewrite length_app. cbn [length].
  pose proof (IH azimuths (S i) ltac:(by apply Forall_app_2) ltac:(lia) ltac:(lia)) as Hrec.
  replace (Z.of_nat (S i) + 1) with (Z.of_nat i + 1 + 1) in Hrec by lia.
  fold (saved_rows elevs azimuths). lia.
Qed.

(** The length in network order. *)
Lemma length_bytes z :
  reverse (le_split 4 z) = [Z.land (Z.shiftr z 24) 0xff; Z.land (Z.shiftr z 16) 0xff;
                            Z.land (Z.shiftr z 8) 0xff; Z.land z 0xff].
Proof.
  change 0xff with (Z.ones 8). rewrite !Z.land_ones, !Z.shiftr_div_pow2 by lia.
  cbn [le_split]. rewrite !Z.div_div by lia. reflexivity.
Qed.

(** C38: whatever calibration is loaded, the correction packet that
    [SaveCorrectionFile] adds to a recorded scan carries, behind its length, a text
    from which any calibration with room is set as [Init] would set it, each
    elevation and azimuth offset being the saved one as it is read back from its
    six digits ([reread]); where these determine it, as in all the built-in
    tables, the saved value itself comes back. The values are [float]s, of at
    most 64 lasers. *)
Theorem correction_save_load {E} (sinf cosf : float -> float) (c c' : Calibration)
    (elevs azimuths : list float)
    (Hn : (length elevs <= 64)%nat) (Hl : length azimuths = length elevs)
    (Hv : Forall (fun x => valid_binary 24 128 x = true) (elevs ++ azimuths))
    (He : take (length elevs) (General_elev_angle_map_ c) = Some <$> elevs)
    (Ha : take (length azimuths) (General_horizatal_azimuth_offset_map_ c) = Some <$> azimuths)
    (Hc1 : (length elevs <= length (General_elev_angle_map_ c'))%nat)
    (Hc2 : (length elevs <= length (General_horizatal_azimuth_offset_map_ c'))%nat) :
  exists msg, SaveCorrectionFile (E := E) c (Z.of_nat (length elevs)) = Ret msg /\
    take 8 (data msg) = [0x47; 0x74; 5; 0] ++ reverse (le_split 4 (size msg)) /\
    zlen (drop 8 (data msg)) = size msg /\
    LoadCorrectionFile (E := E) sinf cosf (drop 8 (data msg)) c' =
      Ret (0, init_lasers sinf cosf (reread <$> elevs) (reread <$> azimuths) c') /\
    (Forall (fun x => reread x = x) (elevs ++ azimuths) ->
     LoadCorrectionFile (E := E) sinf cosf (drop 8 (data msg)) c' =
       Ret (0, init_lasers sinf cosf elevs azimuths c')).
Proof.
  assert (forall (l : list float) (m : list (option float)) (j : nat) v, take (length l) m = Some <$> l ->
    l !! j = Some v -> m !! j = Some (Some v)) as Hget.
  { intros l m j v Hm Hj. pose proof (lookup_lt_Some _ _ _ Hj).
    rewrite <- (lookup_take_lt m (length l)), Hm by done. by rewrite list_lookup_fmap, Hj. }
  pose proof (save_lines_rows (E := E) c elevs azimuths 0 Hl (fun j v => Hget _ _ j v He)
    (fun j v => Hget _ _ j v Ha)) as Hsave. change (Z.of_nat 0 + 1) with 1 in Hsave.
  change (Z.of_nat 0) with 0 in Hsave.
  pose proof (saved_file_short elevs azimuths 0 Hv Hl ltac:(lia)) as Hshort.
  change (Z.of_nat 0 + 1) with 1 in Hshort.
  set (content := correction_header ++ newline :: file_lines 1 (saved_rows elevs azimuths)).
  assert (0 <= zlen content < 2 ^ 31) as Hsize.
  { subst content. rewrite length_app. change (length correction_header) with 26%nat. cbn [length]. lia. }
  assert (LoadCorrectionFile (E := E) sinf cosf content c' =
    Ret (0, init_lasers sinf cosf (reread <$> elevs) (reread <$> azimuths) c')) as Hload.
  { destruct (saved_rows_fields fst elevs elevs azimuths Hl ltac:(by left) Hv) as (es & Hes & Hre).
    destruct (saved_rows_fields snd azimuths elevs azimuths Hl ltac:(by right) Hv) as (azs & Has & Hra).
    rewrite <- Hre, <- Hra. subst content. apply load_file_spec; rewrite ?length_saved_rows by done; try done.
    apply (bool_decide_unpack _). vm_compute. exact I. }
  unfold SaveCorrectionFile. rewrite Nat2Z.id, Hsave. cbn [mbind outcome_bind]. fold content.
  rewrite (swrap_small 32), (uwrap_small 32) by lia.
  eexists. split; [reflexivity|]. cbn [data size]. split; [|split; [done|split; [done|]]].
  - cbn [app take]. by rewrite length_bytes.
  - intros Hre. apply Forall_app in Hre as [Hre Hra].
    assert (forall l, Forall (fun x => reread x = x) l -> reread <$> l = l) as Hmap.
    { induction 1 as [|x l Hx _ IH]; [done|]. cbn [fmap list_fmap]. by rewrite Hx, IH. }
    etransitivity; [exact Hload|]. by rewrite !Hmap.
Qed.

Lemma survive_fmap l : reread <$> l = l -> Forall (fun x => reread x = x) l.
Proof.
  induction l as [|x l IH]; [constructor|]. intros [= Hx Hl]. constructor; [done|by apply IH].
Qed.

(** The values of the built-in tables, and the packet of a type. *)
Definition values (n : nat) (map_ : list (option float)) : list float := omap id (take n map_).
Definition comes_back (t : string) (n : nat) : Prop :=
  exists msg, SaveCorrectionFile (E := unit) (Init id id t) (Z.of_nat n) = Ret msg /\
    zlen (drop 8 (data msg)) = size msg /\
    LoadCorrectionFile (E := unit) id id (drop 8 (data msg)) (Init id id t) = Ret (0, Init id id t).

Lemma correction_save_load_witness : Forall (fun '(t, n) => comes_back t n) lidar_types.
Proof.
  solve_Forall; unfold comes_back;
    match goal with |- context [SaveCorrectionFile (Init id id ?t) (Z.of_nat ?n)] =>
      pose (elevs := values n (General_elev_angle_map_ (Init id id t)));
      pose (azimuths := values n (General_horizatal_azimuth_offset_map_ (Init id id t)));
      destruct (correction_save_load (E := unit) id id (Init id id t) (Init id id t) elevs azimuths)
        as (msg & Hsave & _ & Hsize & _ & Hload);
        [vm_compute; lia|vm_compute; reflexivity|apply (bool_decide_unpack _); vm_compute; exact I
        |vm_compute; reflexivity|vm_compute; reflexivity|vm_compute; lia|vm_compute; lia|];
      exists msg; split; [exact Hsave|]; split; [exact Hsize|];
      rewrite Hload; [|apply survive_fmap; vm_compute; reflexivity];
      vm_compute; reflexivity
    end.
Defined.

(** A value with more digits does not come back. *)
Example reread_rounds :
  let x := f_lit 12345678 1000000 in
  format_float x = str "12.3457" /\ f32_bits (reread x) = f32_bits (f_lit 123457 10000) /\
  f32_bits (reread x) <> f32_bits x.
Proof. split_and!; [vm_compute; reflexivity|vm_compute; reflexivity|vm_compute; discriminate]. Qed.
