(* ===== verification/CalibrationFacts.v ===== *)
(** Which correction files keep the calibration usable.

    The azimuth offsets of a file go unchecked into the azimuth index of every
    point; those within [offset_limit] degrees keep it inside the tables. *)
From stdpp Require Import gmap.
From S2P Require Import Prelude Ieee IeeeRound IeeeInterval LidarTables PointCalc Correction.
#[local] Open Scope Z_scope.

(** What the offsets of a file may be, in degrees. The lasers of the PandarQT
    fire over the longest time, which leaves less. *)
Definition offset_limit (t : string) : Z := if bool_decide (t = "PandarQT"%string) then 6 else 20.

(** The part of [index_bounds_ok] about the firing time. *)
Definition firetime_ok (subtract : bool) (limit : Z) (delta : float) : bool :=
  let N := - (- (65535 * fval 24 128 delta) / 2 ^ 149) in
  let T := - (- (N * six_micro) / 2 ^ 70) in
  validb delta && (0 <=? fval 24 128 delta) && (N <? 2 ^ 24) && (0 <=? T) && (T <? 10000) &&
  (if subtract then (-36000 <=? - (100 * limit) - 100 * T)
   else 100 * limit + 65535 + 100 * T <? 72000).

Lemma index_bounds_within subtract limit general delta :
  fwithin (- limit) limit general -> 0 <= limit <= 50 -> firetime_ok subtract limit delta = true ->
  index_bounds_ok subtract general delta = true.
Proof.
  intros Hg Hlim.
  assert (fwithin (- (100)) 100 (f_of_Z 100)) as H100.
  { apply (within_mono 24 128 ltac:(lia) 100 100); [lia|lia|]. apply f_of_Z_within. lia. }
  destruct (within_mul_abs 24 128 ltac:(lia) limit 100 general (f_of_Z 100) Hg H100) as [Vg Hb];
    [unfold representable; lia|].
  fold (f_mul general (f_of_Z 100)) in Vg, Hb.
  change (2 ^ (- emin 24 128)) with (2 ^ 149) in Hb.
  assert (- (100 * limit) <= floor_val (f_mul general (f_of_Z 100))) as Hfl
    by (unfold floor_val; apply Z.div_le_lower_bound; lia).
  assert (ceil_val (f_mul general (f_of_Z 100)) <= 100 * limit) as Hce
    by (unfold ceil_val; apply Z.opp_le_mono; rewrite Z.opp_involutive;
        apply Z.div_le_lower_bound; lia).
  apply validb_valid in Vg. unfold firetime_ok, index_bounds_ok. rewrite !andb_true_iff, Vg.
  intros [[[[[-> ->] ->] ->] ->] Hd].
  assert ((-36000 <? floor_val (f_mul general (f_of_Z 100))) = true) as -> by lia.
  assert ((ceil_val (f_mul general (f_of_Z 100)) <? 36000) = true) as -> by lia.
  split_and!; try done. destruct subtract; [|lia].
  apply andb_true_iff. lia.
Qed.

Lemma assigned_prefix l a n :
  (n <= length l)%nat -> assigned (set_prefix l a) n = true.
Proof.
  intros Hn. unfold assigned, set_prefix. apply andb_true_iff. split.
  - apply Nat.leb_le. rewrite length_app, length_fmap. lia.
  - apply forallb_forall. intros v Hv. apply list_elem_of_In in Hv.
    rewrite take_app_le in Hv by (rewrite length_fmap; lia).
    apply elem_of_take in Hv as (i & Hi & _). rewrite list_lookup_fmap in Hi.
    destruct (l !! i); [|done]. injection Hi as <-. done.
Qed.

(** The firing times of every type leave room for the limit. *)
Lemma firetimes_ok (sinf cosf : float -> float) :
  forallb (fun '(t, n) => let f := firing t (Init sinf cosf t) in
    forallb (fun d => match d with
      | Some d => firetime_ok f.1 (offset_limit t) d
      | None => true
      end) (take n f.2)) lidar_types = true.
Proof. vm_compute. reflexivity. Qed.

Section load.
Context (sinf cosf : float -> float) (t : string) (n : nat) (Ht : (t, n) ∈ lidar_types).

(** Only the angles come from files: the rest is what [Init] left. *)
Record angles_only (c : Calibration) : Prop := {
  ao_laser : laserXTOffset_ c = laserXTOffset_ (Init sinf cosf t);
  ao_elev : length (General_elev_angle_map_ c) = Z.to_nat MAX_LASER_NUM;
  ao_azimuth : length (General_horizatal_azimuth_offset_map_ c) = Z.to_nat MAX_LASER_NUM;
}.

Lemma firing_same c : angles_only c -> firing t c = firing t (Init sinf cosf t).
Proof. intros [H _ _]. unfold firing. by rewrite H. Qed.

Lemma length_set_prefix l a :
  (length l <= length a)%nat -> length (set_prefix l a) = length a.
Proof. intros H. unfold set_prefix. rewrite length_app, length_fmap, length_drop. lia. Qed.

Lemma init_angles_only : angles_only (Init sinf cosf t).
Proof.
  assert (forallb (fun '(t, _) => let c := Init sinf cosf t in
    bool_decide (length (General_elev_angle_map_ c) = Z.to_nat MAX_LASER_NUM /\
      length (General_horizatal_azimuth_offset_map_ c) = Z.to_nat MAX_LASER_NUM)) lidar_types = true)
    as Hall by (vm_compute; reflexivity).
  rewrite forallb_forall in Hall. specialize (Hall _ (proj1 (list_elem_of_In _ _) Ht)).
  cbv beta iota zeta in Hall. apply bool_decide_eq_true_1 in Hall as [H1 H2]. by split.
Qed.

Lemma loaded_angles_only c elevs azimuths :
  angles_only c -> (length elevs <= 256)%nat -> (length azimuths <= 256)%nat ->
  angles_only (init_lasers sinf cosf elevs azimuths c).
Proof.
  intros [H1 H2 H3] He Ha. change (Z.to_nat MAX_LASER_NUM) with 256%nat in *.
  split; cbn; rewrite ?length_set_prefix by lia; done.
Qed.

Lemma loaded_bounded c elevs azimuths :
  angles_only c -> (n <= length azimuths)%nat ->
  Forall (fwithin (- offset_limit t) (offset_limit t)) azimuths ->
  lasers_bounded t n (init_lasers sinf cosf elevs azimuths c) = true.
Proof.
  intros Hc Hn Ha. unfold lasers_bounded. apply forallb_forall.
  intros [general delta] Hin. apply list_elem_of_In, list_elem_of_lookup in Hin as [i Hi].
  assert (firing t (init_lasers sinf cosf elevs azimuths c) = firing t (Init sinf cosf t)) as Hfire
    by exact (firing_same _ Hc).
  rewrite Hfire in *. rewrite lookup_zip_with in Hi.
  apply bind_Some in Hi as (g & Hg & Hi). apply bind_Some in Hi as (d & Hd & Hi).
  injection Hi as -> ->. pose proof Hd as Hd'.
  apply lookup_take_Some in Hg as [Hg Hin]. apply lookup_take_Some in Hd as [_ _].
  unfold init_lasers, set_prefix in Hg. cbn [General_horizatal_azimuth_offset_map_] in Hg.
  rewrite lookup_app_l, list_lookup_fmap in Hg by (rewrite length_fmap; lia).
  destruct (azimuths !! i) as [a|] eqn:Hai; [|done]. injection Hg as <-.
  destruct delta as [delta|]; [|done].
  apply (index_bounds_within _ (offset_limit t)).
  - exact (Forall_lookup_1 _ _ _ _ Ha Hai).
  - unfold offset_limit. by case_bool_decide.
  - pose proof (firetimes_ok sinf cosf) as Hall. rewrite forallb_forall in Hall.
    specialize (Hall _ (proj1 (list_elem_of_In _ _) Ht)). cbv beta iota zeta in Hall.
    rewrite forallb_forall in Hall. apply (Hall (Some delta)).
    apply list_elem_of_In, list_elem_of_lookup. by exists i.
Qed.

Lemma loaded_usable c elevs azimuths :
  usable t n c -> angles_only c -> (n <= length elevs)%nat -> (n <= length azimuths)%nat ->
  Forall (fwithin (- offset_limit t) (offset_limit t)) azimuths ->
  usable t n (init_lasers sinf cosf elevs azimuths c).
Proof.
  intros [] Hc He Ha Hw. split.
  - unfold init_lasers. cbn. by rewrite length_fmap.
  - unfold init_lasers. cbn. by rewrite length_fmap.
  - by apply assigned_prefix.
  - by apply assigned_prefix.
  - by apply loaded_bounded.
  - done.
  - done.
Qed.
End load.

Lemma good_file_usable {E} (sinf cosf : float -> float) (t : string) (n : nat)
    (header : list Z) (rows : list (list Z * list Z)) (elevs azimuths : list float)
    (c : Calibration) :
  (t, n) ∈ lidar_types -> newline ∉ header -> (n <= length rows <= 64)%nat ->
  Forall2 (fun row v => field row.1 v) rows elevs ->
  Forall2 (fun row v => field row.2 v) rows azimuths ->
  Forall (dwithin (- offset_limit t) (offset_limit t)) azimuths ->
  usable t n c -> angles_only sinf cosf t c ->
  exists c', LoadCorrectionFile (E := E) sinf cosf (header ++ newline :: file_lines 1 rows) c =
      Ret (0, c') /\ usable t n c' /\ angles_only sinf cosf t c'.
Proof.
  intros Ht Hheader Hrows He Ha Hlimit Hc Hao.
  pose proof (Forall2_length _ _ _ He) as Hle. pose proof (Forall2_length _ _ _ Ha) as Hla.
  pose proof (ao_elev _ _ _ _ Hao) as H1. pose proof (ao_azimuth _ _ _ _ Hao) as H2.
  change (Z.to_nat MAX_LASER_NUM) with 256%nat in H1, H2.
  eexists. split; [apply (load_file_spec sinf cosf header rows elevs azimuths); done || lia|].
  split.
  - apply loaded_usable; rewrite ?length_fmap; try done; try lia.
    apply Forall_fmap. eapply Forall_impl; [exact Hlimit|]. intros v Hv.
    assert (0 <= offset_limit t <= 20) by (unfold offset_limit; case_bool_decide; lia).
    apply f_of_d_within; [lia..|done].
  - apply loaded_angles_only; rewrite ?length_fmap; try done; lia.
Qed.

(** C26: every correction file with a line for each of the [n] lasers, numbered
    from 1, and at most 64 of them (the 65th overruns an array), whose azimuth offsets
    lie within 20 degrees (6 for the PandarQT), is loaded and leaves a calibration
    [usable] if it was: every laser has an elevation and an offset, and each offset,
    with the built-in firing time of its laser if that is assigned, is within what
    [azimuth_index_in_table] needs. Files can be loaded one after the other, starting
    from the tables of [Init]. *)
Theorem correction_file_usable {E} (sinf cosf : float -> float) (t : string) (n : nat)
    (header : list Z) (rows : list (list Z * list Z)) (elevs azimuths : list float)
    (c : Calibration)
    (Ht : (t, n) ∈ lidar_types) (Hheader : newline ∉ header) (Hrows : (n <= length rows <= 64)%nat)
    (He : Forall2 (fun row v => field row.1 v) rows elevs)
    (Ha : Forall2 (fun row v => field row.2 v) rows azimuths)
    (Hlimit : Forall (dwithin (- offset_limit t) (offset_limit t)) azimuths) :
  let load := LoadCorrectionFile (E := E) sinf cosf (header ++ newline :: file_lines 1 rows) in
  (usable t n (Init sinf cosf t) /\ angles_only sinf cosf t (Init sinf cosf t)) /\
  (usable t n c -> angles_only sinf cosf t c ->
   exists c', load c = Ret (0, c') /\ usable t n c' /\ angles_only sinf cosf t c').
Proof.
  intros load. split; [by eauto using init_usable, init_angles_only|]. intros Hc Hao.
  by apply (good_file_usable sinf cosf t n header rows elevs azimuths).
Qed.

(** A file for the PandarXT-16. *)
Lemma correction_file_usable_witness :
  exists c, LoadCorrectionFile (E := unit) id id
      (str "Channel,Elevation,Azimuth" ++ newline :: file_lines 1 (replicate 16 (str "15", str "0.25")))
      (Init id id "PandarXT-16") = Ret (0, c) /\
    usable "PandarXT-16" 16 c /\ angles_only id id "PandarXT-16" c.
Proof.
  destruct (correction_file_usable (E := unit) id id "PandarXT-16" 16
    (str "Channel,Elevation,Azimuth") (replicate 16 (str "15", str "0.25"))
    (replicate 16 (d_of_Z 15)) (replicate 16 (d_lit 25 100)) (Init id id "PandarXT-16"))
    as [[H1 H2] H3].
  - apply (bool_decide_unpack _). vm_compute. exact I.
  - apply (bool_decide_unpack _). vm_compute. exact I.
  - vm_compute. lia.
  - apply Forall2_replicate. split_and!; [discriminate| | |vm_compute; reflexivity];
      apply (bool_decide_unpack _); vm_compute; exact I.
  - apply Forall2_replicate. split_and!; [discriminate| | |vm_compute; reflexivity];
      apply (bool_decide_unpack _); vm_compute; exact I.
  - apply Forall_replicate. split; [split; reflexivity|]. vm_compute. split; discriminate.
  - exact (H3 H1 H2).
Defined.
