(* ===== verification/Framing.v ===== *)
(** The processing thread: [ProcessLiarPacket] of [pandarGeneral_internal.cc]
    with [EmitBackMessege] and the tf operations it calls.

    [process_packet] is one iteration of its loop after a successful
    [try_pop].  Effects on other components are recorded in the state: the
    clouds handed to [pcl_callback_], and the counters.  The tf library's
    [lookupTransform] is a parameter; its answers may change from query to
    query. *)
From stdpp Require Import gmap.
From S2P Require Import Prelude Ieee Calendar PacketDefenses CompactCloud PacketFormat.
From S2P Require Import ParseXT ParseLegacy LidarTables PointCalc Correction.
#[local] Open Scope Z_scope.

(** ** Packets, counters, state *)

Definition ETHERNET_MTU : Z := 1500.

Record PandarPacket := {
  pkt_data : list Z;
  pkt_size : Z;
  pkt_stamp : float;
}.

(** The counters the processing thread writes. *)
Record Counters := {
  m_processedPackets : Z;
  m_packetTimestampRegressions : Z;
  m_sequenceGapPackets : Z;
  m_sequenceDuplicates : Z;
  m_sequenceBackwards : Z;
  m_sequenceRestarts : Z;
  m_emptyCloudDrops : Z;
}.

(** [builtin_interfaces/Time]: seconds and nanoseconds. *)
Definition stamp : Type := Z * Z.
Definition point3 : Type := float * float * float.

(** What [lookupTransform] does: a transformation, one of the two exceptions
    [calculateTransformMatrix] catches, or another. *)
Inductive lookup_result :=
  | Found (matrix : point3 -> point3)
  | LookupFailed
  | LookupThrew.

Record TfState := {
  m_sSensorFrame : string;
  m_sFixedFrame : string;
  m_sTargetFrame : string;
  m_tf_buffer : bool;
  m_tf_matrix_to_fixed : point3 -> point3;
  m_tf_matrix_to_target : point3 -> point3;
  tf_queries : nat;
}.

(** A call of [pcl_callback_]: the cloud, its time stamp, the recorded scan. *)
Record Emission := {
  em_cloud : PPointCloud;
  em_timestamp : float;
  em_scan : list PandarPacketMsg;
}.

Record Process := {
  start_angle_ : Z;
  last_azimuth_ : Z;
  last_timestamp_ : float;
  m_dPktTimestamp : float;
  m_packetTimestampGuard : TimestampGuard;
  m_xtSequenceTracker : XtSequenceTracker;
  counters : Counters;
  frame : Frame;
  outMsg : PPointCloud;
  scan : list PandarPacketMsg;
  tf : TfState;
  emitted : list Emission;
}.

(** [new PPointCloud()]. *)
Definition new_cloud : PPointCloud :=
  {| pc_frame_id := ""; pc_width := 0; pc_height := 0; pc_is_dense := true; points := [] |}.

(** An exception that leaves the thread. *)
Inductive thread_error := uncaught_exception.

(** Assignments to single members. *)
Definition set_counters (v : Counters) (p : Process) : Process :=
  {| start_angle_ := start_angle_ p; last_azimuth_ := last_azimuth_ p;
     last_timestamp_ := last_timestamp_ p; m_dPktTimestamp := m_dPktTimestamp p;
     m_packetTimestampGuard := m_packetTimestampGuard p;
     m_xtSequenceTracker := m_xtSequenceTracker p; counters := v; frame := frame p;
     outMsg := outMsg p; scan := scan p; tf := tf p; emitted := emitted p |}.
Definition set_frame (v : Frame) (p : Process) : Process :=
  {| start_angle_ := start_angle_ p; last_azimuth_ := last_azimuth_ p;
     last_timestamp_ := last_timestamp_ p; m_dPktTimestamp := m_dPktTimestamp p;
     m_packetTimestampGuard := m_packetTimestampGuard p;
     m_xtSequenceTracker := m_xtSequenceTracker p; counters := counters p; frame := v;
     outMsg := outMsg p; scan := scan p; tf := tf p; emitted := emitted p |}.
Definition set_outMsg (v : PPointCloud) (p : Process) : Process :=
  {| start_angle_ := start_angle_ p; last_azimuth_ := last_azimuth_ p;
     last_timestamp_ := last_timestamp_ p; m_dPktTimestamp := m_dPktTimestamp p;
     m_packetTimestampGuard := m_packetTimestampGuard p;
     m_xtSequenceTracker := m_xtSequenceTracker p; counters := counters p; frame := frame p;
     outMsg := v; scan := scan p; tf := tf p; emitted := emitted p |}.
Definition set_scan (v : list PandarPacketMsg) (p : Process) : Process :=
  {| start_angle_ := start_angle_ p; last_azimuth_ := last_azimuth_ p;
     last_timestamp_ := last_timestamp_ p; m_dPktTimestamp := m_dPktTimestamp p;
     m_packetTimestampGuard := m_packetTimestampGuard p;
     m_xtSequenceTracker := m_xtSequenceTracker p; counters := counters p; frame := frame p;
     outMsg := outMsg p; scan := v; tf := tf p; emitted := emitted p |}.
Definition set_tf (v : TfState) (p : Process) : Process :=
  {| start_angle_ := start_angle_ p; last_azimuth_ := last_azimuth_ p;
     last_timestamp_ := last_timestamp_ p; m_dPktTimestamp := m_dPktTimestamp p;
     m_packetTimestampGuard := m_packetTimestampGuard p;
     m_xtSequenceTracker := m_xtSequenceTracker p; counters := counters p; frame := frame p;
     outMsg := outMsg p; scan := scan p; tf := v; emitted := emitted p |}.
Definition set_guard (v : TimestampGuard) (p : Process) : Process :=
  {| start_angle_ := start_angle_ p; last_azimuth_ := last_azimuth_ p;
     last_timestamp_ := last_timestamp_ p; m_dPktTimestamp := m_dPktTimestamp p;
     m_packetTimestampGuard := v; m_xtSequenceTracker := m_xtSequenceTracker p;
     counters := counters p; frame := frame p; outMsg := outMsg p; scan := scan p; tf := tf p;
     emitted := emitted p |}.
Definition set_tracker (v : XtSequenceTracker) (p : Process) : Process :=
  {| start_angle_ := start_angle_ p; last_azimuth_ := last_azimuth_ p;
     last_timestamp_ := last_timestamp_ p; m_dPktTimestamp := m_dPktTimestamp p;
     m_packetTimestampGuard := m_packetTimestampGuard p; m_xtSequenceTracker := v;
     counters := counters p; frame := frame p; outMsg := outMsg p; scan := scan p; tf := tf p;
     emitted := emitted p |}.
Definition set_pkt_timestamp (v : float) (p : Process) : Process :=
  {| start_angle_ := start_angle_ p; last_azimuth_ := last_azimuth_ p;
     last_timestamp_ := last_timestamp_ p; m_dPktTimestamp := v;
     m_packetTimestampGuard := m_packetTimestampGuard p;
     m_xtSequenceTracker := m_xtSequenceTracker p; counters := counters p; frame := frame p;
     outMsg := outMsg p; scan := scan p; tf := tf p; emitted := emitted p |}.
Definition set_last (azimuth : Z) (timestamp : float) (p : Process) : Process :=
  {| start_angle_ := start_angle_ p; last_azimuth_ := azimuth; last_timestamp_ := timestamp;
     m_dPktTimestamp := m_dPktTimestamp p; m_packetTimestampGuard := m_packetTimestampGuard p;
     m_xtSequenceTracker := m_xtSequenceTracker p; counters := counters p; frame := frame p;
     outMsg := outMsg p; scan := scan p; tf := tf p; emitted := emitted p |}.
Definition add_emission (v : Emission) (p : Process) : Process :=
  {| start_angle_ := start_angle_ p; last_azimuth_ := last_azimuth_ p;
     last_timestamp_ := last_timestamp_ p; m_dPktTimestamp := m_dPktTimestamp p;
     m_packetTimestampGuard := m_packetTimestampGuard p;
     m_xtSequenceTracker := m_xtSequenceTracker p; counters := counters p; frame := frame p;
     outMsg := outMsg p; scan := scan p; tf := tf p; emitted := emitted p ++ [v] |}.

(** Counters are 64 bits wide. *)
Definition count_processed(p : Counters) : Counters :=
  {| m_processedPackets := u64 (m_processedPackets p + 1);
     m_packetTimestampRegressions := m_packetTimestampRegressions p;
     m_sequenceGapPackets := m_sequenceGapPackets p;
     m_sequenceDuplicates := m_sequenceDuplicates p;
     m_sequenceBackwards := m_sequenceBackwards p; m_sequenceRestarts := m_sequenceRestarts p;
     m_emptyCloudDrops := m_emptyCloudDrops p |}.
Definition count_regression(p : Counters) : Counters :=
  {| m_processedPackets := m_processedPackets p;
     m_packetTimestampRegressions := u64 (m_packetTimestampRegressions p + 1);
     m_sequenceGapPackets := m_sequenceGapPackets p;
     m_sequenceDuplicates := m_sequenceDuplicates p;
     m_sequenceBackwards := m_sequenceBackwards p; m_sequenceRestarts := m_sequenceRestarts p;
     m_emptyCloudDrops := m_emptyCloudDrops p |}.
Definition count_duplicate(p : Counters) : Counters :=
  {| m_processedPackets := m_processedPackets p;
     m_packetTimestampRegressions := m_packetTimestampRegressions p;
     m_sequenceGapPackets := m_sequenceGapPackets p;
     m_sequenceDuplicates := u64 (m_sequenceDuplicates p + 1);
     m_sequenceBackwards := m_sequenceBackwards p; m_sequenceRestarts := m_sequenceRestarts p;
     m_emptyCloudDrops := m_emptyCloudDrops p |}.
Definition count_backward(p : Counters) : Counters :=
  {| m_processedPackets := m_processedPackets p;
     m_packetTimestampRegressions := m_packetTimestampRegressions p;
     m_sequenceGapPackets := m_sequenceGapPackets p;
     m_sequenceDuplicates := m_sequenceDuplicates p;
     m_sequenceBackwards := u64 (m_sequenceBackwards p + 1);
     m_sequenceRestarts := m_sequenceRestarts p; m_emptyCloudDrops := m_emptyCloudDrops p |}.
Definition count_restart(p : Counters) : Counters :=
  {| m_processedPackets := m_processedPackets p;
     m_packetTimestampRegressions := m_packetTimestampRegressions p;
     m_sequenceGapPackets := m_sequenceGapPackets p;
     m_sequenceDuplicates := m_sequenceDuplicates p;
     m_sequenceBackwards := m_sequenceBackwards p;
     m_sequenceRestarts := u64 (m_sequenceRestarts p + 1);
     m_emptyCloudDrops := m_emptyCloudDrops p |}.
Definition count_empty(p : Counters) : Counters :=
  {| m_processedPackets := m_processedPackets p;
     m_packetTimestampRegressions := m_packetTimestampRegressions p;
     m_sequenceGapPackets := m_sequenceGapPackets p;
     m_sequenceDuplicates := m_sequenceDuplicates p;
     m_sequenceBackwards := m_sequenceBackwards p; m_sequenceRestarts := m_sequenceRestarts p;
     m_emptyCloudDrops := u64 (m_emptyCloudDrops p + 1) |}.
Definition count_missing (missing : Z) (p : Counters) : Counters :=
  {| m_processedPackets := m_processedPackets p;
     m_packetTimestampRegressions := m_packetTimestampRegressions p;
     m_sequenceGapPackets := u64 (m_sequenceGapPackets p + missing);
     m_sequenceDuplicates := m_sequenceDuplicates p;
     m_sequenceBackwards := m_sequenceBackwards p; m_sequenceRestarts := m_sequenceRestarts p;
     m_emptyCloudDrops := m_emptyCloudDrops p |}.

Definition set_target_frame (v : string) (p : TfState) : TfState :=
  {| m_sSensorFrame := m_sSensorFrame p; m_sFixedFrame := m_sFixedFrame p; m_sTargetFrame := v;
     m_tf_buffer := m_tf_buffer p; m_tf_matrix_to_fixed := m_tf_matrix_to_fixed p;
     m_tf_matrix_to_target := m_tf_matrix_to_target p; tf_queries := tf_queries p |}.
Definition set_tf_buffer (v : bool) (p : TfState) : TfState :=
  {| m_sSensorFrame := m_sSensorFrame p; m_sFixedFrame := m_sFixedFrame p;
     m_sTargetFrame := m_sTargetFrame p; m_tf_buffer := v;
     m_tf_matrix_to_fixed := m_tf_matrix_to_fixed p;
     m_tf_matrix_to_target := m_tf_matrix_to_target p; tf_queries := tf_queries p |}.
Definition set_to_fixed (v : point3 -> point3) (p : TfState) : TfState :=
  {| m_sSensorFrame := m_sSensorFrame p; m_sFixedFrame := m_sFixedFrame p;
     m_sTargetFrame := m_sTargetFrame p; m_tf_buffer := m_tf_buffer p; m_tf_matrix_to_fixed := v;
     m_tf_matrix_to_target := m_tf_matrix_to_target p; tf_queries := tf_queries p |}.
Definition set_to_target (v : point3 -> point3) (p : TfState) : TfState :=
  {| m_sSensorFrame := m_sSensorFrame p; m_sFixedFrame := m_sFixedFrame p;
     m_sTargetFrame := m_sTargetFrame p; m_tf_buffer := m_tf_buffer p;
     m_tf_matrix_to_fixed := m_tf_matrix_to_fixed p; m_tf_matrix_to_target := v;
     tf_queries := tf_queries p |}.
Definition count_query (p : TfState) : TfState :=
  {| m_sSensorFrame := m_sSensorFrame p; m_sFixedFrame := m_sFixedFrame p;
     m_sTargetFrame := m_sTargetFrame p; m_tf_buffer := m_tf_buffer p;
     m_tf_matrix_to_fixed := m_tf_matrix_to_fixed p;
     m_tf_matrix_to_target := m_tf_matrix_to_target p; tf_queries := S (tf_queries p) |}.

(** ** tf *)

Section thread.
Context (lookupTransform : nat -> string -> string -> stamp -> lookup_result).

Definition is_empty (s : string) : bool := bool_decide (s = "").

Definition manage_tf_buffer (t : TfState) : TfState :=
  if is_empty (m_sSensorFrame t) then t
  else if is_empty (m_sFixedFrame t) && bool_decide (m_sSensorFrame t = m_sTargetFrame t)
  then set_target_frame "" t
  else if negb (is_empty (m_sFixedFrame t)) || negb (is_empty (m_sTargetFrame t))
  then set_tf_buffer true t
  else set_tf_buffer false t.

(** The matrix on success. *)
Definition calculateTransformMatrix (target_frame source_frame : string) (time : stamp)
    (t : TfState) : outcome thread_error (option (point3 -> point3) * TfState) :=
  if negb (m_tf_buffer t) then Ret (None, t)
  else
    match lookupTransform (tf_queries t) target_frame source_frame time with
    | Found matrix => Ret (Some matrix, count_query t)
    | LookupFailed => Ret (None, count_query t)
    | LookupThrew => Err uncaught_exception
    end.

Definition computeTransformToTarget (scan_time : stamp) (t : TfState)
    : outcome thread_error (bool * TfState) :=
  if is_empty (m_sTargetFrame t) then Ret (true, t)
  else
    let source_frame :=
      if is_empty (m_sFixedFrame t) then m_sSensorFrame t else m_sFixedFrame t in
    '(matrix, t) ← calculateTransformMatrix (m_sTargetFrame t) source_frame scan_time t;
    Ret (match matrix with Some m => (true, set_to_target m t) | None => (false, t) end).

Definition computeTransformToFixed (packet_time : stamp) (t : TfState)
    : outcome thread_error (bool * TfState) :=
  if is_empty (m_sFixedFrame t) then Ret (true, t)
  else
    '(matrix, t) ← calculateTransformMatrix (m_sFixedFrame t) (m_sSensorFrame t) packet_time t;
    Ret (match matrix with Some m => (true, set_to_fixed m t) | None => (false, t) end).

(** The two matrices [transformPoint] applies. *)
Definition transforms (t : TfState) : Transforms :=
  {| to_fixed := if is_empty (m_sFixedFrame t) then None else Some (m_tf_matrix_to_fixed t);
     to_target := if is_empty (m_sTargetFrame t) then None else Some (m_tf_matrix_to_target t) |}.

(** ** Emitting a cloud *)

(** [pcl::PointCloud::push_back], and the assignment of all points with the two
    dimensions. *)
Definition resize_to (pts : list PPoint) (cld : PPointCloud) : PPointCloud :=
  {| pc_frame_id := pc_frame_id cld; pc_width := u32 (zlen pts); pc_height := 1;
     pc_is_dense := pc_is_dense cld; points := pts |}.
Definition push_back (pt : PPoint) (cld : PPointCloud) : PPointCloud :=
  resize_to (points cld ++ [pt]) cld.

Context (sinf cosf : float -> float) (c : Calibration) (s : Settings) (pcl_callback : bool).

(** [for (i < n) m_vPointCloudList[i].clear()]. *)
Fixpoint clear_channels (n : nat) (i : Z) (fr : Frame) : outcome thread_error Frame :=
  match n with
  | O => Ret fr
  | S n =>
      channels ← arr_set (m_vPointCloudList fr) i [];
      clear_channels n (i + 1)
        {| m_iPointCloudIndex := m_iPointCloudIndex fr; m_vPointCloud := m_vPointCloud fr;
           m_vPointCloudList := channels |}
  end.

(** [for (i < n) cld->push_back] of every point of channel [i]. *)
Fixpoint append_channels (n : nat) (i : Z) (channels : list (list PPoint)) (cld : PPointCloud)
    : outcome thread_error PPointCloud :=
  match n with
  | O => Ret cld
  | S n =>
      ch ← arr_get channels i;
      append_channels n (i + 1) channels (foldl (flip push_back) cld ch)
  end.

(** [cld->points.assign(begin, begin + m_iPointCloudIndex)]. *)
Definition assign_points (fr : Frame) : outcome thread_error (list PPoint) :=
  if decide (0 <= m_iPointCloudIndex fr <= MAX_POINT_CLOUD_NUM) then Ret (cloud_points fr)
  else Undef.

(** The cloud, as it is handed to the callback. *)
Definition collect (lasers : nat) (p : Process) : outcome thread_error Process :=
  if pcl_type_ s then
    cld ← append_channels lasers 0 (m_vPointCloudList (frame p)) (outMsg p);
    Ret (set_outMsg cld p)
  else
    pts ← assign_points (frame p);
    Ret (set_outMsg (resize_to pts (outMsg p)) (set_frame
      {| m_iPointCloudIndex := 0; m_vPointCloud := m_vPointCloud (frame p);
         m_vPointCloudList := m_vPointCloudList (frame p) |} p)).

Definition EmitBackMessege (chLaserNumber : Z) (p : Process) : outcome thread_error Process :=
  let lasers := Z.to_nat chLaserNumber in
  p ← collect lasers p;
  match points (outMsg p) with
  | [] =>
      let p := set_counters (count_empty (counters p)) p in
      if pcl_type_ s then
        fr ← clear_channels lasers 0 (frame p); Ret (set_frame fr p)
      else Ret p
  | first :: _ =>
      let p := add_emission {| em_cloud := outMsg p; em_timestamp := CompactCloud.timestamp first;
                               em_scan := scan p |} p in
      if pcl_type_ s then
        fr ← clear_channels lasers 0 (frame p);
        Ret (set_frame fr
          (if (lasers =? 0)%nat then p else set_outMsg (resize_to [] (outMsg p)) p))
      else Ret p
  end.

(** ** The loop over the blocks of a packet *)

(** The gap in hundredths of a degree since the last block, over the time since
    the last packet, is below 36 000 * 100 per second; and the start angle lies
    in between. *)
Definition new_frame (last_azimuth : Z) (last_timestamp : float) (start_angle azimuth : Z)
    (timestamp_point : float) : bool :=
  let azimuthGap :=
    if azimuth <? last_azimuth then azimuth + (36000 - last_azimuth)
    else azimuth - last_azimuth in
  let timestampGap := d_add (d_sub timestamp_point last_timestamp) (d_lit 1 1000) in
  negb (last_azimuth =? azimuth) &&
  SFltb (d_div (d_of_Z azimuthGap) timestampGap) (d_of_Z (MAX_AZIMUTH_DEGREE_NUM * 100)) &&
  (((azimuth <? last_azimuth) && (start_angle <=? azimuth)) ||
   ((last_azimuth <? start_angle) && (start_angle <=? azimuth))).

(** [m_iPointCloudIndex > 0 || m_vPointCloudList[0].size() > 0]. *)
Definition frame_pending (fr : Frame) : outcome thread_error bool :=
  if 0 <? m_iPointCloudIndex fr then Ret true
  else first ← arr_get (m_vPointCloudList fr) 0; Ret (0 <? zlen first).

(** The end of a frame; [false] when the thread's function returns. *)
Definition end_frame (packet_time : stamp) (lasers : Z) (p : Process)
    : outcome thread_error (bool * Process) :=
  correction ← SaveCorrectionFile c lasers;
  p ← EmitBackMessege lasers (set_scan (scan p ++ [correction]) p);
  let p := set_scan [] p in
  '(ok, t) ← computeTransformToTarget packet_time (tf p);
  Ret (ok, set_tf t p).

(** What happens before the points of a block are computed. *)
Definition frame_boundary (packet_time : stamp) (lasers : Z) (timestamp_point : float)
    (azimuth : Z) (p : Process) : outcome thread_error (bool * Process) :=
  if new_frame (last_azimuth_ p) (last_timestamp_ p) (start_angle_ p) azimuth timestamp_point &&
     pcl_callback then
    pending ← frame_pending (frame p);
    if pending : bool then end_frame packet_time lasers p else Ret (true, p)
  else Ret (true, p).

Definition block_step (packet_time : stamp) (lasers : Z) (timestamp_point : float)
    (block_azimuth : outcome thread_error Z)
    (calc : Transforms -> Frame -> outcome thread_error Frame) (p : Process)
    : outcome thread_error (bool * Process) :=
  azimuth ← block_azimuth;
  '(ok, p) ← frame_boundary packet_time lasers timestamp_point azimuth p;
  if negb ok then Ret (false, p)
  else
    fr ← calc (transforms (tf p)) (frame p);
    Ret (true, set_last azimuth timestamp_point (set_frame fr p)).

Fixpoint for_blocks (step : Z -> Process -> outcome thread_error (bool * Process)) (n : nat) (i : Z)
    (p : Process) : outcome thread_error (bool * Process) :=
  match n with
  | O => Ret (true, p)
  | S n =>
      '(ok, p) ← step i p;
      if negb ok then Ret (false, p) else for_blocks step n (i + 1) p
  end.

(** ** One packet *)

Context (char_signed : bool) (mktime : tm -> Z).

(** [rawpacket]. *)
Definition raw_packet (packet : PandarPacket) : outcome thread_error PandarPacketMsg :=
  sec ← to_signed 32 (d_floor (pkt_stamp packet));
  nanosec ← to_unsigned 32
    (d_mul (d_sub (pkt_stamp packet) (d_floor (pkt_stamp packet))) (d_of_Z 1000000000));
  if decide (0 <= pkt_size packet <= zlen (pkt_data packet)) then
    Ret {| stamp_sec := sec; stamp_nanosec := nanosec;
           data := take (Z.to_nat (pkt_size packet)) (pkt_data packet); size := pkt_size packet |}
  else Undef.

(** The end of an iteration that did not [continue]. *)
Definition label_cloud (p : Process) : Process :=
  set_outMsg {| pc_frame_id := m_sFrameId s; pc_width := pc_width (outMsg p); pc_height := 1;
                pc_is_dense := pc_is_dense (outMsg p); points := points (outMsg p) |} p.

(** What follows the parser in every branch. *)
Definition process_blocks (rawpacket : PandarPacketMsg) (block_number lasers : Z)
    (timestamp_point : float) (block_azimuth : Z -> outcome thread_error Z)
    (calc : Transforms -> Z -> Frame -> outcome thread_error Frame) (p : Process)
    : outcome thread_error (bool * Process) :=
  '(ok, p) ← for_blocks (fun i => block_step (stamp_sec rawpacket, stamp_nanosec rawpacket) lasers
      timestamp_point (block_azimuth i) (fun tr => calc tr i))
    (Z.to_nat block_number) 0 (set_scan (scan p ++ [rawpacket]) p);
  Ret (ok, if (ok : bool) then label_cloud p else p).

Definition packet_azimuth (pkt : Packet) (i : Z) : outcome thread_error Z :=
  block ← arr_get (blocks pkt) i;
  match azimuth block with Some a => Ret a | None => Undef end.

(** The result of a parser: [continue] when it rejects the packet. *)
Definition parsed {A} (m : outcome parse_error A)
    (k : A -> outcome thread_error (bool * Process)) (p : Process)
    : outcome thread_error (bool * Process) :=
  match m with
  | Ret pkt => k pkt
  | Err rejected => Ret (true, p)
  | Undef => Undef
  end.

(** [manage_tf_buffer()] and [computeTransformToFixed(rawpacket.stamp)], which
    begin every branch. *)
Definition with_fixed_frame (rawpacket : PandarPacketMsg)
    (k : Process -> outcome thread_error (bool * Process)) (p : Process)
    : outcome thread_error (bool * Process) :=
  '(ok, t) ← computeTransformToFixed (stamp_sec rawpacket, stamp_nanosec rawpacket)
               (manage_tf_buffer (tf p));
  if (ok : bool) then k (set_tf t p) else Ret (false, set_tf t p).

Definition process_40 (packet : PandarPacket) (rawpacket : PandarPacketMsg) :=
  with_fixed_frame rawpacket (fun p =>
    parsed (ParseRawData mktime (pkt_data packet) (pkt_size packet)) (fun pkt =>
      process_blocks rawpacket BLOCKS_PER_PACKET LASER_COUNT (p40_timestamp_point pkt)
        (fun i => p40_azimuth <$> arr_get (p40_blocks pkt) i)
        (fun tr i => CalcPointXYZIT sinf cosf c s tr pkt (m_dPktTimestamp p) i) p) p).

Definition process_multi (parse : outcome parse_error Packet)
    (calc : Transforms -> Packet -> float -> Z -> Z -> Frame -> outcome thread_error Frame)
    (rawpacket : PandarPacketMsg) :=
  with_fixed_frame rawpacket (fun p =>
    parsed parse (fun pkt =>
      process_blocks rawpacket (chBlockNumber (header pkt)) (chLaserNumber (header pkt))
        (timestamp_point pkt) (packet_azimuth pkt)
        (fun tr i => calc tr pkt (m_dPktTimestamp p) i (chLaserNumber (header pkt))) p) p).

(** The decision on an XT sequence number: the counters, and whether the packet
    goes on. *)
Definition count_sequence (d : SequenceDecision) (k : Counters) : bool * Counters :=
  match sd_status d with
  | kForwardGap => (true, count_missing (sd_missing d) k)
  | kDuplicate => (false, count_duplicate k)
  | kBackward => (false, count_backward k)
  | kRestartAfterIdle => (true, count_restart k)
  | kFirst | kInOrder => (true, k)
  end.

Definition process_XT (packet : PandarPacket) (rawpacket : PandarPacketMsg) :=
  with_fixed_frame rawpacket (fun p =>
    parsed (ParseXTData char_signed mktime (pkt_data packet) (pkt_size packet)) (fun pkt =>
      let '(d, tracker) :=
        tracker_observe (udp_sequence pkt) (pkt_stamp packet) (m_xtSequenceTracker p) in
      let '(accepted, k) := count_sequence d (counters p) in
      let p := set_counters k (set_tracker tracker p) in
      if negb accepted then Ret (true, p)
      else
        process_blocks rawpacket (chBlockNumber (header pkt)) (chLaserNumber (header pkt))
          (timestamp_point pkt) (packet_azimuth pkt)
          (fun tr i => CalcXTPointXYZIT sinf cosf c s tr pkt (m_dPktTimestamp p) i
                         (chLaserNumber (header pkt))) p) p).

Definition is_type (t : string) : bool := bool_decide (m_sLidarType s = t).

(** The sizes of the five branches, in order; [None] is [else { continue; }]. *)
Inductive branch := B40 | B64 | B20 | BQT | BXT.

Definition packet_branch (size : Z) : option branch :=
  if (size =? PACKET_SIZE) || (size =? PACKET_SIZE + SEQ_NUM_SIZE) then Some B40
  else if (size =? HS_LIDAR_L64_6PACKET_SIZE) || (size =? HS_LIDAR_L64_7PACKET_SIZE) ||
          (size =? HS_LIDAR_L64_6PACKET_WITHOUT_UDPSEQ_SIZE) ||
          (size =? HS_LIDAR_L64_7PACKET_WITHOUT_UDPSEQ_SIZE) then Some B64
  else if HS_LIDAR_L20_PACKET_SIZE =? size then Some B20
  else if (size =? HS_LIDAR_QT_PACKET_SIZE) || (size =? HS_LIDAR_QT_PACKET_WITHOUT_UDPSEQ_SIZE)
  then Some BQT
  else if ((size =? HS_LIDAR_XT_PACKET_SIZE) && (is_type "XT" || is_type "PandarXT-32")) ||
          ((size =? HS_LIDAR_XT16_PACKET_SIZE) && is_type "PandarXT-16") ||
          ((size =? HS_LIDAR_XTM_PACKET_SIZE) && is_type "PandarXTM") then Some BXT
  else None.

(** One iteration of the loop of [ProcessLiarPacket], with a packet popped. *)
Definition process_packet (packet : PandarPacket) (p : Process)
    : outcome thread_error (bool * Process) :=
  let p := set_counters (count_processed (counters p)) p in
  let '(d, guard) := guard_observe (pkt_stamp packet) (m_packetTimestampGuard p) in
  let p := set_guard guard p in
  if negb (timestamp_accepted d) then
    Ret (true, set_counters (count_regression (counters p)) p)
  else
    rawpacket ← raw_packet packet;
    let p := set_pkt_timestamp (pkt_stamp packet) p in
    match packet_branch (pkt_size packet) with
    | Some B40 => process_40 packet rawpacket p
    | Some B64 =>
        process_multi (ParseL64Data char_signed mktime (pkt_data packet) (pkt_size packet))
          (CalcL64PointXYZIT sinf cosf c s) rawpacket p
    | Some B20 =>
        process_multi (ParseL20Data char_signed mktime (pkt_data packet) (pkt_size packet))
          (CalcL20PointXYZIT sinf cosf c s) rawpacket p
    | Some BQT =>
        process_multi (ParseQTData char_signed mktime (pkt_data packet) (pkt_size packet))
          (CalcQTPointXYZIT sinf cosf c s) rawpacket p
    | Some BXT => process_XT packet rawpacket p
    | None => Ret (true, p)
    end.

(** The packets the loop pops, in order, until the function returns. *)
Fixpoint process_packets (packets : list PandarPacket) (p : Process)
    : outcome thread_error (bool * Process) :=
  match packets with
  | [] => Ret (true, p)
  | packet :: packets =>
      '(ok, p) ← process_packet packet p;
      if negb ok then Ret (false, p) else process_packets packets p
  end.

(** [ProcessLiarPacket]: the target transformation once, then the loop. *)
Definition ProcessLiarPacket (now : stamp) (packets : list PandarPacket) (p : Process)
    : outcome thread_error (bool * Process) :=
  '(ok, t) ← computeTransformToTarget now (tf p);
  let p := set_tf t p in
  if negb ok then Ret (false, p) else process_packets packets p.
End thread.
