(* ===== verification/FrameModes.v ===== *)
(** The loop over the blocks of a packet, for every way to collect a frame.

    [FramingMode] states what the loop needs of a way to collect points: an
    invariant with room for some number of points, and what it means that the
    points collected have grown by some.  [process_blocks_mode] is proved from
    it once; [array_mode] and [channel_mode] are the two ways the driver has. *)
From stdpp Require Import gmap sorting.
From S2P Require Import Prelude Ieee Calendar PacketDefenses CompactCloud PacketFormat.
From S2P Require Import LidarTables PointCalc Correction Framing.
#[local] Open Scope Z_scope.

(** What the loop over the blocks does not touch. *)
Definition carried (p p' : Process) : Prop :=
  counters p' = counters p /\ m_packetTimestampGuard p' = m_packetTimestampGuard p /\
  m_xtSequenceTracker p' = m_xtSequenceTracker p /\ m_dPktTimestamp p' = m_dPktTimestamp p /\
  tf p' = tf p /\ start_angle_ p' = start_angle_ p /\ emitted p `prefix_of` emitted p'.

Lemma carried_trans p1 p2 p3 : carried p1 p2 -> carried p2 p3 -> carried p1 p3.
Proof.
  intros (A1 & A2 & A3 & A4 & A5 & A6 & A7) (B1 & B2 & B3 & B4 & B5 & B6 & B7). unfold carried.
  split_and!; try congruence. by etrans.
Qed.

(** Members the points collected do not depend on. *)
Definition same_points (p p' : Process) : Prop :=
  frame p' = frame p /\ emitted p' = emitted p /\ points (outMsg p') = points (outMsg p) /\
  m_sFixedFrame (tf p') = "" /\ m_sTargetFrame (tf p') = "".

(** What the loop over the blocks needs to know about the points of one block,
    of a packet with [lasers] lasers. *)
Record block_spec (s : Settings) (lasers : Z) (az : outcome thread_error Z)
    (calc : Transforms -> Frame -> outcome thread_error Frame) (pts : list PPoint) : Prop := {
  bs_azimuth : exists a, az = Ret a;
  bs_calc : forall fr, room s lasers fr -> calc no_transforms fr = Ret (store_points s pts fr);
  bs_rings : Forall (fun pt => 0 <= CompactCloud.ring pt < lasers) pts;
  bs_length : zlen pts <= lasers;
}.

(** No tf frames are configured; [fm_inv k] leaves room for [k] points. *)
Class FramingMode (lookupTransform : nat -> string -> string -> stamp -> lookup_result)
    (n : nat) (c : Calibration) (s : Settings) := {
  fm_inv : Z -> Process -> Prop;
  fm_grows : Process -> list PPoint -> Process -> Prop;
  fm_mono k k' p : k' <= k -> fm_inv k p -> fm_inv k' p;
  fm_frames k p : fm_inv k p -> m_sFixedFrame (tf p) = "" /\ m_sTargetFrame (tf p) = "";
  fm_ext k p p' : fm_inv k p -> same_points p p' -> fm_inv k p' /\ fm_grows p [] p';
  fm_trans p1 l p2 l' p3 : fm_grows p1 l p2 -> fm_grows p2 l' p3 -> fm_grows p1 (l ++ l') p3;
  fm_room k lasers p :
    fm_inv (k + lasers) p -> 0 <= k -> 0 < lasers <= Z.of_nat n -> room s lasers (frame p);
  fm_store k lasers pts p :
    fm_inv (k + lasers) p -> 0 <= k -> 0 < lasers <= Z.of_nat n -> zlen pts <= lasers ->
    Forall (fun pt => 0 <= CompactCloud.ring pt < lasers) pts ->
    let p' := set_frame (store_points s pts (frame p)) p in fm_inv k p' /\ fm_grows p pts p';
  fm_boundary stamp cb lasers ts azimuth k p :
    fm_inv k p -> 0 <= k -> 0 < lasers <= Z.of_nat n ->
    exists p', frame_boundary lookupTransform c s cb stamp lasers ts azimuth p = Ret (true, p') /\
      fm_inv k p' /\ carried p p' /\ fm_grows p [] p';
}.

(** ** The loop, for any mode *)

Lemma manage_tf_empty tfs :
  m_sFixedFrame tfs = "" -> m_sTargetFrame tfs = "" ->
  m_sFixedFrame (manage_tf_buffer tfs) = "" /\ m_sTargetFrame (manage_tf_buffer tfs) = "".
Proof.
  intros Hf Hg. unfold manage_tf_buffer. destruct (is_empty _); [done|]. rewrite Hf, Hg.
  cbn. destruct (bool_decide _); done.
Qed.

(** Without a target frame the thread enters its loop at once. *)
Lemma ProcessLiarPacket_no_target lookupTransform sinf cosf c s cb char_signed mktime now packets p :
  m_sTargetFrame (tf p) = "" ->
  ProcessLiarPacket lookupTransform sinf cosf c s cb char_signed mktime now packets p =
  process_packets lookupTransform sinf cosf c s cb char_signed mktime packets p.
Proof.
  intros Htg. unfold ProcessLiarPacket, computeTransformToTarget. rewrite Htg.
  cbn [is_empty bool_decide mbind outcome_bind negb]. by destruct p.
Qed.

Section mode.
Context (lookupTransform : nat -> string -> string -> stamp -> lookup_result).
Context (n : nat) (c : Calibration) (s : Settings).
Context {M : FramingMode lookupTransform n c s}.

Lemma fm_refl k p : fm_inv k p -> fm_grows p [] p.
Proof.
  intros H. destruct (fm_frames _ _ H) as [Hf Hg]. by destruct (fm_ext k p p H) as [_ ?]; [split|].
Qed.

Lemma fm_transforms k p : fm_inv k p -> transforms (tf p) = no_transforms.
Proof. intros H. destruct (fm_frames _ _ H) as [Hf Hg]. unfold transforms. by rewrite Hf, Hg. Qed.

Lemma with_fixed_frame_empty rawpacket k p k0 :
  fm_inv k p ->
  exists tfs, m_sFixedFrame tfs = "" /\ m_sTargetFrame tfs = "" /\
    with_fixed_frame lookupTransform rawpacket k0 p = k0 (set_tf tfs p).
Proof.
  intros H. destruct (fm_frames _ _ H) as [Hf Hg].
  destruct (manage_tf_empty (tf p)) as [H1 H2]; [done..|].
  exists (manage_tf_buffer (tf p)). split_and!; [done|done|].
  unfold with_fixed_frame, computeTransformToFixed. by rewrite H1.
Qed.

Lemma block_step_mode stamp cb lasers ts az calc pts k p :
  block_spec s lasers az calc pts -> 0 < lasers <= Z.of_nat n -> 0 <= k -> fm_inv (k + lasers) p ->
  exists p', block_step lookupTransform c s cb stamp lasers ts az calc p = Ret (true, p') /\
    fm_inv k p' /\ carried p p' /\ fm_grows p pts p'.
Proof.
  intros [[a ->] Hcalc Hrings Hlen] Hl Hk Hinv. unfold block_step. cbn [mbind outcome_bind].
  destruct (fm_boundary stamp cb lasers ts a (k + lasers) p Hinv)
    as (p1 & -> & Hinv1 & Hcar & Hg1); [lia|done|].
  cbn [mbind outcome_bind negb]. rewrite (fm_transforms _ _ Hinv1), Hcalc.
  2: by apply (fm_room k).
  cbn [mbind outcome_bind].
  destruct (fm_store k lasers pts p1 Hinv1 Hk Hl Hlen Hrings) as [Hinv2 Hg2].
  set (p2 := set_frame _ p1) in *. destruct (fm_frames _ _ Hinv2) as [Hf Hg].
  destruct (fm_ext k p2 (set_last a ts p2) Hinv2) as [Hinv3 Hg3]; [by split|].
  eexists. split; [reflexivity|]. split; [done|]. split; [by destruct Hcar|].
  replace pts with ([] ++ pts ++ []) by apply app_nil_r. by repeat eapply fm_trans.
Qed.

Lemma for_blocks_mode stamp cb lasers ts (az : Z -> outcome thread_error Z)
    (calc : Z -> Transforms -> Frame -> outcome thread_error Frame) (pts : nat -> list PPoint)
    (m b : nat) k p :
  (forall i, (b <= i < b + m)%nat -> block_spec s lasers (az (Z.of_nat i)) (calc (Z.of_nat i)) (pts i)) ->
  0 < lasers <= Z.of_nat n -> 0 <= k -> fm_inv (k + Z.of_nat m * lasers) p ->
  exists p', for_blocks (fun i => block_step lookupTransform c s cb stamp lasers ts (az i) (calc i))
      m (Z.of_nat b) p = Ret (true, p') /\
    fm_inv k p' /\ carried p p' /\ fm_grows p (concat (pts <$> seq b m)) p'.
Proof.
  intros Hspec Hl Hk. revert b p Hspec. induction m as [|m IH]; intros b p Hspec Hinv.
  { exists p. split; [done|]. split; [by apply (fm_mono (k + 0)); [lia|]|]. split; [done|].
    by eapply fm_refl. }
  cbn [for_blocks].
  destruct (block_step_mode stamp cb lasers ts (az (Z.of_nat b)) (calc (Z.of_nat b)) (pts b)
    (k + Z.of_nat m * lasers) p) as (p1 & -> & Hinv1 & Hcar1 & Hg1); [apply Hspec; lia|done|nia| |].
  { by replace (k + Z.of_nat m * lasers + lasers) with (k + Z.of_nat (S m) * lasers) by lia. }
  cbn [mbind outcome_bind negb].
  destruct (IH (S b) p1) as (p2 & Hrec & Hinv2 & Hcar2 & Hg2); [intros i Hi; apply Hspec; lia|done|].
  replace (Z.of_nat (S b)) with (Z.of_nat b + 1) in Hrec by lia. rewrite Hrec.
  exists p2. split_and!; try done; [by eapply carried_trans|]. by eapply fm_trans.
Qed.

(** The blocks of a packet that the parser has accepted. *)
Lemma process_blocks_mode cb rawpacket (blocks : nat) lasers ts az calc (pts : nat -> list PPoint) k p :
  (forall i, (i < blocks)%nat ->
    block_spec s lasers (az (Z.of_nat i)) (fun tr => calc tr (Z.of_nat i)) (pts i)) ->
  0 < lasers <= Z.of_nat n -> 0 <= k -> fm_inv (k + Z.of_nat blocks * lasers) p ->
  exists p', process_blocks lookupTransform c s cb rawpacket (Z.of_nat blocks) lasers ts az calc p =
      Ret (true, p') /\
    fm_inv k p' /\ carried p p' /\ fm_grows p (concat (pts <$> seq 0 blocks)) p'.
Proof.
  intros Hspec Hl Hk Hinv. unfold process_blocks. rewrite Nat2Z.id.
  set (p1 := set_scan (scan p ++ [rawpacket]) p). destruct (fm_frames _ _ Hinv) as [Hf Hg].
  destruct (fm_ext _ p p1 Hinv) as [Hinv1 Hg1]; [by split|].
  destruct (for_blocks_mode (stamp_sec rawpacket, stamp_nanosec rawpacket) cb lasers ts az
    (fun i tr => calc tr i) pts blocks 0 k p1) as (p2 & Hrun & Hinv2 & Hcar2 & Hg2); [|done|done|done|].
  { intros i Hi. apply Hspec. lia. }
  change (Z.of_nat 0) with 0 in Hrun. rewrite Hrun. cbn [mbind outcome_bind].
  destruct (fm_frames _ _ Hinv2) as [Hf2 Hh2].
  destruct (fm_ext _ p2 (label_cloud s p2) Hinv2) as [Hinv3 Hg3]; [by split|].
  eexists. split; [reflexivity|]. split; [done|]. split; [by destruct Hcar2|].
  replace (concat _) with ([] ++ concat (pts <$> seq 0 blocks) ++ []) by apply app_nil_r.
  by repeat eapply fm_trans.
Qed.
End mode.

(** ** The end of a frame *)

Section correction.
Context (n : nat) (c : Calibration).
Context (Helev : assigned (General_elev_angle_map_ c) n = true).
Context (Hgeneral : assigned (General_horizatal_azimuth_offset_map_ c) n = true).

Lemma save_lines_defined {E} (m : nat) (i : Z) :
  0 <= i -> i + Z.of_nat m <= Z.of_nat n -> exists l, save_lines (E := E) c m i = Ret l.
Proof.
  revert i. induction m as [|m IH]; intros i Hi Hm; [by eexists|]. cbn [save_lines].
  destruct (assigned_value (E := E) _ n i Helev ltac:(lia)) as (e & _ & ->).
  destruct (assigned_value (E := E) _ n i Hgeneral ltac:(lia)) as (a & _ & ->).
  destruct (IH (i + 1) ltac:(lia) ltac:(lia)) as [l Hl].
  cbn [mbind outcome_bind]. rewrite Hl. by eexists.
Qed.

Lemma correction_defined {E} lasers :
  lasers <= Z.of_nat n -> exists msg, SaveCorrectionFile (E := E) c lasers = Ret msg.
Proof.
  intros Hl. unfold SaveCorrectionFile.
  destruct (save_lines_defined (E := E) (Z.to_nat lasers) 0) as [l ->]; [lia|lia|].
  cbn [mbind outcome_bind]. by eexists.
Qed.
End correction.

(** ** Array mode *)

(** The points of all clouds handed out so far, and of the current frame. *)
Definition all_points (p : Process) : list PPoint :=
  concat ((fun e => points (em_cloud e)) <$> emitted p) ++ cloud_points (frame p).

(** Every cloud handed to the callback has points, and the time stamp of the
    first of them. *)
Definition emission_ok (e : Emission) : Prop :=
  exists first rest, points (em_cloud e) = first :: rest /\
    em_timestamp e = CompactCloud.timestamp first /\
    pc_width (em_cloud e) = u32 (zlen (points (em_cloud e))) /\ pc_height (em_cloud e) = 1 /\
    zlen (points (em_cloud e)) <= MAX_POINT_CLOUD_NUM.

(** No tf frames configured, channels unused, room for [k] points. *)
Record framing_inv (k : Z) (p : Process) : Prop := {
  fi_fixed : m_sFixedFrame (tf p) = "";
  fi_target : m_sTargetFrame (tf p) = "";
  fi_channel : m_vPointCloudList (frame p) !! 0%nat = Some [];
  fi_index : 0 <= m_iPointCloudIndex (frame p);
  fi_room : m_iPointCloudIndex (frame p) + k <= MAX_POINT_CLOUD_NUM;
  fi_emitted : Forall emission_ok (emitted p);
}.

Lemma framing_inv_mono k k' p : k' <= k -> framing_inv k p -> framing_inv k' p.
Proof. intros Hk []. split; try done. lia. Qed.

Section array.
Context (lookupTransform : nat -> string -> string -> stamp -> lookup_result).
Context (n : nat) (c : Calibration) (s : Settings).
Context (Helev : assigned (General_elev_angle_map_ c) n = true).
Context (Hgeneral : assigned (General_horizatal_azimuth_offset_map_ c) n = true).
Context (Hpcl : pcl_type_ s = false).

Lemma cloud_points_nonempty fr :
  0 < m_iPointCloudIndex fr -> exists first rest, cloud_points fr = first :: rest.
Proof.
  intros Hi. unfold cloud_points. rewrite seqZ_cons by lia. cbn [fmap list_fmap]. by eexists _, _.
Qed.

Lemma end_frame_array stamp lasers k p :
  framing_inv k p -> 0 < m_iPointCloudIndex (frame p) -> 0 <= k -> lasers <= Z.of_nat n ->
  exists p', end_frame lookupTransform c s stamp lasers p = Ret (true, p') /\
    framing_inv k p' /\ carried p p' /\ all_points p' = all_points p /\
    last_azimuth_ p' = last_azimuth_ p /\ last_timestamp_ p' = last_timestamp_ p.
Proof.
  intros [Hfix Htgt Hch Hidx Hroom Hem] Hpos Hk Hl. unfold end_frame.
  destruct (correction_defined (E := thread_error) n c Helev Hgeneral lasers Hl) as [msg ->].
  cbn [mbind outcome_bind]. unfold EmitBackMessege, collect. rewrite Hpcl. unfold assign_points.
  cbn [set_scan frame]. rewrite decide_True by lia. cbn [mbind outcome_bind].
  destruct (cloud_points_nonempty (frame p) Hpos) as (first & rest & Hcloud).
  cbn [set_outMsg set_frame outMsg resize_to points]. rewrite Hcloud. cbn [mbind outcome_bind].
  unfold computeTransformToTarget. cbn [set_scan add_emission set_outMsg set_frame tf].
  rewrite Htgt. cbn [is_empty bool_decide mbind outcome_bind].
  eexists. split; [reflexivity|]. cbn. split_and!; try done.
  - split; cbn; try done; try lia.
    apply Forall_app_2; [done|]. constructor; [|done]. exists first, rest. split_and!; try done. cbn.
    apply (f_equal length) in Hcloud. unfold cloud_points in Hcloud.
    rewrite length_fmap, length_seqZ in Hcloud. cbn [length] in Hcloud. lia.
  - unfold carried. split_and!; try done. cbn. by apply prefix_app_r.
  - unfold all_points. cbn. rewrite fmap_app, concat_app. cbn. rewrite !app_nil_r.
    by rewrite Hcloud.
Qed.

(** Storing the points of a block extends the frame. *)
Lemma framing_inv_store k p pts :
  framing_inv (k + zlen pts) p -> 0 <= k ->
  framing_inv k (set_frame (store_points s pts (frame p)) p) /\
  all_points (set_frame (store_points s pts (frame p)) p) = all_points p ++ pts.
Proof.
  intros [Hfix Htgt Hch Hidx Hroom Hem] Hk.
  destruct (store_points_array s pts (frame p) Hpcl Hidx) as (H1 & H2 & H3). split.
  - split; cbn; try done; rewrite ?H1, ?H3; try done; lia.
  - unfold all_points. cbn. by rewrite H2, app_assoc.
Qed.

Lemma frame_boundary_array stamp cb lasers ts azimuth k p :
  framing_inv k p -> 0 <= k -> lasers <= Z.of_nat n ->
  exists p', frame_boundary lookupTransform c s cb stamp lasers ts azimuth p = Ret (true, p') /\
    framing_inv k p' /\ carried p p' /\ all_points p' = all_points p.
Proof.
  intros Hinv Hk Hl. unfold frame_boundary. destruct (new_frame _ _ _ _ _ && cb); [|by exists p].
  unfold frame_pending. destruct (Z.ltb_spec 0 (m_iPointCloudIndex (frame p))).
  - cbn [mbind outcome_bind].
    destruct (end_frame_array stamp lasers k p Hinv) as (p1 & -> & ? & ? & ? & _); [lia..|].
    by exists p1.
  - rewrite (arr_get_lookup _ 0 []) by (apply Hinv || lia).
    cbn [mbind outcome_bind]. by exists p.
Qed.

(** Members the framing invariant and the points do not depend on. *)
Lemma framing_inv_ext k p p' :
  framing_inv k p -> frame p' = frame p -> emitted p' = emitted p ->
  m_sFixedFrame (tf p') = "" -> m_sTargetFrame (tf p') = "" ->
  framing_inv k p' /\ all_points p' = all_points p.
Proof.
  intros [] Hf He Hx Hy. split; [split; by rewrite ?Hf, ?He|]. unfold all_points. by rewrite Hf, He.
Qed.

Definition array_mode : FramingMode lookupTransform n c s.
Proof.
  refine {| fm_inv := framing_inv;
            fm_grows p pts p' := all_points p' = all_points p ++ pts |}.
  - apply framing_inv_mono.
  - by intros k p [].
  - intros k p p' Hinv (Hf & He & _ & Hx & Hg). rewrite app_nil_r. by apply (framing_inv_ext k p).
  - intros p1 l p2 l' p3 H1 H2. by rewrite H2, H1, app_assoc.
  - intros k lasers p [] Hk Hl. unfold room. rewrite Hpcl. lia.
  - intros k lasers pts p Hinv Hk Hl Hlen _. apply framing_inv_store; [|done].
    by apply (framing_inv_mono (k + lasers)); [lia|].
  - intros stamp cb lasers ts az k p Hinv Hk Hl. setoid_rewrite app_nil_r.
    apply frame_boundary_array; (done || lia).
Defined.
End array.
