(* ===== verification/ChannelMode.v ===== *)
(** Structured clouds ([pcl_type]): points are kept per channel and a cloud is
    the channels one after the other.

    [channel_mode] is the instance of [FramingMode] for it: per channel, the
    clouds handed out and what is still collected make up exactly the points
    computed, and there is no bound on their number to observe. *)
From stdpp Require Import gmap sorting.
From S2P Require Import Prelude Ieee Calendar PacketDefenses CompactCloud PacketFormat.
From S2P Require Import LidarTables PointCalc Correction Framing FrameModes.
#[local] Open Scope Z_scope.

Definition ring_is (i : nat) (pt : PPoint) : Prop := Z.to_nat (CompactCloud.ring pt) = i.
#[export] Instance ring_is_dec i pt : Decision (ring_is i pt) := decide_rel eq _ _.

Definition of_ring (i : nat) : list PPoint -> list PPoint := filter (ring_is i).

Lemma of_ring_app i l k : of_ring i (l ++ k) = of_ring i l ++ of_ring i k.
Proof. apply filter_app. Qed.

(** Every channel holds points of its own ring. *)
Definition ringed (off : nat) (channels : list (list PPoint)) : Prop :=
  forall i ch, channels !! i = Some ch -> Forall (ring_is (off + i)) ch.

Lemma ringed_cons off ch channels :
  ringed off (ch :: channels) <-> Forall (ring_is off) ch /\ ringed (S off) channels.
Proof.
  split.
  - intros H. split; [rewrite <- (Nat.add_0_r off); by apply (H 0%nat)|].
    intros i c Hc. replace (S off + i)%nat with (off + S i)%nat by lia. by apply H.
  - intros [Hch H] [|i] c; cbn [lookup list_lookup].
    + intros [= ->]. by rewrite Nat.add_0_r.
    + intros Hc. replace (off + S i)%nat with (S off + i)%nat by lia. by apply H.
Qed.

Lemma of_ring_own i l : Forall (ring_is i) l -> of_ring i l = l.
Proof.
  induction 1 as [|pt l Hpt _ IH]; [done|]. unfold of_ring in *. by rewrite filter_cons_True, IH.
Qed.

Lemma of_ring_other i j l : i <> j -> Forall (ring_is j) l -> of_ring i l = [].
Proof.
  intros Hij. unfold of_ring. induction 1 as [|pt l Hpt _ IH]; [done|].
  rewrite filter_cons_False; [done|]. unfold ring_is in *. congruence.
Qed.

(** The points of ring [i] in the channels put together are those of channel [i]. *)
Lemma of_ring_concat off channels i :
  ringed off channels ->
  of_ring i (concat channels) =
    if decide (off <= i)%nat then default [] (channels !! (i - off)%nat) else [].
Proof.
  revert off. induction channels as [|ch channels IH]; intros off Hr.
  { case_decide; [by rewrite lookup_nil|done]. }
  apply ringed_cons in Hr as [Hch Hr]. cbn [concat]. rewrite of_ring_app, (IH _ Hr).
  destruct (decide (i = off)) as [->|Hne].
  - rewrite (of_ring_own _ _ Hch), Nat.sub_diag, decide_False, decide_True by lia. by rewrite app_nil_r.
  - rewrite (of_ring_other _ off) by done. cbn [app]. repeat case_decide; try lia; [|done].
    by replace (i - off)%nat with (S (i - S off)) by lia.
Qed.

(** The channels put together are sorted by ring. *)
Definition ring_le (a b : PPoint) : Prop :=
  (Z.to_nat (CompactCloud.ring a) <= Z.to_nat (CompactCloud.ring b))%nat.

Lemma rings_from off channels :
  ringed off channels -> Forall (fun pt => (off <= Z.to_nat (CompactCloud.ring pt))%nat) (concat channels).
Proof.
  revert off. induction channels as [|ch channels IH]; intros off Hr; [constructor|].
  apply ringed_cons in Hr as [Hch Hr]. apply Forall_app_2.
  - eapply Forall_impl; [exact Hch|]. unfold ring_is. intros. lia.
  - eapply Forall_impl; [exact (IH _ Hr)|]. cbn. lia.
Qed.

Lemma channels_sorted off channels :
  ringed off channels -> StronglySorted ring_le (concat channels).
Proof.
  revert off. induction channels as [|ch channels IH]; intros off Hr; [constructor|].
  apply ringed_cons in Hr as [Hch Hr]. cbn [concat]. pose proof (rings_from _ _ Hr) as Hrest.
  induction Hch as [|pt ch Hpt Hch IHch]; [by eapply IH|]. cbn [app]. constructor; [exact IHch|].
  unfold ring_is in *. apply Forall_app_2; (eapply Forall_impl; [eassumption|]); unfold ring_le; cbn; lia.
Qed.

(** ** The operations *)

(** A cloud with points has the dimensions [push_back] gives it. *)
Definition shaped (cld : PPointCloud) : Prop :=
  points cld <> [] -> pc_width cld = u32 (zlen (points cld)) /\ pc_height cld = 1.

Lemma push_all_spec l cld :
  shaped cld ->
  points (foldl (flip push_back) cld l) = points cld ++ l /\ shaped (foldl (flip push_back) cld l).
Proof.
  revert cld. induction l as [|pt l IH]; intros cld Hc; cbn [foldl]; [by rewrite app_nil_r|].
  destruct (IH (flip push_back cld pt)) as [Hp Hs]; [by intros _|].
  split; [|done]. rewrite Hp. cbn. by rewrite <- app_assoc.
Qed.

Lemma append_channels_spec (n i : nat) channels cld :
  (i + n <= length channels)%nat -> shaped cld ->
  exists cld', append_channels n (Z.of_nat i) channels cld = Ret cld' /\
    points cld' = points cld ++ concat (take n (drop i channels)) /\ shaped cld'.
Proof.
  revert i cld. induction n as [|n IH]; intros i cld Hi Hc.
  { exists cld. by rewrite app_nil_r. }
  destruct (lookup_lt_is_Some_2 channels i) as [ch Hch]; [lia|]. cbn [append_channels].
  rewrite (arr_get_lookup _ _ ch) by (lia || by rewrite Nat2Z.id). cbn [mbind outcome_bind].
  destruct (push_all_spec ch cld Hc) as [Hp Hs].
  replace (Z.of_nat i + 1) with (Z.of_nat (S i)) by lia.
  destruct (IH (S i) _ ltac:(lia) Hs) as (cld' & -> & Hp' & Hs').
  exists cld'. split; [done|]. split; [|done]. rewrite Hp', Hp, <- app_assoc. do 2 f_equal.
  by rewrite (drop_S _ _ _ Hch).
Qed.

Lemma clear_channels_spec (n i : nat) fr :
  (i + n <= length (m_vPointCloudList fr))%nat ->
  exists fr', clear_channels n (Z.of_nat i) fr = Ret fr' /\
    m_iPointCloudIndex fr' = m_iPointCloudIndex fr /\
    m_vPointCloudList fr' = take i (m_vPointCloudList fr) ++ replicate n [] ++
      drop (i + n) (m_vPointCloudList fr).
Proof.
  revert i fr. induction n as [|n IH]; intros i fr Hi.
  { exists fr. split; [done|]. split; [done|]. rewrite Nat.add_0_r. cbn [replicate app]. by rewrite take_drop. }
  cbn [clear_channels]. rewrite arr_set_in by lia. cbn [mbind outcome_bind].
  rewrite Nat2Z.id. replace (Z.of_nat i + 1) with (Z.of_nat (S i)) by lia.
  set (fr1 := {| m_iPointCloudIndex := _ |}).
  destruct (IH (S i) fr1) as (fr' & -> & Hx & Hl); [cbn; rewrite length_insert; lia|].
  exists fr'. split; [done|]. split; [done|]. rewrite Hl. cbn [fr1 m_vPointCloudList replicate].
  destruct (lookup_lt_is_Some_2 (m_vPointCloudList fr) i) as [ch Hch]; [lia|].
  rewrite drop_insert_lt by lia. replace (S i + n)%nat with (i + S n)%nat by lia.
  rewrite (take_S_r _ i []) by (apply list_lookup_insert_eq; lia).
  rewrite take_insert_ge by lia. by rewrite <- app_assoc.
Qed.

(** ** The mode *)

(** What a cloud handed out looks like. *)
Definition channel_emission (e : Emission) : Prop :=
  exists first rest, points (em_cloud e) = first :: rest /\
    em_timestamp e = CompactCloud.timestamp first /\ ring_is 0 first /\
    pc_width (em_cloud e) = u32 (zlen (points (em_cloud e))) /\ pc_height (em_cloud e) = 1 /\
    StronglySorted ring_le (points (em_cloud e)).

Record channel_inv (p : Process) : Prop := {
  ci_fixed : m_sFixedFrame (tf p) = "";
  ci_target : m_sTargetFrame (tf p) = "";
  ci_channels : length (m_vPointCloudList (frame p)) = 256%nat;
  ci_index : m_iPointCloudIndex (frame p) = 0;
  ci_rings : ringed 0 (m_vPointCloudList (frame p));
  ci_out : points (outMsg p) = [];
  ci_emitted : Forall channel_emission (emitted p);
}.

(** The points of ring [i] handed out so far or still collected. *)
Definition ring_points (i : nat) (p : Process) : list PPoint :=
  of_ring i (concat ((fun e => points (em_cloud e)) <$> emitted p)) ++
  default [] (m_vPointCloudList (frame p) !! i).

Definition channel_grows (p : Process) (pts : list PPoint) (p' : Process) : Prop :=
  forall i, (i < 256)%nat -> ring_points i p' = ring_points i p ++ of_ring i pts.

Section channel.
Context (lookupTransform : nat -> string -> string -> stamp -> lookup_result).
Context (n : nat) (c : Calibration) (s : Settings).
Context (Helev : assigned (General_elev_angle_map_ c) n = true).
Context (Hgeneral : assigned (General_horizatal_azimuth_offset_map_ c) n = true).
Context (Hpcl : pcl_type_ s = true) (Hn : (n <= 256)%nat).

Lemma channel_store lasers pts p :
  channel_inv p -> lasers <= Z.of_nat n ->
  Forall (fun pt => 0 <= CompactCloud.ring pt < lasers) pts ->
  let p' := set_frame (store_points s pts (frame p)) p in channel_inv p' /\ channel_grows p pts p'.
Proof.
  intros [Hfx Htg Hlen Hidx Hrings Hout Hem] Hl Hpts p'.
  destruct (store_points_channels s pts (frame p) Hpcl) as [H1 H2]. split.
  - split; cbn; try done; rewrite ?H1, ?H2; [by rewrite length_imap|done|].
    intros i ch Hch. rewrite list_lookup_imap in Hch. apply fmap_Some in Hch as (ch0 & Hch0 & ->).
    apply Forall_app_2; [by apply Hrings|]. apply Forall_forall. intros pt Hpt.
    by apply list_elem_of_filter in Hpt as [? _].
  - intros i Hi. unfold ring_points. cbn. rewrite H2, list_lookup_imap, <- app_assoc. f_equal.
    destruct (lookup_lt_is_Some_2 (m_vPointCloudList (frame p)) i) as [ch Hch]; [lia|].
    by rewrite Hch.
Qed.

(** Collecting the first [lasers] channels and clearing them. *)
Lemma cleared_channels (lasers : nat) l (i : nat) :
  ringed 0 l -> (lasers <= length l)%nat -> (i < length l)%nat ->
  of_ring i (concat (take lasers l)) ++
    default [] ((replicate lasers [] ++ drop lasers l) !! i) = default [] (l !! i).
Proof.
  intros Hr Hl Hi. assert (ringed 0 (take lasers l)) as Htake.
  { intros j ch Hj. apply lookup_take_Some in Hj as [Hj _]. by apply Hr. }
  rewrite (of_ring_concat 0 _ _ Htake), decide_True, Nat.sub_0_r by lia.
  destruct (decide (i < lasers)%nat).
  - rewrite lookup_take_lt, lookup_app_l, lookup_replicate_2 by (rewrite ?length_replicate; lia).
    by rewrite app_nil_r.
  - rewrite lookup_take_ge, lookup_app_r, length_replicate, lookup_drop by (rewrite ?length_replicate; lia).
    cbn [default]. by replace (lasers + (i - lasers))%nat with i by lia.
Qed.

Lemma ringed_cleared (lasers : nat) l :
  ringed 0 l -> ringed 0 (replicate lasers [] ++ drop lasers l).
Proof.
  intros Hr i ch Hch. destruct (decide (i < lasers)%nat).
  - rewrite lookup_app_l, lookup_replicate_2 in Hch by (rewrite ?length_replicate; lia).
    injection Hch as <-. constructor.
  - rewrite lookup_app_r, length_replicate, lookup_drop in Hch by (rewrite ?length_replicate; lia).
    replace (lasers + (i - lasers))%nat with i in Hch by lia. by apply Hr.
Qed.

(** The end of a frame whose first channel has points. *)
Lemma end_frame_channel stamp lasers p first rest :
  channel_inv p -> 0 < lasers <= Z.of_nat n ->
  m_vPointCloudList (frame p) !! 0%nat = Some (first :: rest) ->
  exists p', end_frame lookupTransform c s stamp lasers p = Ret (true, p') /\
    channel_inv p' /\ carried p p' /\ channel_grows p [] p'.
Proof.
  intros [Hfx Htg Hlen Hidx Hrings Hout Hem] Hl Hfirst. unfold end_frame.
  destruct (correction_defined (E := thread_error) n c Helev Hgeneral lasers) as [msg ->]; [lia|].
  cbn [mbind outcome_bind]. unfold EmitBackMessege, collect. rewrite Hpcl. cbn [set_scan frame outMsg].
  set (k := Z.to_nat lasers). assert (0 < k <= 256)%nat as Hk by lia.
  destruct (append_channels_spec k 0 (m_vPointCloudList (frame p)) (outMsg p))
    as (cld & Happ & Hpts & Hshape); [lia|by intros []|].
  change (Z.of_nat 0) with 0 in Happ. rewrite Happ. cbn [mbind outcome_bind].
  rewrite Hout, drop_0 in Hpts. cbn [app] in Hpts.
  assert (exists tail, points cld = first :: tail) as [tail Htail].
  { rewrite Hpts. destruct (m_vPointCloudList (frame p)) as [|ch l]; [done|].
    injection Hfirst as ->. destruct k; [lia|]. by eexists. }
  cbn [set_outMsg outMsg]. rewrite Htail.
  destruct (clear_channels_spec k 0 (frame p)) as (fr & Hclear & Hfi & Hfl); [lia|].
  change (Z.of_nat 0) with 0 in Hclear. rewrite take_0 in Hfl. cbn [app Nat.add] in Hfl.
  cbn [add_emission set_outMsg set_scan frame].
  rewrite Hclear. cbn [mbind outcome_bind].
  unfold computeTransformToTarget. cbn [set_scan add_emission set_outMsg set_frame tf].
  rewrite (proj2 (Nat.eqb_neq k 0)) by lia.
  cbn [set_scan add_emission set_outMsg set_frame tf outMsg]. rewrite Htg.
  cbn [is_empty bool_decide mbind outcome_bind]. eexists. split; [reflexivity|].
  assert (channel_emission {| em_cloud := cld; em_timestamp := CompactCloud.timestamp first;
    em_scan := scan p ++ [msg] |}) as Hok.
  { destruct (Hshape ltac:(by rewrite Htail)) as [Hw Hh]. exists first, tail. cbn. split_and!; try done.
    { pose proof (Hrings _ _ Hfirst) as Hown. by apply Forall_cons in Hown as [? _]. }
    rewrite Hpts. apply (channels_sorted 0). intros i ch Hi.
    apply lookup_take_Some in Hi as [Hi _]. by apply Hrings. }
  split; [|split].
  - split; cbn; try done; rewrite ?Hfl.
    + rewrite length_app, length_replicate, length_drop. lia.
    + by rewrite Hfi.
    + by apply ringed_cleared.
    + by apply Forall_app_2; [|constructor].
  - unfold carried. split_and!; try done. cbn. by apply prefix_app_r.
  - intros i Hi. unfold ring_points. cbn. rewrite Hfl, fmap_app, concat_app, of_ring_app. cbn.
    rewrite !app_nil_r, <- app_assoc. f_equal. rewrite Hpts. apply cleared_channels; [done|lia|lia].
Qed.

Lemma frame_boundary_channel stamp cb lasers ts azimuth p :
  channel_inv p -> 0 < lasers <= Z.of_nat n ->
  exists p', frame_boundary lookupTransform c s cb stamp lasers ts azimuth p = Ret (true, p') /\
    channel_inv p' /\ carried p p' /\ channel_grows p [] p'.
Proof.
  intros Hinv Hl. assert (channel_grows p [] p) as Hrefl by (intros i _; by rewrite app_nil_r).
  unfold frame_boundary. destruct (new_frame _ _ _ _ _ && cb); [|by exists p].
  unfold frame_pending. rewrite (ci_index _ Hinv). cbn [Z.ltb Z.compare].
  destruct (lookup_lt_is_Some_2 (m_vPointCloudList (frame p)) 0) as [ch Hch];
    [rewrite (ci_channels _ Hinv); lia|].
  rewrite (arr_get_lookup _ 0 ch) by done. cbn [mbind outcome_bind].
  destruct ch as [|first rest]; cbn [length]; [by exists p|].
  destruct (Z.ltb_spec 0 (Z.of_nat (S (length rest)))); [|lia].
  by apply (end_frame_channel stamp lasers p first rest).
Qed.

Definition channel_mode : FramingMode lookupTransform n c s.
Proof.
  refine {| fm_inv _ := channel_inv; fm_grows := channel_grows |}.
  - done.
  - by intros _ p [].
  - intros _ p p' [] (Hf & He & Ho & Hx & Hg). split.
    + by split; rewrite ?Hf, ?He, ?Ho.
    + intros i _. unfold ring_points. by rewrite Hf, He, app_nil_r.
  - intros p1 l p2 l' p3 H1 H2 i Hi. by rewrite (H2 i Hi), (H1 i Hi), of_ring_app, app_assoc.
  - intros k lasers p Hinv Hk Hl. unfold room. rewrite Hpcl, (ci_channels _ Hinv). lia.
  - intros k lasers pts p Hinv Hk Hl _ Hpts. apply (channel_store lasers); [done|lia|done].
  - intros stamp cb lasers ts az k p Hinv Hk Hl. by apply frame_boundary_channel.
Defined.
End channel.
