(* ===== verification/FramingFacts.v ===== *)
(** What the processing thread of a PandarXT makes of a stream of packets, for
    both ways of collecting points; [xt_stream] is about the array. *)
From stdpp Require Import gmap.
From S2P Require Import Prelude Ieee IeeeRound IeeeInterval Stamps Calendar PacketDefenses.
From S2P Require Import CompactCloud PacketFormat ParseXT LidarTables PointCalc Correction Framing.
From S2P Require Import FrameModes.
#[local] Open Scope Z_scope.

(** ** Reception times *)

(** A reception time the message can hold: seconds of a 32-bit signed integer,
    not before 1970. *)
Lemma floor_stamp x : good_stamp x ->
  exists n, trunc (d_floor x) = Some n /\ 0 <= n < 2 ^ 31 /\
    dvalid (d_floor x) /\ dval (d_floor x) = n * 2 ^ 1074 /\ whole_seconds n x.
Proof.
  intros Hx. destruct (trunc_seconds x Hx) as (n & Hn & Hnb & Hw). pose proof Hx as [Vx Hb].
  change (2 ^ (- emin 53 1024)) with (2 ^ 1074) in Hb.
  assert (dwithin n n (d_floor x)) as Hfl.
  { destruct x as [sx| | |sx mx ex]; try by destruct Vx.
    - cbn [trunc] in Hn. injection Hn as <-. split; [done|]. cbn. lia.
    - assert (sx = false) as ->.
      { destruct sx; [|done]. exfalso. cbn [fval cond_Zopp] in Hb.
        pose proof (valid_exp 53 1024 ltac:(lia) _ _ _ Vx).
        pose proof (pow2_pos (ex - emin 53 1024) ltac:(lia)). nia. }
      cbn [trunc cond_Zopp] in Hn. injection Hn as Hn. cbn [d_floor cond_Zopp]. rewrite Hn.
      pose proof (within_of_Z 53 1024 ltac:(lia) n) as Hz.
      apply Hz. unfold representable. lia. }
  destruct (within_trunc 53 1024 ltac:(lia) _ _ _ Hfl) as (k & Hk & Hkb).
  destruct Hfl as [Vf Ef]. change (2 ^ (- emin 53 1024)) with (2 ^ 1074) in Ef.
  exists n. replace n with k by lia. split_and!; try done; try lia.
  by replace k with n by lia.
Qed.

Lemma raw_packet_stamp packet :
  good_stamp (pkt_stamp packet) -> 0 <= pkt_size packet <= zlen (pkt_data packet) ->
  exists sec nanosec,
    raw_packet packet = Ret {| stamp_sec := sec; stamp_nanosec := nanosec;
      data := take (Z.to_nat (pkt_size packet)) (pkt_data packet); size := pkt_size packet |} /\
    0 <= sec < 2 ^ 31 /\ 0 <= nanosec <= 1000000000.
Proof.
  intros Hs Hsize. destruct (floor_stamp _ Hs) as (n & Htr & Hn & Vf & Ef & Hw).
  destruct (nanoseconds_bounded (pkt_stamp packet) (d_floor (pkt_stamp packet)) n)
    as (ns & Hns & Hb); [by destruct Hs|done..|].
  exists n, ns. split; [|lia]. unfold raw_packet, to_signed, to_unsigned.
  rewrite Htr, decide_True by lia. cbn [mbind outcome_bind].
  rewrite Hns, decide_True by lia. cbn [mbind outcome_bind]. by rewrite decide_True.
Qed.

(** A packet received at least one second after the epoch is recorded with
    the whole seconds of its time stamp and less than 10^9 nanoseconds, which
    are off by at most one: multiplying by 1e9 never rounds into the next
    second. Its bytes are the first [size] of the buffer. *)
Theorem raw_packet_time (packet : PandarPacket)
    (Hs : good_stamp (pkt_stamp packet)) (H1 : 2 ^ 1074 <= dval (pkt_stamp packet))
    (Hsize : 0 <= pkt_size packet <= zlen (pkt_data packet)) :
  exists sec nanosec,
    raw_packet packet = Ret {| stamp_sec := sec; stamp_nanosec := nanosec;
      data := take (Z.to_nat (pkt_size packet)) (pkt_data packet); size := pkt_size packet |} /\
    whole_seconds sec (pkt_stamp packet) /\ 0 <= nanosec <= 999999999 /\
    (nanosec - 1) * 2 ^ 1074 <=
      (dval (pkt_stamp packet) - sec * 2 ^ 1074) * 1000000000 < (nanosec + 1) * 2 ^ 1074.
Proof.
  destruct (floor_stamp _ Hs) as (n & Htr & Hn & Vf & Ef & Hw). pose proof Hs as [Vx _].
  destruct (nanoseconds_spec _ (d_floor (pkt_stamp packet)) n Vx Vf H1 Ef Hw)
    as (ns & Hns & Hb & Hacc).
  exists n, ns. split; [|done]. unfold raw_packet, to_signed, to_unsigned.
  rewrite Htr, decide_True by lia. cbn [mbind outcome_bind].
  rewrite Hns, decide_True by lia. cbn [mbind outcome_bind]. by rewrite decide_True.
Qed.

(** ** Frames of a PandarXT without tf frames, in either mode *)

Section stream.
Context (lookupTransform : nat -> string -> string -> stamp -> lookup_result).
Context (sinf cosf : float -> float) (t : string) (n : nat) (c : Calibration) (s : Settings).
Context (char_signed : bool) (mktime : tm -> Z).
Context (Ht : (t, n) ∈ lidar_types) (Hxt : is_xt t = true) (Hc : usable t n c).
Context (Hs : m_sLidarType s = t).

(** The points of one block and of one packet received at [ts]. *)
Abbreviation block_points ts r b :=
  (xt_points sinf cosf c s no_transforms char_signed mktime ts r b).
Definition packet_points (ts : float) (r : raw_xt) : list PPoint :=
  concat ((fun b => block_points ts r b) <$> seq 0 (length (rx_blocks r))).

Lemma xt_packet_azimuth r (b : nat) blk :
  wf_xt r -> rx_blocks r !! b = Some blk ->
  packet_azimuth (decode_xt char_signed mktime r) (Z.of_nat b) = Ret (raw_azimuth blk).
Proof.
  intros Hr Hb. destruct (wf_layout r Hr) as [len Hlay].
  pose proof (xt_layout_bounds _ _ _ Hlay) as (_ & Hnb & Hnl & _).
  pose proof (Forall_lookup_1 _ _ _ _ (wf_blocks r Hr) Hb) as (_ & Hlen & _).
  destruct (lookup_lt_is_Some_2 (raw_units blk) 0) as [u Hu]; [lia|].
  pose proof (xt_packet_unit (E := thread_error) char_signed mktime r b blk 0 u Hr Hb
    ltac:(lia) Hu) as Hunit.
  unfold packet_unit in Hunit. unfold packet_azimuth.
  apply bind_Ret_inv in Hunit as (block & -> & Hunit).
  apply bind_Ret_inv in Hunit as (un & _ & Hunit). cbn [mbind outcome_bind].
  destruct (azimuth block), un; try done. by injection Hunit as ->.
Qed.

Lemma length_xt_points ts r b : zlen (block_points ts r b) <= Z.max 0 (rx_lasers r).
Proof.
  unfold xt_points. set (f := xt_point _ _ _ _ _ _ _ _ _ _).
  assert (forall l, (length (omap f l) <= length l)%nat) as H.
  { induction l as [|i l IH]; cbn [omap list_omap length]; [done|].
    destruct (f i); cbn [length]; lia. }
  pose proof (H (seqZ 0 (rx_lasers r))). rewrite length_seqZ in *. lia.
Qed.

Lemma xt_rings ts r b :
  xt_packet t n r -> (b < length (rx_blocks r))%nat ->
  Forall (fun pt => 0 <= CompactCloud.ring pt < rx_lasers r) (block_points ts r b).
Proof.
  intros Hp Hb. rewrite <- (Forall_fmap CompactCloud.ring (fun i => 0 <= i < rx_lasers r)).
  rewrite (xt_points_rings (E := thread_error) sinf cosf t n c s no_transforms char_signed mktime ts
    Hxt Hc r b Hs Hp Hb).
  apply Forall_forall. intros i Hi. apply list_elem_of_filter in Hi as [_ Hi].
  apply elem_of_seqZ in Hi. lia.
Qed.

Lemma xt_block_spec ts r (b : nat) :
  xt_packet t n r -> (b < length (rx_blocks r))%nat ->
  let pkt := decode_xt char_signed mktime r in
  block_spec s (rx_lasers r) (packet_azimuth pkt (Z.of_nat b))
    (fun tr => CalcXTPointXYZIT sinf cosf c s tr pkt ts (Z.of_nat b) (rx_lasers r))
    (block_points ts r b).
Proof.
  intros Hp Hb pkt. pose proof Hp as [Hwf Hn _]. destruct (wf_layout r Hwf) as [len Hlay].
  pose proof (xt_layout_bounds _ _ _ Hlay) as (_ & _ & Hnl & _).
  destruct (lookup_lt_is_Some_2 (rx_blocks r) b Hb) as [blk Hblk]. split.
  - eexists. by apply xt_packet_azimuth.
  - intros fr Hroom. by apply (CalcXT_spec (E := thread_error) sinf cosf t n c s).
  - by apply xt_rings.
  - pose proof (length_xt_points ts r b). lia.
Qed.

(** ** The fate of a packet *)

Inductive fate :=
  | Stale
  | Foreign
  | Malformed
  | Rejected (d : SequenceDecision)
  | Used (ts : float) (d : SequenceDecision) (r : raw_xt).

(** What should happen to a packet, from the guard's and the tracker's state
    before to those after. *)
Inductive xt_fate (packet : PandarPacket) (g : TimestampGuard) (q : XtSequenceTracker) :
    fate -> TimestampGuard -> XtSequenceTracker -> Prop :=
  | fate_stale d g' :
      guard_observe (pkt_stamp packet) g = (d, g') -> timestamp_accepted d = false ->
      xt_fate packet g q Stale g' q
  | fate_foreign d g' :
      guard_observe (pkt_stamp packet) g = (d, g') -> timestamp_accepted d = true ->
      packet_branch s (pkt_size packet) = None -> xt_fate packet g q Foreign g' q
  | fate_malformed d g' :
      guard_observe (pkt_stamp packet) g = (d, g') -> timestamp_accepted d = true ->
      packet_branch s (pkt_size packet) = Some BXT -> ~ xt_acceptable (pkt_data packet) (pkt_size packet) ->
      xt_fate packet g q Malformed g' q
  | fate_rejected d g' r e q' :
      guard_observe (pkt_stamp packet) g = (d, g') -> timestamp_accepted d = true ->
      packet_branch s (pkt_size packet) = Some BXT -> wf_xt r ->
      take (Z.to_nat (pkt_size packet)) (pkt_data packet) = encode_xt r ->
      tracker_observe (rx_sequence r) (pkt_stamp packet) q = (e, q') ->
      sequence_accepted e = false -> xt_fate packet g q (Rejected e) g' q'
  | fate_used d g' r e q' :
      guard_observe (pkt_stamp packet) g = (d, g') -> timestamp_accepted d = true ->
      packet_branch s (pkt_size packet) = Some BXT -> wf_xt r ->
      take (Z.to_nat (pkt_size packet)) (pkt_data packet) = encode_xt r ->
      tracker_observe (rx_sequence r) (pkt_stamp packet) q = (e, q') ->
      sequence_accepted e = true -> xt_fate packet g q (Used (pkt_stamp packet) e r) g' q'.

(** The points a packet contributes. *)
Definition fate_points (f : fate) : list PPoint :=
  match f with Used ts _ r => packet_points ts r | _ => [] end.

(** How a packet is counted. *)
Definition fate_tail (f : fate) (k : Counters) : Counters :=
  match f with
  | Stale => count_regression k
  | Foreign | Malformed => k
  | Rejected d | Used _ d _ => (count_sequence d k).2
  end.
Definition fate_count (f : fate) (k : Counters) : Counters := fate_tail f (count_processed k).

Lemma fate_count_processed f k :
  m_processedPackets (fate_count f k) = u64 (m_processedPackets k + 1).
Proof. destruct f; cbn; try done; unfold count_sequence; by repeat case_match. Qed.

(** A packet as the receiving side produces it: a full buffer of bytes, a size
    within it and not that of another model's packets, a representable reception
    time if finite, and the triple return mode from a PandarXTM only.  The code
    parses a packet of another model's size as that model's, and reads the time
    offsets of triple returns for every PandarXT: table elements that are never
    assigned, so such packets may fault and are left out. *)
Record good_packet (packet : PandarPacket) : Prop := {
  gp_bytes : Forall is_byte (pkt_data packet);
  gp_size : 0 <= pkt_size packet <= zlen (pkt_data packet);
  gp_model : packet_branch s (pkt_size packet) = None \/
    packet_branch s (pkt_size packet) = Some BXT;
  gp_stamp : isfinite (pkt_stamp packet) = true -> good_stamp (pkt_stamp packet);
  gp_echo : forall r, take (Z.to_nat (pkt_size packet)) (pkt_data packet) = encode_xt r ->
    rx_echo r = 0x3d -> t = "PandarXTM"%string;
}.

Lemma accepted_finite g ts : timestamp_accepted (guard_observe ts g).1 = true -> isfinite ts = true.
Proof.
  unfold guard_observe. destruct (isfinite ts); [done|]. cbn. done.
Qed.

Lemma xt_types : (t, n) ∈ [("PandarXT-32", 32%nat); ("PandarXT-16", 16%nat); ("PandarXTM", 32%nat)].
Proof.
  assert (forallb (fun tn => negb (is_xt tn.1) || bool_decide (tn ∈
    [("PandarXT-32", 32%nat); ("PandarXT-16", 16%nat); ("PandarXTM", 32%nat)])) lidar_types = true)
    as Hall by (vm_compute; reflexivity).
  rewrite forallb_forall in Hall. specialize (Hall _ (proj1 (list_elem_of_In _ _) Ht)).
  cbn [fst] in Hall. rewrite Hxt in Hall. by apply bool_decide_eq_true_1 in Hall.
Qed.

Lemma branch_lasers size r :
  packet_branch s size = Some BXT -> wf_xt r -> zlen (encode_xt r) = size ->
  rx_lasers r <= Z.of_nat n.
Proof.
  intros Hbr Hr Hlen. destruct (wf_layout r Hr) as [len Hlay].
  pose proof (xt_layout_bounds _ _ _ Hlay) as (_ & _ & _ & Hl & _).
  rewrite <- (length_encode_xt r Hr), Hlen in Hl. subst len.
  unfold packet_branch, is_type in Hbr. rewrite Hs in Hbr.
  pose proof xt_types as Htn. unfold xt_layouts in Hlay.
  rewrite !elem_of_cons, elem_of_nil in Hlay. rewrite !elem_of_cons, elem_of_nil in Htn.
  destruct Hlay as [H|[H|[H|[]]]]; pose proof (f_equal (fun x => x.1.1) H) as Hsz;
    pose proof (f_equal snd H) as Hla; cbn [fst snd] in Hsz, Hla; rewrite Hsz in Hbr; rewrite Hla;
    destruct Htn as [Hn|[Hn|[Hn|[]]]]; pose proof (f_equal fst Hn) as Et;
    pose proof (f_equal snd Hn) as En; cbn [fst snd] in Et, En; rewrite Et in Hbr; rewrite En;
    first [lia|vm_compute in Hbr; discriminate Hbr].
Qed.

Lemma counted_sequence d k :
  (count_sequence d k).1 = sequence_accepted d.
Proof. unfold count_sequence, sequence_accepted. by destruct (sd_status d). Qed.

Lemma xt_packet_size r : wf_xt r -> zlen (rx_blocks r) * rx_lasers r <= 256 /\ 0 < rx_lasers r.
Proof.
  intros Hr. destruct (wf_layout r Hr) as [len Hlay].
  pose proof (xt_layout_bounds _ _ _ Hlay) as (_ & Hnb & Hnl & _). nia.
Qed.


Section mode.
Context {M : FramingMode lookupTransform n c s}.

(** The blocks of an accepted packet. *)
Lemma process_blocks_xt cb rawpacket ts r k p :
  fm_inv (k + 256) p -> 0 <= k -> xt_packet t n r ->
  let pkt := decode_xt char_signed mktime r in
  exists p',
    process_blocks lookupTransform c s cb rawpacket (chBlockNumber (header pkt))
      (chLaserNumber (header pkt)) (timestamp_point pkt) (packet_azimuth pkt)
      (fun tr i => CalcXTPointXYZIT sinf cosf c s tr pkt ts i (chLaserNumber (header pkt))) p =
      Ret (true, p') /\
    fm_inv k p' /\ carried p p' /\ fm_grows p (packet_points ts r) p'.
Proof.
  intros Hinv Hk Hp pkt. destruct (xt_packet_size r (xp_wf _ _ _ Hp)) as [Hmax Hpos].
  subst pkt. cbn [decode_xt header chBlockNumber chLaserNumber].
  apply (process_blocks_mode lookupTransform n c s cb rawpacket (length (rx_blocks r))
    (rx_lasers r) _ _ _ (fun b => block_points ts r b)); [|by destruct Hp|done|].
  - intros b Hb. by apply (xt_block_spec ts r b).
  - by apply (fm_mono (k + 256)); [lia|].
Qed.

(** The branch for PandarXT packets. *)
Lemma process_XT_fate cb packet rawpacket g k p d :
  fm_inv (k + 256) p -> 0 <= k -> good_packet packet ->
  guard_observe (pkt_stamp packet) g = (d, m_packetTimestampGuard p) ->
  timestamp_accepted d = true -> packet_branch s (pkt_size packet) = Some BXT ->
  m_dPktTimestamp p = pkt_stamp packet ->
  exists p' f,
    process_XT lookupTransform sinf cosf c s cb char_signed mktime packet rawpacket p =
      Ret (true, p') /\ fm_inv k p' /\
    xt_fate packet g (m_xtSequenceTracker p) f (m_packetTimestampGuard p') (m_xtSequenceTracker p')
    /\ fm_grows p (fate_points f) p' /\ counters p' = fate_tail f (counters p) /\
    emitted p `prefix_of` emitted p'.
Proof.
  intros Hinv Hk Hgood Hg Hacc Hbr Hts. pose proof Hgood as [Hbytes Hsize _ _ Hecho].
  unfold process_XT.
  match goal with |- context [with_fixed_frame _ _ ?k0 _] =>
    destruct (with_fixed_frame_empty lookupTransform n c s rawpacket _ p k0 Hinv)
      as (tfs & Hf1 & Hf2 & ->) end.
  destruct (fm_ext _ p (set_tf tfs p) Hinv) as [Hinv' Hall']; [by split|].
  assert (pkt_size packet <= zlen (pkt_data packet)) as Hle by lia.
  destruct (decide (xt_acceptable (pkt_data packet) (pkt_size packet))) as [Ha|Hna].
  2: { rewrite ParseXTData_rejects by done. exists (set_tf tfs p), Malformed. cbn [parsed].
       split; [done|]. split; [by apply (fm_mono (k + 256)); [lia|]|].
       split; [by eapply fate_malformed|]. split_and!; done. }
  destruct (ParseXTData_accepts char_signed mktime _ _ Hbytes Hle Ha) as (r & Hr & Henc & ->).
  assert (zlen (encode_xt r) = pkt_size packet) as Hlen
    by (rewrite <- Henc, length_take; lia).
  assert (xt_packet t n r) as Hp.
  { split; [done|by eapply branch_lasers|]. by apply Hecho. }
  cbn [parsed]. change (udp_sequence (decode_xt char_signed mktime r)) with (rx_sequence r).
  change (m_xtSequenceTracker (set_tf tfs p)) with (m_xtSequenceTracker p).
  destruct (tracker_observe (rx_sequence r) (pkt_stamp packet) (m_xtSequenceTracker p)) as [e q']
    eqn:Hq.
  change (counters (set_tf tfs p)) with (counters p).
  pose proof (counted_sequence e (counters p)) as Hcount.
  destruct (count_sequence e (counters p)) as [accepted kc] eqn:Hkc. cbn [fst] in Hcount.
  set (p1 := set_counters kc (set_tracker q' (set_tf tfs p))).
  destruct (fm_ext _ p p1 Hinv) as [Hinv1 Hall1]; [by split|].
  destruct accepted; cbn [negb].
  2: { exists p1, (Rejected e). split; [done|].
       split; [by apply (fm_mono (k + 256)); [lia|]|].
       split; [by eapply fate_rejected|]. split; [done|].
       split; [cbn [fate_tail]; by rewrite Hkc|done]. }
  change (m_dPktTimestamp p1) with (m_dPktTimestamp p). rewrite Hts.
  destruct (process_blocks_xt cb rawpacket (pkt_stamp packet) r k p1 Hinv1 Hk Hp)
    as (p3 & Hrun & Hinv3 & (C1 & C2 & C3 & _ & _ & _ & C7) & Hall3).
  exists p3, (Used (pkt_stamp packet) e r). split; [exact Hrun|]. split; [done|].
  rewrite C1, C2, C3. split; [by eapply fate_used|]. split; [exact (fm_trans _ _ _ _ _ Hall1 Hall3)|].
  split; [cbn [fate_tail]; by rewrite Hkc|exact C7].
Qed.

Lemma process_packet_mode cb packet k p :
  fm_inv (k + 256) p -> 0 <= k -> good_packet packet ->
  exists p' f,
    process_packet lookupTransform sinf cosf c s cb char_signed mktime packet p = Ret (true, p') /\
    fm_inv k p' /\
    xt_fate packet (m_packetTimestampGuard p) (m_xtSequenceTracker p) f
      (m_packetTimestampGuard p') (m_xtSequenceTracker p') /\
    fm_grows p (fate_points f) p' /\ counters p' = fate_count f (counters p) /\
    emitted p `prefix_of` emitted p'.
Proof.
  intros Hinv Hk Hgood. destruct (fm_frames _ _ Hinv) as [Hx Hy]. unfold process_packet.
  set (p0 := set_counters (count_processed (counters p)) p).
  change (m_packetTimestampGuard p0) with (m_packetTimestampGuard p).
  destruct (guard_observe (pkt_stamp packet) (m_packetTimestampGuard p)) as [d g'] eqn:Hg.
  set (p1 := set_guard g' p0).
  destruct (timestamp_accepted d) eqn:Hacc; cbn [negb].
  2: { set (p2 := set_counters (count_regression (counters p1)) p1). exists p2, Stale.
       destruct (fm_ext _ p p2 Hinv) as [Hinv2 Hall2]; [by split|].
       split; [done|]. split; [by apply (fm_mono (k + 256)); [lia|]|].
       split; [by eapply fate_stale|]. by split. }
  assert (good_stamp (pkt_stamp packet)) as Hstamp.
  { apply (gp_stamp _ Hgood), (accepted_finite (m_packetTimestampGuard p)). by rewrite Hg. }
  destruct (raw_packet_stamp packet Hstamp (gp_size _ Hgood)) as (sec & nanosec & -> & _).
  cbn [mbind outcome_bind]. set (raw := {| stamp_sec := sec |}).
  set (p2 := set_pkt_timestamp (pkt_stamp packet) p1).
  destruct (fm_ext _ p p2 Hinv) as [Hinv2 Hall2]; [by split|].
  destruct (gp_model _ Hgood) as [Hbr|Hbr]; rewrite Hbr.
  - exists p2, Foreign. split; [done|]. split; [by apply (fm_mono (k + 256)); [lia|]|].
    split; [by eapply fate_foreign|]. by split.
  - destruct (process_XT_fate cb packet raw (m_packetTimestampGuard p) k p2 d)
      as (p3 & f & Hrun & Hinv3 & Hfate & Hall3 & Hcnt & Hpre); try done.
    exists p3, f. split; [exact Hrun|]. split; [done|]. split; [exact Hfate|].
    split; [exact (fm_trans _ _ _ _ _ Hall2 Hall3)|]. by rewrite Hcnt.
Qed.
End mode.

(** ** Array mode *)

Context (Hpcl : pcl_type_ s = false).

#[local] Definition arrays : FramingMode lookupTransform n c s :=
  array_mode lookupTransform n c s (us_elev _ _ _ Hc) (us_general _ _ _ Hc) Hpcl.

Lemma process_packet_fate cb packet k p :
  framing_inv (k + 256) p -> 0 <= k -> good_packet packet ->
  exists p' f,
    process_packet lookupTransform sinf cosf c s cb char_signed mktime packet p = Ret (true, p') /\
    framing_inv k p' /\
    xt_fate packet (m_packetTimestampGuard p) (m_xtSequenceTracker p) f
      (m_packetTimestampGuard p') (m_xtSequenceTracker p') /\
    all_points p' = all_points p ++ fate_points f /\ counters p' = fate_count f (counters p) /\
    emitted p `prefix_of` emitted p'.
Proof. apply (process_packet_mode (M := arrays)). Qed.

(** ** Histories *)

(** The fates of the packets of a run, in order. *)
Inductive xt_history : list PandarPacket -> TimestampGuard -> XtSequenceTracker -> list fate ->
    TimestampGuard -> XtSequenceTracker -> Prop :=
  | history_nil g q : xt_history [] g q [] g q
  | history_cons packet packets g q f g1 q1 fs g2 q2 :
      xt_fate packet g q f g1 q1 -> xt_history packets g1 q1 fs g2 q2 ->
      xt_history (packet :: packets) g q (f :: fs) g2 q2.

(** Fewer than 256 points of room are left: one more packet might not fit. *)
Definition overfull (p : Process) : Prop :=
  MAX_POINT_CLOUD_NUM < m_iPointCloudIndex (frame p) + 256.

Lemma process_packets_history cb packets p :
  framing_inv 0 p -> Forall good_packet packets ->
  let run pkts := process_packets lookupTransform sinf cosf c s cb char_signed mktime pkts p in
  (exists pre packet post p1, packets = pre ++ packet :: post /\ run pre = Ret (true, p1) /\
     overfull p1) \/
  (exists p' fs, run packets = Ret (true, p') /\ framing_inv 0 p' /\
    xt_history packets (m_packetTimestampGuard p) (m_xtSequenceTracker p) fs
      (m_packetTimestampGuard p') (m_xtSequenceTracker p') /\
    all_points p' = all_points p ++ concat (fate_points <$> fs) /\
    counters p' = foldl (flip fate_count) (counters p) fs).
Proof.
  intros Hinv Hgood. revert p Hinv. induction Hgood as [|packet packets Hp _ IH]; intros p Hinv run.
  { right. exists p, []. rewrite app_nil_r. split_and!; try done. constructor. }
  destruct (decide (MAX_POINT_CLOUD_NUM < m_iPointCloudIndex (frame p) + 256)) as [Ho|Hno].
  { left. by exists [], packet, packets, p. }
  destruct (process_packet_fate cb packet 0 p) as (p1 & f & Hrun & Hinv1 & Hf & Hall1 & Hcnt1 & _);
    [destruct Hinv; split; try done; lia|done|done|].
  subst run. cbv beta. destruct (IH p1 Hinv1) as [(pre & pk & post & p2 & -> & Hpre & Ho)|
    (p2 & fs & Hrest & Hinv2 & Hh & Hall2 & Hcnt2)]; cbn [process_packets].
  - left. exists (packet :: pre), pk, post, p2. split; [done|].
    cbn [process_packets]. rewrite Hrun. cbn [mbind outcome_bind negb]. by split.
  - right. exists p2, (f :: fs). rewrite Hrun. cbn [mbind outcome_bind negb].
    split; [done|]. split; [done|]. split; [by eapply history_cons|].
    rewrite Hall2, Hall1, Hcnt2, Hcnt1, <- app_assoc. by split.
Qed.
End stream.

(** C3: the processing thread of a PandarXT in array mode without tf frames, with
    any usable calibration, on the packets of [good_packet]: full buffers of any
    bytes, whose size is one of the PandarXT family's or one that no parser takes,
    whose reception time is in range if finite, and whose echo byte is 0x3d only if
    they come from a PandarXTM (the code also accepts other models' sizes, and 0x3d
    from any PandarXT, and then reads table elements that were never assigned).
    Unless a frame comes within 256 points of the end of [m_vPointCloud], it never
    leaves its arrays nor stops, each packet meets exactly one fate (stale time
    stamp, other size, malformed, duplicate or backward sequence number, used) and is
    counted accordingly, and the clouds handed to the callback together with the
    unfinished frame hold exactly the points of the used packets, in order: none
    lost, none twice. No empty cloud is handed out, and each carries the time of its
    first point. *)
Theorem xt_stream (lookupTransform : nat -> string -> string -> stamp -> lookup_result)
    (sinf cosf : float -> float) (t : string) (n : nat) (c : Calibration) (s : Settings)
    (pcl_callback char_signed : bool) (mktime : tm -> Z) (now : stamp)
    (packets : list PandarPacket) (p : Process)
    (Ht : (t, n) ∈ lidar_types) (Hxt : is_xt t = true) (Hc : usable t n c)
    (Hs : m_sLidarType s = t) (Hpcl : pcl_type_ s = false)
    (Hp : framing_inv 0 p) (Hpackets : Forall (good_packet t s) packets) :
  let run pkts := ProcessLiarPacket lookupTransform sinf cosf c s pcl_callback char_signed mktime
    now pkts p in
  (exists pre packet post p', packets = pre ++ packet :: post /\ run pre = Ret (true, p') /\
     overfull p') \/
  (exists p' fs, run packets = Ret (true, p') /\ Forall emission_ok (emitted p') /\
    xt_history s packets (m_packetTimestampGuard p) (m_xtSequenceTracker p) fs
      (m_packetTimestampGuard p') (m_xtSequenceTracker p') /\
    all_points p' =
      all_points p ++ concat (fate_points sinf cosf c s char_signed mktime <$> fs) /\
    counters p' = foldl (flip fate_count) (counters p) fs).
Proof.
  intros run.
  assert (forall pkts, run pkts = process_packets lookupTransform sinf cosf c s
    pcl_callback char_signed mktime pkts p) as Hrun.
  { intros pkts. apply ProcessLiarPacket_no_target, (fi_target _ _ Hp). }
  destruct (process_packets_history lookupTransform sinf cosf t n c s char_signed mktime Ht Hxt Hc Hs
    Hpcl pcl_callback packets p Hp Hpackets) as [(pre & pk & post & p1 & -> & Hpre & Ho)|
    (p1 & fs & Hr & Hinv & Hh & Hall & Hcnt)].
  - left. exists pre, pk, post, p1. by rewrite Hrun.
  - right. exists p1, fs. rewrite Hrun. split; [done|]. split; [apply Hinv|]. by split.
Qed.

(** Two packets of a PandarXTM on both sides of the start angle 0. *)
Definition xtm_example (sequence azimuth : Z) : raw_xt :=
  {| rx_major := 6; rx_minor := 1; rx_gap1 := [0; 0]; rx_lasers := 32; rx_return := 1;
     rx_disunit := 4; rx_gap2 := [0; 0];
     rx_blocks := (fun b => {| raw_azimuth := azimuth + b; raw_units := replicate 32
       {| raw_range := 2500; raw_intensity := 77; raw_confidence := 1 |} |}) <$> seqZ 0 6;
     rx_reserved := replicate 10 0; rx_echo := 0x3d; rx_speed := 600;
     rx_utc := [24; 2; 29; 12; 34; 56]; rx_timestamp := 250000; rx_factory := 66;
     rx_sequence := sequence |}.

Definition xtm_packet (sequence azimuth : Z) (time : float) : PandarPacket :=
  {| pkt_data := encode_xt (xtm_example sequence azimuth) ++ replicate 680 0; pkt_size := 820;
     pkt_stamp := time |}.

Definition xtm_settings : Settings :=
  {| m_sTimestampType := ""; tz_second_ := 0; pcl_type_ := false; m_sLidarType := "PandarXTM";
     m_bCoordinateCorrectionFlag := false; m_sFrameId := "lidar" |}.

(** The state [Start] leaves. *)
Definition started (start_angle : Z) (tfs : TfState) : Process :=
  {| start_angle_ := start_angle; last_azimuth_ := 0; last_timestamp_ := d_of_Z 0;
     m_dPktTimestamp := d_of_Z 0;
     m_packetTimestampGuard := guard_new kTimestampRegressionToleranceSec;
     m_xtSequenceTracker := tracker_new kXtSequenceRestartIdleSec;
     counters := {| m_processedPackets := 0; m_packetTimestampRegressions := 0;
       m_sequenceGapPackets := 0; m_sequenceDuplicates := 0; m_sequenceBackwards := 0;
       m_sequenceRestarts := 0; m_emptyCloudDrops := 0 |};
     frame := empty_frame; outMsg := new_cloud; scan := []; tf := tfs; emitted := [] |}.

Definition no_tf (sensor target : string) : TfState :=
  {| m_sSensorFrame := sensor; m_sFixedFrame := ""; m_sTargetFrame := target;
     m_tf_buffer := false; m_tf_matrix_to_fixed := id; m_tf_matrix_to_target := id;
     tf_queries := 0 |}.

Definition xtm_packets : list PandarPacket :=
  [xtm_packet 7 35990 (d_lit 1005 10); xtm_packet 8 100 (d_lit 10051 100);
   xtm_packet 8 100 (d_lit 10052 100)].

Abbreviation xtm_run packets :=
  (ProcessLiarPacket (fun _ _ _ _ => LookupFailed) id id (Init id id "PandarXTM")
    xtm_settings true true mktime_utc (0, 0) packets (started 0 (no_tf "lidar" ""))).

Lemma xtm_packets_good : Forall (good_packet "PandarXTM" xtm_settings) xtm_packets.
Proof.
  unfold xtm_packets. repeat (apply Forall_cons_2; [split;
      [apply (bool_decide_unpack _); vm_compute; exact I
      |split; vm_compute; discriminate
      |right; vm_compute; reflexivity
      |intros _; split; [solve_valid|split; vm_compute; discriminate]
      |intros; reflexivity]|]). constructor.
Qed.

Lemma raw_packet_time_witness :
  exists raw, raw_packet (xtm_packet 7 35990 (d_lit 1005 10)) = Ret raw /\
    stamp_sec raw = 100 /\ 0 <= stamp_nanosec raw <= 999999999.
Proof.
  assert (dvalid (d_lit 1005 10)) as V by solve_valid.
  destruct (raw_packet_time (xtm_packet 7 35990 (d_lit 1005 10))
    ltac:(split; [exact V|vm_compute; split; discriminate]) ltac:(vm_compute; discriminate)
    ltac:(vm_compute; split; discriminate)) as (sec & nanosec & Hraw & Hw & Hb & _).
  eexists. split; [exact Hraw|]. split; [|exact Hb]. cbn [stamp_sec].
  change (dval (pkt_stamp _)) with (dval (d_lit 1005 10)) in Hw. unfold whole_seconds in Hw.
  assert (100 * 2 ^ 1074 <= dval (pkt_stamp (xtm_packet 7 35990 (d_lit 1005 10))) < 101 * 2 ^ 1074)
    by (vm_compute; split; [discriminate|reflexivity]).
  lia.
Defined.

Lemma xtm_room k : (k <= 2)%nat ->
  match xtm_run (take k xtm_packets) with
  | Ret (_, p) => bool_decide (m_iPointCloudIndex (frame p) + 256 <= MAX_POINT_CLOUD_NUM)
  | _ => true
  end = true.
Proof. intros Hk. destruct k as [|[|[|k]]]; [vm_compute; reflexivity..|lia]. Qed.

Lemma xtm_result :
  match xtm_run xtm_packets with
  | Ret (_, p) => bool_decide (length (concat ((fun e => points (em_cloud e)) <$> emitted p)) = 192%nat /\
      m_sequenceDuplicates (counters p) = 1)
  | _ => false
  end = true.
Proof. vm_compute. reflexivity. Qed.

Lemma xt_stream_witness :
  exists p', xtm_run xtm_packets = Ret (true, p') /\ Forall emission_ok (emitted p') /\
    length (concat ((fun e => points (em_cloud e)) <$> emitted p')) = 192%nat /\
    m_sequenceDuplicates (counters p') = 1.
Proof.
  assert (framing_inv 0 (started 0 (no_tf "lidar" ""))) as Hinv
    by (split; try done; vm_compute; discriminate).
  assert (("PandarXTM", 32%nat) ∈ lidar_types) as Ht
    by (apply (bool_decide_unpack _); vm_compute; exact I).
  destruct (xt_stream (fun _ _ _ _ => LookupFailed) id id "PandarXTM" 32 (Init id id "PandarXTM")
    xtm_settings true true mktime_utc (0, 0) xtm_packets (started 0 (no_tf "lidar" ""))
    Ht eq_refl (init_usable id id _ _ Ht) eq_refl eq_refl Hinv xtm_packets_good)
    as [(pre & pk & post & p1 & Hpk & Hrun & Ho)|(p1 & fs & Hrun & Hem & _)].
  - exfalso. assert (length pre <= 2)%nat as Hlen.
    { pose proof (f_equal length Hpk) as Hl. rewrite length_app in Hl. simpl in Hl. lia. }
    pose proof (xtm_room (length pre) Hlen) as Hroom. rewrite Hpk, take_app_length in Hroom.
    rewrite Hrun in Hroom. apply bool_decide_eq_true_1 in Hroom.
    unfold overfull in Ho. lia.
  - exists p1. pose proof xtm_result as Htest.
    split; [exact Hrun|]. split; [exact Hem|].
    rewrite Hrun in Htest. by apply bool_decide_eq_true_1 in Htest.
Defined.

(** ** Where a frame ends *)

(** The forward sweep from [last] (excluded) to [azimuth] (included) passes
    [start], all in hundredths of a degree. *)
Definition passes (last azimuth start : Z) : Prop :=
  0 < (start - last) mod 36000 <= (azimuth - last) mod 36000.

Lemma forward_gap a b : 0 <= a < 36000 -> 0 <= b < 36000 ->
  (a - b) mod 36000 = if decide (a < b) then a + 36000 - b else a - b.
Proof.
  intros Ha Hb. case_decide; symmetry; [apply Z.mod_unique with (-1); lia|].
  symmetry. apply Z.mod_small. lia.
Qed.

(** C36: a new frame begins exactly when the sweep since the last block passes
    the start angle, at less than 100 turns a second; except that a sweep
    through zero never ends a frame if the start angle lies before zero, so a
    start angle the blocks always skip that way ends no frame at all. *)
Theorem frame_boundary_passes (last azimuth start : Z) (last_timestamp timestamp_point : float)
    (Hl : 0 <= last < 36000) (Ha : 0 <= azimuth < 36000) (Hs : 0 <= start < 36000) :
  let gap := (azimuth - last) mod 36000 in
  let time := d_add (d_sub timestamp_point last_timestamp) (d_lit 1 1000) in
  new_frame last last_timestamp start azimuth timestamp_point = true <->
  passes last azimuth start /\ ~ (azimuth < last < start) /\
  SFltb (d_div (d_of_Z gap) time) (d_of_Z 3600000) = true.
Proof.
  intros gap time. unfold new_frame, passes. fold time.
  assert ((if azimuth <? last then azimuth + (36000 - last) else azimuth - last) = gap) as ->.
  { subst gap. destruct (Z.ltb_spec azimuth last).
    - apply Z.mod_unique with (-1); lia.
    - symmetry. apply Z.mod_small. lia. }
  change (MAX_AZIMUTH_DEGREE_NUM * 100) with 3600000.
  destruct (SFltb _ _); [|rewrite andb_false_r; intuition discriminate].
  rewrite andb_true_r, andb_true_iff, orb_true_iff, !andb_true_iff, negb_true_iff.
  rewrite Z.eqb_neq, !Z.ltb_lt, !Z.leb_le.
  subst gap. rewrite !forward_gap by done.
  repeat case_decide; split; intros Hx; split_and!; lia.
Qed.

Lemma frame_boundary_passes_witness :
  new_frame 35990 (d_of_Z 0) 0 100 (d_of_Z 0) = true /\
  new_frame 35990 (d_of_Z 0) 35995 100 (d_of_Z 0) = false.
Proof.
  split.
  - apply (frame_boundary_passes 35990 100 0 (d_of_Z 0) (d_of_Z 0)); [lia..|].
    split; [vm_compute; split; [reflexivity|discriminate]|]. split; [lia|vm_compute; reflexivity].
  - destruct (new_frame 35990 (d_of_Z 0) 35995 100 (d_of_Z 0)) eqn:H; [|reflexivity].
    apply (frame_boundary_passes 35990 100 35995 (d_of_Z 0) (d_of_Z 0)) in H; [|lia..].
    destruct H as (_ & H & _). exfalso. apply H. lia.
Defined.

(** ** A target frame stops the thread *)

(** The tf buffer is made when the first packet is processed, but with a
    target frame configured the thread asks it for a transformation before its
    loop: the function returns at once and no packet is ever processed. *)
Theorem target_frame_stops (lookupTransform : nat -> string -> string -> stamp -> lookup_result)
    (sinf cosf : float -> float) (c : Calibration) (s : Settings) (pcl_callback : bool)
    (char_signed : bool) (mktime : tm -> Z) (now : stamp) (packets : list PandarPacket)
    (p : Process)
    (Htarget : m_sTargetFrame (tf p) <> "") (Hbuffer : m_tf_buffer (tf p) = false) :
  ProcessLiarPacket lookupTransform sinf cosf c s pcl_callback char_signed mktime now packets p =
  Ret (false, p).
Proof.
  unfold ProcessLiarPacket, computeTransformToTarget, is_empty, calculateTransformMatrix.
  rewrite bool_decide_eq_false_2, Hbuffer by done. cbn [negb mbind outcome_bind]. by destruct p.
Qed.

Lemma target_frame_stops_witness :
  ProcessLiarPacket (fun _ _ _ _ => Found id) id id (Init id id "PandarXTM") xtm_settings true true
    mktime_utc (0, 0) xtm_packets (started 0 (no_tf "lidar" "base_link")) =
  Ret (false, started 0 (no_tf "lidar" "base_link")).
Proof. apply target_frame_stops; [discriminate|reflexivity]. Defined.
