(* ===== verification/Pandar40Packet.v ===== *)
(** The packet of a Pandar40, which has no header, seen as a packet of the other
    models: ten blocks of forty units.

    [process_40_multi] says that the branch of [ProcessLiarPacket] for it is the
    branch of the other models on this view, so what is proved of them is proved
    of the Pandar40. *)
From stdpp Require Import gmap.
From S2P Require Import Prelude Ieee Calendar CompactCloud PacketFormat ParseXT ParseLegacy.
From S2P Require Import LidarTables PointCalc Framing.
#[local] Open Scope Z_scope.

(** ** The view *)

Definition pandar40_header : Header :=
  {| sob := 0xEEFF; chProtocolMajor := 0; chProtocolMinor := 0; chLaserNumber := LASER_COUNT;
     chBlockNumber := BLOCKS_PER_PACKET; chReturnType := 0; chDisUnit := 0 |}.

Definition as_block (b : Pandar40PBlock) : Block :=
  {| azimuth := Some (p40_azimuth b); units := Some <$> p40_units b |}.

Definition as_packet (pkt : Pandar40PPacket) : Packet :=
  {| header := pandar40_header; blocks := as_block <$> p40_blocks pkt; timestamp := p40_usec pkt;
     udp_sequence := 0; echo := p40_echo pkt; addtime := [];
     timestamp_point := p40_timestamp_point pkt; spin_speed := p40_spin_speed pkt |}.

Lemma as_packet_azimuth pkt i :
  packet_azimuth (as_packet pkt) i = p40_azimuth <$> arr_get (p40_blocks pkt) i.
Proof.
  unfold packet_azimuth, as_packet. cbn [blocks]. rewrite arr_get_fmap.
  by destruct (arr_get (p40_blocks pkt) i).
Qed.

(** A unit of the view is that of the packet, with the block's azimuth. *)
Lemma as_packet_unit {E B} pkt b i (k : Z * Unit -> outcome E B) :
  (r ← packet_unit (as_packet pkt) b i; k r) =
  (block ← arr_get (p40_blocks pkt) b;
   u ← arr_get (p40_units block) i; k (p40_azimuth block, u)).
Proof.
  unfold packet_unit, as_packet. cbn [blocks]. rewrite arr_get_fmap.
  destruct (arr_get (p40_blocks pkt) b) as [block| |]; [|done..].
  cbn [fmap outcome_fmap mbind outcome_bind as_block units azimuth]. rewrite arr_get_fmap.
  by destruct (arr_get (p40_units block) i).
Qed.

(** ** Loops with equal bodies *)

Section ext.
Context (lookupTransform : nat -> string -> string -> stamp -> lookup_result).
Context (c : Calibration) (s : Settings) (cb : bool).

Lemma for_blocks_ext step step' n i p :
  (forall j q, step j q = step' j q) -> for_blocks step n i p = for_blocks step' n i p.
Proof.
  intros H. revert i p. induction n as [|n IH]; intros i p; [done|]. cbn [for_blocks].
  rewrite H. destruct (step' i p) as [[ok q]| |]; cbn [mbind outcome_bind]; [|done..].
  by destruct ok; cbn [negb].
Qed.

Lemma process_blocks_ext rawpacket blocks lasers ts az az' calc calc' p :
  (forall i, az i = az' i) -> (forall tr i fr, calc tr i fr = calc' tr i fr) ->
  process_blocks lookupTransform c s cb rawpacket blocks lasers ts az calc p =
  process_blocks lookupTransform c s cb rawpacket blocks lasers ts az' calc' p.
Proof.
  intros Haz Hcalc. unfold process_blocks. erewrite for_blocks_ext; [done|].
  intros i q. unfold block_step. rewrite Haz. destruct (az' i); cbn [mbind outcome_bind]; [|done..].
  destruct (frame_boundary _ _ _ _ _ _ _ _ _) as [[ok q']| |]; cbn [mbind outcome_bind]; [|done..].
  destruct ok; cbn [negb]; [|done]. by rewrite Hcalc.
Qed.
End ext.

Lemma for_lasers_ext {E} (body body' : Z -> Frame -> outcome E Frame) (k : nat) i fr :
  (forall j fr, body j fr = body' j fr) -> for_lasers body k i fr = for_lasers body' k i fr.
Proof.
  intros H. revert i fr. induction k as [|k IH]; intros i fr; [done|]. cbn [for_lasers].
  rewrite H. destruct (body' i fr); cbn [mbind outcome_bind]; [apply IH|done..].
Qed.

Lemma parsed_fmap {A B} (f : A -> B) (m : outcome parse_error A) k p :
  parsed (f <$> m) k p = parsed m (fun a => k (f a)) p.
Proof. by destruct m. Qed.

(** ** The branch *)

Section branch.
Context (lookupTransform : nat -> string -> string -> stamp -> lookup_result).
Context (sinf cosf : float -> float) (c : Calibration) (s : Settings) (cb : bool).
Context (mktime : tm -> Z).

(** Any computation on the view that makes the same points. *)
Lemma process_40_multi (calc : Transforms -> Packet -> float -> Z -> Z -> Frame -> outcome thread_error Frame)
    packet rawpacket p :
  (forall tr pkt ts b fr, calc tr (as_packet pkt) ts b LASER_COUNT fr =
     CalcPointXYZIT sinf cosf c s tr pkt ts b fr) ->
  process_40 lookupTransform sinf cosf c s cb mktime packet rawpacket p =
  process_multi lookupTransform c s cb
    (as_packet <$> ParseRawData mktime (pkt_data packet) (pkt_size packet)) calc rawpacket p.
Proof.
  intros Hcalc. unfold process_40, process_multi, with_fixed_frame.
  destruct (computeTransformToFixed _ _ _) as [[ok t]| |]; cbn [mbind outcome_bind]; [|done..].
  destruct ok; [|done]. rewrite parsed_fmap. unfold parsed.
  destruct (ParseRawData _ _ _) as [pkt|e|]; [|done..].
  apply process_blocks_ext; [intros i; by rewrite as_packet_azimuth|].
  intros tr i fr. by rewrite Hcalc.
Qed.
End branch.

(** ** What the parser delivers *)

(** The unit of laser 7 of every block measured nothing. *)
Definition laser7_silent (buf : list Z) : Prop :=
  forall b, 0 <= b < BLOCKS_PER_PACKET -> exists range,
    rd16 (E := parse_error) buf (124 * b + 4 + 3 * 7) = Ret range /\
    wrong_point (d_mul (d_of_Z range) LASER_RETURN_TO_DISTANCE_RATE) = true.

Lemma as_packet_filled mktime buf pkt j i :
  Forall is_byte buf -> raw40_of mktime buf pkt ->
  0 <= j < BLOCKS_PER_PACKET -> 0 <= i < LASER_COUNT ->
  exists az u, 0 <= az < 65536 /\ (forall E, packet_unit (E := E) (as_packet pkt) j i = Ret (az, u)) /\
    p40_unit_at buf (124 * j + 4 + 3 * i) u.
Proof.
  intros Hbytes (Hlen & Hblocks & _) Hj Hi. unfold BLOCKS_PER_PACKET, LASER_COUNT in *.
  destruct (lookup_lt_is_Some_2 (p40_blocks pkt) (Z.to_nat j)) as [b Hb]; [lia|].
  destruct (Hblocks _ _ Hb) as (_ & Haz & Hun & Hunits).
  destruct (lookup_lt_is_Some_2 (p40_units b) (Z.to_nat i)) as [u Hu]; [lia|].
  specialize (Hunits _ _ Hu). rewrite !Z2Nat.id in * by lia.
  exists (p40_azimuth b), u. split; [|split; [|done]].
  - destruct (decide (0 <= 124 * j + 2 /\ 124 * j + 2 + 2 <= zlen buf)) as [[Hin Hout]|Hno].
    + destruct (rd16_value (E := parse_error) buf _ Hbytes Hin Hout) as (v & Hv & Hr).
      rewrite Haz in Hv. by injection Hv as ->.
    + unfold rd16 in Haz. apply bind_Ret_inv in Haz as (x & _ & Haz).
      apply bind_Ret_inv in Haz as (y & Hy & _). unfold rd in Hy.
      apply bind_Ret_inv in Hy as (z & Hz & _). apply arr_get_Ret in Hz. lia.
  - intros E. rewrite <- (bind_Ret_r (packet_unit (as_packet pkt) j i)), as_packet_unit.
    rewrite (arr_get_lookup _ _ b) by (done || lia). cbn [mbind outcome_bind].
    by rewrite (arr_get_lookup _ _ u) by (done || lia).
Qed.
