(* ===== verification/LegacyModels.v ===== *)
(** The points of the Pandar40, the Pandar64, the Pandar20A/B and the PandarQT.

    The four point computations are one loop body with the model's sign and
    table of firing times, coordinates and time offsets; [legacy_point] is what
    that body should make of a unit, and [legacy_block_spec] that a block of a
    packet comes to its lasers' points, in order. *)
From stdpp Require Import gmap.
From S2P Require Import Prelude Ieee IeeeRound IeeeInterval Calendar CompactCloud PacketFormat.
From S2P Require Import ParseXT ParseLegacy LidarTables PointCalc Framing FrameModes Pandar40Packet.
#[local] Open Scope Z_scope.

(** ** The models *)

Inductive model := Pandar40 | Pandar64 | Pandar20 | PandarQT.

#[export] Instance model_eq_dec : EqDecision model.
Proof. solve_decision. Defined.

(** The lidar types of a model, with their numbers of lasers. *)
Definition legacy_types : list (model * string * nat) :=
  [(Pandar40, "Pandar40P"%string, 40%nat); (Pandar40, "Pandar40M"%string, 40%nat);
   (Pandar64, "Pandar64"%string, 64%nat); (Pandar20, "Pandar20A"%string, 20%nat);
   (Pandar20, "Pandar20B"%string, 20%nat); (PandarQT, "PandarQT"%string, 64%nat)].

Definition model_branch (m : model) : branch :=
  match m with Pandar40 => B40 | Pandar64 => B64 | Pandar20 => B20 | PandarQT => BQT end.

(** Whether the firing time is subtracted from the angle, and its table. *)
Definition model_firing (m : model) : bool * list (option float) :=
  match m with
  | Pandar40 => (true, laser40Offset_)
  | Pandar64 => (true, laser64Offset_)
  | Pandar20 => (false, laser20BOffset_)
  | PandarQT => (false, laserQTOffset_)
  end.

(** How many blocks have a time offset: seven-block packets of the Pandar64
    have one block too many. *)
Definition timed_blocks (m : model) : Z :=
  match m with Pandar40 => 10 | Pandar64 => 6 | Pandar20 => 20 | PandarQT => 4 end.

(** The laser of a Pandar40 whose firing time the program never sets. *)
Definition unset_laser (m : model) (i : Z) : bool := bool_decide (m = Pandar40) && (i =? 7).

Section models.
Context (sinf cosf : float -> float) (c : Calibration) (s : Settings).
Context (char_signed : bool) (mktime : tm -> Z).

Definition model_parse (m : model) : list Z -> Z -> outcome parse_error Packet :=
  match m with
  | Pandar40 => fun buf len => as_packet <$> ParseRawData mktime buf len
  | Pandar64 => ParseL64Data char_signed mktime
  | Pandar20 => ParseL20Data char_signed mktime
  | PandarQT => ParseQTData char_signed mktime
  end.

Definition model_xyz {E} (m : model) (distance : float) (i azimuth : Z)
    : outcome E (float * float * float) :=
  if bool_decide (m = PandarQT) && m_bCoordinateCorrectionFlag s
  then corrected_qt_xyz sinf cosf c distance i azimuth
  else plain_xyz sinf cosf c distance i azimuth.

(** [calc40_timestamp] on the view. *)
Definition view40_timestamp {E} (pkt : Packet) (m_dPktTimestamp : float) (blockid i : Z)
    : outcome E float :=
  if realtime s then Ret m_dPktTimestamp
  else
    block_offset ← arr_value
      (if echo pkt =? 0x39 then block40OffsetDual_ else block40OffsetSingle_) blockid;
    laser_offset ← arr_value laser40Offset_ i;
    Ret (d_sub (lidar_time s (timestamp_point pkt)) (seconds_offset block_offset laser_offset)).

Definition model_timestamp {E} (m : model)
    : Packet -> float -> Z -> Z -> outcome E float :=
  match m with
  | Pandar40 => view40_timestamp
  | Pandar64 => calc64_timestamp s
  | Pandar20 => calc20_timestamp s
  | PandarQT => calcQT_timestamp s
  end.

(** ** One unit *)

Context (m : model) (tf : Transforms) (pkt : Packet) (m_dPktTimestamp : float).

Definition model_unit {E} (blockid i : Z) (fr : Frame) : outcome E Frame :=
  '(block_azimuth, unit) ← packet_unit pkt blockid i;
  if wrong_point (distance unit) then Ret fr
  else
    general ← arr_value (General_horizatal_azimuth_offset_map_ c) i;
    laser_offset ← arr_value (model_firing m).2 i;
    azimuth ← azimuth_index (model_firing m).1 general block_azimuth
                (GetFiretimeOffset (spin_speed pkt) laser_offset);
    xyz ← model_xyz m (distance unit) i azimuth;
    timestamp ← model_timestamp m pkt m_dPktTimestamp blockid i;
    store_point s i (make_point tf xyz (intensity unit) timestamp i) fr.

(** What the point of laser [i] of block [b] should be. *)
Definition legacy_point (b : nat) (i : Z) : option PPoint :=
  '(azimuth, u) ← ret_option (E := unit) (packet_unit pkt (Z.of_nat b) i);
  if wrong_point (distance u) then None
  else
    general ← mjoin (General_horizatal_azimuth_offset_map_ c !! Z.to_nat i);
    delta ← mjoin ((model_firing m).2 !! Z.to_nat i);
    z ← trunc (azimuth_sum (model_firing m).1 general azimuth
                 (GetFiretimeOffset (spin_speed pkt) delta));
    xyz ← ret_option (E := unit) (model_xyz m (distance u) i (z mod 36000));
    time ← ret_option (E := unit) (model_timestamp m pkt m_dPktTimestamp (Z.of_nat b) i);
    Some (make_point tf xyz (intensity u) time i).

Definition legacy_points (b : nat) : list PPoint :=
  omap (legacy_point b) (seqZ 0 (chLaserNumber (header pkt))).

(** The lasers whose measurement is not wrong. *)
Definition legacy_hit (b : nat) (i : Z) : bool :=
  match packet_unit (E := unit) pkt (Z.of_nat b) i with
  | Ret (_, u) => negb (wrong_point (distance u))
  | _ => false
  end.
End models.

(** ** The computation of a block *)

(** That of a Pandar40 runs on the view; see [process_model]. *)
Definition model_calc {E} (sinf cosf : float -> float) (c : Calibration) (s : Settings) (m : model)
    (tf : Transforms) (pkt : Packet) (m_dPktTimestamp : float) (blockid lasers : Z) (fr : Frame)
    : outcome E Frame :=
  match m with
  | Pandar40 => for_lasers (model_unit sinf cosf c s m tf pkt m_dPktTimestamp blockid)
      (Z.to_nat lasers) 0 fr
  | Pandar64 => CalcL64PointXYZIT sinf cosf c s tf pkt m_dPktTimestamp blockid lasers fr
  | Pandar20 => CalcL20PointXYZIT sinf cosf c s tf pkt m_dPktTimestamp blockid lasers fr
  | PandarQT => CalcQTPointXYZIT sinf cosf c s tf pkt m_dPktTimestamp blockid lasers fr
  end.

(** Every model runs the same body, except that the PandarQT counts its points in
    both modes. *)
Lemma model_calc_unit {E} sinf cosf c s m tf pkt ts blockid lasers fr :
  (m = PandarQT -> pcl_type_ s = false) ->
  model_calc (E := E) sinf cosf c s m tf pkt ts blockid lasers fr =
  for_lasers (model_unit sinf cosf c s m tf pkt ts blockid) (Z.to_nat lasers) 0 fr.
Proof.
  intros Hqt. unfold model_calc. destruct m; try reflexivity.
  apply for_lasers_ext. intros j fr'.
  unfold model_unit, CalcQTUnit, store_point_qt, store_point, model_xyz. by rewrite Hqt.
Qed.

(** ** Packets a lidar of the model sends *)

(** Between one and [n] lasers, time offsets for all blocks unless reception
    times are used, every block and unit filled in, and nothing
    measured by a laser without a firing time. *)
Record legacy_packet (m : model) (n : nat) (s : Settings) (pkt : Packet) : Prop := {
  lp_blocks : 0 <= chBlockNumber (header pkt);
  lp_lasers : 0 < chLaserNumber (header pkt) <= Z.of_nat n;
  lp_timed : realtime s = true \/ chBlockNumber (header pkt) <= timed_blocks m;
  lp_filled : forall j i, 0 <= j < chBlockNumber (header pkt) -> 0 <= i < chLaserNumber (header pkt) ->
    exists az u, 0 <= az < 65536 /\ (forall E, packet_unit (E := E) pkt j i = Ret (az, u));
  lp_speed : exists v, spin_speed pkt = f_of_Z v /\ 0 <= v < 65536;
  lp_unset : forall (b : nat) i, Z.of_nat b < chBlockNumber (header pkt) -> unset_laser m i = true ->
    legacy_hit pkt b i = false;
}.

(** On the view of a packet the body is that of [CalcPointXYZIT]. *)
Lemma view40_calc {E} sinf cosf c s tf pkt ts b fr :
  model_calc (E := E) sinf cosf c s Pandar40 tf (as_packet pkt) ts b LASER_COUNT fr =
  CalcPointXYZIT sinf cosf c s tf pkt ts b fr.
Proof.
  unfold model_calc, CalcPointXYZIT. apply for_lasers_ext. intros j fr'.
  unfold model_unit. rewrite as_packet_unit. unfold CalcUnit.
  destruct (arr_get (p40_blocks pkt) b); cbn [mbind outcome_bind]; [|done..].
  by destruct (arr_get (p40_units _) j).
Qed.

(** A firing time for every other laser. *)
Lemma firing_entries :
  forallb (fun '(m, t, n) => forallb (fun i => unset_laser m i ||
      bool_decide (is_Some (mjoin ((model_firing m).2 !! Z.to_nat i)))) (seqZ 0 (Z.of_nat n)))
    legacy_types = true.
Proof. vm_compute. reflexivity. Qed.

Lemma firing_entry m t n i :
  (m, t, n) ∈ legacy_types -> 0 <= i < Z.of_nat n -> unset_laser m i = false ->
  exists delta, (model_firing m).2 !! Z.to_nat i = Some (Some delta).
Proof.
  intros Ht Hi Hset. pose proof firing_entries as Hall. rewrite forallb_forall in Hall.
  specialize (Hall _ (proj1 (list_elem_of_In _ _) Ht)). cbn beta iota in Hall.
  rewrite forallb_forall in Hall. specialize (Hall i). rewrite Hset in Hall. cbn [orb] in Hall.
  assert (is_Some (mjoin ((model_firing m).2 !! Z.to_nat i))) as [delta Hd].
  { apply (bool_decide_unpack _). rewrite Hall; [exact I|]. apply list_elem_of_In, elem_of_seqZ. lia. }
  exists delta. destruct ((model_firing m).2 !! Z.to_nat i) as [o|]; [|done]. by cbn in Hd; subst.
Qed.

Lemma legacy_tables m t n : (m, t, n) ∈ legacy_types ->
  (t, n) ∈ lidar_types /\ (n <= 64)%nat /\ (forall c, firing t c = model_firing m) /\
  (m = Pandar20 -> t = "Pandar20A" \/ t = "Pandar20B")%string /\
  (m = Pandar20 -> assigned laser20AOffset_ n = true).
Proof.
  unfold legacy_types. rewrite !elem_of_cons, elem_of_nil.
  intros [H|[H|[H|[H|[H|[H|[]]]]]]]; injection H as -> -> ->.
  all: split; [by apply (bool_decide_unpack _); vm_compute|]; split; [lia|].
  all: split; [reflexivity|]; split; try done; auto.
Qed.

Section unit_spec.
Context (sinf cosf : float -> float) (m : model) (t : string) (n : nat) (c : Calibration) (s : Settings).
Context (tf : Transforms) (pkt : Packet) (ts : float).
Context (Ht : (m, t, n) ∈ legacy_types) (Hc : usable t n c) (Hs : m_sLidarType s = t).
Context (Hp : legacy_packet m n s pkt).
Context (Hmode : m = PandarQT -> pcl_type_ s = false).

Lemma model_xyz_defined d i az :
  0 <= i < Z.of_nat n -> 0 <= az < 36000 ->
  exists xyz, forall E, model_xyz (E := E) sinf cosf c s m d i az = Ret xyz.
Proof.
  intros Hi Haz. pose proof (us_sin _ _ _ Hc) as Hsin. pose proof (us_cos _ _ _ Hc) as Hcos.
  destruct (lookup_lt_is_Some_2 (m_sin_elevation_map_ c) (Z.to_nat i)) as [se Hse]; [lia|].
  destruct (lookup_lt_is_Some_2 (m_cos_elevation_map_ c) (Z.to_nat i)) as [ce Hce]; [lia|].
  assert (forall E, arr_get (E := E) (m_sin_elevation_map_ c) i = Ret se) as Es
    by (intros E; apply arr_get_lookup; (done || lia)).
  assert (forall E, arr_get (E := E) (m_cos_elevation_map_ c) i = Ret ce) as Ec
    by (intros E; apply arr_get_lookup; (done || lia)).
  unfold model_xyz, corrected_qt_xyz, plain_xyz, m_sin_azimuth_map_, m_cos_azimuth_map_.
  destruct (bool_decide (m = PandarQT) && m_bCoordinateCorrectionFlag s);
    eexists; intros E; rewrite ?Es, ?Ec; cbn [mbind outcome_bind];
    rewrite ?Es, ?Ec; cbn [mbind outcome_bind]; rewrite !azimuth_entry_in by lia;
    cbn [mbind outcome_bind]; rewrite ?Es; cbn [mbind outcome_bind]; reflexivity.
Qed.

Lemma model_timestamp_defined j i :
  0 <= j < chBlockNumber (header pkt) -> 0 <= i < Z.of_nat n -> unset_laser m i = false ->
  exists v, forall E, model_timestamp (E := E) s m pkt ts j i = Ret v.
Proof.
  intros Hj Hi Hset. destruct (legacy_tables _ _ _ Ht) as (_ & _ & _ & Htype & H20).
  destruct (firing_entry _ _ _ i Ht Hi Hset) as [lo Hlo].
  assert (forall E, arr_value (E := E) (model_firing m).2 i = Ret lo) as Elo
    by (intros E; apply assigned_value_Ret; [done|lia]). clear Hlo.
  unfold model_timestamp, view40_timestamp, calc64_timestamp, calc20_timestamp, calcQT_timestamp.
  destruct (realtime s) eqn:Hrt; [exists ts; by destruct m|].
  destruct (lp_timed _ _ _ _ Hp) as [|Hb]; [congruence|].
  assert (forall a k x, assigned a k = true -> 0 <= x < Z.of_nat k ->
    exists v, forall E, arr_value (E := E) a x = Ret v) as Hval.
  { intros a k x Ha Hx. destruct (assigned_value (E := unit) a k x Ha Hx) as (v & Hv & _).
    exists v. intros E. apply assigned_value_Ret; [done|lia]. }
  assert (forall (sd dd : list (option float)) k, assigned sd k = true -> assigned dd k = true ->
    forall e, assigned (if e : bool then sd else dd) k = true) as Hif by (by intros ? ? ? ? ? []).
  destruct m; cbn [timed_blocks model_firing snd] in *.
  - destruct (Hval (if echo pkt =? 0x39 then block40OffsetDual_ else block40OffsetSingle_) 10%nat j)
      as [bo Ebo]; [by apply Hif; vm_compute|lia|].
    eexists. intros E. rewrite Ebo. cbn [mbind outcome_bind]. by rewrite Elo.
  - destruct (Hval (if echo pkt =? 0x39 then block64OffsetDual_ else block64OffsetSingle_) 6%nat j)
      as [bo Ebo]; [by apply Hif; vm_compute|lia|].
    eexists. intros E. rewrite Ebo. cbn [mbind outcome_bind]. by rewrite Elo.
  - destruct (Hval (if echo pkt =? 0x39 then block20OffsetDual_ else block20OffsetSingle_) 20%nat j)
      as [bo Ebo]; [by apply Hif; vm_compute|lia|].
    destruct (Hval laser20AOffset_ n i (H20 eq_refl) Hi) as [la Ela].
    destruct (Htype eq_refl) as [-> | ->]; rewrite Hs.
    + eexists. intros E. rewrite bool_decide_true by done. rewrite Ebo. cbn [mbind outcome_bind].
      by rewrite Ela.
    + eexists. intros E. rewrite bool_decide_false, bool_decide_true by done. rewrite Ebo.
      cbn [mbind outcome_bind]. by rewrite Elo.
  - destruct (Hval (if echo pkt =? 0x05 then blockQTOffsetDual_ else blockQTOffsetSingle_) 4%nat j)
      as [bo Ebo]; [by apply Hif; vm_compute|lia|].
    eexists. intros E. rewrite Ebo. cbn [mbind outcome_bind]. by rewrite Elo.
Qed.

(** The tables and the azimuth index of one laser. *)
Lemma model_laser_angle i az speed :
  0 <= i < Z.of_nat n -> unset_laser m i = false -> 0 <= az < 65536 -> 0 <= speed < 65536 ->
  exists general delta z,
    General_horizatal_azimuth_offset_map_ c !! Z.to_nat i = Some (Some general) /\
    (model_firing m).2 !! Z.to_nat i = Some (Some delta) /\
    trunc (azimuth_sum (model_firing m).1 general az (GetFiretimeOffset (f_of_Z speed) delta)) = Some z /\
    forall E, azimuth_index (E := E) (model_firing m).1 general az
      (GetFiretimeOffset (f_of_Z speed) delta) = Ret (z mod 36000).
Proof.
  intros Hi Hset Haz Hsp. destruct (legacy_tables _ _ _ Ht) as (_ & _ & Hfiring & _).
  destruct (assigned_value (E := unit) _ n i (us_general _ _ _ Hc) Hi) as (g & Hg & _).
  destruct (firing_entry _ _ _ i Ht Hi Hset) as [delta Hd].
  pose proof (laser_bounded t n c (Z.to_nat i) g delta Hc ltac:(lia) Hg) as Hbound.
  rewrite Hfiring in Hbound. specialize (Hbound Hd).
  destruct (azimuth_index_wraps (E := unit) (model_firing m).1 g delta az speed Hbound Haz Hsp)
    as (z & Hz & _).
  exists g, delta, z. split_and!; try done. intros E.
  destruct (azimuth_index_wraps (E := E) (model_firing m).1 g delta az speed Hbound Haz Hsp)
    as (z' & Hz' & Hidx). by simplify_eq.
Qed.

Lemma make_point_ring xyz it time i : 0 <= i < 65536 -> CompactCloud.ring (make_point tf xyz it time i) = i.
Proof.
  intros Hi. unfold make_point. destruct (transformPoint tf xyz) as [[??]?]. by apply uwrap_small.
Qed.

(** One iteration: laser [i] stores exactly its specified point, or nothing if
    its measurement is wrong. *)
Lemma model_unit_spec {E} (b : nat) i fr :
  Z.of_nat b < chBlockNumber (header pkt) -> 0 <= i < chLaserNumber (header pkt) ->
  room s (if pcl_type_ s then chLaserNumber (header pkt) else 1) fr ->
  let p := legacy_point sinf cosf c s m tf pkt ts b i in
  model_unit (E := E) sinf cosf c s m tf pkt ts (Z.of_nat b) i fr =
    Ret (match p with Some p => store_one s fr p | None => fr end) /\
  (if legacy_hit pkt b i then exists q, p = Some q /\ CompactCloud.ring q = i else p = None).
Proof.
  intros Hb Hi Hroom p. destruct (legacy_tables _ _ _ Ht) as (_ & Hn & _).
  destruct (lp_lasers _ _ _ _ Hp) as [_ Hl]. destruct (lp_speed _ _ _ _ Hp) as (speed & Hspeed & Hsb).
  destruct (lp_filled _ _ _ _ Hp (Z.of_nat b) i) as (az & u & Haz & Hunit); [lia|done|].
  pose proof (lp_unset _ _ _ _ Hp b i Hb) as Hunset. revert Hunset.
  subst p. unfold model_unit, legacy_point, legacy_hit. rewrite !Hunit.
  cbn [mbind outcome_bind option_bind ret_option].
  destruct (wrong_point (distance u)); cbn [negb]; [done|]. intros Hunset.
  assert (unset_laser m i = false) as Hset by (destruct (unset_laser m i); [by discriminate Hunset|done]).
  destruct (model_laser_angle i az speed) as (g & delta & z & Hg & Hd & Hz & Hidx); [lia|done..|].
  rewrite (assigned_value_Ret _ i g Hg), Hg by lia.
  cbn [mbind outcome_bind option_bind mjoin option_join].
  rewrite (assigned_value_Ret _ i delta Hd), Hd by lia.
  cbn [mbind outcome_bind option_bind mjoin option_join]. rewrite Hspeed, Hidx, Hz.
  cbn [mbind outcome_bind option_bind].
  destruct (model_xyz_defined (distance u) i (z mod 36000)) as [xyz Hxyz];
    [lia|apply Z.mod_pos_bound; lia|].
  destruct (model_timestamp_defined (Z.of_nat b) i) as [time Htime]; [lia|lia|done|].
  rewrite !Hxyz. cbn [mbind outcome_bind option_bind ret_option].
  rewrite !Htime. cbn [mbind outcome_bind option_bind ret_option].
  assert (CompactCloud.ring (make_point tf xyz (intensity u) time i) = i) as Hring
    by (apply make_point_ring; lia).
  split; [|by eexists]. apply (store_point_Ret s i _ fr (chLaserNumber (header pkt))); try done; [lia|].
  rewrite Hring, uwrap_small by lia. done.
Qed.

Lemma legacy_points_rings (b : nat) :
  Z.of_nat b < chBlockNumber (header pkt) ->
  CompactCloud.ring <$> legacy_points sinf cosf c s m tf pkt ts b =
  filter (fun i => legacy_hit pkt b i = true) (seqZ 0 (chLaserNumber (header pkt))).
Proof.
  intros Hb. unfold legacy_points. destruct (legacy_tables _ _ _ Ht) as (_ & Hn & _).
  destruct (lp_lasers _ _ _ _ Hp) as [_ Hl].
  set (fr := {| m_iPointCloudIndex := 0; m_vPointCloud := (empty : gmap Z PPoint);
    m_vPointCloudList := replicate 256 [] |}).
  assert (forall l, Forall (fun i => 0 <= i < chLaserNumber (header pkt)) l ->
    CompactCloud.ring <$> omap (legacy_point sinf cosf c s m tf pkt ts b) l =
    filter (fun i => legacy_hit pkt b i = true) l) as Hall.
  { induction 1 as [|i l Hi _ IH]; [done|]. cbn [omap list_omap].
    destruct (model_unit_spec (E := unit) b i fr Hb Hi) as (_ & Hhit).
    { unfold room. destruct (pcl_type_ s); simpl; unfold MAX_POINT_CLOUD_NUM; lia. }
    rewrite filter_cons. destruct (legacy_hit pkt b i).
    - destruct Hhit as (q & -> & Hq). rewrite decide_True by done. cbn [fmap list_fmap].
      rewrite Hq. by f_equal.
    - rewrite Hhit, decide_False by done. done. }
  apply Hall, Forall_forall. intros i Hi. apply elem_of_seqZ in Hi. lia.
Qed.
End unit_spec.

Lemma packet_unit_azimuth pkt j i az u :
  packet_unit (E := thread_error) pkt j i = Ret (az, u) -> packet_azimuth pkt j = Ret az.
Proof.
  unfold packet_unit, packet_azimuth. intros H. apply bind_Ret_inv in H as (bl & -> & H).
  apply bind_Ret_inv in H as (un & _ & H). cbn [mbind outcome_bind].
  destruct (azimuth bl), un; try done. by injection H as ->.
Qed.

Section block_spec.
Context (sinf cosf : float -> float) (m : model) (t : string) (n : nat) (c : Calibration) (s : Settings).
Context (pkt : Packet) (ts : float).
Context (Ht : (m, t, n) ∈ legacy_types) (Hc : usable t n c) (Hs : m_sLidarType s = t).
Context (Hp : legacy_packet m n s pkt).
Context (Hmode : m = PandarQT -> pcl_type_ s = false).

Lemma legacy_block_spec (b : nat) :
  Z.of_nat b < chBlockNumber (header pkt) ->
  block_spec s (chLaserNumber (header pkt)) (packet_azimuth pkt (Z.of_nat b))
    (fun tr => model_calc sinf cosf c s m tr pkt ts (Z.of_nat b) (chLaserNumber (header pkt)))
    (legacy_points sinf cosf c s m no_transforms pkt ts b).
Proof.
  intros Hb. destruct (lp_lasers _ _ _ _ Hp) as [Hpos Hl]. destruct (legacy_tables _ _ _ Ht) as (_ & Hn & _).
  pose proof (legacy_points_rings sinf cosf m t n c s no_transforms pkt ts Ht Hc Hs Hp Hmode b Hb) as Hrings.
  split.
  - destruct (lp_filled _ _ _ _ Hp (Z.of_nat b) 0) as (az & u & _ & Hunit); [lia|lia|].
    exists az. by eapply packet_unit_azimuth.
  - intros fr Hroom. rewrite model_calc_unit by done. unfold legacy_points.
    set (l := chLaserNumber (header pkt)) in *.
    replace (seqZ 0 l) with (seqZ 0 (Z.of_nat (Z.to_nat l))) by (f_equal; lia).
    apply (for_lasers_emit s _ _ l); [|lia|lia|].
    + intros j fr' Hj Hr. by apply (model_unit_spec sinf cosf m t n c s no_transforms pkt ts); [..|lia|].
    + destruct (pcl_type_ s); [done|]. by rewrite Z2Nat.id by lia.
  - rewrite <- (Forall_fmap CompactCloud.ring (fun i => 0 <= i < chLaserNumber (header pkt))), Hrings.
    apply Forall_forall. intros i Hi. apply list_elem_of_filter in Hi as [_ Hi].
    apply elem_of_seqZ in Hi. lia.
  - apply (f_equal length) in Hrings. rewrite length_fmap in Hrings. rewrite Hrings.
    pose proof (length_filter (fun i => legacy_hit pkt b i = true) (seqZ 0 (chLaserNumber (header pkt)))).
    rewrite length_seqZ in *. lia.
Qed.
End block_spec.

(** ** What the parsers deliver *)

Section fills.
Context {E : Type}.

Lemma arr_set_insert {A} (l : list A) i x :
  yields (fun l' => 0 <= i < zlen l /\ l' = <[Z.to_nat i := x]> l) (arr_set (E := E) l i x).
Proof. intros l'. unfold arr_set. case_decide; [|done]. by intros [= <-]. Qed.

(** The first [k] units are filled in. *)
Definition units_filled (k : Z) (us : list (option Unit)) : Prop :=
  forall i, 0 <= i < k -> exists u, us !! Z.to_nat i = Some (Some u).

Definition block_filled (lasers : Z) (b : Block) : Prop :=
  (exists az, azimuth b = Some az /\ 0 <= az < 65536) /\ units_filled lasers (units b).

Definition blocks_filled (lasers k : Z) (bs : list Block) : Prop :=
  forall j, 0 <= j < k -> exists b, bs !! Z.to_nat j = Some b /\ block_filled lasers b.

Lemma parse_units_fills dis size confidence (n : nat) k index buf us :
  0 <= k -> units_filled k us ->
  yields (fun r => units_filled (k + Z.of_nat n) r.2)
    (parse_units (E := E) dis size confidence n k index buf us).
Proof.
  revert k index us. induction n as [|n IH]; intros k index us Hk Hus; cbn [parse_units].
  { apply yields_Ret. by rewrite Z.add_0_r. }
  do 3 (apply yields_bind_any; intros ?).
  eapply yields_bind; [apply arr_set_insert|]. intros us' [Hin ->].
  replace (k + Z.of_nat (S n)) with (k + 1 + Z.of_nat n) by lia. apply IH; [lia|].
  intros i Hi. destruct (decide (i = k)) as [->|].
  - eexists. apply list_lookup_insert_eq. lia.
  - rewrite list_lookup_insert_ne by lia. apply Hus. lia.
Qed.

Lemma rd16_bounded buf i :
  Forall is_byte buf -> yields (fun v => 0 <= v < 65536) (rd16 (E := E) buf i).
Proof.
  intros Hb v Hv. unfold rd16 in Hv. apply bind_Ret_inv in Hv as (b0 & H0 & Hv).
  apply bind_Ret_inv in Hv as (b1 & H1 & Hv). injection Hv as <-. unfold rd in *.
  apply bind_Ret_inv in H0 as (x0 & _ & H0). apply bind_Ret_inv in H1 as (x1 & _ & H1).
  injection H0 as <-. injection H1 as <-. change 0xff with (Z.ones 8).
  rewrite !Z.land_ones by lia. pose proof (Z.mod_pos_bound x0 (2 ^ 8)).
  pose proof (Z.mod_pos_bound x1 (2 ^ 8)). rewrite lor_shiftl_add by lia. lia.
Qed.

Lemma parse_blocks_fills dis lasers size ha confidence (n : nat) k index buf bs :
  Forall is_byte buf -> 0 <= k -> blocks_filled lasers k bs ->
  yields (fun r => blocks_filled lasers (k + Z.of_nat n) r.2)
    (parse_blocks (E := E) dis lasers size ha confidence n k index buf bs).
Proof.
  intros Hbytes. revert k index bs. induction n as [|n IH]; intros k index bs Hk Hbs; cbn [parse_blocks].
  { apply yields_Ret. by rewrite Z.add_0_r. }
  apply yields_bind_any. intros b. eapply yields_bind; [by apply rd16_bounded|]. intros az Haz.
  eapply yields_bind; [apply (parse_units_fills _ _ _ _ 0); [lia|intros i Hi; lia]|].
  intros [index' us] Hus. eapply yields_bind; [apply arr_set_insert|]. intros bs' [Hin ->].
  replace (k + Z.of_nat (S n)) with (k + 1 + Z.of_nat n) by lia. apply IH; [lia|].
  intros j Hj. destruct (decide (j = k)) as [->|].
  - eexists. split; [apply list_lookup_insert_eq; lia|]. split; [by eexists|].
    intros i Hi. apply Hus. lia.
  - rewrite list_lookup_insert_ne by lia. apply Hbs. lia.
Qed.
End fills.

Lemma filled_unit pkt lasers k j i :
  blocks_filled lasers k (blocks pkt) -> 0 <= j < k -> 0 <= i < lasers ->
  exists az u, 0 <= az < 65536 /\ forall E, packet_unit (E := E) pkt j i = Ret (az, u).
Proof.
  intros H Hj Hi. destruct (H j Hj) as (b & Hb & (az & Haz & Hazb) & Hus).
  destruct (Hus i Hi) as [u Hu]. exists az, u. split; [done|]. intros E. unfold packet_unit.
  rewrite (arr_get_lookup _ _ b) by (done || lia). cbn [mbind outcome_bind].
  rewrite (arr_get_lookup _ _ (Some u)) by (done || lia). cbn [mbind outcome_bind]. by rewrite Haz.
Qed.

Section parse.
Context (s : Settings) (char_signed : bool) (mktime : tm -> Z).

Definition model_header (m : model) (buf : list Z) : outcome parse_error Header :=
  match m with
  | Pandar40 => Ret pandar40_header
  | PandarQT => ParseXTHeader char_signed buf 0
  | _ => ParseL64Header char_signed buf 0
  end.

(** The header's counts fit the structure and the bytes received. *)
Definition model_fits (m : model) (h : Header) (len : Z) : Prop :=
  match m with
  | Pandar40 => chBlockNumber h = BLOCKS_PER_PACKET /\ chLaserNumber h = LASER_COUNT
  | Pandar64 => counts_fit 7 64 30 3 h len
  | Pandar20 => counts_fit 20 20 30 3 h len
  | PandarQT => counts_fit 4 64 36 4 h len
  end.

Lemma ParseTail_speed reserved buf index :
  Forall is_byte buf ->
  yields (fun tail => 0 <= tail.1.1.1 < 65536) (ParseTail reserved buf index).
Proof.
  intros Hb. unfold ParseTail. eapply yields_bind; [by apply rd16_bounded|]. intros speed Hs.
  do 3 (apply yields_bind_any; intros ?). by apply yields_Ret.
Qed.

Lemma packet_of_legacy m n h bs tail :
  m <> Pandar40 -> 0 <= chBlockNumber h -> 0 < chLaserNumber h <= Z.of_nat n ->
  realtime s = true \/ chBlockNumber h <= timed_blocks m ->
  blocks_filled (chLaserNumber h) (chBlockNumber h) bs -> 0 <= tail.1.1.1 < 65536 ->
  header (packet_of mktime h bs tail) = h /\ legacy_packet m n s (packet_of mktime h bs tail).
Proof.
  intros Hm Hb Hl Htimed Hfill Hspeed. destruct tail as [[[speed ts] ec] at_]. split; [done|].
  split; cbn [packet_of header]; try done.
  - intros j i Hj Hi. by apply (filled_unit _ (chLaserNumber h) (chBlockNumber h)).
  - by exists speed.
  - intros b i _. unfold unset_laser. by rewrite bool_decide_false.
Qed.

(** The packet of a Pandar40 whose laser 7 measured nothing. *)
Lemma raw40_legacy buf p :
  Forall is_byte buf -> raw40_of mktime buf p -> laser7_silent buf ->
  legacy_packet Pandar40 40 s (as_packet p).
Proof.
  intros Hbytes Hp Hsilent. pose proof Hp as (_ & _ & _ & _ & Hspeed).
  split; cbn [as_packet header pandar40_header chBlockNumber chLaserNumber].
  - done.
  - done.
  - by right.
  - intros j i Hj Hi. destruct (as_packet_filled mktime buf p j i Hbytes Hp Hj Hi) as (az & u & ? & ? & _).
    by exists az, u.
  - exact Hspeed.
  - intros b i Hb Hset. apply andb_true_iff in Hset as [_ ->%Z.eqb_eq]. unfold legacy_hit.
    destruct (as_packet_filled mktime buf p (Z.of_nat b) 7 Hbytes Hp) as (az & u & _ & -> & Hu); [lia|done|].
    destruct (Hsilent (Z.of_nat b)) as (range & Hr & Hw); [lia|].
    destruct Hu as (range' & it & Hr' & _ & ->). rewrite Hr in Hr'. injection Hr' as <-.
    cbn [distance]. by rewrite Hw.
Qed.

Lemma raw40_parse_legacy buf len :
  Forall is_byte buf -> len <= zlen buf -> laser7_silent buf ->
  model_parse char_signed mktime Pandar40 buf len = Err rejected \/
  exists pkt, model_parse char_signed mktime Pandar40 buf len = Ret pkt /\
    header pkt = pandar40_header /\ legacy_packet Pandar40 40 s pkt.
Proof.
  intros Hbytes Hlen Hsilent. cbn [model_parse].
  pose proof (ParseRawData_cases mktime buf len Hbytes Hlen) as H.
  destruct (ParseRawData mktime buf len) as [p|[]|]; [right|by left|done].
  exists (as_packet p). split; [done|]. split; [done|]. by apply (raw40_legacy buf); [|apply H|].
Qed.

Lemma model_parse_spec m t n buf len h :
  (m, t, n) ∈ legacy_types -> Forall is_byte buf -> len <= zlen buf ->
  model_header m buf = Ret h -> (m = Pandar40 -> laser7_silent buf) ->
  (sob h = 0xEEFF -> model_fits m h len /\ 0 < chLaserNumber h /\
     (realtime s = true \/ chBlockNumber h <= timed_blocks m)) ->
  model_parse char_signed mktime m buf len = Err rejected \/
  exists pkt, model_parse char_signed mktime m buf len = Ret pkt /\ header pkt = h /\
    model_fits m h len /\ legacy_packet m n s pkt.
Proof.
  intros Ht Hbytes Hlen Hh Hsilent Hok.
  assert (m <> Pandar40 -> forall mb ml head reserved us conf bad,
    Z.of_nat n = ml -> us = (if conf : bool then 4 else 3) -> 0 <= head -> 0 <= reserved ->
    (sob h = 0xEEFF -> counts_fit mb ml (head + reserved + 14) us h len /\ 0 < chLaserNumber h /\
      (realtime s = true \/ chBlockNumber h <= timed_blocks m)) ->
    let parse := (if bad : bool then Err rejected else
       h ← model_header m buf;
       if negb (sob h =? 0xEEFF) then Err rejected
       else
         '(index, bs) ← parse_blocks (chDisUnit h) (chLaserNumber h) us 2 conf
           (Z.to_nat (chBlockNumber h)) 0 head buf (blank_blocks mb ml);
         tail ← ParseTail reserved buf index;
         Ret (packet_of mktime h bs tail)) in
    parse = Err rejected \/ exists pkt, parse = Ret pkt /\ header pkt = h /\
      counts_fit mb ml (head + reserved + 14) us h len /\ legacy_packet m n s pkt) as Hall.
  { intros Hm mb ml head reserved us conf bad Hn Hus Hhd Hr Hcounts. destruct bad; [by left|].
    rewrite Hh. cbn [mbind outcome_bind].
    destruct (Z.eqb_spec (sob h) 0xEEFF) as [Hsob|]; cbn [negb]; [|by left].
    destruct (Hcounts Hsob) as (Hfit & Hpos & Htimed). pose proof Hfit as (Hb & Hl & _).
    destruct (parse_body_in mb ml head reserved us conf h buf len) as (index & bs & tail & Hpb & Htl);
      [done..|].
    right. cbv zeta. rewrite Hpb. cbn [mbind outcome_bind]. rewrite Htl. cbn [mbind outcome_bind].
    eexists. split; [reflexivity|].
    pose proof (parse_blocks_fills (E := parse_error) (chDisUnit h) (chLaserNumber h) us 2 conf
      (Z.to_nat (chBlockNumber h)) 0 head buf (blank_blocks mb ml) Hbytes ltac:(lia)
      ltac:(intros j Hj; lia) _ Hpb) as Hfill.
    cbn [snd] in Hfill. rewrite Z.add_0_l, Z2Nat.id in Hfill by lia.
    pose proof (ParseTail_speed reserved buf index Hbytes _ Htl) as Hspeed.
    destruct (packet_of_legacy m n h bs tail Hm) as [? ?]; (done || lia || auto). }
  unfold legacy_types in Ht. rewrite !elem_of_cons, elem_of_nil in Ht.
  destruct (decide (m = Pandar40)) as [->|Hm].
  { assert (n = 40%nat) as -> by (by destruct Ht as [H|[H|[H|[H|[H|[H|[]]]]]]]; injection H).
    injection Hh as <-.
    destruct (raw40_parse_legacy buf len Hbytes Hlen (Hsilent eq_refl)) as [Hrej|(pkt & Hp & Hhd & Hlp)];
      [by left|right]. by exists pkt. }
  specialize (Hall Hm). clear Hsilent.
  destruct Ht as [H|[H|[H|[H|[H|[H|[]]]]]]]; injection H as -> -> ->; try done;
    cbn [model_parse model_fits model_header] in *.
  - by apply (Hall 7 64 8 8 3 false).
  - by apply (Hall 20 20 8 8 3 false).
  - by apply (Hall 20 20 8 8 3 false).
  - by apply (Hall 4 64 12 10 4 true).
Qed.
End parse.
