(* ===== verification/LegacyStream.v ===== *)
(** What the processing thread makes of a stream of packets of a Pandar40, a
    Pandar64, a Pandar20A/B or a PandarQT; and of a PandarXT or one of these with structured
    clouds. *)
From stdpp Require Import gmap.
From S2P Require Import Prelude Ieee IeeeRound Stamps Calendar PacketDefenses CompactCloud PacketFormat.
From S2P Require Import ParseXT ParseLegacy LidarTables PointCalc Correction Framing.
From S2P Require Import FrameModes ChannelMode FramingFacts Pandar40Packet LegacyModels.
#[local] Open Scope Z_scope.

(** ** The fate of a packet *)

Inductive legacy_fate :=
  | LStale
  | LForeign
  | LMalformed
  | LUsed (ts : float) (pkt : Packet).

(** The most points of one packet: seven blocks of 64 lasers. *)
Definition legacy_room : Z := 448.

Section stream.
Context (lookupTransform : nat -> string -> string -> stamp -> lookup_result).
Context (sinf cosf : float -> float) (m : model) (t : string) (n : nat) (c : Calibration) (s : Settings).
Context (char_signed : bool) (mktime : tm -> Z).
Context (Ht : (m, t, n) ∈ legacy_types) (Hc : usable t n c) (Hs : m_sLidarType s = t).

(** What should happen to a packet, from the guard's state before to that after. *)
Inductive legacy_fated (packet : PandarPacket) (g : TimestampGuard)
    : legacy_fate -> TimestampGuard -> Prop :=
  | fated_stale d g' :
      guard_observe (pkt_stamp packet) g = (d, g') -> timestamp_accepted d = false ->
      legacy_fated packet g LStale g'
  | fated_foreign d g' :
      guard_observe (pkt_stamp packet) g = (d, g') -> timestamp_accepted d = true ->
      packet_branch s (pkt_size packet) = None -> legacy_fated packet g LForeign g'
  | fated_malformed d g' :
      guard_observe (pkt_stamp packet) g = (d, g') -> timestamp_accepted d = true ->
      packet_branch s (pkt_size packet) = Some (model_branch m) ->
      model_parse char_signed mktime m (pkt_data packet) (pkt_size packet) = Err rejected ->
      legacy_fated packet g LMalformed g'
  | fated_used d g' pkt :
      guard_observe (pkt_stamp packet) g = (d, g') -> timestamp_accepted d = true ->
      packet_branch s (pkt_size packet) = Some (model_branch m) ->
      model_parse char_signed mktime m (pkt_data packet) (pkt_size packet) = Ret pkt ->
      legacy_packet m n s pkt ->
      legacy_fated packet g (LUsed (pkt_stamp packet) pkt) g'.

Definition legacy_packet_points (ts : float) (pkt : Packet) : list PPoint :=
  concat ((fun b => legacy_points sinf cosf c s m no_transforms pkt ts b) <$>
    seq 0 (Z.to_nat (chBlockNumber (header pkt)))).

Definition legacy_fate_points (f : legacy_fate) : list PPoint :=
  match f with LUsed ts pkt => legacy_packet_points ts pkt | _ => [] end.

Definition legacy_count (f : legacy_fate) (k : Counters) : Counters :=
  match f with LStale => count_regression (count_processed k) | _ => count_processed k end.

(** A packet as the receiving side produces it: a full buffer of bytes, a size
    within it and not that of another model's packets, a representable reception
    time if finite, and, after the start-of-packet marker, counts that fit, with no
    more blocks than have a time offset if times are the sensor's; of a Pandar40,
    whose packets have no counts, nothing measured by laser 7.  The code accepts the
    others too, and may leave its arrays. *)
Record good_legacy (packet : PandarPacket) : Prop := {
  gl_bytes : Forall is_byte (pkt_data packet);
  gl_size : 0 <= pkt_size packet <= zlen (pkt_data packet);
  gl_model : packet_branch s (pkt_size packet) = None \/
    packet_branch s (pkt_size packet) = Some (model_branch m);
  gl_stamp : isfinite (pkt_stamp packet) = true -> good_stamp (pkt_stamp packet);
  gl_counts : packet_branch s (pkt_size packet) = Some (model_branch m) ->
    exists h, model_header char_signed m (pkt_data packet) = Ret h /\
      (sob h = 0xEEFF -> model_fits m h (pkt_size packet) /\ 0 < chLaserNumber h /\
        (realtime s = true \/ chBlockNumber h <= timed_blocks m));
  gl_unset : packet_branch s (pkt_size packet) = Some (model_branch m) ->
    m = Pandar40 -> laser7_silent (pkt_data packet);
}.

Lemma model_fits_room h len : model_fits m h len -> chBlockNumber h * chLaserNumber h <= legacy_room.
Proof. unfold model_fits, counts_fit, legacy_room, BLOCKS_PER_PACKET, LASER_COUNT.
  destruct m; [intros [-> ->]; lia|intros (Hb & Hl & _); nia..]. Qed.

(** The branch of [process_packet] for the model. *)
Lemma process_model cb packet rawpacket p :
  packet_branch s (pkt_size packet) = Some (model_branch m) ->
  match packet_branch s (pkt_size packet) with
  | Some B40 => process_40 lookupTransform sinf cosf c s cb mktime packet rawpacket p
  | Some B64 => process_multi lookupTransform c s cb
      (ParseL64Data char_signed mktime (pkt_data packet) (pkt_size packet))
      (CalcL64PointXYZIT sinf cosf c s) rawpacket p
  | Some B20 => process_multi lookupTransform c s cb
      (ParseL20Data char_signed mktime (pkt_data packet) (pkt_size packet))
      (CalcL20PointXYZIT sinf cosf c s) rawpacket p
  | Some BQT => process_multi lookupTransform c s cb
      (ParseQTData char_signed mktime (pkt_data packet) (pkt_size packet))
      (CalcQTPointXYZIT sinf cosf c s) rawpacket p
  | Some BXT => process_XT lookupTransform sinf cosf c s cb char_signed mktime packet rawpacket p
  | None => Ret (true, p)
  end = process_multi lookupTransform c s cb
    (model_parse char_signed mktime m (pkt_data packet) (pkt_size packet))
    (model_calc sinf cosf c s m) rawpacket p.
Proof.
  intros ->. destruct m; [|done..]. apply process_40_multi. intros. by apply view40_calc.
Qed.

Section mode.
Context {M : FramingMode lookupTransform n c s}.
Context (Hmode : m = PandarQT -> pcl_type_ s = false).

Lemma process_multi_fate cb packet rawpacket g k p d :
  fm_inv (k + legacy_room) p -> 0 <= k -> good_legacy packet ->
  guard_observe (pkt_stamp packet) g = (d, m_packetTimestampGuard p) ->
  timestamp_accepted d = true -> packet_branch s (pkt_size packet) = Some (model_branch m) ->
  m_dPktTimestamp p = pkt_stamp packet ->
  exists p' f,
    process_multi lookupTransform c s cb
      (model_parse char_signed mktime m (pkt_data packet) (pkt_size packet))
      (model_calc sinf cosf c s m) rawpacket p = Ret (true, p') /\ fm_inv k p' /\
    legacy_fated packet g f (m_packetTimestampGuard p') /\ fm_grows p (legacy_fate_points f) p' /\
    counters p' = counters p /\ f <> LStale /\ emitted p `prefix_of` emitted p'.
Proof.
  intros Hinv Hk [Hbytes Hsize _ _ Hcounts Hunset] Hg Hacc Hbr Hts. unfold process_multi.
  match goal with |- context [with_fixed_frame _ _ ?k0 _] =>
    destruct (with_fixed_frame_empty lookupTransform n c s rawpacket _ p k0 Hinv)
      as (tfs & Hf1 & Hf2 & ->) end.
  destruct (fm_ext _ p (set_tf tfs p) Hinv) as [Hinv1 Hg1]; [by split|].
  destruct (Hcounts Hbr) as (h & Hh & Hok).
  destruct (model_parse_spec s char_signed mktime m t n (pkt_data packet) (pkt_size packet) h Ht Hbytes)
    as [Hrej|(pkt & Hparse & Hhd & Hfit & Hlp)]; [lia|done|exact (Hunset Hbr)|done| |].
  - rewrite Hrej. exists (set_tf tfs p), LMalformed. cbn [parsed]. split; [done|].
    split; [by apply (fm_mono (k + legacy_room)); [unfold legacy_room; lia|]|].
    split; [by eapply fated_malformed|]. split_and!; done.
  - rewrite Hparse. cbn [parsed]. pose proof (model_fits_room _ _ Hfit) as Hroom.
    rewrite <- Hhd in Hroom. pose proof (lp_blocks _ _ _ _ Hlp) as Hb.
    change (m_dPktTimestamp (set_tf tfs p)) with (m_dPktTimestamp p). rewrite Hts.
    destruct (process_blocks_mode lookupTransform n c s cb rawpacket
      (Z.to_nat (chBlockNumber (header pkt))) (chLaserNumber (header pkt)) (timestamp_point pkt)
      (packet_azimuth pkt)
      (fun tr i => model_calc sinf cosf c s m tr pkt (pkt_stamp packet) i (chLaserNumber (header pkt)))
      (fun b => legacy_points sinf cosf c s m no_transforms pkt (pkt_stamp packet) b) k (set_tf tfs p))
      as (p2 & Hrun & Hinv2 & (C1 & C2 & C3 & _ & _ & _ & C7) & Hg2);
      [|by destruct Hlp|done| |].
    + intros b Hblt. by apply (legacy_block_spec sinf cosf m t n c s pkt (pkt_stamp packet)); [..|lia].
    + rewrite Z2Nat.id by lia. apply (fm_mono (k + legacy_room)); [lia|done].
    + rewrite Z2Nat.id in Hrun by lia. exists p2, (LUsed (pkt_stamp packet) pkt).
      split; [exact Hrun|]. split; [done|]. rewrite C1, C2. split; [by eapply fated_used|].
      split; [exact (fm_trans _ _ _ _ _ Hg1 Hg2)|]. split_and!; done.
Qed.

Lemma process_packet_legacy cb packet k p :
  fm_inv (k + legacy_room) p -> 0 <= k -> good_legacy packet ->
  exists p' f,
    process_packet lookupTransform sinf cosf c s cb char_signed mktime packet p = Ret (true, p') /\
    fm_inv k p' /\ legacy_fated packet (m_packetTimestampGuard p) f (m_packetTimestampGuard p') /\
    fm_grows p (legacy_fate_points f) p' /\ counters p' = legacy_count f (counters p) /\
    emitted p `prefix_of` emitted p'.
Proof.
  intros Hinv Hk Hgood. destruct (fm_frames _ _ Hinv) as [Hx Hy]. unfold process_packet.
  assert (k <= k + legacy_room) as Hle by (unfold legacy_room; lia).
  set (p0 := set_counters (count_processed (counters p)) p).
  change (m_packetTimestampGuard p0) with (m_packetTimestampGuard p).
  destruct (guard_observe (pkt_stamp packet) (m_packetTimestampGuard p)) as [d g'] eqn:Hg.
  set (p1 := set_guard g' p0).
  destruct (timestamp_accepted d) eqn:Hacc; cbn [negb].
  2: { set (p2 := set_counters (count_regression (counters p1)) p1). exists p2, LStale.
       destruct (fm_ext _ p p2 Hinv) as [Hinv2 Hall2]; [by split|].
       split; [done|]. split; [by eapply fm_mono|]. split; [by eapply fated_stale|]. by split. }
  assert (good_stamp (pkt_stamp packet)) as Hstamp.
  { apply (gl_stamp _ Hgood), (accepted_finite (m_packetTimestampGuard p)). by rewrite Hg. }
  destruct (raw_packet_stamp packet Hstamp (gl_size _ Hgood)) as (sec & nanosec & -> & _).
  cbn [mbind outcome_bind]. set (raw := {| stamp_sec := sec |}).
  set (p2 := set_pkt_timestamp (pkt_stamp packet) p1).
  destruct (fm_ext _ p p2 Hinv) as [Hinv2 Hall2]; [by split|].
  destruct (gl_model _ Hgood) as [Hbr|Hbr].
  - rewrite Hbr. exists p2, LForeign. split; [done|]. split; [by eapply fm_mono|].
    split; [by eapply fated_foreign|]. by split.
  - rewrite process_model by done.
    destruct (process_multi_fate cb packet raw (m_packetTimestampGuard p) k p2 d)
      as (p3 & f & Hrun & Hinv3 & Hfate & Hall3 & Hcnt & Hf & Hpre); try done.
    exists p3, f. split; [exact Hrun|]. split; [done|]. split; [exact Hfate|].
    split; [exact (fm_trans _ _ _ _ _ Hall2 Hall3)|]. rewrite Hcnt. by destruct f.
Qed.
End mode.

(** ** Histories *)

(** The fates of the packets of a run, in order. *)
Inductive legacy_history
    : list PandarPacket -> TimestampGuard -> list legacy_fate -> TimestampGuard -> Prop :=
  | lhistory_nil g : legacy_history [] g [] g
  | lhistory_cons packet packets g f g1 fs g2 :
      legacy_fated packet g f g1 -> legacy_history packets g1 fs g2 ->
      legacy_history (packet :: packets) g (f :: fs) g2.

(** The points of a used packet: one for each laser of each block whose
    measurement is not wrong, in order. *)
Definition hits_only (f : legacy_fate) : Prop :=
  match f with
  | LUsed ts pkt => forall b, Z.of_nat b < chBlockNumber (header pkt) ->
      CompactCloud.ring <$> legacy_points sinf cosf c s m no_transforms pkt ts b =
      filter (fun i => legacy_hit pkt b i = true) (seqZ 0 (chLaserNumber (header pkt)))
  | _ => True
  end.

Lemma history_hits packets g fs g' :
  (m = PandarQT -> pcl_type_ s = false) -> legacy_history packets g fs g' -> Forall hits_only fs.
Proof.
  intros Hmode. induction 1 as [|packet packets g f g1 fs g2 Hf _ IH]; [constructor|].
  constructor; [|done]. destruct Hf; try exact I. intros b Hb.
  by apply (legacy_points_rings sinf cosf m t n c s no_transforms).
Qed.

(** Fewer points of room are left than one more packet might need. *)
Definition legacy_overfull (p : Process) : Prop :=
  MAX_POINT_CLOUD_NUM < m_iPointCloudIndex (frame p) + legacy_room.

Lemma legacy_history_arrays cb packets p :
  pcl_type_ s = false -> framing_inv 0 p -> Forall good_legacy packets ->
  let run pkts := process_packets lookupTransform sinf cosf c s cb char_signed mktime pkts p in
  (exists pre packet post p1, packets = pre ++ packet :: post /\ run pre = Ret (true, p1) /\
     legacy_overfull p1) \/
  (exists p' fs, run packets = Ret (true, p') /\ framing_inv 0 p' /\
    legacy_history packets (m_packetTimestampGuard p) fs (m_packetTimestampGuard p') /\
    all_points p' = all_points p ++ concat (legacy_fate_points <$> fs) /\
    counters p' = foldl (flip legacy_count) (counters p) fs).
Proof.
  intros Hpcl Hinv Hgood. revert p Hinv.
  induction Hgood as [|packet packets Hp _ IH]; intros p Hinv run.
  { right. exists p, []. rewrite app_nil_r. split_and!; try done. constructor. }
  destruct (decide (MAX_POINT_CLOUD_NUM < m_iPointCloudIndex (frame p) + legacy_room)) as [Ho|Hno].
  { left. by exists [], packet, packets, p. }
  destruct (process_packet_legacy
    (M := array_mode lookupTransform n c s (us_elev _ _ _ Hc) (us_general _ _ _ Hc) Hpcl)
    (fun _ => Hpcl) cb packet 0 p) as (p1 & f & Hrun & Hinv1 & Hf & Hall1 & Hcnt1 & _);
    [destruct Hinv; split; try done; lia|done|done|].
  subst run. cbv beta. destruct (IH p1 Hinv1) as [(pre & pk & post & p2 & -> & Hpre & Ho)|
    (p2 & fs & Hrest & Hinv2 & Hh & Hall2 & Hcnt2)]; cbn [process_packets].
  - left. exists (packet :: pre), pk, post, p2. split; [done|].
    cbn [process_packets]. rewrite Hrun. cbn [mbind outcome_bind negb]. by split.
  - right. exists p2, (f :: fs). rewrite Hrun. cbn [mbind outcome_bind negb].
    split; [done|]. split; [done|]. split; [by eapply lhistory_cons|].
    cbn [fm_grows array_mode] in Hall1. rewrite Hall2, Hall1, Hcnt2, Hcnt1, <- app_assoc. by split.
Qed.
End stream.

(** C4: the processing thread of a Pandar40, a Pandar64, a Pandar20A/B or a PandarQT
    in array mode without tf frames, with any usable calibration, on the packets of
    [good_legacy]: full buffers of bytes, whose size is one of the model's or one that
    no parser takes, whose reception time is in range if finite, and whose header
    counts, after a valid start-of-packet marker, fit the packet, with a laser at
    least and, if times are the sensor's, at most [timed_blocks] blocks (of a
    Pandar64 six: a seventh has no time offset); a Pandar40, whose packets have no
    counts, must not have measured anything with laser 7. Unless a frame comes within
    448 points of the end of [m_vPointCloud], it never leaves its arrays nor stops,
    each packet meets exactly one fate (stale time stamp, other size, rejected by the
    parser, used) and is counted accordingly, and the clouds handed to the callback
    together with the unfinished frame hold exactly the points of the used packets in
    order: one for each laser of each block whose measurement is not wrong. *)
Theorem legacy_stream (lookupTransform : nat -> string -> string -> stamp -> lookup_result)
    (sinf cosf : float -> float) (m : model) (t : string) (n : nat) (c : Calibration) (s : Settings)
    (pcl_callback char_signed : bool) (mktime : tm -> Z) (now : stamp)
    (packets : list PandarPacket) (p : Process)
    (Ht : (m, t, n) ∈ legacy_types) (Hc : usable t n c)
    (Hs : m_sLidarType s = t) (Hpcl : pcl_type_ s = false)
    (Hp : framing_inv 0 p) (Hpackets : Forall (good_legacy m s char_signed) packets) :
  let run pkts := ProcessLiarPacket lookupTransform sinf cosf c s pcl_callback char_signed mktime
    now pkts p in
  (exists pre packet post p', packets = pre ++ packet :: post /\ run pre = Ret (true, p') /\
     legacy_overfull p') \/
  (exists p' fs, run packets = Ret (true, p') /\ Forall emission_ok (emitted p') /\
    legacy_history m n s char_signed mktime packets (m_packetTimestampGuard p) fs
      (m_packetTimestampGuard p') /\
    all_points p' = all_points p ++ concat (legacy_fate_points sinf cosf m c s <$> fs) /\
    Forall (hits_only sinf cosf m c s) fs /\
    counters p' = foldl (flip legacy_count) (counters p) fs).
Proof.
  intros run.
  assert (forall pkts, run pkts = process_packets lookupTransform sinf cosf c s
    pcl_callback char_signed mktime pkts p) as Hrun.
  { intros pkts. apply ProcessLiarPacket_no_target, (fi_target _ _ Hp). }
  destruct (legacy_history_arrays lookupTransform sinf cosf m t n c s char_signed mktime Ht Hc Hs
    pcl_callback packets p Hpcl Hp Hpackets) as [(pre & pk & post & p1 & -> & Hpre & Ho)|
    (p1 & fs & Hr & Hinv & Hh & Hall & Hcnt)].
  - left. exists pre, pk, post, p1. by rewrite Hrun.
  - right. exists p1, fs. rewrite Hrun. split; [done|]. split; [apply Hinv|].
    split_and!; try done. by apply (history_hits sinf cosf m t n c s char_signed mktime Ht Hc Hs _ _ _ _ (fun _ => Hpcl) Hh).
Qed.

(** Two packets of a Pandar64, or of a Pandar40 whose laser 7 measures nothing, on
    both sides of the start angle 0, and a stale one. *)
Definition l64_packet (azimuth : Z) (time : float) : PandarPacket :=
  {| pkt_data := [0xEE; 0xFF; 64; 6; 0; 4; 0; 0] ++
       concat ((fun b => le_split 2 (azimuth + b) ++ concat (replicate 64 [196; 9; 77])) <$> seqZ 0 6) ++
       replicate 8 0 ++ le_split 2 600 ++ le_split 4 250000 ++ [0x39; 66; 24; 2; 29; 12; 34; 56] ++
       replicate 306 0;
     pkt_size := 1194; pkt_stamp := time |}.
Definition p40_packet (azimuth : Z) (time : float) : PandarPacket :=
  {| pkt_data := concat ((fun b => [0xFF; 0xEE] ++ le_split 2 (azimuth + b) ++
         concat (replicate 7 [196; 9; 77]) ++ [0; 0; 77] ++ concat (replicate 32 [196; 9; 77])) <$> seqZ 0 10) ++
       replicate 8 0 ++ le_split 2 600 ++ le_split 4 250000 ++ [0x37; 66; 24; 2; 29; 12; 34; 56] ++
       replicate 238 0;
     pkt_size := 1262; pkt_stamp := time |}.

Definition example_type (m : model) : string * nat :=
  match m with Pandar40 => ("Pandar40P"%string, 40%nat) | _ => ("Pandar64"%string, 64%nat) end.
Definition example_settings (m : model) : Settings :=
  {| m_sTimestampType := ""; tz_second_ := 0; pcl_type_ := false; m_sLidarType := (example_type m).1;
     m_bCoordinateCorrectionFlag := false; m_sFrameId := "lidar" |}.
Definition example_packets (m : model) : list PandarPacket :=
  let packet := match m with Pandar40 => p40_packet | _ => l64_packet end in
  [packet 35990 (d_lit 1005 10); packet 100 (d_lit 10051 100); packet 100 (d_lit 905 10)].

Abbreviation legacy_run m packets :=
  (ProcessLiarPacket (fun _ _ _ _ => LookupFailed) id id (Init id id (example_type m).1)
    (example_settings m) true true mktime_utc (0, 0) packets (started 0 (no_tf "lidar" ""))).

Lemma l64_packets_good :
  Forall (good_legacy Pandar64 (example_settings Pandar64) true) (example_packets Pandar64).
Proof.
  unfold example_packets. repeat (apply Forall_cons_2; [split;
      [apply (bool_decide_unpack _); vm_compute; exact I
      |split; vm_compute; discriminate
      |right; vm_compute; reflexivity
      |intros _; split; [solve_valid|split; vm_compute; discriminate]
      |intros _; eexists; split; [vm_compute; reflexivity|];
       intros _; split; [split_and!; vm_compute; congruence|split; [reflexivity|right; vm_compute; discriminate]]
      |intros _ Hm; discriminate Hm]|]).
  constructor.
Qed.

(** A test of [laser7_silent]. *)
Definition silent7 (buf : list Z) : bool :=
  forallb (fun b => match rd16 (E := parse_error) buf (124 * b + 4 + 3 * 7) with
                    | Ret range => wrong_point (d_mul (d_of_Z range) LASER_RETURN_TO_DISTANCE_RATE)
                    | _ => false
                    end) (seqZ 0 BLOCKS_PER_PACKET).

Lemma silent7_spec buf : silent7 buf = true -> laser7_silent buf.
Proof.
  unfold silent7, laser7_silent. rewrite forallb_forall. intros H b Hb.
  assert (b ∈ seqZ 0 BLOCKS_PER_PACKET) as Hin by (apply elem_of_seqZ; lia).
  specialize (H b (proj1 (list_elem_of_In _ _) Hin)).
  destruct (rd16 _ _) as [range| |]; [|done..]. by exists range.
Qed.

Lemma p40_packets_good :
  Forall (good_legacy Pandar40 (example_settings Pandar40) true) (example_packets Pandar40).
Proof.
  unfold example_packets. repeat (apply Forall_cons_2; [split;
      [apply (bool_decide_unpack _); vm_compute; exact I
      |split; vm_compute; discriminate
      |right; vm_compute; reflexivity
      |intros _; split; [solve_valid|split; vm_compute; discriminate]
      |intros _; eexists; split; [reflexivity|]; intros _; repeat split; right; vm_compute; discriminate
      |intros _ _; apply silent7_spec; vm_compute; reflexivity]|]).
  constructor.
Qed.

Definition example_model (m : model) : Prop := m = Pandar64 \/ m = Pandar40.

Lemma legacy_example_room m k : example_model m -> (k <= 2)%nat ->
  match legacy_run m (take k (example_packets m)) with
  | Ret (_, p) => bool_decide (m_iPointCloudIndex (frame p) + legacy_room <= MAX_POINT_CLOUD_NUM)
  | _ => true
  end = true.
Proof.
  intros [-> | ->] Hk; (destruct k as [|[|[|k]]]; [vm_compute; reflexivity..|lia]).
Qed.

(** All points of the first packet, less those of laser 7. *)
Definition first_cloud (m : model) : nat := match m with Pandar40 => 390 | _ => 384 end.

Lemma legacy_example_result m : example_model m ->
  match legacy_run m (example_packets m) with
  | Ret (_, p) => bool_decide (length (concat ((fun e => points (em_cloud e)) <$> emitted p)) = first_cloud m /\
      m_packetTimestampRegressions (counters p) = 1)
  | _ => false
  end = true.
Proof. intros [-> | ->]; vm_compute; reflexivity. Qed.

Lemma example_model_good m : example_model m ->
  (m, (example_type m).1, (example_type m).2) ∈ legacy_types /\
  Forall (good_legacy m (example_settings m) true) (example_packets m).
Proof.
  intros [-> | ->]; (split; [apply (bool_decide_unpack _); vm_compute; exact I|]);
    [exact l64_packets_good|exact p40_packets_good].
Qed.

Definition legacy_emitted (m : model) : Prop :=
  exists p', legacy_run m (example_packets m) = Ret (true, p') /\ Forall emission_ok (emitted p') /\
    length (concat ((fun e => points (em_cloud e)) <$> emitted p')) = first_cloud m /\
    m_packetTimestampRegressions (counters p') = 1.

Lemma legacy_stream_witness : legacy_emitted Pandar64 /\ legacy_emitted Pandar40.
Proof.
  cut (forall m, example_model m -> legacy_emitted m);
    [intros H; split; apply H; [by left|by right]|]. intros m Hm.
  assert (framing_inv 0 (started 0 (no_tf "lidar" ""))) as Hinv
    by (split; try done; vm_compute; discriminate).
  destruct (example_model_good m Hm) as [Ht Hgood].
  destruct (legacy_stream (fun _ _ _ _ => LookupFailed) id id m (example_type m).1 (example_type m).2
    (Init id id (example_type m).1) (example_settings m) true true mktime_utc (0, 0) (example_packets m)
    (started 0 (no_tf "lidar" "")) Ht (init_usable id id _ _ (proj1 (legacy_tables _ _ _ Ht)))
    eq_refl eq_refl Hinv Hgood)
    as [(pre & pk & post & p1 & Hpk & Hrun & Ho)|(p1 & fs & Hrun & Hem & _)].
  - exfalso. assert (length pre <= 2)%nat as Hlen.
    { pose proof (f_equal length Hpk) as Hl. rewrite length_app in Hl. simpl in Hl. lia. }
    pose proof (legacy_example_room m (length pre) Hm Hlen) as Hroom. rewrite Hpk, take_app_length in Hroom.
    rewrite Hrun in Hroom. apply bool_decide_eq_true_1 in Hroom.
    unfold legacy_overfull in Ho. lia.
  - exists p1. pose proof (legacy_example_result m Hm) as Htest.
    split; [exact Hrun|]. split; [exact Hem|].
    rewrite Hrun in Htest. by apply bool_decide_eq_true_1 in Htest.
Defined.

(** ** Structured clouds *)

Section structured.
Context (lookupTransform : nat -> string -> string -> stamp -> lookup_result).
Context (sinf cosf : float -> float) (t : string) (n : nat) (c : Calibration) (s : Settings).
Context (char_signed : bool) (mktime : tm -> Z).
Context (Ht : (t, n) ∈ lidar_types) (Hxt : is_xt t = true) (Hc : usable t n c).
Context (Hs : m_sLidarType s = t) (Hpcl : pcl_type_ s = true).

Lemma xt_small : (n <= 256)%nat.
Proof.
  pose proof (xt_types t n Ht Hxt) as H. rewrite !elem_of_cons, elem_of_nil in H.
  destruct H as [H|[H|[H|[]]]]; injection H as _ ->; lia.
Qed.

#[local] Definition channels : FramingMode lookupTransform n c s :=
  channel_mode lookupTransform n c s (us_elev _ _ _ Hc) (us_general _ _ _ Hc) Hpcl xt_small.

Lemma channel_grows_refl p : channel_grows p [] p.
Proof. intros i _. by rewrite app_nil_r. Qed.

Lemma process_packets_channels cb packets p :
  channel_inv p -> Forall (good_packet t s) packets ->
  exists p' fs,
    process_packets lookupTransform sinf cosf c s cb char_signed mktime packets p = Ret (true, p') /\
    channel_inv p' /\
    xt_history s packets (m_packetTimestampGuard p) (m_xtSequenceTracker p) fs
      (m_packetTimestampGuard p') (m_xtSequenceTracker p') /\
    channel_grows p (concat (fate_points sinf cosf c s char_signed mktime <$> fs)) p' /\
    counters p' = foldl (flip fate_count) (counters p) fs.
Proof.
  intros Hinv Hgood. revert p Hinv. induction Hgood as [|packet packets Hp _ IH]; intros p Hinv.
  { exists p, []. split_and!; try done; [constructor|apply channel_grows_refl]. }
  destruct (process_packet_mode lookupTransform sinf cosf t n c s char_signed mktime Ht Hxt Hc Hs
    (M := channels) cb packet 0 p) as (p1 & f & Hrun & Hinv1 & Hf & Hg1 & Hcnt1 & _); [done..|].
  destruct (IH p1 Hinv1) as (p2 & fs & Hrest & Hinv2 & Hh & Hg2 & Hcnt2).
  exists p2, (f :: fs). cbn [process_packets]. rewrite Hrun. cbn [mbind outcome_bind negb].
  split; [done|]. split; [done|]. split; [by eapply history_cons|].
  split; [exact (fm_trans (FramingMode := channels) _ _ _ _ _ Hg1 Hg2)|]. by rewrite Hcnt2, Hcnt1.
Qed.
End structured.

(** The points that the used packets put into the channel of a laser. *)
Definition used_of_ring (sinf cosf : float -> float) (c : Calibration) (s : Settings) (char_signed : bool)
    (mktime : tm -> Z) (i : nat) (fs : list fate) : list PPoint :=
  of_ring i (concat (fate_points sinf cosf c s char_signed mktime <$> fs)).

(** C5: the processing thread of a PandarXT that builds structured clouds, without tf
    frames and with any usable calibration, on the packets of [good_packet] (any
    bytes; a size of the PandarXT family or one that no parser takes; a reception
    time in range if finite; echo byte 0x3d from a PandarXTM only): it never leaves
    its arrays nor stops, each packet meets exactly one fate and is counted
    accordingly, every cloud handed to the callback has points, sorted by ring from
    ring 0 on, and the time of its first one, and for each ring the clouds followed by
    the channel still being filled hold exactly the points of that ring of the used
    packets, in order. Unlike array mode it has no limit on the points of a frame. *)
Theorem structured_stream (lookupTransform : nat -> string -> string -> stamp -> lookup_result)
    (sinf cosf : float -> float) (t : string) (n : nat) (c : Calibration) (s : Settings)
    (pcl_callback char_signed : bool) (mktime : tm -> Z) (now : stamp)
    (packets : list PandarPacket) (p : Process)
    (Ht : (t, n) ∈ lidar_types) (Hxt : is_xt t = true) (Hc : usable t n c)
    (Hs : m_sLidarType s = t) (Hpcl : pcl_type_ s = true)
    (Hp : channel_inv p) (Hpackets : Forall (good_packet t s) packets) :
  exists p' fs,
    ProcessLiarPacket lookupTransform sinf cosf c s pcl_callback char_signed mktime now packets p =
      Ret (true, p') /\
    Forall channel_emission (emitted p') /\
    xt_history s packets (m_packetTimestampGuard p) (m_xtSequenceTracker p) fs
      (m_packetTimestampGuard p') (m_xtSequenceTracker p') /\
    (forall i, (i < 256)%nat -> ring_points i p' =
      ring_points i p ++ used_of_ring sinf cosf c s char_signed mktime i fs) /\
    counters p' = foldl (flip fate_count) (counters p) fs.
Proof.
  destruct (process_packets_channels lookupTransform sinf cosf t n c s char_signed mktime Ht Hxt Hc
    Hs Hpcl pcl_callback packets p Hp Hpackets) as (p' & fs & Hrun & Hinv & Hh & Hg & Hcnt).
  exists p', fs. rewrite ProcessLiarPacket_no_target by apply Hp. split; [done|].
  split; [apply Hinv|]. by split_and!.
Qed.

Definition structured_settings : Settings :=
  {| m_sTimestampType := ""; tz_second_ := 0; pcl_type_ := true; m_sLidarType := "PandarXTM";
     m_bCoordinateCorrectionFlag := false; m_sFrameId := "lidar" |}.

Abbreviation structured_run packets :=
  (ProcessLiarPacket (fun _ _ _ _ => LookupFailed) id id (Init id id "PandarXTM")
    structured_settings true true mktime_utc (0, 0) packets (started 0 (no_tf "lidar" ""))).

Lemma structured_result :
  match structured_run xtm_packets with
  | Ret (_, p) => bool_decide (CompactCloud.ring <$> concat ((fun e => points (em_cloud e)) <$> emitted p) =
      concat (replicate 6 <$> seqZ 0 32))
  | _ => false
  end = true.
Proof. vm_compute. reflexivity. Qed.

Lemma structured_stream_witness :
  exists p', structured_run xtm_packets = Ret (true, p') /\ Forall channel_emission (emitted p') /\
    CompactCloud.ring <$> concat ((fun e => points (em_cloud e)) <$> emitted p') =
      concat (replicate 6 <$> seqZ 0 32).
Proof.
  assert (("PandarXTM", 32%nat) ∈ lidar_types) as Ht
    by (apply (bool_decide_unpack _); vm_compute; exact I).
  assert (channel_inv (started 0 (no_tf "lidar" ""))) as Hinv.
  { split; try done. intros i ch Hch. apply lookup_replicate in Hch as [-> _]. constructor. }
  assert (Forall (good_packet "PandarXTM" structured_settings) xtm_packets) as Hgood.
  { eapply Forall_impl; [exact xtm_packets_good|]. intros pk []. by split. }
  destruct (structured_stream (fun _ _ _ _ => LookupFailed) id id "PandarXTM" 32
    (Init id id "PandarXTM") structured_settings true true mktime_utc (0, 0) xtm_packets
    (started 0 (no_tf "lidar" "")) Ht eq_refl (init_usable id id _ _ Ht) eq_refl eq_refl Hinv Hgood)
    as (p1 & fs & Hrun & Hem & _).
  exists p1. pose proof structured_result as Htest. split; [exact Hrun|]. split; [exact Hem|].
  rewrite Hrun in Htest. by apply bool_decide_eq_true_1 in Htest.
Defined.
