(* ===== verification/SensorTime.v ===== *)
(** The times of points by the sensor's clock ([timestamp_type] other than
    "realtime"): a packet whose clock stands between one second after the epoch
    and the last second but one of 32 bits gives points whose times a ROS stamp
    can hold, whatever the model, the block and the laser. *)
From stdpp Require Import gmap.
From S2P Require Import Prelude Ieee IeeeRound IeeeInterval Stamps Calendar CompactCloud PacketFormat.
From S2P Require Import ParseXT ParseLegacy LidarTables PointCalc Framing FramingFacts.
From S2P Require Import Pandar40Packet LegacyModels LegacyStream.
#[local] Open Scope Z_scope.

(** The time of a packet before the offsets of blocks and lasers. *)
Definition clock_ok (s : Settings) (time : float) : Prop := dwithin 1 (2 ^ 31 - 2) (lidar_time s time).

Lemma early_good time o : dwithin 1 (2 ^ 31 - 2) time -> dwithin (-1) 1 o -> good_stamp (d_sub time o).
Proof.
  intros Ht Ho. apply (within_sub 53 1024 ltac:(lia) 1 (2 ^ 31 - 2) (-1) 1); try done; unfold representable; lia.
Qed.

Lemma late_good time o : dwithin 1 (2 ^ 31 - 2) time -> dwithin (-1) 1 o -> good_stamp (d_add time o).
Proof.
  intros Ht Ho. apply (within_add 53 1024 ltac:(lia) 1 (2 ^ 31 - 2) (-1) 1); try done; unfold representable; lia.
Qed.

Lemma clock_good s time : clock_ok s time -> good_stamp (lidar_time s time).
Proof. apply within_mono; lia. Qed.

Lemma made_good {A} (f : A -> option PPoint) (l : list A) :
  (forall x pt, f x = Some pt -> good_stamp (CompactCloud.timestamp pt)) ->
  Forall good_stamp (CompactCloud.timestamp <$> omap f l).
Proof.
  intros Hf. rewrite Forall_fmap, Forall_forall. intros pt Hpt.
  apply list_elem_of_omap in Hpt as (x & _ & Hx). by apply (Hf x).
Qed.

Lemma concat_good (ll : list (list PPoint)) :
  Forall (fun l => Forall good_stamp (CompactCloud.timestamp <$> l)) ll ->
  Forall good_stamp (CompactCloud.timestamp <$> concat ll).
Proof. induction 1; cbn; [constructor|]. rewrite fmap_app. by apply Forall_app_2. Qed.

Lemma make_point_timestamp tf xyz it time i :
  CompactCloud.timestamp (make_point tf xyz it time i) = time.
Proof. unfold make_point. by destruct (transformPoint tf xyz) as [[? ?] ?]. Qed.

(** ** PandarXT *)

Lemma mjoin_Some {A} (o : option (option A)) a : mjoin o = Some a -> o = Some (Some a).
Proof. destruct o; cbn; [by intros ->|done]. Qed.

Lemma xt_times_good sinf cosf t n c s char_signed mktime ts r :
  usable t n c -> realtime s = false ->
  clock_ok s (timestamp_point_of mktime (tm_of_addtime (rx_utc r)) (rx_timestamp r)) ->
  Forall good_stamp (CompactCloud.timestamp <$> packet_points sinf cosf c s char_signed mktime ts r).
Proof.
  intros Hc Hrt Hclock. apply concat_good. rewrite Forall_fmap. apply Forall_forall. intros b _.
  apply made_good. intros i pt Hpt. unfold xt_point in Hpt. rewrite Hrt in Hpt.
  apply bind_Some in Hpt as (? & _ & Hpt). apply bind_Some in Hpt as (? & _ & Hpt).
  case_match; [discriminate|]. apply bind_Some in Hpt as (? & _ & Hpt).
  apply bind_Some in Hpt as (delta & Hd & Hpt). apply bind_Some in Hpt as (? & _ & Hpt).
  apply bind_Some in Hpt as (? & _ & Hpt). apply bind_Some in Hpt as (offset & Ho & Hpt).
  injection Hpt as <-. rewrite make_point_timestamp. apply late_good; [done|].
  apply mjoin_Some in Hd, Ho. pose proof (us_times _ _ _ Hc) as Hsmall.
  apply andb_true_iff in Hsmall as [[H1 H2]%andb_true_iff H3].
  eapply offset_within; [|exact Ho|exact Hd].
  destruct (rx_echo r =? 0x3d); [done|]. by destruct (_ || _).
Qed.

(** ** The other models *)

Definition either (dual : bool) (a b : list (option float)) : list (option float) := if dual then a else b.

Lemma small40 dual : offsets_small (either dual block40OffsetDual_ block40OffsetSingle_) laser40Offset_ = true.
Proof. destruct dual; vm_compute; reflexivity. Qed.
Lemma small64 dual : offsets_small (either dual block64OffsetDual_ block64OffsetSingle_) laser64Offset_ = true.
Proof. destruct dual; vm_compute; reflexivity. Qed.
Lemma small20A dual : offsets_small (either dual block20OffsetDual_ block20OffsetSingle_) laser20AOffset_ = true.
Proof. destruct dual; vm_compute; reflexivity. Qed.
Lemma small20B dual : offsets_small (either dual block20OffsetDual_ block20OffsetSingle_) laser20BOffset_ = true.
Proof. destruct dual; vm_compute; reflexivity. Qed.
Lemma smallQT dual : offsets_small (either dual blockQTOffsetDual_ blockQTOffsetSingle_) laserQTOffset_ = true.
Proof. destruct dual; vm_compute; reflexivity. Qed.

Lemma arr_value_Some {E} (a : list (option float)) i v :
  arr_value (E := E) a i = Ret v -> a !! Z.to_nat i = Some (Some v).
Proof.
  unfold arr_value. intros H. apply bind_Ret_inv in H as (o & Ho & H).
  apply arr_get_Ret in Ho as [_ ->]. destruct o; [by injection H as ->|done].
Qed.

(** The shape of the time computations. *)
Lemma offset_time_good {E} op blocks lasers b i v :
  offsets_small blocks lasers = true -> (forall o, dwithin (-1) 1 o -> good_stamp (op o)) ->
  (bo ← arr_value blocks b; lo ← arr_value lasers i; Ret (E := E) (op (seconds_offset bo lo))) = Ret v ->
  good_stamp v.
Proof.
  intros Hsmall Hop H. apply bind_Ret_inv in H as (bo & Hb & H).
  apply bind_Ret_inv in H as (lo & Hl & H). injection H as <-. apply Hop.
  eapply offset_within; [done|by eapply arr_value_Some..].
Qed.

Lemma model_timestamp_good m s pkt ts b i v :
  realtime s = false -> clock_ok s (timestamp_point pkt) ->
  model_timestamp (E := unit) s m pkt ts b i = Ret v -> good_stamp v.
Proof.
  intros Hrt Hclock. pose proof (fun o => early_good _ o Hclock) as Hearly.
  pose proof (fun o => late_good _ o Hclock) as Hlate.
  unfold model_timestamp, view40_timestamp, calc64_timestamp, calc20_timestamp, calcQT_timestamp.
  rewrite Hrt. destruct m.
  - exact (offset_time_good (d_sub _) _ _ _ _ _ (small40 _) Hearly).
  - exact (offset_time_good (d_sub _) _ _ _ _ _ (small64 _) Hearly).
  - destruct (bool_decide (m_sLidarType s = "Pandar20A"));
      [exact (offset_time_good (d_sub _) _ _ _ _ _ (small20A _) Hearly)|].
    destruct (bool_decide (m_sLidarType s = "Pandar20B"));
      [exact (offset_time_good (d_sub _) _ _ _ _ _ (small20B _) Hearly)|].
    intros [= <-]. by apply clock_good.
  - exact (offset_time_good (d_add _) _ _ _ _ _ (smallQT _) Hlate).
Qed.

Lemma legacy_times_good sinf cosf m c s ts pkt :
  realtime s = false -> clock_ok s (timestamp_point pkt) ->
  Forall good_stamp (CompactCloud.timestamp <$> legacy_packet_points sinf cosf m c s ts pkt).
Proof.
  intros Hrt Hclock. apply concat_good. rewrite Forall_fmap. apply Forall_forall. intros b _.
  apply made_good. intros i pt Hpt. unfold legacy_point in Hpt.
  apply bind_Some in Hpt as ([az u] & _ & Hpt). case_match; [discriminate|].
  do 4 (apply bind_Some in Hpt as (? & _ & Hpt)).
  apply bind_Some in Hpt as (time & Htime & Hpt). injection Hpt as <-.
  rewrite make_point_timestamp.
  destruct (model_timestamp s m pkt ts (Z.of_nat b) i) as [v| |] eqn:Hv; try discriminate.
  injection Htime as ->. by eapply model_timestamp_good.
Qed.
