(* ===== verification/Streams.v ===== *)
(** What the driver relies on of the processing thread, for every sensor and
    both ways of collecting points: the packets it takes without a fault and the
    invariant it keeps. *)
From stdpp Require Import gmap.
From S2P Require Import Prelude Ieee IeeeInterval Stamps Calendar PacketDefenses CompactCloud.
From S2P Require Import PacketFormat ParseXT ParseLegacy LidarTables PointCalc Correction Framing.
From S2P Require Import FrameModes ChannelMode FramingFacts LegacyModels LegacyStream SensorTime.
#[local] Open Scope Z_scope.

(** ** Sensors *)

(** The PandarXT family, and the other models. *)
Inductive sensor := XT | Legacy (m : model).

(** The most points of one packet. *)
Definition sensor_room (k : sensor) : Z :=
  match k with XT => 256 | Legacy _ => legacy_room end.

(** The settings name a lidar type of the sensor. Structured clouds of a PandarQT,
    which the code makes, are left out: its point index, which nothing resets then,
    overflows in the end ([qt_index_advances]). *)
Definition supported (k : sensor) (t : string) (n : nat) (s : Settings) : Prop :=
  m_sLidarType s = t /\
  match k with
  | XT => (t, n) ∈ lidar_types /\ is_xt t = true
  | Legacy m => (m, t, n) ∈ legacy_types /\ (m = PandarQT -> pcl_type_ s = false)
  end.

(** The packets the theorems about streams are about, not all the code accepts; see
    [good_packet] and [good_legacy]. *)
Definition stream_good (k : sensor) (t : string) (s : Settings) (char_signed : bool)
    (packet : PandarPacket) : Prop :=
  match k with
  | XT => good_packet t s packet
  | Legacy m => good_legacy m s char_signed packet
  end.

Definition stream_inv (s : Settings) (p : Process) : Prop :=
  if pcl_type_ s then channel_inv p else framing_inv 0 p.

(** In array mode: less room is left than one packet may need. *)
Definition nearly_full (k : sensor) (s : Settings) (p : Process) : Prop :=
  pcl_type_ s = false /\ MAX_POINT_CLOUD_NUM < m_iPointCloudIndex (frame p) + sensor_room k.

#[export] Instance nearly_full_dec k s p : Decision (nearly_full k s p).
Proof. unfold nearly_full. apply _. Defined.

Definition sound_emission (s : Settings) (e : Emission) : Prop :=
  if pcl_type_ s then channel_emission e else emission_ok e.

(** The points that give the clouds their times: a structured cloud begins with
    ring 0. *)
Definition leading (s : Settings) (pts : list PPoint) : list PPoint :=
  if pcl_type_ s then of_ring 0 pts else pts.

(** Those made so far. *)
Definition leading_points (s : Settings) (p : Process) : list PPoint :=
  if pcl_type_ s then ring_points 0 p else all_points p.

Lemma leading_app s l k : leading s (l ++ k) = leading s l ++ leading s k.
Proof. unfold leading. destruct (pcl_type_ s); [apply of_ring_app|done]. Qed.

Lemma leading_elem s pt l : pt ∈ leading s l -> pt ∈ l.
Proof.
  unfold leading. destruct (pcl_type_ s); [|done]. by intros [_ ?]%list_elem_of_filter.
Qed.

Lemma leading_points_clouds s p :
  exists rest, leading_points s p = leading s (concat ((fun e => points (em_cloud e)) <$> emitted p)) ++ rest.
Proof. unfold leading_points, leading. destruct (pcl_type_ s); by eexists. Qed.

(** The shape both kinds of clouds have. *)
Lemma sound_emission_shape s e :
  sound_emission s e ->
  exists first rest, points (em_cloud e) = first :: rest /\
    leading s (points (em_cloud e)) = first :: leading s rest /\
    em_timestamp e = CompactCloud.timestamp first /\
    pc_width (em_cloud e) = u32 (zlen (points (em_cloud e))) /\ pc_height (em_cloud e) = 1.
Proof.
  unfold sound_emission, leading. destruct (pcl_type_ s).
  - intros (first & rest & Hpts & Hts & Hring & Hw & Hh & _). exists first, rest. split_and!; try done.
    rewrite Hpts. unfold of_ring. by rewrite filter_cons_True.
  - intros (first & rest & Hpts & Hts & Hw & Hh & _). by exists first, rest.
Qed.

Lemma emission_times s ems :
  Forall (sound_emission s) ems ->
  sublist (em_timestamp <$> ems)
    (CompactCloud.timestamp <$> leading s (concat ((fun e => points (em_cloud e)) <$> ems))).
Proof.
  induction 1 as [|e ems (first & rest & _ & Hl & Hts & _)%sound_emission_shape _ IH]; [apply sublist_nil_l|].
  cbn. rewrite leading_app, Hl, Hts, fmap_app. cbn. apply sublist_skip. by apply sublist_inserts_l.
Qed.

Lemma supported_type k t n s : supported k t n s -> (t, n) ∈ lidar_types.
Proof.
  intros [_ H]. destruct k as [|m]; [apply H|]. destruct H as [H _].
  by destruct (legacy_tables _ _ _ H).
Qed.

Lemma stream_inv_emitted s p : stream_inv s p -> Forall (sound_emission s) (emitted p).
Proof. unfold stream_inv, sound_emission. by destruct (pcl_type_ s); intros []. Qed.

Lemma stream_inv_frames s p :
  stream_inv s p -> m_sFixedFrame (tf p) = "" /\ m_sTargetFrame (tf p) = "".
Proof. unfold stream_inv. by destruct (pcl_type_ s); intros []. Qed.

Lemma stream_good_stamp k t s char_signed packet :
  stream_good k t s char_signed packet -> isfinite (pkt_stamp packet) = true ->
  good_stamp (pkt_stamp packet).
Proof. destruct k; [apply gp_stamp|apply gl_stamp]. Qed.

(** ** What the members of a new or restarted thread are *)

Lemma stream_inv_started s start_angle tfs :
  m_sFixedFrame tfs = "" -> m_sTargetFrame tfs = "" -> stream_inv s (started start_angle tfs).
Proof.
  intros Hf Ht. unfold stream_inv. destruct (pcl_type_ s).
  - split; try done. intros i ch Hch. apply lookup_replicate in Hch as [-> _]. constructor.
  - split; cbn; [done|done|done|lia|vm_compute; discriminate|constructor].
Qed.

(** Only the frame, the clouds and the frames of tf matter. *)
Lemma stream_inv_ext s p p' :
  stream_inv s p -> frame p' = frame p -> outMsg p' = outMsg p -> tf p' = tf p ->
  emitted p' = emitted p -> stream_inv s p'.
Proof.
  unfold stream_inv. destruct (pcl_type_ s); intros [] H1 H2 H3 H4; split; by rewrite ?H1, ?H2, ?H3, ?H4.
Qed.

(** [Start] empties the frame. *)
Lemma stream_inv_restart s p p' :
  stream_inv s p ->
  frame p' = {| m_iPointCloudIndex := 0; m_vPointCloud := m_vPointCloud (frame p);
                m_vPointCloudList := (fun _ => []) <$> m_vPointCloudList (frame p) |} ->
  points (outMsg p') = [] -> tf p' = tf p -> emitted p' = emitted p -> stream_inv s p'.
Proof.
  unfold stream_inv. destruct (pcl_type_ s); intros [] H1 H2 H3 H4; split;
    rewrite ?H1, ?H2, ?H3, ?H4; cbn; try done; try lia.
  - by rewrite length_fmap.
  - intros i ch Hch. apply list_lookup_fmap_Some in Hch as (? & -> & _). constructor.
  - match goal with H : _ !! 0%nat = Some [] |- _ => by rewrite list_lookup_fmap, H end.
Qed.

(** ** A packet *)

(** The sensor's clock, if the packet is one the driver parses; see [clock_ok]. *)
Definition sensor_clock (k : sensor) (s : Settings) (char_signed : bool) (mktime : tm -> Z)
    (packet : PandarPacket) : Prop :=
  match k with
  | XT => forall r, wf_xt r -> take (Z.to_nat (pkt_size packet)) (pkt_data packet) = encode_xt r ->
      clock_ok s (timestamp_point_of mktime (tm_of_addtime (rx_utc r)) (rx_timestamp r))
  | Legacy m => forall pkt,
      model_parse char_signed mktime m (pkt_data packet) (pkt_size packet) = Ret pkt ->
      clock_ok s (timestamp_point pkt)
  end.

(** What a packet does to the guard, and when its points were measured. *)
Record packet_effect (k : sensor) (s : Settings) (char_signed : bool) (mktime : tm -> Z)
    (packet : PandarPacket) (g : TimestampGuard) (pts : list PPoint) (g' : TimestampGuard) : Prop := {
  pe_guard : (guard_observe (pkt_stamp packet) g).2 = g';
  pe_refused : timestamp_accepted (guard_observe (pkt_stamp packet) g).1 = false -> pts = [];
  pe_received : realtime s = true ->
    Forall (fun y => y = pkt_stamp packet) (CompactCloud.timestamp <$> pts);
  pe_measured : realtime s = false -> sensor_clock k s char_signed mktime packet ->
    Forall good_stamp (CompactCloud.timestamp <$> pts);
}.

Lemma leading_times s (P : float -> Prop) pts :
  Forall P (CompactCloud.timestamp <$> pts) -> Forall P (CompactCloud.timestamp <$> leading s pts).
Proof.
  rewrite !Forall_fmap, !Forall_forall. intros Ht pt Hpt. by eapply Ht, leading_elem.
Qed.

Lemma leading_effect k s char_signed mktime packet g pts g' :
  packet_effect k s char_signed mktime packet g pts g' ->
  packet_effect k s char_signed mktime packet g (leading s pts) g'.
Proof.
  intros [Hg Hno Hrt Hst]. split; [done|..].
  - intros Hd. rewrite (Hno Hd). unfold leading. by destruct (pcl_type_ s).
  - intros H. by apply leading_times, Hrt.
  - intros H Hclock. by apply leading_times, Hst.
Qed.

(** A packet that makes no points. *)
Lemma idle_effect k s char_signed mktime packet g d g' :
  guard_observe (pkt_stamp packet) g = (d, g') -> packet_effect k s char_signed mktime packet g [] g'.
Proof. intros Ho. split; [by rewrite Ho|done|constructor|constructor]. Qed.

Lemma made_time {A} (f : A -> option PPoint) (l : list A) ts :
  (forall x pt, f x = Some pt -> CompactCloud.timestamp pt = ts) ->
  Forall (fun y => y = ts) (CompactCloud.timestamp <$> omap f l).
Proof.
  intros Hf. rewrite Forall_fmap, Forall_forall. intros pt Hpt.
  apply list_elem_of_omap in Hpt as (x & _ & Hx). by apply (Hf x).
Qed.

Lemma concat_times (ll : list (list PPoint)) ts :
  Forall (fun l => Forall (fun y => y = ts) (CompactCloud.timestamp <$> l)) ll ->
  Forall (fun y => y = ts) (CompactCloud.timestamp <$> concat ll).
Proof. induction 1; cbn; [constructor|]. rewrite fmap_app. by apply Forall_app_2. Qed.

Section times.
Context (sinf cosf : float -> float) (c : Calibration) (s : Settings).
Context (Hrt : realtime s = true).

(** With the reception time as time stamp, every point of a packet has it. *)
Lemma xt_packet_times char_signed mktime ts r :
  Forall (fun y => y = ts)
    (CompactCloud.timestamp <$> packet_points sinf cosf c s char_signed mktime ts r).
Proof.
  apply concat_times. rewrite Forall_fmap. apply Forall_forall. intros b _. apply made_time.
  intros i pt Hpt. unfold xt_point in Hpt. rewrite Hrt in Hpt.
  repeat (apply bind_Some in Hpt as (? & _ & Hpt)). case_match; [discriminate|].
  repeat (apply bind_Some in Hpt as (? & _ & Hpt)). injection Hpt as <-.
  unfold make_point. by destruct (transformPoint _ _) as [[? ?] ?].
Qed.

Lemma legacy_packet_times m ts pkt :
  Forall (fun y => y = ts)
    (CompactCloud.timestamp <$> legacy_packet_points sinf cosf m c s ts pkt).
Proof.
  apply concat_times. rewrite Forall_fmap. apply Forall_forall. intros b _. apply made_time.
  intros i pt Hpt. unfold legacy_point in Hpt.
  apply bind_Some in Hpt as ([az u] & _ & Hpt). case_match; [discriminate|].
  do 4 (apply bind_Some in Hpt as (? & _ & Hpt)).
  apply bind_Some in Hpt as (time & Htime & Hpt). injection Hpt as <-.
  assert (time = ts) as ->.
  { unfold model_timestamp, view40_timestamp, calc64_timestamp, calc20_timestamp, calcQT_timestamp in Htime.
    rewrite Hrt in Htime. by destruct m; injection Htime. }
  unfold make_point. by destruct (transformPoint _ _) as [[? ?] ?].
Qed.
End times.

Lemma xt_effect sinf cosf t n c s char_signed mktime packet g q f g' q' :
  usable t n c -> xt_fate s packet g q f g' q' ->
  packet_effect XT s char_signed mktime packet g (fate_points sinf cosf c s char_signed mktime f) g'.
Proof.
  intros Hc []; try by eapply idle_effect. split.
  - by match goal with H : guard_observe _ _ = _ |- _ => rewrite H end.
  - match goal with H : guard_observe _ _ = _ |- _ => rewrite H end. cbn. congruence.
  - intros Hrt. by apply xt_packet_times.
  - intros Hrt Hclock. eapply xt_times_good; [done..|]. by apply Hclock.
Qed.

Lemma legacy_effect sinf cosf m n c s char_signed mktime packet g f g' :
  legacy_fated m n s char_signed mktime packet g f g' ->
  packet_effect (Legacy m) s char_signed mktime packet g (legacy_fate_points sinf cosf m c s f) g'.
Proof.
  intros []; try by eapply idle_effect. split.
  - by match goal with H : guard_observe _ _ = _ |- _ => rewrite H end.
  - match goal with H : guard_observe _ _ = _ |- _ => rewrite H end. cbn. congruence.
  - intros Hrt. by apply legacy_packet_times.
  - intros Hrt Hclock. apply legacy_times_good; [done|]. by apply Hclock.
Qed.

Section step.
Context (lookupTransform : nat -> string -> string -> stamp -> lookup_result).
Context (sinf cosf : float -> float) (k : sensor) (t : string) (n : nat) (c : Calibration) (s : Settings).
Context (pcl_callback char_signed : bool) (mktime : tm -> Z).
Context (Hk : supported k t n s) (Hc : usable t n c).

Lemma types_small : (n <= 256)%nat.
Proof.
  destruct Hk as [_ H]. destruct k as [|m]; [by destruct H; eapply (xt_small t n c)|].
  destruct H as [H _]. destruct (legacy_tables _ _ _ H) as (_ & Hn & _). lia.
Qed.

(** Either way of collecting points is a mode of framing. *)
Lemma any_mode : exists M : FramingMode lookupTransform n c s,
  (forall p, ~ nearly_full k s p -> stream_inv s p -> fm_inv (sensor_room k) p) /\
  (forall p, fm_inv 0 p -> stream_inv s p) /\
  (forall p pts p', fm_grows p pts p' -> leading_points s p' = leading_points s p ++ leading s pts).
Proof.
  unfold stream_inv, nearly_full, leading_points, leading. destruct (pcl_type_ s) eqn:Hpcl.
  - exists (channel_mode lookupTransform n c s (us_elev _ _ _ Hc) (us_general _ _ _ Hc) Hpcl types_small).
    split; [done|]. split; [done|]. intros p pts p' Hg. by apply (Hg 0%nat); lia.
  - exists (array_mode lookupTransform n c s (us_elev _ _ _ Hc) (us_general _ _ _ Hc) Hpcl).
    split; [|by split]. intros p Hroom []. split; try done. lia.
Qed.

Lemma stream_step packet p :
  stream_inv s p -> stream_good k t s char_signed packet -> ~ nearly_full k s p ->
  exists p', process_packet lookupTransform sinf cosf c s pcl_callback char_signed mktime packet p =
      Ret (true, p') /\
    stream_inv s p' /\
    m_processedPackets (counters p') = u64 (m_processedPackets (counters p) + 1) /\
    emitted p `prefix_of` emitted p' /\
    exists pts, leading_points s p' = leading_points s p ++ pts /\
      packet_effect k s char_signed mktime packet (m_packetTimestampGuard p) pts (m_packetTimestampGuard p').
Proof.
  intros Hinv Hgood Hroom. destruct any_mode as (M & Hin & Hout & Hgrow).
  specialize (Hin p Hroom Hinv). destruct Hk as [Ht H]. destruct k as [|m]; destruct H as [H1 H2].
  - destruct (process_packet_mode lookupTransform sinf cosf t n c s char_signed mktime H1 H2 Hc Ht
      pcl_callback packet 0 p) as (p' & f & Hrun & Hinv' & Hf & Hg & Hcnt & Hpre); [done..|].
    exists p'. split; [done|]. split; [by apply Hout|]. split; [by rewrite Hcnt, fate_count_processed|].
    split; [done|]. eexists. split; [by apply Hgrow|by eapply leading_effect, xt_effect].
  - destruct (process_packet_legacy lookupTransform sinf cosf m t n c s char_signed mktime H1 Hc Ht H2
      pcl_callback packet 0 p) as (p' & f & Hrun & Hinv' & Hf & Hg & Hcnt & Hpre); [done..|].
    exists p'. split; [done|]. split; [by apply Hout|].
    split; [rewrite Hcnt; by destruct f|]. split; [done|].
    eexists. split; [by apply Hgrow|by eapply leading_effect, legacy_effect].
Qed.
End step.
