(* ===== verification/TfFrames.v ===== *)
(** A fixed frame moves points and does nothing else: the processing thread with
    [m_sFixedFrame] set, beside the one without frames of tf.

    The two runs go through the same statements.  [both] relates their results,
    [moved] their points, and the relation of the processing threads follows
    [ProcessLiarPacket] down to the five point computations. *)
From stdpp Require Import gmap.
From S2P Require Import Prelude Ieee Calendar PacketDefenses CompactCloud PacketFormat ParseXT.
From S2P Require Import ParseLegacy LidarTables PointCalc Correction Framing FrameModes FramingFacts.
#[local] Open Scope Z_scope.

(** ** Two results *)

Definition both {E A B} (R : A -> B -> Prop) (m : outcome E A) (k : outcome E B) : Prop :=
  match m, k with
  | Ret a, Ret b => R a b
  | Err e, Err e' => e = e'
  | Undef, Undef => True
  | _, _ => False
  end.

Section both.
Context {E : Type}.

Lemma both_bind {A B A' B'} (R : A -> B -> Prop) (S : A' -> B' -> Prop) (m : outcome E A)
    (k : outcome E B) f g :
  both R m k -> (forall a b, R a b -> both S (f a) (g b)) -> both S (a ← m; f a) (b ← k; g b).
Proof. destruct m, k; cbn; try done. intros H Hf. by apply Hf. Qed.

Lemma both_same {A A' B'} (S : A' -> B' -> Prop) (m : outcome E A) f g :
  (forall a, both S (f a) (g a)) -> both S (a ← m; f a) (a ← m; g a).
Proof. destruct m; cbn; auto. Qed.

Lemma both_impl {A B} (R S : A -> B -> Prop) (m : outcome E A) (k : outcome E B) :
  both R m k -> (forall a b, R a b -> S a b) -> both S m k.
Proof. destruct m, k; cbn; auto. Qed.

(** Arrays of related elements. *)
Lemma both_get {A B} (R : A -> B -> Prop) l k i :
  Forall2 R l k -> both R (arr_get (E := E) l i) (arr_get k i).
Proof.
  intros H. unfold arr_get. destruct (decide _); [|done].
  destruct (l !! Z.to_nat i) as [a|] eqn:Ha.
  - by destruct (Forall2_lookup_l _ _ _ _ _ H Ha) as (b & -> & Hab).
  - apply lookup_ge_None_1 in Ha. rewrite (Forall2_length _ _ _ H) in Ha.
    by rewrite lookup_ge_None_2.
Qed.

Lemma both_set {A B} (R : A -> B -> Prop) l k i a b :
  Forall2 R l k -> R a b -> both (Forall2 R) (arr_set (E := E) l i a) (arr_set k i b).
Proof.
  intros H Hab. unfold arr_set. rewrite (Forall2_length _ _ _ H). destruct (decide _); [|done].
  by apply Forall2_insert.
Qed.
End both.

(** ** Points *)

Definition xyz (p : PPoint) : point3 := (CompactCloud.x p, CompactCloud.y p, CompactCloud.z p).
Definition placed (q : point3) (p : PPoint) : PPoint :=
  {| CompactCloud.x := q.1.1; CompactCloud.y := q.1.2; CompactCloud.z := q.2;
     CompactCloud.intensity := CompactCloud.intensity p;
     CompactCloud.timestamp := CompactCloud.timestamp p; CompactCloud.ring := CompactCloud.ring p |}.

Section fixed.
(** The answers of tf, and the two frames. *)
Context (lookupTransform : nat -> string -> string -> stamp -> lookup_result).
Context (fixed sensor : string) (Hfixed : fixed <> "") (Hsensor : sensor <> "").
Context (sinf cosf : float -> float) (c : Calibration) (s : Settings).

(** A transformation tf answered with, for some time. *)
Definition answered (m : point3 -> point3) : Prop :=
  exists q time, lookupTransform q fixed sensor time = Found m.
Definition moved (p0 p : PPoint) : Prop :=
  exists m, answered m /\ p = placed (m (xyz p0)) p0.

Lemma moved_timestamp p0 p : moved p0 p -> CompactCloud.timestamp p = CompactCloud.timestamp p0.
Proof. by intros (m & _ & ->). Qed.

Record frame_moved (fr0 fr : Frame) : Prop := {
  fv_index : m_iPointCloudIndex fr = m_iPointCloudIndex fr0;
  fv_array : pcl_type_ s = false -> forall i, 0 <= i < m_iPointCloudIndex fr0 ->
    exists p0 p, m_vPointCloud fr0 !! i = Some p0 /\ m_vPointCloud fr !! i = Some p /\ moved p0 p;
  fv_channels : Forall2 (Forall2 moved) (m_vPointCloudList fr0) (m_vPointCloudList fr);
}.

Section calc.
Context {E : Type} (m : point3 -> point3) (Hm : answered m).

Definition fixed_transforms : Transforms := {| to_fixed := Some m; to_target := None |}.
Abbreviation frames := (both (E := E) frame_moved).

Lemma make_point_moved q intensity timestamp ring :
  moved (make_point no_transforms q intensity timestamp ring)
    (make_point fixed_transforms q intensity timestamp ring).
Proof.
  exists m. split; [done|]. destruct q as [[x y] z]. unfold make_point, transformPoint, placed, xyz.
  cbn. by destruct (m (x, y, z)) as [[x' y'] z'].
Qed.

Lemma push_point_moved i p0 p fr0 fr :
  frame_moved fr0 fr -> moved p0 p -> frames (push_point i p0 fr0) (push_point i p fr).
Proof.
  intros [Hi Ha Hc] Hp. unfold push_point.
  eapply both_bind; [by apply both_get|]. intros ch0 ch Hch.
  eapply both_bind; [apply (both_set _ _ _ _ _ _ Hc); by apply Forall2_app; [|constructor]|].
  intros l0 l Hl. by split.
Qed.

Lemma put_point_moved p0 p fr0 fr :
  pcl_type_ s = false -> frame_moved fr0 fr -> moved p0 p ->
  frames (fr ← put_point p0 fr0; bump_index fr) (fr ← put_point p fr; bump_index fr).
Proof.
  intros Hpcl [Hi Ha Hc] Hp. unfold put_point. rewrite Hi. destruct (decide _); [|done].
  cbn [mbind outcome_bind]. unfold bump_index. cbn [m_iPointCloudIndex]. rewrite ?Hi.
  destruct (_ <? INT_MAX); [|done]. split; cbn; [done| |done]. intros _ i Hr.
  destruct (decide (i = m_iPointCloudIndex fr0)) as [->|Hne].
  - exists p0, p. by rewrite !lookup_insert_eq.
  - rewrite !lookup_insert_ne by done. apply Ha; [done|lia].
Qed.

Lemma store_point_moved i p0 p fr0 fr :
  frame_moved fr0 fr -> moved p0 p -> frames (store_point s i p0 fr0) (store_point s i p fr).
Proof.
  intros Hfr Hp. unfold store_point. destruct (pcl_type_ s) eqn:Hpcl;
    [by apply push_point_moved|by apply put_point_moved].
Qed.

Lemma store_point_qt_moved i p0 p fr0 fr :
  frame_moved fr0 fr -> moved p0 p -> frames (store_point_qt s i p0 fr0) (store_point_qt s i p fr).
Proof.
  intros Hfr Hp. unfold store_point_qt. destruct (pcl_type_ s) eqn:Hpcl; [|by apply put_point_moved].
  eapply both_bind; [by apply push_point_moved|]. intros fr1 fr2 [Hi Ha Hc].
  unfold bump_index. rewrite <- Hi. destruct (_ <? INT_MAX); [|done].
  split; cbn; [done|by rewrite Hpcl|done].
Qed.

Lemma for_lasers_moved (body0 body : Z -> Frame -> outcome E Frame) n i fr0 fr :
  (forall i fr0 fr, frame_moved fr0 fr -> frames (body0 i fr0) (body i fr)) ->
  frame_moved fr0 fr -> frames (for_lasers body0 n i fr0) (for_lasers body n i fr).
Proof.
  intros Hbody. revert i fr0 fr. induction n as [|n IH]; intros i fr0 fr Hfr; [done|]. cbn.
  eapply both_bind; [by apply Hbody|]. intros fr1 fr2. apply IH.
Qed.

(** The five point computations. *)
Ltac unit_moved :=
  intros i f0 f Hf; cbv beta delta [CalcUnit CalcL64Unit CalcL20Unit CalcXTUnit CalcQTUnit];
  repeat (apply both_same; intros ?);
  repeat match goal with x : (Z * Unit)%type |- _ => destruct x end;
  match goal with |- context [wrong_point ?d] => destruct (wrong_point d) end; [exact Hf|];
  repeat (apply both_same; intros ?);
  first [apply store_point_moved|apply store_point_qt_moved]; [exact Hf|apply make_point_moved].

Lemma Calc40_moved pkt ts b fr0 fr : frame_moved fr0 fr ->
  frames (CalcPointXYZIT sinf cosf c s no_transforms pkt ts b fr0)
    (CalcPointXYZIT sinf cosf c s fixed_transforms pkt ts b fr).
Proof. apply for_lasers_moved. unit_moved. Qed.
Lemma CalcL64_moved pkt ts b lasers fr0 fr : frame_moved fr0 fr ->
  frames (CalcL64PointXYZIT sinf cosf c s no_transforms pkt ts b lasers fr0)
    (CalcL64PointXYZIT sinf cosf c s fixed_transforms pkt ts b lasers fr).
Proof. apply for_lasers_moved. unit_moved. Qed.
Lemma CalcL20_moved pkt ts b lasers fr0 fr : frame_moved fr0 fr ->
  frames (CalcL20PointXYZIT sinf cosf c s no_transforms pkt ts b lasers fr0)
    (CalcL20PointXYZIT sinf cosf c s fixed_transforms pkt ts b lasers fr).
Proof. apply for_lasers_moved. unit_moved. Qed.
Lemma CalcXT_moved pkt ts b lasers fr0 fr : frame_moved fr0 fr ->
  frames (CalcXTPointXYZIT sinf cosf c s no_transforms pkt ts b lasers fr0)
    (CalcXTPointXYZIT sinf cosf c s fixed_transforms pkt ts b lasers fr).
Proof. apply for_lasers_moved. unit_moved. Qed.
Lemma CalcQT_moved pkt ts b lasers fr0 fr : frame_moved fr0 fr ->
  frames (CalcQTPointXYZIT sinf cosf c s no_transforms pkt ts b lasers fr0)
    (CalcQTPointXYZIT sinf cosf c s fixed_transforms pkt ts b lasers fr).
Proof. apply for_lasers_moved. unit_moved. Qed.
End calc.

(** ** The processing thread *)

Record cloud_moved (c0 c1 : PPointCloud) : Prop := {
  cv_frame_id : pc_frame_id c1 = pc_frame_id c0;
  cv_width : pc_width c1 = pc_width c0;
  cv_height : pc_height c1 = pc_height c0;
  cv_dense : pc_is_dense c1 = pc_is_dense c0;
  cv_points : Forall2 moved (points c0) (points c1);
}.
Record emission_moved (e0 e1 : Emission) : Prop := {
  ev_cloud : cloud_moved (em_cloud e0) (em_cloud e1);
  ev_timestamp : em_timestamp e1 = em_timestamp e0;
  ev_scan : em_scan e1 = em_scan e0;
}.

(** [p0] has no frames, [p] the fixed one. *)
Record beside (p0 p : Process) : Prop := {
  be_start : start_angle_ p = start_angle_ p0;
  be_azimuth : last_azimuth_ p = last_azimuth_ p0;
  be_timestamp : last_timestamp_ p = last_timestamp_ p0;
  be_packet : m_dPktTimestamp p = m_dPktTimestamp p0;
  be_guard : m_packetTimestampGuard p = m_packetTimestampGuard p0;
  be_tracker : m_xtSequenceTracker p = m_xtSequenceTracker p0;
  be_counters : counters p = counters p0;
  be_scan : scan p = scan p0;
  be_frame : frame_moved (frame p0) (frame p);
  be_cloud : cloud_moved (outMsg p0) (outMsg p);
  be_emitted : Forall2 emission_moved (emitted p0) (emitted p);
  be_without : m_sFixedFrame (tf p0) = "" /\ m_sTargetFrame (tf p0) = "";
  be_with : m_sFixedFrame (tf p) = fixed /\ m_sTargetFrame (tf p) = "" /\ m_sSensorFrame (tf p) = sensor;
}.

(** With the transformation of the packet at work. *)
Definition at_work (p0 p : Process) : Prop := beside p0 p /\ answered (m_tf_matrix_to_fixed (tf p)).
Definition results (r0 r : bool * Process) : Prop := r.1 = r0.1 /\ at_work r0.2 r.2.

(** An assignment to the same members of both. *)
Ltac assigned := match goal with H : beside _ _ |- _ => destruct H end; split; cbn; try done; try congruence.

Lemma transforms_at_work p0 p :
  at_work p0 p -> transforms (tf p0) = no_transforms /\
    transforms (tf p) = fixed_transforms (m_tf_matrix_to_fixed (tf p)).
Proof.
  intros [[] _]. destruct be_without0 as [H1 H2], be_with0 as (H3 & H4 & H5). unfold transforms.
  rewrite H1, H2, H3, H4. unfold is_empty. by rewrite (bool_decide_eq_false_2 (fixed = "")).
Qed.

(** *** The end of a frame *)

Lemma resize_moved pts0 pts c0 c1 :
  Forall2 moved pts0 pts -> cloud_moved c0 c1 -> cloud_moved (resize_to pts0 c0) (resize_to pts c1).
Proof. intros Hp []. split; cbn; try done. by rewrite (Forall2_length _ _ _ Hp). Qed.

Lemma push_back_moved l0 l c0 c1 :
  Forall2 moved l0 l -> cloud_moved c0 c1 ->
  cloud_moved (foldl (flip push_back) c0 l0) (foldl (flip push_back) c1 l).
Proof.
  intros Hl. revert c0 c1. induction Hl as [|p0 p l0 l Hp Hl IH]; intros c0 c1 Hc; [done|]. cbn.
  apply IH. unfold flip, push_back. apply resize_moved; [|done].
  apply Forall2_app; [by destruct Hc|by constructor].
Qed.

Lemma append_moved n i l0 l c0 c1 :
  Forall2 (Forall2 moved) l0 l -> cloud_moved c0 c1 ->
  both (E := thread_error) cloud_moved (append_channels n i l0 c0) (append_channels n i l c1).
Proof.
  intros Hl. revert i c0 c1. induction n as [|n IH]; intros i c0 c1 Hc; [done|]. cbn.
  eapply both_bind; [by apply both_get|]. intros ch0 ch Hch. apply IH. by apply push_back_moved.
Qed.

Lemma clear_moved n i fr0 fr :
  frame_moved fr0 fr ->
  both (E := thread_error) frame_moved (clear_channels n i fr0) (clear_channels n i fr).
Proof.
  revert i fr0 fr. induction n as [|n IH]; intros i fr0 fr Hfr; [done|]. cbn.
  eapply both_bind; [by apply both_set; [apply Hfr|constructor]|]. intros l0 l Hl. apply IH.
  destruct Hfr. by split.
Qed.

Lemma cloud_points_moved fr0 fr :
  pcl_type_ s = false -> frame_moved fr0 fr -> Forall2 moved (cloud_points fr0) (cloud_points fr).
Proof.
  intros Hpcl [Hi Ha _]. unfold cloud_points. rewrite Hi. apply Forall2_fmap_2.
  apply Forall_Forall2_diag, Forall_forall. intros i Hin. apply elem_of_seqZ in Hin.
  destruct (Ha Hpcl i ltac:(lia)) as (p0 & p & -> & -> & Hp). exact Hp.
Qed.

Lemma collect_moved lasers p0 p :
  at_work p0 p -> both (E := thread_error) at_work (collect s lasers p0) (collect s lasers p).
Proof.
  intros [Hb Ha]. unfold collect. destruct (pcl_type_ s) eqn:Hpcl.
  - eapply both_bind; [apply append_moved; apply Hb|]. intros c0 c1 Hc. split; [|done]. by assigned.
  - eapply both_bind with (R := Forall2 moved).
    + unfold assign_points. rewrite (fv_index _ _ (be_frame _ _ Hb)). destruct (decide _); [|done].
      apply cloud_points_moved; [done|apply Hb].
    + intros l0 l Hl. split; [|done]. assigned.
      * split; cbn; [done|by intros _ i Hi; lia|by destruct be_frame0].
      * by apply resize_moved.
Qed.

Lemma emit_moved lasers p0 p :
  at_work p0 p -> both (E := thread_error) at_work (EmitBackMessege s lasers p0) (EmitBackMessege s lasers p).
Proof.
  intros Hw. unfold EmitBackMessege. eapply both_bind; [by apply collect_moved|]. clear p0 p Hw.
  intros p0 p [Hb Ha].
  assert (forall q0 q, at_work q0 q -> both (E := thread_error) at_work
    (if pcl_type_ s then fr ← clear_channels (Z.to_nat lasers) 0 (frame q0); Ret (set_frame fr q0) else Ret q0)
    (if pcl_type_ s then fr ← clear_channels (Z.to_nat lasers) 0 (frame q); Ret (set_frame fr q) else Ret q))
    as Hclear.
  { intros q0 q [Hq Hqa]. destruct (pcl_type_ s); [|done].
    eapply both_bind; [by apply clear_moved, Hq|]. intros f0 f1 Hf. split; [by assigned|done]. }
  pose proof (cv_points _ _ (be_cloud _ _ Hb)) as Hpts.
  destruct (points (outMsg p0)) as [|first0 rest0], (points (outMsg p)) as [|first rest];
    try by inversion Hpts.
  - apply Hclear. split; [|done]. by assigned.
  - apply Forall2_cons in Hpts as [Hfirst _].
    set (q0 := add_emission _ p0). set (q := add_emission _ p).
    assert (at_work q0 q) as Hq.
    { split; [|done]. assigned. apply Forall2_app; [done|]. constructor; [|constructor].
      split; cbn; [done|by apply moved_timestamp|done]. }
    destruct (pcl_type_ s); [|done].
    eapply both_bind; [apply clear_moved; apply Hq|]. intros f0 f1 Hf. cbn.
    destruct (Z.to_nat lasers =? 0)%nat; destruct Hq as [Hq Hqa]; (split; [|done]); assigned.
    by apply resize_moved; [constructor|].
Qed.

Lemma pending_moved fr0 fr :
  frame_moved fr0 fr -> frame_pending fr = frame_pending fr0.
Proof.
  intros [Hi _ Hc]. unfold frame_pending. rewrite Hi. destruct (0 <? _); [done|].
  pose proof (both_get (E := thread_error) _ _ _ 0 Hc) as H.
  destruct (arr_get (m_vPointCloudList fr0) 0) as [c0| |], (arr_get (m_vPointCloudList fr) 0) as [c1| |];
    try done; cbn in *; [by rewrite (Forall2_length _ _ _ H)|by subst].
Qed.

Lemma end_frame_moved time lasers p0 p :
  at_work p0 p ->
  both results (end_frame lookupTransform c s time lasers p0) (end_frame lookupTransform c s time lasers p).
Proof.
  intros [Hb Ha]. unfold end_frame. apply both_same. intros correction.
  eapply both_bind; [apply emit_moved; split; [|done]; assigned; by rewrite be_scan0|]. clear p0 p Hb Ha.
  intros p0 p [Hb Ha]. unfold computeTransformToTarget. cbn [set_scan tf].
  pose proof Hb as Hb'. destruct Hb' as [_ _ _ _ _ _ _ _ _ _ _ [_ H2] (_ & H4 & _)]. rewrite H2, H4.
  cbn. split; [done|]. split; [|done]. by assigned.
Qed.

Lemma boundary_moved cb time lasers ts azimuth p0 p :
  at_work p0 p ->
  both results (frame_boundary lookupTransform c s cb time lasers ts azimuth p0)
    (frame_boundary lookupTransform c s cb time lasers ts azimuth p).
Proof.
  intros Hw. pose proof Hw as [Hb Ha]. unfold frame_boundary.
  rewrite (be_azimuth _ _ Hb), (be_timestamp _ _ Hb), (be_start _ _ Hb).
  destruct (_ && cb); [|done]. rewrite (pending_moved _ _ (be_frame _ _ Hb)).
  apply both_same. intros []; [by apply end_frame_moved|done].
Qed.

(** *** A packet *)

Context (pcl_callback char_signed : bool) (mktime : tm -> Z).
Definition calc_moved (calc : Transforms -> Frame -> outcome thread_error Frame) : Prop :=
  forall m fr0 fr, answered m -> frame_moved fr0 fr ->
    both frame_moved (calc no_transforms fr0) (calc (fixed_transforms m) fr).

Lemma block_moved time lasers ts az calc p0 p :
  calc_moved calc -> at_work p0 p ->
  both results (block_step lookupTransform c s pcl_callback time lasers ts az calc p0)
    (block_step lookupTransform c s pcl_callback time lasers ts az calc p).
Proof.
  intros Hcalc Hw. unfold block_step. apply both_same. intros azimuth.
  eapply both_bind; [by apply boundary_moved|]. clear p0 p Hw.
  intros [ok0 p0] [ok p] [Hok Hw]. cbn in Hok, Hw. subst ok0. destruct ok; cbn [negb]; [|done].
  destruct (transforms_at_work _ _ Hw) as [-> ->]. pose proof Hw as [Hb Ha].
  eapply both_bind; [apply Hcalc; [done|apply Hb]|]. intros fr0 fr Hfr.
  split; [done|]. split; [|done]. by assigned.
Qed.

Lemma blocks_moved (step0 step : Z -> Process -> outcome thread_error (bool * Process)) n i p0 p :
  (forall i p0 p, at_work p0 p -> both results (step0 i p0) (step i p)) -> at_work p0 p ->
  both results (for_blocks step0 n i p0) (for_blocks step n i p).
Proof.
  intros Hstep. revert i p0 p. induction n as [|n IH]; intros i p0 p Hw; [done|]. cbn.
  eapply both_bind; [by apply Hstep|]. intros [ok0 q0] [ok q] [Hok Hq]. cbn in Hok, Hq. subst ok0.
  destruct ok; cbn [negb]; [by apply IH|done].
Qed.

Lemma process_blocks_moved rawpacket blocks lasers ts az calc p0 p :
  (forall i, calc_moved (fun tr => calc tr i)) -> at_work p0 p ->
  both results
    (process_blocks lookupTransform c s pcl_callback rawpacket blocks lasers ts az calc p0)
    (process_blocks lookupTransform c s pcl_callback rawpacket blocks lasers ts az calc p).
Proof.
  intros Hcalc [Hb Ha]. unfold process_blocks. eapply both_bind.
  - apply blocks_moved; [intros i q0 q Hq; by apply block_moved|]. split; [|done]. by assigned.
  - intros [ok0 q0] [ok q] [Hok [Hq Hqa]]. cbn in Hok, Hq, Hqa. subst ok0. split; [done|].
    destruct ok; [|done]. split; [|done]. assigned. by destruct be_cloud0.
Qed.

(** tf has no transformation for [time]: the function returns, or the exception
    leaves it. *)
Definition refusal (time : stamp) (p : Process) (r : outcome thread_error (bool * Process)) : Prop :=
  match lookupTransform (tf_queries (tf p)) fixed sensor time with
  | Found _ => False
  | LookupFailed => exists p', r = Ret (false, p') /\ emitted p' = emitted p /\ counters p' = counters p
  | LookupThrew => r = Err uncaught_exception
  end.

Lemma with_fixed_moved rawpacket k0 k p0 p :
  beside p0 p ->
  (forall q0 q, at_work q0 q -> both results (k0 q0) (k q)) ->
  let run := with_fixed_frame lookupTransform rawpacket in
  both results (run k0 p0) (run k p) \/
  refusal (stamp_sec rawpacket, stamp_nanosec rawpacket) p (run k p).
Proof.
  intros Hb Hk. cbn zeta. pose proof (be_without _ _ Hb) as [H1 H2].
  pose proof (be_with _ _ Hb) as (H3 & H4 & H5). destruct (manage_tf_empty (tf p0)) as [H6 H7]; [done..|].
  assert (manage_tf_buffer (tf p) = set_tf_buffer true (tf p)) as Hbuf.
  { unfold manage_tf_buffer, is_empty. rewrite H3, H5, !bool_decide_eq_false_2 by done. reflexivity. }
  assert (with_fixed_frame lookupTransform rawpacket k0 p0 = k0 (set_tf (manage_tf_buffer (tf p0)) p0)) as ->.
  { unfold with_fixed_frame, computeTransformToFixed. by rewrite H6. }
  unfold refusal, with_fixed_frame. rewrite Hbuf. unfold computeTransformToFixed, calculateTransformMatrix.
  cbn [set_tf_buffer m_sFixedFrame m_sSensorFrame m_tf_buffer tf_queries negb]. rewrite H3, H5.
  unfold is_empty. rewrite bool_decide_eq_false_2 by done.
  destruct (lookupTransform _ _ _ _) as [m| |] eqn:Hl; cbn [mbind outcome_bind].
  - left. apply Hk. split; [by assigned|]. cbn. by eexists _, _.
  - right. eexists. split; [reflexivity|done].
  - by right.
Qed.

Lemma parsed_moved {A} (m : outcome parse_error A) k0 k p0 p :
  (forall pkt, both results (k0 pkt) (k pkt)) -> at_work p0 p ->
  both results (parsed m k0 p0) (parsed m k p).
Proof. intros Hk Hw. unfold parsed. destruct m as [|[]|]; [apply Hk|exact (conj eq_refl Hw)|done]. Qed.

Definition after (r0 r : bool * Process) : Prop := r.1 = r0.1 /\ beside r0.2 r.2.

Definition refused (packet : PandarPacket) (p : Process) (r : outcome thread_error (bool * Process))
    : Prop :=
  exists rawpacket, raw_packet packet = Ret rawpacket /\
    refusal (stamp_sec rawpacket, stamp_nanosec rawpacket)
      (set_counters (count_processed (counters p)) p) r.

Abbreviation process_packet :=
  (process_packet lookupTransform sinf cosf c s pcl_callback char_signed mktime).
Abbreviation process_packets :=
  (process_packets lookupTransform sinf cosf c s pcl_callback char_signed mktime).

Lemma multi_moved parse (calc : Transforms -> Packet -> float -> Z -> Z -> Frame -> outcome thread_error Frame)
    rawpacket p0 p :
  (forall pkt ts i lasers, calc_moved (fun tr => calc tr pkt ts i lasers)) -> beside p0 p ->
  let run := process_multi lookupTransform c s pcl_callback parse calc rawpacket in
  both results (run p0) (run p) \/ refusal (stamp_sec rawpacket, stamp_nanosec rawpacket) p (run p).
Proof.
  intros Hcalc Hb. apply with_fixed_moved; [done|]. intros q0 q Hq. apply parsed_moved; [|done].
  intros pkt. pose proof Hq as [Hb' _]. rewrite (be_packet _ _ Hb').
  apply process_blocks_moved; [by intros i|done].
Qed.

Lemma xt_moved packet rawpacket p0 p :
  beside p0 p ->
  let run := process_XT lookupTransform sinf cosf c s pcl_callback char_signed mktime packet rawpacket in
  both results (run p0) (run p) \/ refusal (stamp_sec rawpacket, stamp_nanosec rawpacket) p (run p).
Proof.
  intros Hb. apply with_fixed_moved; [done|]. intros q0 q [Hq Ha]. apply parsed_moved; [|by split].
  intros pkt. rewrite (be_tracker _ _ Hq), (be_counters _ _ Hq).
  destruct (tracker_observe _ _ _) as [d tracker]. destruct (count_sequence d (counters q0)) as [accepted k].
  set (q0' := set_counters k (set_tracker tracker q0)). set (q' := set_counters k (set_tracker tracker q)).
  assert (at_work q0' q') as Hq' by (split; [by assigned|done]).
  destruct accepted; cbn [negb]; [|by split].
  pose proof Hq' as [Hb' _]. rewrite (be_packet _ _ Hb').
  apply process_blocks_moved; [|done]. intros i m fr0 fr Hm Hfr. by apply CalcXT_moved.
Qed.

Lemma p40_moved packet rawpacket p0 p :
  beside p0 p ->
  let run := process_40 lookupTransform sinf cosf c s pcl_callback mktime packet rawpacket in
  both results (run p0) (run p) \/ refusal (stamp_sec rawpacket, stamp_nanosec rawpacket) p (run p).
Proof.
  intros Hb. apply with_fixed_moved; [done|]. intros q0 q Hq. apply parsed_moved; [|done].
  intros pkt. pose proof Hq as [Hb' _]. rewrite (be_packet _ _ Hb').
  apply process_blocks_moved; [|done]. intros i m fr0 fr Hm Hfr. by apply Calc40_moved.
Qed.

Lemma results_after m k : both (E := thread_error) results m k -> both after m k.
Proof. intros H. apply (both_impl _ _ _ _ H). by intros r0 r [? []]. Qed.

(** A packet does the same to both, or tf refuses its time. *)
Lemma packet_moved packet p0 p :
  beside p0 p ->
  both after (process_packet packet p0) (process_packet packet p) \/
  refused packet p (process_packet packet p).
Proof.
  intros Hb. unfold Framing.process_packet.
  cbn [m_packetTimestampGuard set_counters set_guard counters].
  rewrite (be_guard _ _ Hb), (be_counters _ _ Hb).
  destruct (guard_observe _ _) as [d guard]. destruct (timestamp_accepted d); cbn [negb].
  2: { left. split; [done|]. by assigned. }
  destruct (raw_packet packet) as [rawpacket|e|] eqn:Hraw; [|by left..]. cbn [mbind outcome_bind].
  set (q0 := set_pkt_timestamp (pkt_stamp packet) (set_guard guard (set_counters _ p0))).
  set (q := set_pkt_timestamp (pkt_stamp packet) (set_guard guard (set_counters _ p))).
  assert (beside q0 q) as Hq by by assigned.
  assert (forall r0 r, both results r0 r \/ refusal (stamp_sec rawpacket, stamp_nanosec rawpacket) q r ->
    both after r0 r \/ refused packet p r) as Hcases.
  { intros r0 r [H|H]; [left; by apply results_after|right]. exists rawpacket. split; [done|].
    unfold refusal in *. cbn in *. rewrite (be_counters _ _ Hb). exact H. }
  destruct (packet_branch s (pkt_size packet)) as [[]|]; [..|left; by split]; apply Hcases.
  - by apply p40_moved.
  - apply multi_moved; [|done]. intros pkt ts i lasers m fr0 fr Hm Hfr. by apply CalcL64_moved.
  - apply multi_moved; [|done]. intros pkt ts i lasers m fr0 fr Hm Hfr. by apply CalcL20_moved.
  - apply multi_moved; [|done]. intros pkt ts i lasers m fr0 fr Hm Hfr. by apply CalcQT_moved.
  - by apply xt_moved.
Qed.

Lemma packets_moved packets p0 p :
  beside p0 p ->
  exists pre post, packets = pre ++ post /\
    both after (process_packets pre p0) (process_packets pre p) /\
    (post = [] \/
     exists packet rest p0' p', post = packet :: rest /\
       process_packets pre p0 = Ret (true, p0') /\ process_packets pre p = Ret (true, p') /\
       refused packet p' (process_packets packets p)).
Proof.
  revert p0 p. induction packets as [|packet packets IH]; intros p0 p Hb.
  { exists [], []. split; [done|]. split; [by split|by left]. }
  cbn [Framing.process_packets]. destruct (packet_moved packet p0 p Hb) as [Hboth|Href].
  - destruct (process_packet packet p0) as [[ok0 q0]| |] eqn:H0,
      (process_packet packet p) as [[ok q]| |] eqn:H1; try done.
    2-3: exists (packet :: packets), []; rewrite app_nil_r; (split; [done|]);
      cbn [Framing.process_packets]; rewrite H0, H1; (split; [done|by left]).
    destruct Hboth as [Hok Hq]. cbn in Hok, Hq. subst ok0. destruct ok.
    2: { exists (packet :: packets), []. rewrite app_nil_r. split; [done|].
      cbn [Framing.process_packets]. rewrite H0, H1. split; [by split|by left]. }
    destruct (IH q0 q Hq) as (pre & post & -> & Hpre & Hpost). exists (packet :: pre), post.
    cbn [Framing.process_packets]. rewrite H0, H1. cbn [mbind outcome_bind negb]. by split.
  - exists [], (packet :: packets). split; [done|]. split; [by split|right].
    exists packet, packets, p0, p. split; [done|]. split; [done|]. split; [done|].
    destruct Href as (raw & Hraw & Href). exists raw. split; [done|]. unfold refusal in *.
    destruct (lookupTransform _ _ _ _); [done| |].
    + destruct Href as (p' & -> & Hp'). by exists p'.
    + by rewrite Href.
Qed.
End fixed.

(** C6: a fixed frame ([fixed_frame] set, no target frame) moves points and does
    nothing else. On any packets, of any model and with any calibration and
    settings, the processing thread does exactly what it does without frames, up
    to the first packet for whose time tf has no transformation: the same packets
    are taken, refused and counted, frames end at the same places, every cloud has
    as many points with the same intensities, time stamps and rings, and every
    point is the one without frames, moved by a transformation that tf answered
    with; a run without frames that stays within its arrays does so with the frame,
    and the other way round. At that packet the thread returns for good, after
    counting it, or the exception of tf leaves it. *)
Theorem fixed_frame_moves_points
    (lookupTransform : nat -> string -> string -> stamp -> lookup_result) (fixed sensor : string)
    (sinf cosf : float -> float) (c : Calibration) (s : Settings) (pcl_callback char_signed : bool)
    (mktime : tm -> Z) (now : stamp) (packets : list PandarPacket) (p0 p : Process)
    (Hfixed : fixed <> "") (Hsensor : sensor <> "")
    (Hp : beside lookupTransform fixed sensor s p0 p) :
  let run := ProcessLiarPacket lookupTransform sinf cosf c s pcl_callback char_signed mktime now in
  exists pre post, packets = pre ++ post /\
    both (after lookupTransform fixed sensor s) (run pre p0) (run pre p) /\
    (post = [] \/
     exists packet rest p0' p', post = packet :: rest /\ run pre p0 = Ret (true, p0') /\
       run pre p = Ret (true, p') /\ refused lookupTransform fixed sensor packet p' (run packets p)).
Proof.
  pose proof (be_without _ _ _ _ _ _ Hp) as [_ H0]. pose proof (be_with _ _ _ _ _ _ Hp) as (_ & H1 & _).
  destruct (packets_moved lookupTransform fixed sensor Hfixed Hsensor sinf cosf c s pcl_callback
    char_signed mktime packets p0 p Hp) as (pre & post & Heq & Hpre & Hpost).
  exists pre, post. by rewrite !ProcessLiarPacket_no_target.
Qed.

Lemma empty_moved lookupTransform fixed sensor s :
  frame_moved lookupTransform fixed sensor s empty_frame empty_frame.
Proof.
  split; [reflexivity|intros _ i Hi; cbn in Hi; lia|].
  unfold empty_frame. cbn [m_vPointCloudList]. apply Forall2_replicate. constructor.
Qed.

(** The thread as started. *)
Lemma started_beside lookupTransform fixed sensor s start_angle t0 t :
  m_sFixedFrame t0 = "" -> m_sTargetFrame t0 = "" ->
  m_sFixedFrame t = fixed -> m_sTargetFrame t = "" -> m_sSensorFrame t = sensor ->
  beside lookupTransform fixed sensor s (started start_angle t0) (started start_angle t).
Proof.
  intros H1 H2 H3 H4 H5. split; try done. apply empty_moved.
Qed.

(** A lidar one metre above the origin of "map", known for two packets. *)
Definition example_answers (q : nat) (target_frame source_frame : string) (time : stamp) : lookup_result :=
  if (q <? 2)%nat then Found (fun '(x, y, z) => (x, y, f_add z (f_of_Z 1))) else LookupFailed.
Definition map_tf : TfState :=
  {| m_sSensorFrame := "lidar"; m_sFixedFrame := "map"; m_sTargetFrame := ""; m_tf_buffer := false;
     m_tf_matrix_to_fixed := id; m_tf_matrix_to_target := id; tf_queries := 0 |}.

Abbreviation map_run tfs packets :=
  (ProcessLiarPacket example_answers id id (Init id id "PandarXTM") xtm_settings true true mktime_utc
    (0, 0) packets (started 0 tfs)).

Lemma map_result :
  match map_run map_tf xtm_packets, map_run (no_tf "lidar" "") (take 2 xtm_packets) with
  | Ret (false, p), Ret (true, p0) =>
      let zs p := CompactCloud.z <$> concat ((fun e => points (em_cloud e)) <$> emitted p) in
      forallb (fun '(z, z0) => SFeqb z (f_add z0 (f_of_Z 1))) (zip (zs p) (zs p0)) &&
      (length (zs p) =? 192)%nat && (length (zs p0) =? 192)%nat && (m_processedPackets (counters p) =? 3)
  | _, _ => false
  end = true.
Proof. vm_compute. reflexivity. Qed.

Lemma fixed_frame_moves_points_witness :
  exists pre post, xtm_packets = pre ++ post /\
    both (after example_answers "map" "lidar" xtm_settings) (map_run (no_tf "lidar" "") pre)
      (map_run map_tf pre).
Proof.
  destruct (fixed_frame_moves_points example_answers "map" "lidar" id id (Init id id "PandarXTM")
    xtm_settings true true mktime_utc (0, 0) xtm_packets (started 0 (no_tf "lidar" ""))
    (started 0 map_tf)) as (pre & post & Heq & Hboth & _); [discriminate|discriminate| |].
  - by apply started_beside.
  - exists pre, post. split; [exact Heq|exact Hboth].
Defined.
