(* ===== verification/Typing.v ===== *)
(** Machine types: the members of the processing thread, the packets it parses
    and the messages it builds keep within their C++ types, for every model,
    calibration and packet. *)
From stdpp Require Import gmap.
From S2P Require Import Prelude Ieee Calendar PacketDefenses CompactCloud PacketFormat ParseXT.
From S2P Require Import ParseLegacy LidarTables PointCalc Correction Framing FramingFacts.
#[local] Open Scope Z_scope.

(** ** Parsed packets *)

Definition uint (w : Z) (z : Z) : Prop := 0 <= z < 2 ^ w.
Definition sint (w : Z) (z : Z) : Prop := - 2 ^ (w - 1) <= z < 2 ^ (w - 1).

(** [char], whose signedness the compiler chooses. *)
Definition char_typed (char_signed : bool) (z : Z) : Prop :=
  if char_signed then sint 8 z else uint 8 z.

Definition unit_typed (u : Unit) : Prop := uint 8 (intensity u) /\ uint 8 (confidence u).
Definition block_typed (b : Block) : Prop :=
  from_option (uint 16) True (azimuth b) /\ Forall (from_option unit_typed True) (units b).

Record header_typed (char_signed : bool) (h : Header) : Prop := {
  ht_sob : uint 16 (sob h);
  ht_major : char_typed char_signed (chProtocolMajor h);
  ht_minor : char_typed char_signed (chProtocolMinor h);
  ht_lasers : char_typed char_signed (chLaserNumber h);
  ht_blocks : char_typed char_signed (chBlockNumber h);
  ht_return : char_typed char_signed (chReturnType h);
  ht_unit : char_typed char_signed (chDisUnit h);
}.

Record packet_typed (char_signed : bool) (pkt : Packet) : Prop := {
  pt_header : header_typed char_signed (header pkt);
  pt_blocks : Forall block_typed (blocks pkt);
  pt_timestamp : uint 32 (timestamp pkt);
  pt_sequence : uint 32 (udp_sequence pkt);
  pt_echo : uint 8 (echo pkt);
  pt_addtime : Forall (uint 8) (addtime pkt);
}.

Lemma uint_wrap w z : 0 <= w -> uint w (uwrap w z).
Proof. apply uwrap_range. Qed.

Lemma uint_8_land z : uint 8 (Z.land z 0xff).
Proof. change 0xff with (Z.ones 8). rewrite Z.land_ones by lia. by apply Z.mod_pos_bound. Qed.

Lemma to_char_typed char_signed z : char_typed char_signed (to_char char_signed z).
Proof. destruct char_signed; [by apply swrap_range|by apply uwrap_range]. Qed.

Lemma zero_typed char_signed : char_typed char_signed 0.
Proof. destruct char_signed; by split. Qed.
#[export] Hint Resolve uint_8_land to_char_typed zero_typed : outcome.
#[export] Hint Extern 2 (uint _ (uwrap _ _)) => (apply uint_wrap; lia) : outcome.

Section reading.
Context {E : Type}.

Lemma rd_yields buf i : yields (uint 8) (rd (E := E) buf i).
Proof. apply yields_bind_any. eauto with outcome. Qed.

Lemma rd16_yields buf i : yields (uint 16) (rd16 (E := E) buf i).
Proof.
  eapply yields_bind; [apply rd_yields|]. intros b0 H0.
  eapply yields_bind; [apply rd_yields|]. intros b1 H1. apply yields_Ret.
  unfold uint in *. rewrite lor_shiftl_add by lia. lia.
Qed.

Lemma rd32_yields buf i : yields (uint 32) (rd32 (E := E) buf i).
Proof. unfold rd32. yields_through. Qed.

Lemma rd_addtime_yields buf i : yields (Forall (uint 8)) (rd_addtime (E := E) buf i).
Proof.
  unfold rd_addtime.
  do 6 (eapply yields_bind; [apply rd_yields|]; intros ? ?). apply yields_Ret. solve_Forall.
Qed.
End reading.
#[export] Hint Resolve rd_yields rd16_yields rd32_yields rd_addtime_yields : outcome.

Section blocks.
Context {E : Type} (chDisUnit laser_number unit_size header_azimuth : Z) (has_confidence : bool).

Lemma parse_units_yields n unit index buf us :
  Forall (from_option unit_typed True) us ->
  yields (fun r => Forall (from_option unit_typed True) r.2)
    (parse_units (E := E) chDisUnit unit_size has_confidence n unit index buf us).
Proof.
  revert unit index us. induction n as [|n IH]; intros unit index us Hus; cbn [parse_units].
  { by apply yields_Ret. }
  apply yields_bind_any. intros unRange.
  eapply yields_bind; [apply rd_yields|]. intros it Hit.
  eapply (yields_bind (uint 8)); [destruct has_confidence; [apply rd_yields|by apply yields_Ret]|].
  intros confidence Hc. eapply yields_bind; [by apply arr_set_yields|]. intros us' Hus'. by apply IH.
Qed.

Lemma parse_blocks_yields n block index buf bs :
  Forall block_typed bs ->
  yields (fun r => Forall block_typed r.2)
    (parse_blocks (E := E) chDisUnit laser_number unit_size header_azimuth has_confidence n block
       index buf bs).
Proof.
  revert block index bs. induction n as [|n IH]; intros block index bs Hbs; cbn [parse_blocks].
  { by apply yields_Ret. }
  eapply yields_bind; [by apply arr_get_yields|]. intros b [_ Hb].
  eapply yields_bind; [apply rd16_yields|]. intros az Haz.
  eapply yields_bind; [by apply parse_units_yields|]. intros [index' us] Hus.
  eapply yields_bind; [by apply arr_set_yields|]. intros bs' Hbs'. by apply IH.
Qed.
End blocks.

Lemma blank_blocks_typed b u : Forall block_typed (blank_blocks b u).
Proof. apply Forall_replicate. split; [done|]. by apply Forall_replicate. Qed.
#[export] Hint Resolve parse_blocks_yields blank_blocks_typed : outcome.

Section parsers.
Context (char_signed : bool) (mktime : tm -> Z).

Lemma ParseL64Header_yields buf i :
  yields (header_typed char_signed) (ParseL64Header char_signed buf i).
Proof.
  unfold ParseL64Header. do 5 (apply yields_bind_any; intros ?). apply yields_Ret.
  split; cbn; eauto with outcome.
Qed.

Lemma ParseXTHeader_yields buf i :
  yields (header_typed char_signed) (ParseXTHeader char_signed buf i).
Proof.
  unfold ParseXTHeader. do 7 (apply yields_bind_any; intros ?). apply yields_Ret.
  split; cbn; eauto with outcome.
Qed.

Definition tail_typed (tail : Z * Z * Z * list Z) : Prop :=
  let '(_, timestamp, echo, addtime) := tail in
  uint 32 timestamp /\ uint 8 echo /\ Forall (uint 8) addtime.

Lemma ParseTail_yields reserved buf i : yields tail_typed (ParseTail reserved buf i).
Proof.
  unfold ParseTail. apply yields_bind_any. intros speed.
  eapply yields_bind; [apply rd32_yields|]. intros ts Hts.
  eapply yields_bind; [apply rd_yields|]. intros echo Hecho.
  eapply yields_bind; [apply rd_addtime_yields|]. intros addtime Hat. by apply yields_Ret.
Qed.

(** What the three older parsers have in common. *)
Lemma blocks_tail_yields h n i buf bs reserved lasers us ha conf :
  header_typed char_signed h -> Forall block_typed bs ->
  yields (packet_typed char_signed)
    ('(index, bs) ← parse_blocks (chDisUnit h) lasers us ha conf n 0 i buf bs;
     tail ← ParseTail reserved buf index;
     Ret (packet_of mktime h bs tail)).
Proof.
  intros Hh Hbs. eapply yields_bind; [by apply parse_blocks_yields|]. intros [index bs'] Hbs'.
  eapply yields_bind; [apply ParseTail_yields|]. intros [[[speed ts] echo] addtime] (H1 & H2 & H3).
  by apply yields_Ret.
Qed.

Lemma ParseL64Data_yields buf len :
  yields (packet_typed char_signed) (ParseL64Data char_signed mktime buf len).
Proof.
  unfold ParseL64Data. case_match; [apply yields_Err|].
  eapply yields_bind; [apply ParseL64Header_yields|]. intros h Hh.
  case_match; [apply yields_Err|]. by apply blocks_tail_yields; [|apply blank_blocks_typed].
Qed.

Lemma ParseL20Data_yields buf len :
  yields (packet_typed char_signed) (ParseL20Data char_signed mktime buf len).
Proof.
  unfold ParseL20Data. case_match; [apply yields_Err|].
  eapply yields_bind; [apply ParseL64Header_yields|]. intros h Hh.
  case_match; [apply yields_Err|]. by apply blocks_tail_yields; [|apply blank_blocks_typed].
Qed.

Lemma ParseQTData_yields buf len :
  yields (packet_typed char_signed) (ParseQTData char_signed mktime buf len).
Proof.
  unfold ParseQTData. case_match; [apply yields_Err|].
  eapply yields_bind; [apply ParseXTHeader_yields|]. intros h Hh.
  case_match; [apply yields_Err|]. by apply blocks_tail_yields; [|apply blank_blocks_typed].
Qed.
End parsers.

Lemma lor_uint w a b : 0 <= w -> uint w a -> uint w b -> uint w (Z.lor a b).
Proof.
  intros Hw Ha Hb. rewrite <- (uwrap_small w a Ha), <- (uwrap_small w b Hb), <- uwrap_lor by done.
  by apply uint_wrap.
Qed.

Lemma sequence_yields {E} buf size old :
  uint 32 old ->
  yields (fun r => uint 32 (default 0 r.2)) (decodeXtUdpSequence (E := E) (Some buf) size (Some old)).
Proof.
  intros Hold. unfold decodeXtUdpSequence. case_match; [by apply yields_Ret|].
  do 4 (apply yields_bind_any; intros ?). apply yields_Ret. cbn.
  repeat apply lor_uint; try apply uint_wrap; lia.
Qed.

Lemma ParseXTData_yields char_signed mktime buf len :
  yields (packet_typed char_signed) (ParseXTData char_signed mktime buf len).
Proof.
  unfold ParseXTData. case_match; [apply yields_Err|].
  eapply yields_bind; [apply ParseXTHeader_yields|]. intros h Hh.
  do 2 (case_match; [apply yields_Err|]).
  eapply yields_bind; [by apply (sequence_yields _ _ 0)|]. intros [decoded sequence] Hseq.
  case_match; [apply yields_Err|].
  eapply yields_bind; [by apply parse_blocks_yields, blank_blocks_typed|]. intros [index bs] Hbs.
  eapply (yields_bind (fun r => let '(echo, _, addtime, ts) := r in
    uint 8 echo /\ Forall (uint 8) addtime /\ uint 32 ts)).
  - unfold ParseXTTail. eapply yields_bind; [apply rd_yields|]. intros echo Hecho.
    apply yields_bind_any. intros speed.
    eapply yields_bind; [apply rd_addtime_yields|]. intros addtime Hat.
    eapply yields_bind; [apply rd32_yields|]. intros ts Hts. by apply yields_Ret.
  - intros [[[echo speed] addtime] ts] (Hecho & Hat & Hts). by apply yields_Ret.
Qed.

(** The Pandar40 packet: azimuths and intensities. *)
Definition block40_typed (b : Pandar40PBlock) : Prop :=
  uint 16 (p40_azimuth b) /\ uint 16 (p40_sob b) /\ Forall unit_typed (p40_units b).

Lemma parse40_unit_yields buf i : yields unit_typed (parse40_unit buf i).
Proof.
  unfold parse40_unit. apply yields_bind_any. intros range.
  eapply yields_bind; [apply rd_yields|]. intros it Hit. apply yields_Ret.
  by case_match; split.
Qed.

Lemma parse40_units_yields n i buf : yields (Forall unit_typed) (parse40_units n i buf).
Proof.
  revert i. induction n as [|n IH]; intros i; cbn [parse40_units]; [by apply yields_Ret|].
  eapply yields_bind; [apply parse40_unit_yields|]. intros u Hu.
  eapply yields_bind; [apply IH|]. intros us Hus. apply yields_Ret. by constructor.
Qed.

Lemma parse40_blocks_yields n i buf : yields (Forall block40_typed) (parse40_blocks n i buf).
Proof.
  revert i. induction n as [|n IH]; intros i; cbn [parse40_blocks]; [by apply yields_Ret|].
  eapply yields_bind; [apply rd16_yields|]. intros s Hs.
  eapply yields_bind; [apply rd16_yields|]. intros az Haz.
  eapply yields_bind; [apply parse40_units_yields|]. intros us Hus.
  eapply yields_bind; [apply IH|]. intros bs Hbs. apply yields_Ret. by constructor.
Qed.

Lemma ParseRawData_yields mktime buf len :
  yields (fun pkt => Forall block40_typed (p40_blocks pkt)) (ParseRawData mktime buf len).
Proof.
  unfold ParseRawData. case_match; [apply yields_Err|].
  eapply yields_bind; [apply parse40_blocks_yields|]. intros bs Hbs. by yields_through.
Qed.

(** ** The state of the processing thread *)

Definition point_typed (p : PPoint) : Prop := uint 16 (CompactCloud.ring p).

(** The index is an [int], in array mode a position in [m_vPointCloud] or its
    end. *)
Record frame_typed (s : Settings) (fr : Frame) : Prop := {
  ft_index : 0 <= m_iPointCloudIndex fr <= INT_MAX;
  ft_room : pcl_type_ s = false -> m_iPointCloudIndex fr <= MAX_POINT_CLOUD_NUM;
  ft_cloud : map_Forall (fun _ => point_typed) (m_vPointCloud fr);
  ft_channels : Forall (Forall point_typed) (m_vPointCloudList fr);
}.

Record counters_typed (k : Counters) : Prop := {
  ct_processed : uint 64 (m_processedPackets k);
  ct_regressions : uint 64 (m_packetTimestampRegressions k);
  ct_gaps : uint 64 (m_sequenceGapPackets k);
  ct_duplicates : uint 64 (m_sequenceDuplicates k);
  ct_backwards : uint 64 (m_sequenceBackwards k);
  ct_restarts : uint 64 (m_sequenceRestarts k);
  ct_empty : uint 64 (m_emptyCloudDrops k);
}.

Record msg_typed (m : PandarPacketMsg) : Prop := {
  mt_sec : sint 32 (stamp_sec m);
  mt_nanosec : uint 32 (stamp_nanosec m);
  mt_size : uint 32 (size m);
}.

Record cloud_typed (cld : PPointCloud) : Prop := {
  cl_width : uint 32 (pc_width cld);
  cl_height : uint 32 (pc_height cld);
  cl_points : Forall point_typed (points cld);
}.

Definition emission_typed (e : Emission) : Prop :=
  cloud_typed (em_cloud e) /\ Forall msg_typed (em_scan e).

Record process_typed (s : Settings) (p : Process) : Prop := {
  ty_angle : uint 16 (start_angle_ p);
  ty_azimuth : uint 16 (last_azimuth_ p);
  ty_sequence : uint 32 (last_sequence_ (m_xtSequenceTracker p));
  ty_counters : counters_typed (counters p);
  ty_frame : frame_typed s (frame p);
  ty_outMsg : cloud_typed (outMsg p);
  ty_scan : Forall msg_typed (scan p);
  ty_emitted : Forall emission_typed (emitted p);
}.

Section points.
Context {E : Type} (sinf cosf : float -> float) (c : Calibration) (s : Settings) (tf : Transforms).

Lemma make_point_typed xyz it ts i : point_typed (make_point tf xyz it ts i).
Proof.
  unfold make_point, point_typed. destruct (transformPoint tf xyz) as [[x y] z]. cbn.
  by apply uint_wrap.
Qed.

Lemma put_point_yields p fr :
  point_typed p -> frame_typed s fr ->
  yields (fun fr' => frame_typed s fr' /\ m_iPointCloudIndex fr' < MAX_POINT_CLOUD_NUM)
    (put_point (E := E) p fr).
Proof.
  intros Hp [Hi Hr Hc Hl]. unfold put_point. case_decide; [|apply yields_Undef].
  apply yields_Ret. split; [|cbn; lia]. split; cbn; try done. by apply map_Forall_insert_2.
Qed.

Lemma push_point_yields i p fr :
  point_typed p -> frame_typed s fr ->
  yields (fun fr' => frame_typed s fr') (push_point (E := E) i p fr).
Proof.
  intros Hp [Hi Hr Hc Hl]. unfold push_point.
  eapply yields_bind; [by apply arr_get_yields|]. intros ch Hch.
  eapply yields_bind; [apply arr_set_yields; [exact Hl|by apply Forall_app_2; [|constructor]]|].
  intros chs Hchs. by apply yields_Ret.
Qed.

Lemma bump_typed fr :
  frame_typed s fr -> (pcl_type_ s = false -> m_iPointCloudIndex fr < MAX_POINT_CLOUD_NUM) ->
  yields (frame_typed s) (bump_index (E := E) fr).
Proof.
  intros [Hi Hr Hc Hl] Hlt. unfold bump_index. destruct (Z.ltb_spec (m_iPointCloudIndex fr) INT_MAX);
    [apply yields_Ret|apply yields_Undef].
  split; cbn; try done; [lia|]. intros Hs. specialize (Hlt Hs). lia.
Qed.

Lemma store_point_yields i p fr :
  point_typed p -> frame_typed s fr -> yields (frame_typed s) (store_point (E := E) s i p fr).
Proof.
  intros Hp Hf. unfold store_point. destruct (pcl_type_ s) eqn:Hs; [by apply push_point_yields|].
  eapply yields_bind; [by apply put_point_yields|]. intros fr' [Hf' Hlt].
  by apply bump_typed.
Qed.

Lemma store_point_qt_yields i p fr :
  point_typed p -> frame_typed s fr -> yields (frame_typed s) (store_point_qt (E := E) s i p fr).
Proof.
  intros Hp Hf. unfold store_point_qt. destruct (pcl_type_ s) eqn:Hs.
  - eapply yields_bind; [by apply push_point_yields|]. intros fr' Hf'.
    apply bump_typed; [done|]. by rewrite Hs.
  - eapply yields_bind; [by apply put_point_yields|]. intros fr' [Hf' Hlt].
    by apply bump_typed.
Qed.
#[local] Hint Resolve make_point_typed store_point_yields store_point_qt_yields : outcome.

Lemma for_lasers_yields body n i fr :
  (forall i fr, frame_typed s fr -> yields (frame_typed s) (body i fr)) -> frame_typed s fr ->
  yields (frame_typed s) (for_lasers (E := E) body n i fr).
Proof.
  intros Hbody. revert i fr. induction n as [|n IH]; intros i fr Hf; cbn [for_lasers].
  { by apply yields_Ret. }
  eapply yields_bind; [by apply Hbody|]. intros fr' Hf'. by apply IH.
Qed.

Lemma CalcPointXYZIT_yields pkt ts b fr :
  frame_typed s fr -> yields (frame_typed s) (CalcPointXYZIT (E := E) sinf cosf c s tf pkt ts b fr).
Proof. apply for_lasers_yields. intros i fr' Hf. unfold CalcUnit. yields_through. Qed.

Lemma CalcL64_yields pkt ts b lasers fr :
  frame_typed s fr ->
  yields (frame_typed s) (CalcL64PointXYZIT (E := E) sinf cosf c s tf pkt ts b lasers fr).
Proof. apply for_lasers_yields. intros i fr' Hf. unfold CalcL64Unit. yields_through. Qed.

Lemma CalcL20_yields pkt ts b lasers fr :
  frame_typed s fr ->
  yields (frame_typed s) (CalcL20PointXYZIT (E := E) sinf cosf c s tf pkt ts b lasers fr).
Proof. apply for_lasers_yields. intros i fr' Hf. unfold CalcL20Unit. yields_through. Qed.

Lemma CalcQT_yields pkt ts b lasers fr :
  frame_typed s fr ->
  yields (frame_typed s) (CalcQTPointXYZIT (E := E) sinf cosf c s tf pkt ts b lasers fr).
Proof. apply for_lasers_yields. intros i fr' Hf. unfold CalcQTUnit. yields_through. Qed.

Lemma CalcXT_yields pkt ts b lasers fr :
  frame_typed s fr ->
  yields (frame_typed s) (CalcXTPointXYZIT (E := E) sinf cosf c s tf pkt ts b lasers fr).
Proof. apply for_lasers_yields. intros i fr' Hf. unfold CalcXTUnit. yields_through. Qed.
End points.

(** ** Counting *)

Lemma count_typed k :
  counters_typed k ->
  counters_typed (count_processed k) /\ counters_typed (count_regression k) /\
  counters_typed (count_empty k).
Proof. intros []. split_and!; split; cbn; eauto with outcome. Qed.

Lemma count_sequence_typed d k : counters_typed k -> counters_typed (count_sequence d k).2.
Proof.
  intros []. unfold count_sequence. destruct (sd_status d); split; cbn; eauto with outcome.
Qed.

Lemma tracker_typed sequence ts t :
  uint 32 sequence -> uint 32 (last_sequence_ t) ->
  uint 32 (last_sequence_ (tracker_observe sequence ts t).2).
Proof. intros Hs Ht. unfold tracker_observe. by repeat case_match. Qed.

(** ** The loop over the blocks *)

Section process.
Context (lookupTransform : nat -> string -> string -> stamp -> lookup_result).
Context (sinf cosf : float -> float) (c : Calibration) (s : Settings) (pcl_callback : bool).
Context (char_signed : bool) (mktime : tm -> Z).
Abbreviation typed := (process_typed s).
Abbreviation step_typed := (fun r : bool * Process => typed r.2).

Lemma typed_counters k p : counters_typed k -> typed p -> typed (set_counters k p).
Proof. intros Hk []. by split. Qed.
Lemma typed_frame fr p : frame_typed s fr -> typed p -> typed (set_frame fr p).
Proof. intros Hf []. by split. Qed.
Lemma resize_typed l cld : Forall point_typed l -> cloud_typed (resize_to l cld).
Proof. intros Hl. split; cbn; [by apply uint_wrap|by split|done]. Qed.
Lemma typed_outMsg cld p : cloud_typed cld -> typed p -> typed (set_outMsg cld p).
Proof. intros Hl []. by split. Qed.
Lemma typed_scan l p : Forall msg_typed l -> typed p -> typed (set_scan l p).
Proof. intros Hl []. by split. Qed.
Lemma typed_tf v p : typed p -> typed (set_tf v p).
Proof. intros []. by split. Qed.
Lemma typed_last az ts p : uint 16 az -> typed p -> typed (set_last az ts p).
Proof. intros Ha []. by split. Qed.
Lemma typed_add_scan m p : msg_typed m -> typed p -> typed (set_scan (scan p ++ [m]) p).
Proof.
  intros Hm Hp. apply typed_scan; [|done]. destruct Hp. apply Forall_app_2; [done|].
  by constructor.
Qed.

Lemma correction_yields {E} lasers : yields msg_typed (SaveCorrectionFile (E := E) c lasers).
Proof.
  unfold SaveCorrectionFile. apply yields_bind_any. intros l. apply yields_Ret.
  split; cbn; [by split|by split|by apply uint_wrap].
Qed.

Lemma push_back_all_typed l cld :
  Forall point_typed l -> cloud_typed cld -> cloud_typed (foldl (flip push_back) cld l).
Proof.
  intros Hl. revert cld. induction Hl as [|pt l Hpt _ IH]; intros cld Hc; [done|]. apply IH.
  apply resize_typed. apply Forall_app_2; [apply Hc|by constructor].
Qed.

Lemma append_yields n i channels cld :
  Forall (Forall point_typed) channels -> cloud_typed cld ->
  yields cloud_typed (append_channels n i channels cld).
Proof.
  intros Hch. revert i cld. induction n as [|n IH]; intros i cld Hcld; cbn [append_channels].
  { by apply yields_Ret. }
  eapply yields_bind; [by apply arr_get_yields|]. intros ch Hc. apply IH.
  by apply push_back_all_typed.
Qed.

Lemma clear_yields n i fr : frame_typed s fr -> yields (frame_typed s) (clear_channels n i fr).
Proof.
  revert i fr. induction n as [|n IH]; intros i fr Hf; cbn [clear_channels]; [by apply yields_Ret|].
  destruct Hf as [Hi Hr Hc Hl].
  eapply yields_bind; [apply arr_set_yields; [exact Hl|constructor]|].
  intros chs Hchs. by apply IH.
Qed.

Lemma cloud_points_typed fr : frame_typed s fr -> Forall point_typed (cloud_points fr).
Proof.
  intros [_ _ Hc _]. unfold cloud_points. apply Forall_fmap, Forall_forall. intros i _. cbn.
  destruct (m_vPointCloud fr !! i) eqn:Hi; [exact (Hc _ _ Hi)|by split].
Qed.

(** The cloud copied into [outMsg]. *)
Lemma collect_yields lasers p : typed p -> yields typed (collect s lasers p).
Proof.
  intros Hp. unfold collect. pose proof Hp as [_ _ _ _ Hf Ho _ _]. destruct (pcl_type_ s) eqn:Hs.
  - eapply yields_bind; [apply append_yields; [apply Hf|done]|]. intros cld Hcld.
    apply yields_Ret. by apply typed_outMsg.
  - unfold assign_points. case_decide; [|by apply yields_Undef]. cbn [mbind outcome_bind].
    apply yields_Ret, typed_outMsg; [by apply resize_typed, cloud_points_typed|].
    apply typed_frame; [|done]. destruct Hf. split; cbn; try done.
Qed.

Lemma emit_yields lasers p : typed p -> yields typed (EmitBackMessege s lasers p).
Proof.
  intros Hp. unfold EmitBackMessege. eapply yields_bind; [by apply collect_yields|].
  intros p1 Hp1. pose proof Hp1 as [_ _ _ Hk Hf Ho Hsc Hem]. destruct (points (outMsg p1)) as [|first rest] eqn:Hout.
  - assert (typed (set_counters (count_empty (counters p1)) p1)) as Hp2
      by (apply typed_counters; [by apply count_typed|done]).
    destruct (pcl_type_ s); [|by apply yields_Ret].
    eapply yields_bind; [by apply clear_yields|]. intros fr Hfr. apply yields_Ret. by apply typed_frame.
  - set (e := {| em_cloud := outMsg p1; em_timestamp := _; em_scan := scan p1 |}).
    assert (typed (add_emission e p1)) as Hp2.
    { destruct Hp1. split; cbn; try done. apply Forall_app_2; [done|].
      constructor; [by split|constructor]. }
    destruct (pcl_type_ s); [|by apply yields_Ret].
    eapply yields_bind; [by apply clear_yields|]. intros fr Hfr. apply yields_Ret.
    apply typed_frame; [done|]. case_match; [done|]. apply typed_outMsg; [by apply resize_typed|done].
Qed.

Lemma end_frame_yields stamp lasers p :
  typed p -> yields step_typed (end_frame lookupTransform c s stamp lasers p).
Proof.
  intros Hp. unfold end_frame. eapply yields_bind; [apply correction_yields|]. intros m Hm.
  eapply yields_bind; [by apply emit_yields, typed_add_scan|]. intros p1 Hp1.
  apply yields_bind_any. intros [ok t]. apply yields_Ret. by apply typed_tf, typed_scan.
Qed.

Lemma frame_boundary_yields stamp lasers ts az p :
  typed p -> yields step_typed (frame_boundary lookupTransform c s pcl_callback stamp lasers ts az p).
Proof.
  intros Hp. unfold frame_boundary. case_match; [|by apply yields_Ret].
  apply yields_bind_any. intros []; [by apply end_frame_yields|by apply yields_Ret].
Qed.

Lemma block_step_yields stamp lasers ts az calc p :
  yields (uint 16) az ->
  (forall tr fr, frame_typed s fr -> yields (frame_typed s) (calc tr fr)) -> typed p ->
  yields step_typed (block_step lookupTransform c s pcl_callback stamp lasers ts az calc p).
Proof.
  intros Haz Hcalc Hp. unfold block_step. eapply yields_bind; [exact Haz|]. intros a Ha.
  eapply yields_bind; [by apply frame_boundary_yields|]. intros [[] p1] Hp1; [|by apply yields_Ret].
  eapply yields_bind; [by apply Hcalc, Hp1|]. intros fr Hfr. apply yields_Ret.
  apply typed_last; [done|]. by apply typed_frame.
Qed.

Lemma for_blocks_yields step n i p :
  (forall i p, typed p -> yields step_typed (step i p)) -> typed p ->
  yields step_typed (for_blocks step n i p).
Proof.
  intros Hstep. revert i p. induction n as [|n IH]; intros i p Hp; cbn [for_blocks].
  { by apply yields_Ret. }
  eapply yields_bind; [by apply Hstep|]. intros [[] p1] Hp1; [by apply IH|by apply yields_Ret].
Qed.

Lemma process_blocks_yields raw blocks lasers ts az calc p :
  (forall i, yields (uint 16) (az i)) ->
  (forall tr i fr, frame_typed s fr -> yields (frame_typed s) (calc tr i fr)) ->
  msg_typed raw -> typed p ->
  yields step_typed
    (process_blocks lookupTransform c s pcl_callback raw blocks lasers ts az calc p).
Proof.
  intros Haz Hcalc Hm Hp. unfold process_blocks.
  eapply yields_bind; [apply for_blocks_yields; [|by apply typed_add_scan]|].
  - intros i p1 Hp1. apply block_step_yields; [apply Haz|intros; by apply Hcalc|done].
  - intros [[] p1] Hp1; apply yields_Ret; [|done]. cbn in *. apply typed_outMsg; [|done].
    destruct Hp1. split; cbn; [by apply ty_outMsg0|by split|by apply ty_outMsg0].
Qed.

(** ** One packet *)

Lemma to_signed_yields {E} w x : yields (sint w) (to_signed (E := E) w x).
Proof. intros z. unfold to_signed. repeat case_match; try done. by intros [= <-]. Qed.

Lemma to_unsigned_yields {E} w x : yields (uint w) (to_unsigned (E := E) w x).
Proof. intros z. unfold to_unsigned. repeat case_match; try done. by intros [= <-]. Qed.

Lemma raw_packet_yields packet : uint 32 (pkt_size packet) -> yields msg_typed (raw_packet packet).
Proof.
  intros Hsize. unfold raw_packet. eapply yields_bind; [apply to_signed_yields|]. intros sec Hsec.
  eapply yields_bind; [apply to_unsigned_yields|]. intros nanosec Hns.
  case_decide; [|by apply yields_Undef]. by apply yields_Ret.
Qed.

Lemma packet_azimuth_yields pkt i :
  Forall block_typed (blocks pkt) -> yields (uint 16) (packet_azimuth pkt i).
Proof.
  intros Hb. unfold packet_azimuth. eapply yields_bind; [by apply arr_get_yields|].
  intros b [Haz _]. destruct (azimuth b); [by apply yields_Ret|apply yields_Undef].
Qed.

Lemma with_fixed_yields raw k p :
  (forall p, typed p -> yields step_typed (k p)) -> typed p ->
  yields step_typed (with_fixed_frame lookupTransform raw k p).
Proof.
  intros Hk Hp. unfold with_fixed_frame. apply yields_bind_any. intros [[] t].
  - by apply Hk, typed_tf.
  - apply yields_Ret. by apply typed_tf.
Qed.

Lemma parsed_yields {A} (P : A -> Prop) (m : outcome parse_error A) k p :
  yields P m -> (forall a, P a -> yields step_typed (k a)) -> typed p ->
  yields step_typed (parsed m k p).
Proof.
  intros Hm Hk Hp. unfold parsed. destruct m as [a|e|]; [by apply Hk, Hm|destruct e; by apply yields_Ret|done].
Qed.

Lemma process_40_yields packet raw p :
  msg_typed raw -> typed p ->
  yields step_typed
    (process_40 lookupTransform sinf cosf c s pcl_callback mktime packet raw p).
Proof.
  intros Hm Hp. apply with_fixed_yields; [|done]. intros p1 Hp1.
  eapply parsed_yields; [apply ParseRawData_yields| |done]. intros pkt Hpkt.
  apply process_blocks_yields; try done.
  - intros i. apply yields_fmap. intros b Hb. by apply (arr_get_yields block40_typed) in Hb as (? & _).
  - intros tr i fr Hf. by apply CalcPointXYZIT_yields.
Qed.

Lemma process_multi_yields parse calc raw p :
  yields (packet_typed char_signed) parse ->
  (forall tr pkt ts i l fr, frame_typed s fr -> yields (frame_typed s) (calc tr pkt ts i l fr)) ->
  msg_typed raw -> typed p ->
  yields step_typed (process_multi lookupTransform c s pcl_callback parse calc raw p).
Proof.
  intros Hparse Hcalc Hm Hp. apply with_fixed_yields; [|done]. intros p1 Hp1.
  eapply parsed_yields; [exact Hparse| |done]. intros pkt Hpkt.
  apply process_blocks_yields; try done.
  - intros i. apply packet_azimuth_yields, Hpkt.
  - intros tr i fr Hf. by apply Hcalc.
Qed.

Lemma process_XT_yields packet raw p :
  msg_typed raw -> typed p ->
  yields step_typed
    (process_XT lookupTransform sinf cosf c s pcl_callback char_signed mktime packet raw p).
Proof.
  intros Hm Hp. apply with_fixed_yields; [|done]. intros p1 Hp1.
  eapply parsed_yields; [apply ParseXTData_yields| |done]. intros pkt Hpkt.
  pose proof (tracker_typed (udp_sequence pkt) (pkt_stamp packet) (m_xtSequenceTracker p1)
    (pt_sequence _ _ Hpkt) (ty_sequence _ _ Hp1)) as Htr.
  destruct (tracker_observe _ _ _) as [d tracker]. cbn [snd] in Htr.
  pose proof (count_sequence_typed d _ (ty_counters _ _ Hp1)) as Hk.
  destruct (count_sequence d (counters p1)) as [accepted k]. cbn [snd] in Hk.
  assert (typed (set_counters k (set_tracker tracker p1))) as Hp2 by (destruct Hp1; by split).
  destruct accepted; cbn [negb]; [|by apply yields_Ret].
  apply process_blocks_yields; try done.
  - intros i. apply packet_azimuth_yields, Hpkt.
  - intros tr i fr Hf. by apply CalcXT_yields.
Qed.

Lemma process_packet_yields packet p :
  uint 32 (pkt_size packet) -> typed p ->
  yields step_typed
    (process_packet lookupTransform sinf cosf c s pcl_callback char_signed mktime packet p).
Proof.
  intros Hsize Hp. unfold process_packet.
  pose proof (count_typed _ (ty_counters _ _ Hp)) as (Hk1 & _).
  destruct (guard_observe _ _) as [d guard].
  assert (typed (set_guard guard (set_counters (count_processed (counters p)) p))) as Hp1
    by (destruct Hp; by split).
  destruct (negb _).
  { apply yields_Ret. cbn [snd]. apply typed_counters; [|done].
    by apply count_typed. }
  eapply yields_bind; [by apply raw_packet_yields|]. intros raw Hraw.
  set (p2 := set_pkt_timestamp _ _). assert (typed p2) as Hp2 by (destruct Hp1; by split).
  destruct (packet_branch s (pkt_size packet)) as [[]|]; [| | | | |by apply yields_Ret].
  - by apply process_40_yields.
  - apply process_multi_yields; try done; [apply ParseL64Data_yields|]. intros. by apply CalcL64_yields.
  - apply process_multi_yields; try done; [apply ParseL20Data_yields|]. intros. by apply CalcL20_yields.
  - apply process_multi_yields; try done; [apply ParseQTData_yields|]. intros. by apply CalcQT_yields.
  - by apply process_XT_yields.
Qed.
End process.

(** C24: whatever the model, the settings, the calibration and the tf frames,
    every packet the processing thread survives leaves its members within their
    C++ types: start angle and azimuth in 16 bits, sequence number in 32,
    counters in 64, rings in 16, the time stamps and sizes of recorded packets
    in 32, the point index a non-negative [int] (its overflow, to which a PandarQT
    with channels counts up, is a fault) and in array mode within [m_vPointCloud].
    The same holds of every cloud and scan handed out. *)
Theorem process_packets_typed
    (lookupTransform : nat -> string -> string -> stamp -> lookup_result)
    (sinf cosf : float -> float) (c : Calibration) (s : Settings) (pcl_callback : bool)
    (char_signed : bool) (mktime : tm -> Z) (now : stamp) (packets : list PandarPacket)
    (p : Process)
    (Hp : process_typed s p) (Hsize : Forall (fun k => uint 32 (pkt_size k)) packets) :
  yields (fun r => process_typed s r.2)
    (ProcessLiarPacket lookupTransform sinf cosf c s pcl_callback char_signed mktime now packets p).
Proof.
  unfold ProcessLiarPacket. apply yields_bind_any. intros [ok t].
  assert (process_typed s (set_tf t p)) as Hp1 by by apply typed_tf.
  destruct ok; cbn [negb]; [|by apply yields_Ret]. clear Hp. revert Hp1.
  generalize (set_tf t p). clear p. induction Hsize as [|k packets Hk _ IH]; intros p Hp.
  { by apply yields_Ret. }
  cbn [process_packets]. eapply yields_bind; [by apply process_packet_yields|].
  intros [[] p1] Hp1; [by apply IH|by apply yields_Ret].
Qed.

Lemma started_typed s start_angle tfs :
  uint 16 start_angle -> process_typed s (started start_angle tfs).
Proof.
  intros Ha. assert (forall w, 0 < w -> uint w 0) as H0
    by (intros w Hw; split; [done|by apply Z.pow_pos_nonneg; lia]).
  split; [exact Ha|by apply H0|by apply H0|split; by apply H0| | |constructor..].
  - split; [done|intros _; vm_compute; discriminate|apply map_Forall_empty|].
    apply Forall_replicate. constructor.
  - split; [by apply H0|by apply H0|constructor].
Qed.

Lemma process_packets_typed_witness :
  exists r, ProcessLiarPacket (fun _ _ _ _ => LookupFailed) id id (Init id id "PandarXTM")
      xtm_settings true true mktime_utc (0, 0) xtm_packets (started 0 (no_tf "lidar" "")) = Ret r /\
    process_typed xtm_settings r.2.
Proof.
  pose proof (process_packets_typed (fun _ _ _ _ => LookupFailed) id id (Init id id "PandarXTM")
    xtm_settings true true mktime_utc (0, 0) xtm_packets (started 0 (no_tf "lidar" ""))
    (started_typed _ 0 _ ltac:(by split)) ltac:(repeat constructor; discriminate)) as Ht.
  pose proof xtm_result as Hr.
  destruct (ProcessLiarPacket _ _ _ _ _ _ _ _ _ _ _) as [r| |]; [|discriminate Hr..].
  exists r. split; [reflexivity|]. by apply Ht.
Defined.
