(* ===== verification/Driver.v ===== *)
(** The driver around the processing thread: [RecvTask], [FillPacket],
    [PushLiDARData], [PushScanPacket], [Start], [Stop] and [ResetStartAngle] of
    [pandarGeneral_internal.cc].

    The packet queue is any [BoundedFifo]; [spsc_fifo] is the one the driver
    has, with 36 000 slots and a backlog of at most 400 packets.  Threads are
    interleaved at the granularity of whole queue operations and whole packets
    here; [SpscConcurrent] has the queue's own steps, [Threads] those of [Start],
    [Stop] and the loops, and [ThreadRefine] shows that they come to the same. *)
From stdpp Require Import gmap.
From S2P Require Import Prelude SpscQueue Ieee Calendar PacketDefenses CompactCloud PacketFormat.
From S2P Require Import ParseXT ParseLegacy LidarTables PointCalc Correction Framing FramingFacts.
#[local] Open Scope Z_scope.

Definition PACKET_BUFFER_STORAGE_SIZE : Z := 36000.
Definition MAX_PACKET_BACKLOG : Z := 400.

(** The receiving side's counters. *)
Record Receiver := {
  m_queueOverloadDrops : Z;
  m_enqueuedPackets : Z;
  m_maxQueueDepthObserved : Z;
}.

(** A message that carries a correction file, by its first two bytes, and the
    length it declares. *)
Definition is_correction (m : PandarPacketMsg) : bool :=
  match data m with b0 :: b1 :: _ => (b0 =? 0x47) && (b1 =? 0x74) | _ => false end.
Definition declared_length (m : PandarPacketMsg) : Z :=
  let b i := Z.land (nth i (data m) 0) 0xff in
  i32 (Z.lor (Z.lor (Z.lor (Z.shiftl (b 4%nat) 24) (Z.shiftl (b 5%nat) 16)) (Z.shiftl (b 6%nat) 8)) (b 7%nat)).

Section driver.
Context {Q : Type} {depth : Z} `{F : !BoundedFifo thread_error PandarPacket Q depth}.
Context (lookupTransform : nat -> string -> string -> stamp -> lookup_result).
Context (sinf cosf : float -> float) (s : Settings) (pcl_callback : bool).
Context (char_signed : bool) (mktime : tm -> Z) (correction_file : option (list Z)).

(** [calibration] stands for the members [LoadCorrectionFile] writes,
    [processing] is cleared when [ProcessLiarPacket] has returned; [gps_times]
    are the times handed to [gps_callback_]. *)
Record Driver := {
  m_PacketsBuffer : Q;
  receiver : Receiver;
  process : Process;
  calibration : Calibration;
  got_lidar_correction_flag : bool;
  enable_lidar_recv_thr_ : bool;
  enable_lidar_process_thr_ : bool;
  processing : bool;
  gps_times : list float;
}.

Definition set_queue (q : Q) (r : Receiver) (d : Driver) : Driver :=
  {| m_PacketsBuffer := q; receiver := r; process := process d; calibration := calibration d;
     got_lidar_correction_flag := got_lidar_correction_flag d;
     enable_lidar_recv_thr_ := enable_lidar_recv_thr_ d;
     enable_lidar_process_thr_ := enable_lidar_process_thr_ d; processing := processing d;
     gps_times := gps_times d |}.
Definition set_process (q : Q) (p : Process) (running : bool) (d : Driver) : Driver :=
  {| m_PacketsBuffer := q; receiver := receiver d; process := p; calibration := calibration d;
     got_lidar_correction_flag := got_lidar_correction_flag d;
     enable_lidar_recv_thr_ := enable_lidar_recv_thr_ d;
     enable_lidar_process_thr_ := enable_lidar_process_thr_ d; processing := running;
     gps_times := gps_times d |}.
Definition set_calibration (c : Calibration) (got : bool) (d : Driver) : Driver :=
  {| m_PacketsBuffer := m_PacketsBuffer d; receiver := receiver d; process := process d;
     calibration := c; got_lidar_correction_flag := got;
     enable_lidar_recv_thr_ := enable_lidar_recv_thr_ d;
     enable_lidar_process_thr_ := enable_lidar_process_thr_ d; processing := processing d;
     gps_times := gps_times d |}.
Definition add_gps_time (time : float) (d : Driver) : Driver :=
  {| m_PacketsBuffer := m_PacketsBuffer d; receiver := receiver d; process := process d;
     calibration := calibration d; got_lidar_correction_flag := got_lidar_correction_flag d;
     enable_lidar_recv_thr_ := enable_lidar_recv_thr_ d;
     enable_lidar_process_thr_ := enable_lidar_process_thr_ d; processing := processing d;
     gps_times := gps_times d ++ [time] |}.

(** ** Receiving *)

Definition PushLiDARData (packet : PandarPacket) (d : Driver) : outcome thread_error Driver :=
  let r := receiver d in
  '(ok, queue_depth, q) ← fifo_push packet (Some 0) (m_PacketsBuffer d);
  Ret (set_queue q
    (if negb ok then
       {| m_queueOverloadDrops := u64 (m_queueOverloadDrops r + 1);
          m_enqueuedPackets := m_enqueuedPackets r;
          m_maxQueueDepthObserved := m_maxQueueDepthObserved r |}
     else
       {| m_queueOverloadDrops := m_queueOverloadDrops r;
          m_enqueuedPackets := u64 (m_enqueuedPackets r + 1);
          m_maxQueueDepthObserved :=
            if m_maxQueueDepthObserved r <? default 0 queue_depth then default 0 queue_depth
            else m_maxQueueDepthObserved r |}) d).

(** One iteration of [RecvTask]; [None] is a failed [getPacket]. *)
Definition recv_step (received : option PandarPacket) (d : Driver)
    : outcome thread_error Driver :=
  match received with
  | None => Ret d
  | Some pkt =>
      if pkt_size pkt =? GPS_PACKET_SIZE then
        match ParseGPS (pkt_data pkt) (pkt_size pkt) with
        | Ret gpsMsg => Ret (add_gps_time (ProcessGps mktime (tz_second_ s) gpsMsg) d)
        | Err _ => Ret d
        | Undef => Undef
        end
      else PushLiDARData pkt d
  end.

(** [FillPacket]; the rest of the local buffer is what was on the stack. *)
Definition FillPacket (buf : list Z) (len : Z) (timestamp : float) (stack : list Z) (d : Driver)
    : outcome thread_error Driver :=
  if negb (len =? GPS_PACKET_SIZE) then
    if decide (0 <= len <= zlen buf /\ len <= ETHERNET_MTU) then
      PushLiDARData {| pkt_data := take (Z.to_nat len) buf ++ stack; pkt_size := u32 len;
                       pkt_stamp := timestamp |} d
    else Undef
  else Ret d.

(** [std::string(buffer)] of an array: up to the first zero byte. *)
Fixpoint c_string (buffer : list Z) : outcome thread_error (list Z) :=
  match buffer with
  | [] => Undef
  | b :: buffer => if b =? 0 then Ret [] else rest ← c_string buffer; Ret (b :: rest)
  end.

(** Loading the correction file named by the configuration. *)
Definition load_from_path (d : Driver) : outcome thread_error Driver :=
  match correction_file with
  | None => Ret (set_calibration (calibration d) true d)
  | Some content =>
      text ← c_string content;
      '(_, c) ← LoadCorrectionFile sinf cosf text (calibration d);
      Ret (set_calibration c true d)
  end.

(** A correction packet of a recorded scan. *)
Definition push_correction (packet : PandarPacketMsg) (d : Driver)
    : outcome thread_error Driver :=
  if got_lidar_correction_flag d then Ret d
  else
    b4 ← arr_get (data packet) 4;
    b5 ← arr_get (data packet) 5;
    b6 ← arr_get (data packet) 6;
    b7 ← arr_get (data packet) 7;
    let correction_lenth := i32 (Z.lor (Z.lor (Z.lor (Z.shiftl (Z.land b4 0xff) 24)
      (Z.shiftl (Z.land b5 0xff) 16)) (Z.shiftl (Z.land b6 0xff) 8)) (Z.land b7 0xff)) in
    d ← (if u32 correction_lenth =? size packet then
           if decide (0 < correction_lenth /\ 8 + size packet <= zlen (data packet)) then
             text ← c_string (take (Z.to_nat (size packet)) (drop 8 (data packet)));
             '(_, c) ← LoadCorrectionFile sinf cosf text (calibration d);
             Ret (set_calibration c true d)
           else Undef
         else Ret d);
    if negb (got_lidar_correction_flag d) then load_from_path d else Ret d.

(** A recorded packet, with its reception time. *)
Definition push_recorded (packet : PandarPacketMsg) (stack : list Z) (d : Driver)
    : outcome thread_error Driver :=
  if decide (0 <= size packet <= zlen (data packet) /\ size packet <= ETHERNET_MTU) then
    PushLiDARData
      {| pkt_data := take (Z.to_nat (size packet)) (data packet) ++ stack;
         pkt_size := size packet;
         pkt_stamp := d_add (d_of_Z (stamp_sec packet))
                        (d_div (d_of_Z (stamp_nanosec packet)) (d_of_Z 1000000000)) |} d
  else Undef.

Fixpoint PushScanPacket (packets : list PandarPacketMsg) (stack : list Z) (d : Driver)
    : outcome thread_error Driver :=
  match packets with
  | [] => Ret d
  | packet :: packets =>
      b0 ← arr_get (data packet) 0;
      correction ← (if b0 =? 0x47 then b1 ← arr_get (data packet) 1; Ret (b1 =? 0x74)
                    else Ret false);
      d ← (if correction : bool then push_correction packet d
           else push_recorded packet stack d);
      PushScanPacket packets stack d
  end.

(** ** Processing *)

(** One iteration of the loop of [ProcessLiarPacket]; [fresh] is the packet it
    declares, a value [try_pop] does not use. *)
Definition process_step (fresh : PandarPacket) (d : Driver) : outcome thread_error Driver :=
  if processing d && enable_lidar_process_thr_ d then
    '(ok, packet, q) ← fifo_pop fresh (m_PacketsBuffer d);
    if negb ok then Ret (set_process q (process d) true d)
    else
      '(running, p) ← process_packet lookupTransform sinf cosf (calibration d) s pcl_callback
                        char_signed mktime packet (process d);
      Ret (set_process q p running d)
  else Ret d.

(** ** Starting and stopping *)

(** [Stop], after both threads are joined. *)
Definition Stop (d : Driver) : Driver :=
  let p := process d in
  {| m_PacketsBuffer := fifo_reset (m_PacketsBuffer d); receiver := receiver d;
     process := set_guard (guard_reset (m_packetTimestampGuard p))
                  (set_tracker (tracker_reset (m_xtSequenceTracker p)) p);
     calibration := calibration d; got_lidar_correction_flag := got_lidar_correction_flag d;
     enable_lidar_recv_thr_ := false; enable_lidar_process_thr_ := false; processing := false;
     gps_times := gps_times d |}.

(** [Start], up to the first iterations of the new threads: [now] is the time of
    the processing thread's first transformation. *)
Definition Start (now : stamp) (d : Driver) : outcome thread_error Driver :=
  let d := Stop d in
  let p := process d in
  let p := set_guard (guard_reset (m_packetTimestampGuard p))
             (set_tracker (tracker_reset (m_xtSequenceTracker p)) p) in
  let p := set_frame {| m_iPointCloudIndex := 0; m_vPointCloud := m_vPointCloud (frame p);
                        m_vPointCloudList := (fun _ => []) <$> m_vPointCloudList (frame p) |}
             (set_last 0 (d_of_Z 0) p) in
  '(running, p) ← ProcessLiarPacket lookupTransform sinf cosf (calibration d) s pcl_callback
                    char_signed mktime now [] (set_outMsg new_cloud (set_scan [] p));
  Ret {| m_PacketsBuffer := fifo_reset (m_PacketsBuffer d); receiver := receiver d; process := p;
         calibration := calibration d; got_lidar_correction_flag := got_lidar_correction_flag d;
         enable_lidar_recv_thr_ := true; enable_lidar_process_thr_ := true;
         processing := running; gps_times := gps_times d |}.

Definition ResetStartAngle (start_angle : Z) (d : Driver) : Driver :=
  let p := process d in
  set_process (m_PacketsBuffer d)
    {| start_angle_ := start_angle; last_azimuth_ := last_azimuth_ p;
       last_timestamp_ := last_timestamp_ p; m_dPktTimestamp := m_dPktTimestamp p;
       m_packetTimestampGuard := m_packetTimestampGuard p;
       m_xtSequenceTracker := m_xtSequenceTracker p; counters := counters p; frame := frame p;
       outMsg := outMsg p; scan := scan p; tf := tf p; emitted := emitted p |}
    (processing d) d.
End driver.
Arguments Driver Q : clear implicits.
