(* ===== verification/DriverFacts.v ===== *)
(** What the driver makes of the packets it receives, whatever the order in
    which its threads take their turns. *)
From stdpp Require Import gmap.
From S2P Require Import Prelude SpscQueue Ieee Calendar PacketDefenses CompactCloud PacketFormat.
From S2P Require Import ParseXT ParseLegacy LidarTables PointCalc Correction Framing FrameModes FramingFacts.
From S2P Require Import Streams Driver.
#[local] Open Scope Z_scope.

(** ** Turns *)

(** A turn of the receiving thread, with what [getPacket] delivers, or of the
    processing thread. *)
Inductive turn :=
  | Receive (received : option PandarPacket)
  | ProcessOne (fresh : PandarPacket).

Definition is_gps (packet : PandarPacket) : bool := pkt_size packet =? GPS_PACKET_SIZE.

(** The packets offered to the queue. *)
Definition offered (turns : list turn) : list PandarPacket :=
  omap (fun t => match t with
    | Receive (Some packet) => if is_gps packet then None else Some packet
    | _ => None
    end) turns.

Lemma offered_app l k : offered (l ++ k) = offered l ++ offered k.
Proof. apply omap_app. Qed.

Lemma ParseGPS_defined buf :
  GPS_PACKET_SIZE <= zlen buf -> exists g, ParseGPS buf GPS_PACKET_SIZE = Ret g.
Proof.
  unfold GPS_PACKET_SIZE. intros Hb. unfold ParseGPS, GPS_PACKET_SIZE. rewrite Z.eqb_refl.
  cbn [negb].
  assert (forall i, 0 <= i < 500 -> exists v, gps_two_digits buf i = Ret v) as Hdigits.
  { intros i Hi. unfold gps_two_digits.
    destruct (arr_get_in (E := parse_error) buf i) as (b0 & _ & ->); [lia|].
    destruct (arr_get_in (E := parse_error) buf (i + 1)) as (b1 & _ & ->); [lia|].
    by eexists. }
  destruct (rd16_in (E := parse_error) buf 0) as [v0 ->]; [lia|lia|].
  cbn [mbind outcome_bind].
  repeat (match goal with |- context [gps_two_digits buf ?i] =>
    let H := fresh in destruct (Hdigits i ltac:(lia)) as [? H]; rewrite H end;
    cbn [mbind outcome_bind]).
  match goal with |- context [rd32 buf ?i] =>
    let H := fresh in destruct (rd32_in (E := parse_error) buf i ltac:(lia) ltac:(lia)) as [? H];
    rewrite H end.
  by eexists.
Qed.

Section accounting.
Context {Q : Type} {depth : Z} `{F : !BoundedFifo thread_error PandarPacket Q depth}.
Context (lookupTransform : nat -> string -> string -> stamp -> lookup_result).
Context (sinf cosf : float -> float) (k : sensor) (t : string) (n : nat) (c : Calibration).
Context (s : Settings) (pcl_callback char_signed : bool) (mktime : tm -> Z).
Context (Hk : supported k t n s) (Hc : usable t n c).

Definition take_turn (u : turn) (d : Driver Q) : outcome thread_error (Driver Q) :=
  match u with
  | Receive received => recv_step s mktime received d
  | ProcessOne fresh =>
      process_step lookupTransform sinf cosf s pcl_callback char_signed mktime fresh d
  end.

Fixpoint driver_run (turns : list turn) (d : Driver Q) : outcome thread_error (Driver Q) :=
  match turns with
  | [] => Ret d
  | u :: turns => d ← take_turn u d; driver_run turns d
  end.

(** What arrives fits its buffer, and is a GPS packet or a good one. *)
Definition good_turn (u : turn) : Prop :=
  match u with
  | Receive (Some packet) =>
      if is_gps packet then GPS_PACKET_SIZE <= zlen (pkt_data packet) else stream_good k t s char_signed packet
  | _ => True
  end.

Abbreviation run_packets :=
  (process_packets lookupTransform sinf cosf c s pcl_callback char_signed mktime).

(** Since [d0], [off] was offered to the queue; of it [popped] was processed and
    [pending] waits. *)
Record accounted (d0 : Driver Q) (off popped pending : list PandarPacket) (d : Driver Q) : Prop := {
  ac_queue : fifo_repr (m_PacketsBuffer d) pending;
  ac_sub : sublist (popped ++ pending) off;
  ac_enqueued : m_enqueuedPackets (receiver d) = u64 (zlen (popped ++ pending));
  ac_drops : m_queueOverloadDrops (receiver d) = u64 (zlen off - zlen (popped ++ pending));
  ac_depth : m_maxQueueDepthObserved (receiver d) <= depth;
  ac_process : run_packets popped (process d0) = Ret (true, process d);
  ac_processed : m_processedPackets (counters (process d)) =
    foldl (fun m _ => u64 (m + 1)) (m_processedPackets (counters (process d0))) popped;
  ac_framing : stream_inv s (process d);
  ac_running : processing d = true /\ enable_lidar_process_thr_ d = true;
  ac_calibration : calibration d = c;
  ac_good : Forall (stream_good k t s char_signed) pending;
}.

Lemma uwrap_add w a b : uwrap w (uwrap w a + b) = uwrap w (a + b).
Proof. unfold uwrap. apply Zplus_mod_idemp_l. Qed.

Lemma process_packets_snoc packets packet p p1 :
  run_packets packets p = Ret (true, p1) ->
  run_packets (packets ++ [packet]) p =
  process_packet lookupTransform sinf cosf c s pcl_callback char_signed mktime packet p1.
Proof.
  revert p. induction packets as [|pk packets IH]; intros p; cbn [app process_packets].
  { intros [= ->]. destruct (process_packet _ _ _ _ _ _ _ _ _ _) as [[[] ?]| |]; done. }
  destruct (process_packet _ _ _ _ _ _ _ _ pk _) as [[[] p2]| |]; cbn [mbind outcome_bind negb];
    [apply IH|discriminate..].
Qed.

Lemma push_accounted d0 off popped pending d packet :
  accounted d0 off popped pending d -> stream_good k t s char_signed packet ->
  exists d' pending', PushLiDARData packet d = Ret d' /\
    accounted d0 (off ++ [packet]) popped pending' d'.
Proof.
  intros [Hq Hsub Henq Hdrop Hdepth Hproc Hcnt Hfr Hrun Hcal Hgood] Hp. unfold PushLiDARData.
  destruct (decide (zlen pending < depth)) as [Hlt|Hge].
  - destruct (fifo_push_room _ _ packet (Some 0) Hq Hlt) as (q' & -> & Hq').
    cbn [mbind outcome_bind negb]. eexists _, (pending ++ [packet]). split; [reflexivity|].
    split; cbn; try done.
    + rewrite app_assoc. by apply sublist_app.
    + rewrite Henq, uwrap_add. f_equal. rewrite !length_app. simpl. lia.
    + rewrite Hdrop. f_equal. rewrite !length_app. simpl. lia.
    + case_match; lia.
    + by apply Forall_app_2; [|constructor].
  - rewrite (fifo_push_full _ _ packet (Some 0) Hq) by lia. cbn [mbind outcome_bind negb].
    eexists _, pending. split; [reflexivity|]. split; cbn; try done.
    + by apply sublist_inserts_r.
    + rewrite Hdrop, uwrap_add. f_equal. rewrite !length_app. simpl. lia.
Qed.

Lemma process_accounted d0 off popped pending d fresh :
  accounted d0 off popped pending d -> ~ nearly_full k s (process d) ->
  exists d' popped' pending', take_turn (ProcessOne fresh) d = Ret d' /\
    accounted d0 off popped' pending' d'.
Proof.
  intros [Hq Hsub Henq Hdrop Hdepth Hproc Hcnt Hfr [Hr1 Hr2] Hcal Hgood] Hroom.
  cbn [take_turn]. unfold process_step. rewrite Hr1, Hr2. cbn [andb].
  destruct pending as [|packet pending].
  - rewrite (fifo_pop_empty _ fresh Hq). cbn [mbind outcome_bind negb].
    eexists _, popped, []. split; [reflexivity|]. by split; cbn.
  - destruct (fifo_pop_cons _ packet pending fresh Hq) as (q' & -> & Hq').
    cbn [mbind outcome_bind negb]. apply Forall_cons in Hgood as [Hp Hgood].
    destruct (stream_step lookupTransform sinf cosf k t n c s pcl_callback char_signed mktime Hk Hc
      packet (process d) Hfr Hp Hroom) as (p' & Hrun & Hinv & Hcnt' & _).
    rewrite Hcal, Hrun. cbn [mbind outcome_bind].
    eexists _, (popped ++ [packet]), pending. split; [reflexivity|].
    rewrite cons_middle, app_assoc in Hsub, Henq, Hdrop.
    split; cbn; try done; [by rewrite (process_packets_snoc _ _ _ _ Hproc)|].
    by rewrite foldl_snoc, <- Hcnt, Hcnt'.
Qed.

Lemma turn_accounted d0 off popped pending d u :
  accounted d0 off popped pending d -> good_turn u -> ~ nearly_full k s (process d) ->
  exists d' popped' pending', take_turn u d = Ret d' /\
    accounted d0 (off ++ offered [u]) popped' pending' d'.
Proof.
  intros Hac Hu Hroom. destruct u as [[packet|]|fresh].
  - cbn [take_turn recv_step offered omap list_omap]. cbn [good_turn] in Hu.
    unfold is_gps in *. destruct (Z.eqb_spec (pkt_size packet) GPS_PACKET_SIZE) as [Hsz|].
    + rewrite Hsz. destruct (ParseGPS_defined _ Hu) as [g ->]. rewrite app_nil_r.
      eexists _, popped, pending. split; [reflexivity|]. destruct Hac. by split.
    + destruct (push_accounted _ _ _ _ _ _ Hac Hu) as (d' & pending' & ? & ?).
      by exists d', popped, pending'.
  - cbn [take_turn recv_step offered omap list_omap]. rewrite app_nil_r. by exists d, popped, pending.
  - cbn [offered omap list_omap]. rewrite app_nil_r. by eapply process_accounted.
Qed.

Lemma driver_accounted turns d0 off popped pending d :
  accounted d0 off popped pending d -> Forall good_turn turns ->
  (exists pre u post d1, turns = pre ++ u :: post /\ driver_run pre d = Ret d1 /\
     nearly_full k s (process d1)) \/
  (exists popped' pending' d', driver_run turns d = Ret d' /\
     accounted d0 (off ++ offered turns) popped' pending' d').
Proof.
  intros Hac Hgood. revert off popped pending d Hac.
  induction Hgood as [|u turns Hu _ IH]; intros off popped pending d Hac.
  { right. exists popped, pending, d. by rewrite app_nil_r. }
  destruct (decide (nearly_full k s (process d))) as [Ho|Hno].
  { left. by exists [], u, turns, d. }
  destruct (turn_accounted _ _ _ _ _ _ Hac Hu Hno) as (d1 & pop1 & pend1 & Hturn & Hac1).
  cbn [driver_run]. rewrite Hturn. cbn [mbind outcome_bind].
  destruct (IH _ _ _ _ Hac1) as [(pre & v & post & d2 & -> & Hrun & Ho)|
    (pop2 & pend2 & d2 & Hrun & Hac2)].
  - left. exists (u :: pre), v, post, d2. cbn [driver_run]. rewrite Hturn. by split.
  - right. exists pop2, pend2, d2. split; [done|].
    rewrite <- app_assoc, <- offered_app in Hac2. exact Hac2.
Qed.
End accounting.

(** C7: the driver of a sensor and cloud mode of [supported] (array or channels, but
    no PandarQT with channels; no tf frames) and with any usable calibration, from a
    fresh start and under any interleaving of its receiving and processing threads,
    on the packets of [good_turn]: GPS packets in a full buffer, and those of
    [good_packet] for a PandarXT (a size of the family or of no model, a stamp in
    range if finite, echo 0x3d from a PandarXTM only), of [good_legacy] for the
    others (sizes and stamps alike, counts that fit, of a Pandar40 nothing measured by
    laser 7). Unless a frame comes within one packet's points of the end of
    [m_vPointCloud], neither thread ever leaves its arrays; every packet offered to
    the queue is processed, waiting, or counted as dropped; the processed and waiting
    ones are, in order of reception, those the queue accepted; at most [depth] wait;
    and the processing state is exactly that of the processed packets run one after
    the other. *)
Theorem driver_stream {Q : Type} {depth : Z}
    `{F : !BoundedFifo thread_error PandarPacket Q depth}
    (lookupTransform : nat -> string -> string -> stamp -> lookup_result)
    (sinf cosf : float -> float) (k : sensor) (t : string) (n : nat) (c : Calibration)
    (s : Settings) (pcl_callback char_signed : bool) (mktime : tm -> Z) (turns : list turn)
    (d : Driver Q) (Hk : supported k t n s) (Hc : usable t n c)
    (Hqueue : fifo_repr (m_PacketsBuffer d) []) (Hrx : receiver d = Build_Receiver 0 0 0)
    (Hp : stream_inv s (process d)) (Hcal : calibration d = c)
    (Hrun : processing d = true /\ enable_lidar_process_thr_ d = true)
    (Hturns : Forall (good_turn k t s char_signed) turns) :
  let run := driver_run (F := F) lookupTransform sinf cosf s pcl_callback char_signed mktime in
  (exists pre u post d', turns = pre ++ u :: post /\ run pre d = Ret d' /\
     nearly_full k s (process d')) \/
  (exists processed waiting d',
     run turns d = Ret d' /\
     sublist (processed ++ waiting) (offered turns) /\
     fifo_repr (m_PacketsBuffer d') waiting /\ zlen waiting <= depth /\
     process_packets lookupTransform sinf cosf c s pcl_callback char_signed mktime
       processed (process d) = Ret (true, process d') /\
     m_enqueuedPackets (receiver d') = u64 (zlen (processed ++ waiting)) /\
     m_queueOverloadDrops (receiver d') =
       u64 (zlen (offered turns) - zlen (processed ++ waiting)) /\
     m_maxQueueDepthObserved (receiver d') <= depth).
Proof.
  intros run.
  assert (accounted (F := F) lookupTransform sinf cosf k t c s pcl_callback char_signed mktime
    d [] [] [] d) as Hac.
  { pose proof (fifo_depth_bound _ _ Hqueue). by split; rewrite ?Hrx. }
  destruct (driver_accounted lookupTransform sinf cosf k t n c s pcl_callback char_signed mktime
    Hk Hc turns d [] [] [] d Hac Hturns) as [H|(processed & waiting & d' & Hr & [])];
    [by left|right].
  exists processed, waiting, d'. split_and!; try done. by eapply fifo_depth_bound.
Qed.

(** The driver's queue. *)
Definition packets_buffer_fifo : BoundedFifo thread_error PandarPacket
    (BoundedSpscQueue PandarPacket) MAX_PACKET_BACKLOG :=
  spsc_fifo PACKET_BUFFER_STORAGE_SIZE MAX_PACKET_BACKLOG ltac:(done) ltac:(done).

Definition blank_packet : PandarPacket := {| pkt_data := []; pkt_size := 0; pkt_stamp := d_of_Z 0 |}.

Definition fresh_driver : Driver (BoundedSpscQueue PandarPacket) :=
  {| m_PacketsBuffer := spsc_new PACKET_BUFFER_STORAGE_SIZE blank_packet;
     receiver := Build_Receiver 0 0 0; process := started 0 (no_tf "lidar" "");
     calibration := Init id id "PandarXTM"; got_lidar_correction_flag := false;
     enable_lidar_recv_thr_ := true; enable_lidar_process_thr_ := true; processing := true;
     gps_times := [] |}.

(** Three packets and a failed reception; the first two are processed. *)
Definition example_turns : list turn :=
  [Receive (Some (xtm_packet 7 35990 (d_lit 1005 10))); ProcessOne blank_packet;
   ProcessOne blank_packet; Receive None;
   Receive (Some (xtm_packet 8 100 (d_lit 10051 100)));
   Receive (Some (xtm_packet 8 100 (d_lit 10052 100))); ProcessOne blank_packet].

Abbreviation example_run turns :=
  (driver_run (F := packets_buffer_fifo) (fun _ _ _ _ => LookupFailed) id id xtm_settings true
     true mktime_utc turns fresh_driver).

Lemma example_room :
  forallb (fun k => match example_run (take k example_turns) with
    | Ret d => m_iPointCloudIndex (frame (process d)) + 256 <=? MAX_POINT_CLOUD_NUM
    | _ => true
    end) (seq 0 7) = true.
Proof. vm_compute. reflexivity. Qed.

Lemma example_turns_good : Forall (good_turn XT "PandarXTM" xtm_settings true) example_turns.
Proof.
  pose proof xtm_packets_good as Hp. unfold xtm_packets in Hp.
  rewrite !Forall_cons in Hp. destruct Hp as (H1 & H2 & H3 & _).
  unfold example_turns. rewrite !Forall_cons. cbn [good_turn].
  change (is_gps (xtm_packet 7 35990 (d_lit 1005 10))) with false.
  change (is_gps (xtm_packet 8 100 (d_lit 10051 100))) with false.
  change (is_gps (xtm_packet 8 100 (d_lit 10052 100))) with false.
  split_and!; done.
Qed.

Lemma driver_stream_witness :
  exists d waiting, example_run example_turns = Ret d /\
    fifo_repr (BoundedFifo := packets_buffer_fifo) (m_PacketsBuffer d) waiting /\
    zlen waiting <= MAX_PACKET_BACKLOG.
Proof.
  assert (("PandarXTM", 32%nat) ∈ lidar_types) as Ht
    by (apply (bool_decide_unpack _); vm_compute; exact I).
  destruct (driver_stream (F := packets_buffer_fifo) (fun _ _ _ _ => LookupFailed) id id
    XT "PandarXTM" 32 (Init id id "PandarXTM") xtm_settings true true mktime_utc example_turns
    fresh_driver (conj eq_refl (conj Ht eq_refl)) (init_usable id id _ _ Ht)
    ltac:(apply ring_new; done) eq_refl ltac:(split; try done; vm_compute; discriminate) eq_refl
    (conj eq_refl eq_refl) example_turns_good)
    as [(pre & u & post & d1 & Hpk & Hrun & Ho)|(done' & waiting & d1 & Hrun & _ & Hq & Hw & _)].
  - exfalso. pose proof example_room as Hroom. rewrite forallb_forall in Hroom.
    specialize (Hroom (length pre)). rewrite Hpk, take_app_length in Hroom.
    rewrite Hrun in Hroom. destruct Ho as [_ Ho]. apply Z.lt_nge in Ho. apply Ho.
    apply Z.leb_le, Hroom, in_seq. pose proof (f_equal length Hpk) as Hl.
    rewrite length_app in Hl. simpl in Hl. lia.
  - exists d1, waiting. split; [exact Hrun|]. by split.
Defined.
