(* ===== verification/Node.v ===== *)
(** The ROS node: [main_ros2.cc].

    [lidarCallback] runs in the driver's processing thread, [publishPointClouds]
    in a thread of its own; they meet in the mailbox.  Clock readings, the
    outcome of each [publish] call and [pcl::toROSMsg] are inputs of the
    model; log messages are left out. *)
From stdpp Require Import gmap.
From S2P Require Import Prelude Ieee IeeeRound IeeeInterval PacketDefenses LatestValueMailbox.
From S2P Require Import Correction CompactCloud Framing FramingFacts.
#[local] Open Scope Z_scope.

(** ** Parameters *)

(** The exceptions that leave the constructor or the callback. *)
Inductive node_error :=
  | invalid_argument (what : string)
  | conversion_failed (e : length_error)
  | raw_publish_failed.

Record QoS := { qos_depth : Z; qos_reliable : bool }.

(** The checks of the constructor, in order. *)
Definition pointcloud_qos (pointcloudReliability : string) (pointcloudQosDepth : Z)
    (m_sPointcloudLayout : string) : outcome node_error QoS :=
  if pointcloudQosDepth <=? 0
  then Err (invalid_argument "pointcloud_qos_depth must be positive")
  else if negb (bool_decide (m_sPointcloudLayout = "compact")) &&
          negb (bool_decide (m_sPointcloudLayout = "legacy_pcl"))
  then Err (invalid_argument "pointcloud_layout must be 'compact' or 'legacy_pcl'")
  else if bool_decide (pointcloudReliability = "best_effort")
  then Ret {| qos_depth := pointcloudQosDepth; qos_reliable := false |}
  else if bool_decide (pointcloudReliability = "reliable")
  then Ret {| qos_depth := pointcloudQosDepth; qos_reliable := true |}
  else Err (invalid_argument "pointcloud_reliability must be 'reliable' or 'best_effort'").

(** [static_cast<int>(startAngle * 100 + 0.5)], passed as a [uint16_t]. *)
Definition start_angle_argument (startAngle : float) : outcome node_error Z :=
  angle ← to_signed 32 (d_add (d_mul startAngle (d_of_Z 100)) (d_lit 5 10));
  Ret (u16 angle).

(** ** State *)

Record NodeCounters := {
  emptyCloudDrops : Z;
  cloudTimestampRegressions : Z;
  cloudsEnqueued : Z;
  cloudQueueOverwrites : Z;
  cloudPublishFailures : Z;
  cloudsPublished : Z;
  cloudConversionTotalNs : Z;
  cloudConversionMaxNs : Z;
  cloudPublishTotalNs : Z;
  cloudPublishMaxNs : Z;
  rawScansPublished : Z;
  rawPublishTotalNs : Z;
  rawPublishMaxNs : Z;
}.

(** The counters are 64 bits wide. *)
Definition count_empty_cloud (k : NodeCounters) : NodeCounters :=
  {| emptyCloudDrops := u64 (emptyCloudDrops k + 1);
     cloudTimestampRegressions := cloudTimestampRegressions k;
     cloudsEnqueued := cloudsEnqueued k; cloudQueueOverwrites := cloudQueueOverwrites k;
     cloudPublishFailures := cloudPublishFailures k; cloudsPublished := cloudsPublished k;
     cloudConversionTotalNs := cloudConversionTotalNs k;
     cloudConversionMaxNs := cloudConversionMaxNs k;
     cloudPublishTotalNs := cloudPublishTotalNs k; cloudPublishMaxNs := cloudPublishMaxNs k;
     rawScansPublished := rawScansPublished k; rawPublishTotalNs := rawPublishTotalNs k;
     rawPublishMaxNs := rawPublishMaxNs k |}.
Definition count_cloud_regression (k : NodeCounters) : NodeCounters :=
  {| emptyCloudDrops := emptyCloudDrops k;
     cloudTimestampRegressions := u64 (cloudTimestampRegressions k + 1);
     cloudsEnqueued := cloudsEnqueued k; cloudQueueOverwrites := cloudQueueOverwrites k;
     cloudPublishFailures := cloudPublishFailures k; cloudsPublished := cloudsPublished k;
     cloudConversionTotalNs := cloudConversionTotalNs k;
     cloudConversionMaxNs := cloudConversionMaxNs k;
     cloudPublishTotalNs := cloudPublishTotalNs k; cloudPublishMaxNs := cloudPublishMaxNs k;
     rawScansPublished := rawScansPublished k; rawPublishTotalNs := rawPublishTotalNs k;
     rawPublishMaxNs := rawPublishMaxNs k |}.
Definition count_enqueued (k : NodeCounters) : NodeCounters :=
  {| emptyCloudDrops := emptyCloudDrops k;
     cloudTimestampRegressions := cloudTimestampRegressions k;
     cloudsEnqueued := u64 (cloudsEnqueued k + 1);
     cloudQueueOverwrites := cloudQueueOverwrites k;
     cloudPublishFailures := cloudPublishFailures k; cloudsPublished := cloudsPublished k;
     cloudConversionTotalNs := cloudConversionTotalNs k;
     cloudConversionMaxNs := cloudConversionMaxNs k;
     cloudPublishTotalNs := cloudPublishTotalNs k; cloudPublishMaxNs := cloudPublishMaxNs k;
     rawScansPublished := rawScansPublished k; rawPublishTotalNs := rawPublishTotalNs k;
     rawPublishMaxNs := rawPublishMaxNs k |}.
Definition count_overwrite (k : NodeCounters) : NodeCounters :=
  {| emptyCloudDrops := emptyCloudDrops k;
     cloudTimestampRegressions := cloudTimestampRegressions k;
     cloudsEnqueued := cloudsEnqueued k;
     cloudQueueOverwrites := u64 (cloudQueueOverwrites k + 1);
     cloudPublishFailures := cloudPublishFailures k; cloudsPublished := cloudsPublished k;
     cloudConversionTotalNs := cloudConversionTotalNs k;
     cloudConversionMaxNs := cloudConversionMaxNs k;
     cloudPublishTotalNs := cloudPublishTotalNs k; cloudPublishMaxNs := cloudPublishMaxNs k;
     rawScansPublished := rawScansPublished k; rawPublishTotalNs := rawPublishTotalNs k;
     rawPublishMaxNs := rawPublishMaxNs k |}.
Definition count_failure (k : NodeCounters) : NodeCounters :=
  {| emptyCloudDrops := emptyCloudDrops k;
     cloudTimestampRegressions := cloudTimestampRegressions k;
     cloudsEnqueued := cloudsEnqueued k; cloudQueueOverwrites := cloudQueueOverwrites k;
     cloudPublishFailures := u64 (cloudPublishFailures k + 1);
     cloudsPublished := cloudsPublished k; cloudConversionTotalNs := cloudConversionTotalNs k;
     cloudConversionMaxNs := cloudConversionMaxNs k;
     cloudPublishTotalNs := cloudPublishTotalNs k; cloudPublishMaxNs := cloudPublishMaxNs k;
     rawScansPublished := rawScansPublished k; rawPublishTotalNs := rawPublishTotalNs k;
     rawPublishMaxNs := rawPublishMaxNs k |}.
Definition count_published (k : NodeCounters) : NodeCounters :=
  {| emptyCloudDrops := emptyCloudDrops k;
     cloudTimestampRegressions := cloudTimestampRegressions k;
     cloudsEnqueued := cloudsEnqueued k; cloudQueueOverwrites := cloudQueueOverwrites k;
     cloudPublishFailures := cloudPublishFailures k;
     cloudsPublished := u64 (cloudsPublished k + 1);
     cloudConversionTotalNs := cloudConversionTotalNs k;
     cloudConversionMaxNs := cloudConversionMaxNs k;
     cloudPublishTotalNs := cloudPublishTotalNs k; cloudPublishMaxNs := cloudPublishMaxNs k;
     rawScansPublished := rawScansPublished k; rawPublishTotalNs := rawPublishTotalNs k;
     rawPublishMaxNs := rawPublishMaxNs k |}.
Definition count_raw (k : NodeCounters) : NodeCounters :=
  {| emptyCloudDrops := emptyCloudDrops k;
     cloudTimestampRegressions := cloudTimestampRegressions k;
     cloudsEnqueued := cloudsEnqueued k; cloudQueueOverwrites := cloudQueueOverwrites k;
     cloudPublishFailures := cloudPublishFailures k; cloudsPublished := cloudsPublished k;
     cloudConversionTotalNs := cloudConversionTotalNs k;
     cloudConversionMaxNs := cloudConversionMaxNs k;
     cloudPublishTotalNs := cloudPublishTotalNs k; cloudPublishMaxNs := cloudPublishMaxNs k;
     rawScansPublished := u64 (rawScansPublished k + 1);
     rawPublishTotalNs := rawPublishTotalNs k; rawPublishMaxNs := rawPublishMaxNs k |}.

(** [recordDuration]: the new total and maximum. *)
Definition recordDuration (started finished totalNanoseconds maximumNanoseconds : Z) : Z * Z :=
  let elapsed := u64 (finished - started) in
  (u64 (totalNanoseconds + elapsed),
   if maximumNanoseconds <? elapsed then elapsed else maximumNanoseconds).

Definition record_conversion (started finished : Z) (k : NodeCounters) : NodeCounters :=
  {| emptyCloudDrops := emptyCloudDrops k;
     cloudTimestampRegressions := cloudTimestampRegressions k;
     cloudsEnqueued := cloudsEnqueued k; cloudQueueOverwrites := cloudQueueOverwrites k;
     cloudPublishFailures := cloudPublishFailures k; cloudsPublished := cloudsPublished k;
     cloudConversionTotalNs := (recordDuration started finished (cloudConversionTotalNs k) (cloudConversionMaxNs k)).1;
     cloudConversionMaxNs := (recordDuration started finished (cloudConversionTotalNs k) (cloudConversionMaxNs k)).2;
     cloudPublishTotalNs := cloudPublishTotalNs k; cloudPublishMaxNs := cloudPublishMaxNs k;
     rawScansPublished := rawScansPublished k; rawPublishTotalNs := rawPublishTotalNs k;
     rawPublishMaxNs := rawPublishMaxNs k |}.
Definition record_publish (started finished : Z) (k : NodeCounters) : NodeCounters :=
  {| emptyCloudDrops := emptyCloudDrops k;
     cloudTimestampRegressions := cloudTimestampRegressions k;
     cloudsEnqueued := cloudsEnqueued k; cloudQueueOverwrites := cloudQueueOverwrites k;
     cloudPublishFailures := cloudPublishFailures k; cloudsPublished := cloudsPublished k;
     cloudConversionTotalNs := cloudConversionTotalNs k;
     cloudConversionMaxNs := cloudConversionMaxNs k;
     cloudPublishTotalNs := (recordDuration started finished (cloudPublishTotalNs k) (cloudPublishMaxNs k)).1;
     cloudPublishMaxNs := (recordDuration started finished (cloudPublishTotalNs k) (cloudPublishMaxNs k)).2;
     rawScansPublished := rawScansPublished k; rawPublishTotalNs := rawPublishTotalNs k;
     rawPublishMaxNs := rawPublishMaxNs k |}.
Definition record_raw (started finished : Z) (k : NodeCounters) : NodeCounters :=
  {| emptyCloudDrops := emptyCloudDrops k;
     cloudTimestampRegressions := cloudTimestampRegressions k;
     cloudsEnqueued := cloudsEnqueued k; cloudQueueOverwrites := cloudQueueOverwrites k;
     cloudPublishFailures := cloudPublishFailures k; cloudsPublished := cloudsPublished k;
     cloudConversionTotalNs := cloudConversionTotalNs k;
     cloudConversionMaxNs := cloudConversionMaxNs k;
     cloudPublishTotalNs := cloudPublishTotalNs k; cloudPublishMaxNs := cloudPublishMaxNs k;
     rawScansPublished := rawScansPublished k;
     rawPublishTotalNs := (recordDuration started finished (rawPublishTotalNs k) (rawPublishMaxNs k)).1;
     rawPublishMaxNs := (recordDuration started finished (rawPublishTotalNs k) (rawPublishMaxNs k)).2 |}.

Definition nanosecondsToMilliseconds (nanoseconds : Z) : float :=
  d_div (d_of_Z nanoseconds) (d_of_Z 1000000).
Definition averageMilliseconds (totalNanoseconds samples : Z) : float :=
  if samples =? 0 then S754_zero false
  else d_div (nanosecondsToMilliseconds totalNanoseconds) (d_of_Z samples).

(** [raw_scans] are the scans published on [pandar_packets], [clouds] the clouds
    published on [points_raw]; [publishing] is the cloud the publishing thread
    holds between [wait_pop] and the end of [publish]. *)
Record Node := {
  cloudTimestampGuard : TimestampGuard;
  cloudPublishMailbox : LatestValueMailbox PointCloud2;
  node_counters : NodeCounters;
  publishing : option PointCloud2;
  clouds : list PointCloud2;
  raw_scans : list (list PandarPacketMsg);
}.

Definition set_node_counters (k : NodeCounters) (nd : Node) : Node :=
  {| cloudTimestampGuard := cloudTimestampGuard nd; cloudPublishMailbox := cloudPublishMailbox nd;
     node_counters := k; publishing := publishing nd; clouds := clouds nd;
     raw_scans := raw_scans nd |}.
Definition set_mailbox (mb : LatestValueMailbox PointCloud2) (nd : Node) : Node :=
  {| cloudTimestampGuard := cloudTimestampGuard nd; cloudPublishMailbox := mb;
     node_counters := node_counters nd; publishing := publishing nd; clouds := clouds nd;
     raw_scans := raw_scans nd |}.
Definition set_cloud_guard (g : TimestampGuard) (nd : Node) : Node :=
  {| cloudTimestampGuard := g; cloudPublishMailbox := cloudPublishMailbox nd;
     node_counters := node_counters nd; publishing := publishing nd; clouds := clouds nd;
     raw_scans := raw_scans nd |}.

(** The destructor's [cloudPublishMailbox.stop()]. *)
Definition stop_publishing (nd : Node) : Node :=
  set_mailbox (stop (cloudPublishMailbox nd)) nd.

(** [None]: the message is ignored; [Some tt]: [rclcpp::shutdown()]. *)
Definition node_control_callback (data : string) : option unit :=
  if bool_decide (data = "hesailidar_stop") || bool_decide (data = "all_stop")
  then Some tt else None.

(** The node before its first callback. *)
Definition node_new : Node :=
  {| cloudTimestampGuard := guard_new kTimestampRegressionToleranceSec;
     cloudPublishMailbox := mailbox_new;
     node_counters := {| emptyCloudDrops := 0; cloudTimestampRegressions := 0;
       cloudsEnqueued := 0; cloudQueueOverwrites := 0; cloudPublishFailures := 0;
       cloudsPublished := 0; cloudConversionTotalNs := 0; cloudConversionMaxNs := 0;
       cloudPublishTotalNs := 0; cloudPublishMaxNs := 0; rawScansPublished := 0;
       rawPublishTotalNs := 0; rawPublishMaxNs := 0 |};
     publishing := None; clouds := []; raw_scans := [] |}.

Section node.
Context (m_sPublishType m_sPointcloudLayout : string).
Context (dt : datatypes) (big_endian : bool) (toROSMsg : PPointCloud -> PointCloud2).

Definition set_stamp (sec nanosec : Z) (m : PointCloud2) : PointCloud2 :=
  {| header_stamp := {| sec := sec; nanosec := nanosec |}; header_frame_id := header_frame_id m;
     height := height m; width := width m; fields := fields m; is_bigendian := is_bigendian m;
     point_step := point_step m; row_step := row_step m; data := data m;
     is_dense := is_dense m |}.

(** The conversion: layout, then the stamp. *)
Definition convert_cloud (cld : PPointCloud) (timestamp : float)
    : outcome node_error PointCloud2 :=
  output ← (if bool_decide (m_sPointcloudLayout = "compact") then
              match makeCompactPointCloud2 dt big_endian cld with
              | Ret m => Ret m
              | Err e => Err (conversion_failed e)
              | Undef => Undef
              end
            else Ret (toROSMsg cld));
  sec ← to_signed 32 timestamp;
  nanosec ← to_unsigned 32 (d_mul (d_sub timestamp (d_of_Z sec)) (d_of_Z 1000000000));
  Ret (set_stamp sec nanosec output).

(** What one callback meets: the readings of the steady clock, in nanoseconds, and
    whether the publisher of raw scans throws. *)
Record Clock := { t0 : Z; t1 : Z; t2 : Z; t3 : Z; raw_throws : bool }.

(** The accepted cloud: conversion and handoff. *)
Definition enqueue_cloud (cld : PPointCloud) (timestamp : float) (clock : Clock) (nd : Node)
    : outcome node_error Node :=
  output ← convert_cloud cld timestamp;
  let k := record_conversion (t0 clock) (t1 clock) (node_counters nd) in
  let '(pushResult, mb, _) := push output (cloudPublishMailbox nd) in
  let k := if bool_decide (pushResult = kStopped) then k else count_enqueued k in
  let k := if bool_decide (pushResult = kReplaced) then count_overwrite k else k in
  Ret (set_node_counters k (set_mailbox mb nd)).

(** Unlike the publishing thread, the callback catches no exception. *)
Definition publish_raw (scan : list PandarPacketMsg) (clock : Clock) (nd : Node)
    : outcome node_error Node :=
  if raw_throws clock then Err raw_publish_failed
  else Ret
  {| cloudTimestampGuard := cloudTimestampGuard nd; cloudPublishMailbox := cloudPublishMailbox nd;
     node_counters := count_raw (record_raw (t2 clock) (t3 clock) (node_counters nd));
     publishing := publishing nd; clouds := clouds nd; raw_scans := raw_scans nd ++ [scan] |}.

(** The first half of [lidarCallback]; [cld] may be null. *)
Definition callback_cloud (cld : option PPointCloud) (timestamp : float) (clock : Clock)
    (nd : Node) : outcome node_error Node :=
  match cld with
  | Some cld =>
      if bool_decide (points cld = []) then
        Ret (set_node_counters (count_empty_cloud (node_counters nd)) nd)
      else
        let '(timestampDecision, g) := guard_observe timestamp (cloudTimestampGuard nd) in
        let nd := set_cloud_guard g nd in
        if negb (timestamp_accepted timestampDecision)
        then Ret (set_node_counters (count_cloud_regression (node_counters nd)) nd)
        else enqueue_cloud cld timestamp clock nd
  | None => Ret (set_node_counters (count_empty_cloud (node_counters nd)) nd)
  end.

Definition lidarCallback (cld : option PPointCloud) (timestamp : float)
    (scan : list PandarPacketMsg) (clock : Clock) (nd : Node) : outcome node_error Node :=
  nd ← (if bool_decide (m_sPublishType = "both") || bool_decide (m_sPublishType = "points")
        then callback_cloud cld timestamp clock nd else Ret nd);
  if bool_decide (m_sPublishType = "both") || bool_decide (m_sPublishType = "raw")
  then publish_raw scan clock nd else Ret nd.

(** [publishPointClouds]: [wait_pop] when it does not block, and the rest of the
    loop's body, in which [publish] may throw. *)
Definition pop_cloud (nd : Node) : Node :=
  match publishing nd, wait_pop_test (cloudPublishMailbox nd) with
  | None, (Some (true, Some output), mb) =>
      {| cloudTimestampGuard := cloudTimestampGuard nd; cloudPublishMailbox := mb;
         node_counters := node_counters nd; publishing := Some output; clouds := clouds nd;
         raw_scans := raw_scans nd |}
  | _, _ => nd
  end.

Definition publish_cloud (throws : bool) (publishStarted publishFinished : Z) (nd : Node) : Node :=
  match publishing nd with
  | None => nd
  | Some output =>
      let k := (if throws then count_failure else count_published) (node_counters nd) in
      {| cloudTimestampGuard := cloudTimestampGuard nd;
         cloudPublishMailbox := cloudPublishMailbox nd;
         node_counters := record_publish publishStarted publishFinished k;
         publishing := None; clouds := if throws then clouds nd else clouds nd ++ [output];
         raw_scans := raw_scans nd |}
  end.

(** What the threads do: the driver's processing thread calls back, the
    publishing thread pops and publishes, the destructor stops the mailbox. *)
Inductive node_action :=
  | Callback (cld : option PPointCloud) (timestamp : float) (scan : list PandarPacketMsg)
      (clock : Clock)
  | Pop
  | Publish (throws : bool) (publishStarted publishFinished : Z)
  | StopPublishing.

Definition node_step (a : node_action) (nd : Node) : outcome node_error Node :=
  match a with
  | Callback cld timestamp scan clock => lidarCallback cld timestamp scan clock nd
  | Pop => Ret (pop_cloud nd)
  | Publish throws started finished => Ret (publish_cloud throws started finished nd)
  | StopPublishing => Ret (stop_publishing nd)
  end.

Fixpoint node_run (actions : list node_action) (nd : Node) : outcome node_error Node :=
  match actions with
  | [] => Ret nd
  | a :: actions => nd ← node_step a nd; node_run actions nd
  end.
End node.
