(* ===== verification/NodeFacts.v ===== *)
(** What the node does with the clouds it is handed: the counters account for
    every one, the subscribers see them in order, and their stamps are exact to
    the nanosecond. *)
From stdpp Require Import gmap.
From S2P Require Import Prelude Ieee IeeeRound IeeeInterval Stamps PacketDefenses.
From S2P Require Import LatestValueMailbox Correction CompactCloud Framing Node.
#[local] Open Scope Z_scope.

(** ** Conversion *)

Section conversion.
Context (m_sPointcloudLayout : string).
Context (dt : datatypes) (big_endian : bool) (toROSMsg : PPointCloud -> PointCloud2).
Abbreviation convert_cloud := (convert_cloud m_sPointcloudLayout dt big_endian toROSMsg).

(** A cloud that a [PointCloud2] has room for. *)
Definition encodable (cld : PPointCloud) : Prop :=
  0 <= pc_width cld < 2 ^ 32 /\ 0 <= pc_height cld < 2 ^ 32 /\ zlen (points cld) <= 165191049.

Lemma compact_encodes cld :
  encodable cld -> exists m, makeCompactPointCloud2 dt big_endian cld = Ret m.
Proof.
  intros (Hpw & Hph & Hn). unfold makeCompactPointCloud2.
  assert (zlen (points cld) <= UINT32_MAX) as Hmax by (unfold UINT32_MAX; lia).
  destruct (Z.ltb_spec UINT32_MAX (zlen (points cld))) as [|_]; [lia|].
  destruct (compact_dimensions cld) as [h w] eqn:Hd.
  destruct (compact_dimensions_spec cld h w Hpw Hph Hmax Hd) as (Hwh & Hw & Hh).
  unfold UINT32_MAX, kCompactPointStep in *.
  destruct (Z.ltb_spec ((2 ^ 32 - 1) / 26) w) as [Hrow|Hrow];
    change ((2 ^ 32 - 1) / 26) with 165191049 in Hrow; [nia|].
  rewrite (uwrap_small 32) by lia. rewrite (uwrap_small 64) by nia.
  rewrite copy_points_all by nia. by eexists.
Qed.

Definition cloud_body (cld : PPointCloud) : outcome node_error PointCloud2 :=
  if bool_decide (m_sPointcloudLayout = "compact") then
    match makeCompactPointCloud2 dt big_endian cld with
    | Ret m => Ret m
    | Err e => Err (conversion_failed e)
    | Undef => Undef
    end
  else Ret (toROSMsg cld).

Lemma cloud_body_defined cld : encodable cld -> exists m, cloud_body cld = Ret m.
Proof.
  intros Hc. unfold cloud_body. destruct (compact_encodes cld Hc) as [m ->].
  case_bool_decide; eauto.
Qed.

Lemma convert_cloud_stamps cld ts n ns m :
  cloud_body cld = Ret m -> trunc ts = Some n -> 0 <= n < 2 ^ 31 ->
  trunc (d_mul (d_sub ts (d_of_Z n)) (d_of_Z 1000000000)) = Some ns -> 0 <= ns < 2 ^ 32 ->
  convert_cloud cld ts = Ret (set_stamp n ns m).
Proof.
  intros Hm Hn Hnb Hns Hnsb. unfold Node.convert_cloud. fold (cloud_body cld). rewrite Hm.
  cbn [mbind outcome_bind]. unfold to_signed, to_unsigned. rewrite Hn, decide_True by lia.
  cbn [mbind outcome_bind]. by rewrite Hns, decide_True by lia.
Qed.

Lemma convert_cloud_defined cld ts :
  encodable cld -> good_stamp ts -> exists m, convert_cloud cld ts = Ret m.
Proof.
  intros Hc Hs. destruct (cloud_body_defined cld Hc) as [m Hm].
  destruct (trunc_seconds ts Hs) as (n & Hn & Hnb & Hw).
  destruct (d_of_Z_exact n ltac:(unfold representable; lia)) as [Vn En].
  destruct (nanoseconds_bounded ts (d_of_Z n) n) as (ns & Hns & Hb); [by destruct Hs|done..|].
  exists (set_stamp n ns m). apply convert_cloud_stamps; (done || lia).
Qed.

(** The stamp of a published cloud: for a time of one second after the epoch
    or later, [sec] is the whole seconds, [nanosec] is less than 10^9 and within
    one nanosecond of the exact fraction; the rest of the message is what the
    layout's encoder made. *)
Theorem cloud_stamp (cld : PPointCloud) (ts : float)
    (Hc : encodable cld) (Hs : good_stamp ts) (H1 : 2 ^ 1074 <= dval ts) :
  exists n ns m, cloud_body cld = Ret m /\ convert_cloud cld ts = Ret (set_stamp n ns m) /\
    whole_seconds n ts /\ 0 <= ns <= 999999999 /\
    (ns - 1) * 2 ^ 1074 <= (dval ts - n * 2 ^ 1074) * 1000000000 < (ns + 1) * 2 ^ 1074.
Proof.
  destruct (cloud_body_defined cld Hc) as [m Hm].
  destruct (trunc_seconds ts Hs) as (n & Hn & Hnb & Hw).
  destruct (d_of_Z_exact n ltac:(unfold representable; lia)) as [Vn En].
  destruct (nanoseconds_spec ts (d_of_Z n) n) as (ns & Hns & Hb & Hacc);
    [by destruct Hs|done..|].
  exists n, ns, m. split; [done|]. split; [|done]. apply convert_cloud_stamps; (done || lia).
Qed.
End conversion.

(** ** Parameters *)

(** The constructor accepts exactly a positive depth with one of the two
    layouts and one of the two reliabilities, and then asks for that depth and
    that reliability; otherwise it throws for the first parameter at fault, in
    the order depth, layout, reliability. *)
Theorem pointcloud_qos_spec (reliability : string) (depth : Z) (layout : string) :
  let good_layout := layout = "compact" \/ layout = "legacy_pcl" in
  let good_reliability := reliability = "best_effort" \/ reliability = "reliable" in
  match pointcloud_qos reliability depth layout with
  | Ret q => 0 < depth /\ good_layout /\ good_reliability /\ qos_depth q = depth /\
      (qos_reliable q = true <-> reliability = "reliable")
  | Err e =>
      (depth <= 0 /\ e = invalid_argument "pointcloud_qos_depth must be positive") \/
      (0 < depth /\ ~ good_layout /\
       e = invalid_argument "pointcloud_layout must be 'compact' or 'legacy_pcl'") \/
      (0 < depth /\ good_layout /\ ~ good_reliability /\
       e = invalid_argument "pointcloud_reliability must be 'reliable' or 'best_effort'")
  | Undef => False
  end.
Proof.
  unfold pointcloud_qos. destruct (Z.leb_spec depth 0); [by left|].
  repeat case_bool_decide; cbn [negb andb qos_depth qos_reliable]; try (subst; discriminate).
  all: try (split_and!; [auto..|]; split; congruence).
  all: try (right; right; split_and!; auto; by intros [|]).
  all: right; left; by split_and!; [|intros [|]|].
Qed.

(** ** What the node owes

    The ledger of the callbacks alone, without mailbox, threads or publisher:
    how many clouds were empty or refused by the guard, and the messages
    offered for publication before and after the stop. *)
Record Ledger := {
  led_guard : TimestampGuard;
  led_empty : Z;
  led_refused : Z;
  led_offered : list PointCloud2;
  led_late : Z;
  led_stopped : bool;
  led_scans : list (list PandarPacketMsg);
}.

Definition ledger_new : Ledger :=
  {| led_guard := guard_new kTimestampRegressionToleranceSec; led_empty := 0; led_refused := 0;
     led_offered := []; led_late := 0; led_stopped := false; led_scans := [] |}.

Section accounting.
Context (m_sPublishType m_sPointcloudLayout : string).
Context (dt : datatypes) (big_endian : bool) (toROSMsg : PPointCloud -> PointCloud2).
Abbreviation convert_cloud := (convert_cloud m_sPointcloudLayout dt big_endian toROSMsg).
Abbreviation node_step :=
  (node_step m_sPublishType m_sPointcloudLayout dt big_endian toROSMsg).
Abbreviation node_run := (node_run m_sPublishType m_sPointcloudLayout dt big_endian toROSMsg).

Definition wants_points : bool :=
  bool_decide (m_sPublishType = "both") || bool_decide (m_sPublishType = "points").
Definition wants_raw : bool :=
  bool_decide (m_sPublishType = "both") || bool_decide (m_sPublishType = "raw").

Definition ledger_empty (L : Ledger) : Ledger :=
  {| led_guard := led_guard L; led_empty := led_empty L + 1; led_refused := led_refused L;
     led_offered := led_offered L; led_late := led_late L; led_stopped := led_stopped L;
     led_scans := led_scans L |}.
Definition ledger_offer (m : PointCloud2) (L : Ledger) : Ledger :=
  if led_stopped L then
    {| led_guard := led_guard L; led_empty := led_empty L; led_refused := led_refused L;
       led_offered := led_offered L; led_late := led_late L + 1; led_stopped := true;
       led_scans := led_scans L |}
  else
    {| led_guard := led_guard L; led_empty := led_empty L; led_refused := led_refused L;
       led_offered := led_offered L ++ [m]; led_late := led_late L; led_stopped := false;
       led_scans := led_scans L |}.
Definition ledger_observe (ts : float) (L : Ledger) : bool * Ledger :=
  let '(d, g) := guard_observe ts (led_guard L) in
  (timestamp_accepted d,
   {| led_guard := g; led_empty := led_empty L;
      led_refused := led_refused L + (if timestamp_accepted d then 0 else 1);
      led_offered := led_offered L; led_late := led_late L; led_stopped := led_stopped L;
      led_scans := led_scans L |}).

Definition ledger_cloud (cld : option PPointCloud) (ts : float) (L : Ledger) : Ledger :=
  match cld with
  | Some cld =>
      if bool_decide (points cld = []) then ledger_empty L
      else match ledger_observe ts L with
           | (true, L) =>
               match convert_cloud cld ts with Ret m => ledger_offer m L | _ => L end
           | (false, L) => L
           end
  | None => ledger_empty L
  end.

Definition ledger_scan (scan : list PandarPacketMsg) (L : Ledger) : Ledger :=
  {| led_guard := led_guard L; led_empty := led_empty L; led_refused := led_refused L;
     led_offered := led_offered L; led_late := led_late L; led_stopped := led_stopped L;
     led_scans := led_scans L ++ [scan] |}.

Definition ledger_step (a : node_action) (L : Ledger) : Ledger :=
  match a with
  | Callback cld ts scan _ =>
      let L := if wants_points then ledger_cloud cld ts L else L in
      if wants_raw then ledger_scan scan L else L
  | StopPublishing =>
      {| led_guard := led_guard L; led_empty := led_empty L; led_refused := led_refused L;
         led_offered := led_offered L; led_late := led_late L; led_stopped := true;
         led_scans := led_scans L |}
  | Pop | Publish _ _ _ => L
  end.

Definition ledger (actions : list node_action) : Ledger :=
  foldl (fun L a => ledger_step a L) ledger_new actions.

Lemma ledger_snoc actions a : ledger (actions ++ [a]) = ledger_step a (ledger actions).
Proof. unfold ledger. by rewrite foldl_snoc. Qed.

(** The callbacks a cloud reaches, for the totals. *)
Definition is_callback (a : node_action) : bool :=
  match a with Callback _ _ _ _ => true | _ => false end.

(** A cloud the guard drops, or one the message has room for; the publisher of
    raw scans does not throw. *)
Definition good_action (a : node_action) : Prop :=
  match a with
  | Callback cld ts _ clock => raw_throws clock = false /\
      match cld with
      | Some cld => isfinite ts = false \/ (good_stamp ts /\ encodable cld)
      | None => True
      end
  | _ => True
  end.

(** ** The node against the ledger *)

Record accounts (L : Ledger) (overwritten failed discarded : Z) (nd : Node) : Prop := {
  ac_guard : cloudTimestampGuard nd = led_guard L;
  ac_empty : emptyCloudDrops (node_counters nd) = u64 (led_empty L);
  ac_refused : cloudTimestampRegressions (node_counters nd) = u64 (led_refused L);
  ac_enqueued : cloudsEnqueued (node_counters nd) = u64 (zlen (led_offered L));
  ac_overwrites : cloudQueueOverwrites (node_counters nd) = u64 overwritten;
  ac_failures : cloudPublishFailures (node_counters nd) = u64 failed;
  ac_published : cloudsPublished (node_counters nd) = u64 (zlen (clouds nd));
  ac_raw_count : rawScansPublished (node_counters nd) = u64 (zlen (raw_scans nd));
  ac_raw : raw_scans nd = led_scans L;
  ac_nonneg : 0 <= overwritten /\ 0 <= failed /\ 0 <= discarded <= 1;
  ac_total : zlen (led_offered L) = zlen (clouds nd) + failed + overwritten + discarded +
    zlen (option_list (publishing nd)) + zlen (option_list (pending_ (cloudPublishMailbox nd)));
  ac_order : sublist (clouds nd ++ option_list (publishing nd) ++
    option_list (pending_ (cloudPublishMailbox nd))) (led_offered L);
  ac_latest : forall m, pending_ (cloudPublishMailbox nd) = Some m -> last (led_offered L) = Some m;
  ac_stopped : stopped_ (cloudPublishMailbox nd) = led_stopped L;
  ac_empty_slot : led_stopped L = true -> pending_ (cloudPublishMailbox nd) = None;
  ac_discard : led_stopped L = false -> discarded = 0;
}.

Lemma u64_succ x : u64 (u64 x + 1) = u64 (x + 1).
Proof. unfold uwrap. by rewrite Zplus_mod_idemp_l. Qed.

Lemma accounts_new : accounts ledger_new 0 0 0 node_new.
Proof. split; try done; simpl; lia. Qed.

Lemma accounts_scan L o f d nd scan clock :
  raw_throws clock = false -> accounts L o f d nd ->
  exists nd', publish_raw scan clock nd = Ret nd' /\ accounts (ledger_scan scan L) o f d nd'.
Proof.
  unfold publish_raw. intros -> []. eexists. split; [reflexivity|]. split; cbn; try done.
  - by rewrite ac_raw_count0, u64_succ, length_app, Nat2Z.inj_add.
  - by rewrite ac_raw0.
Qed.

Lemma accounts_empty L o f d nd :
  accounts L o f d nd ->
  accounts (ledger_empty L) o f d (set_node_counters (count_empty_cloud (node_counters nd)) nd).
Proof. intros []. split; cbn; try done. by rewrite ac_empty0, u64_succ. Qed.

(** Handing an accepted cloud over. *)
Lemma accounts_offer L o f d nd cld ts clock m :
  accounts L o f d nd -> convert_cloud cld ts = Ret m ->
  exists nd' o', enqueue_cloud m_sPointcloudLayout dt big_endian toROSMsg cld ts clock nd = Ret nd' /\
    accounts (ledger_offer m L) o' f d nd'.
Proof.
  intros Hac Hm. unfold enqueue_cloud. rewrite Hm. cbn [mbind outcome_bind].
  destruct Hac. unfold push, ledger_offer. rewrite ac_stopped0.
  destruct (led_stopped L) eqn:Hst.
  - eexists _, o. split; [reflexivity|]. split; cbn; try done.
  - assert (forall l : list PointCloud2, sublist (l ++ option_list (pending_ (cloudPublishMailbox nd)))
      (led_offered L) -> sublist (l ++ [m]) (led_offered L ++ [m])) as Hsub.
    { intros l Hl. apply sublist_app; [|done]. etrans; [|exact Hl]. by apply sublist_inserts_r. }
    rewrite app_assoc in ac_order0. specialize (Hsub _ ac_order0). rewrite <- app_assoc in Hsub.
    assert (last (led_offered L ++ [m]) = Some m) as Hlast by apply last_snoc.
    destruct (pending_ (cloudPublishMailbox nd)) as [old|] eqn:Hp.
    + eexists _, (o + 1). split; [reflexivity|].
      split; cbn in *; rewrite ?length_app; cbn; try done; try lia.
      all: change (bool_decide (kReplaced = kReplaced)) with true;
        change (bool_decide (kReplaced = kStopped)) with false; cbn.
      * rewrite ac_enqueued0, u64_succ. f_equal. lia.
      * by rewrite ac_overwrites0, u64_succ.
      * by intros ? [= <-].
    + eexists _, o. split; [reflexivity|].
      split; cbn in *; rewrite ?length_app; cbn; try done; try lia.
      all: change (bool_decide (kStored = kReplaced)) with false;
        change (bool_decide (kStored = kStopped)) with false; cbn.
      * rewrite ac_enqueued0, u64_succ. f_equal. lia.
      * by intros ? [= <-].
Qed.

Lemma observe_accepts ts g :
  timestamp_accepted (guard_observe ts g).1 = true -> isfinite ts = true.
Proof. unfold guard_observe. destruct (isfinite ts); [done|]. by vm_compute. Qed.

Lemma accounts_cloud L o f d nd cld ts scan clock :
  accounts L o f d nd -> good_action (Callback cld ts scan clock) ->
  exists nd' o', callback_cloud m_sPointcloudLayout dt big_endian toROSMsg cld ts clock nd = Ret nd' /\
    accounts (ledger_cloud cld ts L) o' f d nd'.
Proof.
  intros Hac Hgood. destruct cld as [cld|]; cbn [ledger_cloud callback_cloud];
    [|eexists _, o; split; [reflexivity|by apply accounts_empty]].
  case_bool_decide; [eexists _, o; split; [reflexivity|by apply accounts_empty]|].
  rewrite (ac_guard _ _ _ _ _ Hac). unfold ledger_observe.
  pose proof (observe_accepts ts (led_guard L)) as Hfin.
  destruct (guard_observe ts (led_guard L)) as [dec g]. cbn [fst] in Hfin.
  destruct (timestamp_accepted dec) eqn:Hdec; cbn [negb].
  - destruct Hgood as [_ [Hbad|[Hs Hc]]]; [rewrite Hfin in Hbad; done|].
    destruct (convert_cloud_defined m_sPointcloudLayout dt big_endian toROSMsg cld ts Hc Hs)
      as [m Hm]. rewrite Hm. apply (accounts_offer _ o f d); [|done].
    destruct Hac. split; cbn; try done. by rewrite Z.add_0_r.
  - eexists _, o. split; [reflexivity|]. destruct Hac. split; cbn; try done.
    by rewrite ac_refused0, u64_succ.
Qed.

Lemma accounts_pop L o f d nd : accounts L o f d nd -> accounts L o f d (pop_cloud nd).
Proof.
  intros Hac. unfold pop_cloud. destruct (publishing nd) eqn:Hpub; [done|].
  unfold wait_pop_test. destruct (pending_ (cloudPublishMailbox nd)) as [m|] eqn:Hp.
  - rewrite orb_true_r. destruct Hac. rewrite Hpub, Hp in *.
    split; cbn in *; try done; lia.
  - by destruct (stopped_ (cloudPublishMailbox nd)).
Qed.

Lemma accounts_publish L o f d nd throws t0 t1 :
  accounts L o f d nd -> exists f', accounts L o f' d (publish_cloud throws t0 t1 nd).
Proof.
  intros Hac. unfold publish_cloud. destruct (publishing nd) as [m|] eqn:Hpub; [|by exists f].
  destruct Hac. rewrite Hpub in *. destruct throws.
  - exists (f + 1). split; cbn in *; try done; try lia.
    + by rewrite ac_failures0, u64_succ.
    + etrans; [|exact ac_order0]. apply sublist_app; [done|]. by apply sublist_cons.
  - exists f. split; cbn in *; rewrite ?length_app; cbn; try done; try lia.
    + rewrite ac_published0, u64_succ. f_equal. lia.
    + by rewrite <- app_assoc.
Qed.

Lemma accounts_stop L o f d nd :
  accounts L o f d nd -> exists d', accounts (ledger_step StopPublishing L) o f d' (stop_publishing nd).
Proof.
  intros []. exists (d + zlen (option_list (pending_ (cloudPublishMailbox nd)))).
  assert (0 <= d + zlen (option_list (pending_ (cloudPublishMailbox nd))) <= 1) as Hd.
  { destruct (led_stopped L); [rewrite ac_empty_slot0 by done; simpl; lia|].
    rewrite ac_discard0 by done. destruct (pending_ _); simpl; lia. }
  split; cbn; try done; try lia.
  etrans; [|exact ac_order0]. rewrite app_nil_r.
  rewrite app_assoc. by apply sublist_inserts_r.
Qed.

Lemma node_step_accounts L o f d nd a :
  accounts L o f d nd -> good_action a ->
  exists nd' o' f' d', node_step a nd = Ret nd' /\ accounts (ledger_step a L) o' f' d' nd'.
Proof.
  intros Hac Hgood. destruct a as [cld ts scan clock| |throws a b|]; cbn [Node.node_step].
  - unfold lidarCallback. cbn [ledger_step]. fold wants_points wants_raw.
    assert (forall L' o' nd', accounts L' o' f d nd' -> exists nd'' o'' f' d',
      (if wants_raw then publish_raw scan clock nd' else Ret nd') = Ret nd'' /\
      accounts (if wants_raw then ledger_scan scan L' else L') o'' f' d' nd'') as Hraw.
    { intros L' o' nd' Hac'. destruct wants_raw; [|by eexists _, o', f, d].
      destruct (accounts_scan _ _ _ _ _ scan clock (proj1 Hgood) Hac') as (nd'' & -> & ?).
      by eexists _, o', f, d. }
    destruct wants_points.
    + destruct (accounts_cloud _ _ _ _ _ _ _ _ _ Hac Hgood) as (nd1 & o1 & -> & Hac1).
      cbn [mbind outcome_bind]. by eapply Hraw.
    + cbn [mbind outcome_bind]. by eapply Hraw.
  - eexists _, o, f, d. split; [reflexivity|]. by apply accounts_pop.
  - destruct (accounts_publish _ _ _ _ _ throws a b Hac) as [f' Hac'].
    by eexists _, o, f', d.
  - destruct (accounts_stop _ _ _ _ _ Hac) as [d' Hac']. by eexists _, o, f, d'.
Qed.

Lemma node_run_accounts actions L o f d nd :
  accounts L o f d nd -> Forall good_action actions ->
  exists nd' o' f' d', node_run actions nd = Ret nd' /\
    accounts (foldl (fun L a => ledger_step a L) L actions) o' f' d' nd'.
Proof.
  intros Hac Hgood. revert L o f d nd Hac.
  induction Hgood as [|a actions Ha _ IH]; intros L o f d nd Hac; [by eexists _, o, f, d|].
  destruct (node_step_accounts _ _ _ _ _ _ Hac Ha) as (nd1 & o1 & f1 & d1 & Hstep & Hac1).
  cbn [Node.node_run foldl]. rewrite Hstep. cbn [mbind outcome_bind]. by eapply IH.
Qed.

(** C8: whatever the interleaving of callbacks, pops, publications that succeed
    or throw, and the stop, raw scans being published without an exception, the
    node faults nowhere, its counters (modulo 2^64)
    match the ledger of the callbacks, and no cloud is lost unaccounted for:
    each offered one was published, failed, was overwritten in the mailbox, is
    in flight, is pending, or was the one discarded by the stop. Subscribers
    receive clouds in the order they were offered, a pending one is always the
    latest, and every raw scan is published in order. *)
Theorem node_accounting (actions : list node_action) (Hgood : Forall good_action actions) :
  let L := ledger actions in
  exists nd overwritten failed discarded,
    node_run actions node_new = Ret nd /\
    let k := node_counters nd in
    let in_flight := option_list (publishing nd) in
    let pending := option_list (pending_ (cloudPublishMailbox nd)) in
    emptyCloudDrops k = u64 (led_empty L) /\ cloudTimestampRegressions k = u64 (led_refused L) /\
    cloudsEnqueued k = u64 (zlen (led_offered L)) /\ cloudsPublished k = u64 (zlen (clouds nd)) /\
    cloudQueueOverwrites k = u64 overwritten /\ cloudPublishFailures k = u64 failed /\
    zlen (led_offered L) =
      zlen (clouds nd) + failed + overwritten + zlen in_flight + zlen pending + discarded /\
    0 <= overwritten /\ 0 <= failed /\ 0 <= discarded <= (if led_stopped L then 1 else 0) /\
    sublist (clouds nd ++ in_flight ++ pending) (led_offered L) /\
    (forall m, pending = [m] -> last (led_offered L) = Some m) /\
    raw_scans nd = led_scans L /\ rawScansPublished k = u64 (zlen (raw_scans nd)).
Proof.
  intros L. destruct (node_run_accounts actions _ _ _ _ _ accounts_new Hgood)
    as (nd & o & f & d & Hrun & []). change (foldl _ _ actions) with L in *.
  exists nd, o, f, d. split; [done|]. cbn zeta. split_and!; try done; try lia.
  - destruct (led_stopped L) eqn:Hst; [lia|]. by rewrite ac_discard0.
  - intros m Hm. apply ac_latest0. destruct (pending_ _); [|done]. by injection Hm as ->.
Qed.
End accounting.

Lemma compact_example_encodable : encodable compact_example.
Proof. split; [done|]. split; [done|]. vm_compute. discriminate. Qed.

Lemma example_time_good : good_stamp (d_lit 17000000001 10).
Proof. split; [solve_valid|vm_compute; split; discriminate]. Qed.

Definition blank_message : PointCloud2 :=
  {| header_stamp := {| sec := 0; nanosec := 0 |}; header_frame_id := ""; height := 0; width := 0;
     fields := []; is_bigendian := false; point_step := 0; row_step := 0; data := [];
     is_dense := false |}.

Lemma cloud_stamp_witness :
  exists n ns m,
    convert_cloud "compact" ros_datatypes false (fun _ => blank_message) compact_example
      (d_lit 17000000001 10) = Ret (set_stamp n ns m) /\ 0 <= ns <= 999999999.
Proof.
  destruct (cloud_stamp "compact" ros_datatypes false (fun _ => blank_message)
    compact_example (d_lit 17000000001 10) compact_example_encodable example_time_good
    ltac:(vm_compute; discriminate)) as (n & ns & m & _ & Hconv & _ & Hb & _).
  exists n, ns, m. split; [exact Hconv|exact Hb].
Defined.

(** Two clouds before the first is fetched, one published, an empty one, one from
    the past, one whose publication throws, one discarded by the stop. *)
Definition example_actions : list node_action :=
  let clock := {| t0 := 0; t1 := 1000; t2 := 2000; t3 := 3500; raw_throws := false |} in
  let at_ time := Callback (Some compact_example) (d_lit time 10) [] clock in
  [at_ 17000000001; at_ 17000000002; Pop; Publish false 10 20; Callback None S754_nan [] clock;
   at_ 16999999990; at_ 17000000003; Pop; Publish true 30 45; at_ 17000000004; StopPublishing;
   at_ 17000000005; Pop].

Lemma example_actions_good : Forall good_action example_actions.
Proof.
  pose proof compact_example_encodable as Hc.
  unfold example_actions. rewrite !Forall_cons. cbn [good_action].
  split_and!; try exact I; try apply Forall_nil_2; try reflexivity; right; (split; [|exact Hc]);
    (split; [solve_valid|vm_compute; split; discriminate]).
Qed.

Lemma node_accounting_witness :
  exists nd, node_run "both" "compact" ros_datatypes false (fun _ => blank_message)
      example_actions node_new = Ret nd /\
    emptyCloudDrops (node_counters nd) = 1 /\ cloudTimestampRegressions (node_counters nd) = 1 /\
    cloudsEnqueued (node_counters nd) = 4 /\ zlen (raw_scans nd) = 7 /\
    sublist (clouds nd) (led_offered
      (ledger "both" "compact" ros_datatypes false (fun _ => blank_message) example_actions)).
Proof.
  destruct (node_accounting "both" "compact" ros_datatypes false (fun _ => blank_message)
    example_actions example_actions_good)
    as (nd & o & f & d & Hrun & H1 & H2 & H3 & _ & _ & _ & _ & _ & _ & _ & Hsub & _ & Hraw & _).
  exists nd. split; [exact Hrun|]. rewrite H1, H2, H3, Hraw.
  split; [vm_compute; reflexivity|]. split; [vm_compute; reflexivity|].
  split; [vm_compute; reflexivity|]. split; [vm_compute; reflexivity|].
  etransitivity; [|exact Hsub]. apply sublist_inserts_r. reflexivity.
Defined.
