(* ===== verification/Sockets.v ===== *)
(** The socket helpers of [util.c], and the world the command client runs in.

    Everything the operating system decides is part of the state: what the peer
    sends and how [read] hands it over, how much a [write] accepts, whether
    [socket], [inet_pton], [connect] and [malloc] succeed.  A theorem about
    every world is a theorem about every behaviour of the network and of the
    peer.  A [read] that blocks for ever is not modelled: there are no timeouts
    in this code, and a silent peer is one that closes the connection. *)
From stdpp Require Import gmap.
From S2P Require Import Prelude Ieee.
#[local] Open Scope Z_scope.

(** ** Reading and writing in full *)

(** What successive calls of [read] find: bytes (none: the end of the stream) or
    a failure, [eintr] telling whether [errno] is [EINTR]. *)
Inductive read_event := Data (bytes : list Z) | ReadFail (eintr : bool).

(** What successive calls of [write] do. *)
Inductive write_event := Wrote (n : Z) | WriteFail (eintr : bool).

(** The loop of [sys_readn]: [None] for the return of -1, otherwise the final
    [nleft]; the bytes stored at [ptr]; the events not used up.  A chunk longer
    than [nleft] is delivered in part and the rest left for the next call; the
    end of the stream stays the end. *)
Fixpoint readn_loop (incoming : list read_event) (nleft : Z)
    : option Z * list Z * list read_event :=
  if nleft <=? 0 then (Some nleft, [], incoming)
  else
    match incoming with
    | [] => (Some nleft, [], [])
    | ReadFail true :: incoming => readn_loop incoming nleft
    | ReadFail false :: incoming => (None, [], incoming)
    | Data bytes :: incoming =>
        if zlen bytes =? 0 then (Some nleft, [], [])
        else if zlen bytes <=? nleft then
          let '(r, more, rest) := readn_loop incoming (nleft - zlen bytes) in
          (r, bytes ++ more, rest)
        else (Some 0, take (Z.to_nat nleft) bytes, Data (drop (Z.to_nat nleft) bytes) :: incoming)
    end.

(** The return value, the bytes stored and the events left. *)
Definition sys_readn (incoming : list read_event) (n : Z) : Z * list Z * list read_event :=
  let '(r, bytes, rest) := readn_loop incoming n in
  (match r with Some nleft => n - nleft | None => -1 end, bytes, rest).

(** One [write] of [bytes]: the return value and the bytes sent; a kernel with
    no event left takes everything. *)
Definition sys_write (events : list write_event) (bytes : list Z)
    : (Z + bool) * list Z * list write_event :=
  match events with
  | [] => (inl (zlen bytes), bytes, [])
  | Wrote k :: events =>
      let n := Z.max 0 (Z.min k (zlen bytes)) in (inl n, take (Z.to_nat n) bytes, events)
  | WriteFail eintr :: events => (inr eintr, [], events)
  end.

(** The loop of [sys_writen]; [false] is the return of -1. *)
Fixpoint writen_loop (events : list write_event) (bytes : list Z)
    : bool * list Z * list write_event :=
  match bytes with
  | [] => (true, [], events)
  | _ =>
      match events with
      | [] => (true, bytes, [])
      | WriteFail true :: events => writen_loop events bytes
      | WriteFail false :: events => (false, [], events)
      | Wrote k :: events =>
          let n := Z.max 0 (Z.min k (zlen bytes)) in
          if n =? 0 then (false, [], events)
          else
            let '(ok, sent, rest) := writen_loop events (drop (Z.to_nat n) bytes) in
            (ok, take (Z.to_nat n) bytes ++ sent, rest)
      end
  end.

Definition sys_writen (events : list write_event) (bytes : list Z)
    : Z * list Z * list write_event :=
  let '(ok, sent, rest) := writen_loop events bytes in (if ok then zlen bytes else -1, sent, rest).

(** [select_fd]: a list of results of [select], a failure with [EINTR] being
    retried; [None] when the list ends first. *)
Fixpoint select_fd (results : list (Z + bool)) : option Z :=
  match results with
  | [] => None
  | inl result :: _ => Some result
  | inr true :: results => select_fd results
  | inr false :: _ => Some (-1)
  end.

(** [getNowTimeSec] of a reading of the real-time clock. *)
Definition getNowTimeSec (ts : option (Z * Z)) : float :=
  match ts with
  | Some (tv_sec, tv_nsec) =>
      d_add (d_div (d_of_Z tv_nsec) (d_of_Z 1000000000)) (d_of_Z tv_sec)
  | None => d_of_Z 0
  end.

(** ** The world *)

(** What an attempt to connect meets. *)
Record Dial := {
  socket_ok : bool;
  inet_pton : Z;
  connect_ok : bool;
  incoming : list read_event;
  writes : list write_event;
}.

(** [heap] holds the blocks of [malloc] that have not been freed; a byte that
    was never written is [None].  [mallocs] says which calls fail; with none
    left, they succeed. *)
Record World := {
  dials : list Dial;
  sockets : gmap Z (list read_event * list write_event);
  next_fd : Z;
  sent : list (list Z);
  heap : gmap nat (list (option Z));
  next_block : nat;
  mallocs : list bool;
  locked : bool;
}.

Definition io (A : Type) : Type := World -> outcome Empty_set (A * World).

#[export] Instance io_ret : MRet io := fun A a w => Ret (a, w).
#[export] Instance io_bind : MBind io := fun A B f m w =>
  match m w with
  | Ret (a, w) => f a w
  | Err e => Err e
  | Undef => Undef
  end.

Definition undef {A} : io A := fun _ => Undef.

Section system.
Implicit Types w : World.

Definition set_sockets s w : World :=
  {| dials := dials w; sockets := s; next_fd := next_fd w; sent := sent w; heap := heap w;
     next_block := next_block w; mallocs := mallocs w; locked := locked w |}.
Definition set_heap h w : World :=
  {| dials := dials w; sockets := sockets w; next_fd := next_fd w; sent := sent w; heap := h;
     next_block := next_block w; mallocs := mallocs w; locked := locked w |}.

Definition malloc (n : Z) : io (option nat) := fun w =>
  let ok := default true (head (mallocs w)) in
  let w := {| dials := dials w; sockets := sockets w; next_fd := next_fd w; sent := sent w;
              heap := if ok then <[next_block w := replicate (Z.to_nat n) None]> (heap w)
                      else heap w;
              next_block := if ok then S (next_block w) else next_block w;
              mallocs := tail (mallocs w); locked := locked w |} in
  Ret (if ok then Some (pred (next_block w)) else None, w).

Definition free (p : option nat) : io () := fun w =>
  match p with
  | None => Ret ((), w)
  | Some b =>
      match heap w !! b with
      | Some _ => Ret ((), set_heap (delete b (heap w)) w)
      | None => Undef
      end
  end.

(** The block a pointer points to. *)
Definition load (p : option nat) : io (list (option Z)) := fun w =>
  match p ≫= fun b => heap w !! b with
  | Some bytes => Ret (bytes, w)
  | None => Undef
  end.

(** Bytes stored from [offset] on. *)
Definition store (p : option nat) (offset : Z) (bytes : list (option Z)) : io () := fun w =>
  match p with
  | Some b =>
      match heap w !! b with
      | Some old =>
          if decide (0 <= offset /\ offset + zlen bytes <= zlen old) then
            Ret ((), set_heap (<[b := take (Z.to_nat offset) old ++ bytes ++
                                 drop (Z.to_nat offset + length bytes) old]> (heap w)) w)
          else Undef
      | None => Undef
      end
  | None => Undef
  end.

(** The first [n] bytes of a block, all of them written before. *)
Definition take_bytes (n : Z) (block : list (option Z)) : io (list Z) := fun w =>
  if decide (0 <= n <= zlen block) then
    match mapM id (take (Z.to_nat n) block) with
    | Some bytes => Ret (bytes, w)
    | None => Undef
    end
  else Undef.

Definition mutex_lock : io () := fun w =>
  if locked w then Undef
  else Ret ((), {| dials := dials w; sockets := sockets w; next_fd := next_fd w; sent := sent w;
                   heap := heap w; next_block := next_block w; mallocs := mallocs w;
                   locked := true |}).
Definition mutex_unlock : io () := fun w =>
  if locked w then
    Ret ((), {| dials := dials w; sockets := sockets w; next_fd := next_fd w; sent := sent w;
                heap := heap w; next_block := next_block w; mallocs := mallocs w;
                locked := false |})
  else Undef.

Definition socket_close (fd : Z) : io () := fun w =>
  Ret ((), set_sockets (delete fd (sockets w)) w).

(** [socket]: -1 or a new descriptor, and what it will meet. *)
Definition new_socket : io (Z * option Dial) := fun w =>
  match dials w with
  | d :: ds =>
      if socket_ok d then
        let fd := next_fd w in
        Ret ((fd, Some d),
             {| dials := ds; sockets := <[fd := ([], [])]> (sockets w); next_fd := fd + 1;
                sent := sent w; heap := heap w; next_block := next_block w;
                mallocs := mallocs w; locked := locked w |})
      else Ret ((-1, None),
             {| dials := ds; sockets := sockets w; next_fd := next_fd w;
                sent := sent w; heap := heap w; next_block := next_block w;
                mallocs := mallocs w; locked := locked w |})
  | [] => Ret ((-1, None), w)
  end.

Definition connect (fd : Z) (d : Dial) : io bool := fun w =>
  if connect_ok d
  then Ret (true, set_sockets (<[fd := (incoming d, writes d)]> (sockets w)) w)
  else Ret (false, w).

(** [strchr(ipaddr, ':')] on the bytes of the array, up to the terminator. *)
Fixpoint strchr (c : Z) (bytes : list Z) : io bool :=
  match bytes with
  | [] => undef
  | b :: bytes => if b =? c then mret true else if b =? 0 then mret false else strchr c bytes
  end.

(** [tcp_open]: the two branches differ in how they test [inet_pton]. *)
Definition tcp_open (ipaddr : list Z) : io Z :=
  isIpV6 ← strchr 58 ipaddr;
  '(sockfd, d) ← new_socket;
  match d with
  | None => mret (-1)
  | Some d =>
      if (if (isIpV6 : bool) then inet_pton d =? 0 else inet_pton d <=? 0) then
        socket_close sockfd;; mret (-1)
      else
        ok ← connect sockfd d;
        if (ok : bool) then mret sockfd else socket_close sockfd;; mret (-1)
  end.

(** [sys_readn] on a descriptor. *)
Definition fd_readn (fd n : Z) : io (Z * list Z) := fun w =>
  if n <=? 0 then Ret ((0, []), w)
  else
    match sockets w !! fd with
    | Some (incoming, writes) =>
        let '(r, bytes, rest) := sys_readn incoming n in
        Ret ((r, bytes), set_sockets (<[fd := (rest, writes)]> (sockets w)) w)
    | None => Ret ((-1, []), w)
    end.

(** [write] on a descriptor: the return value. *)
Definition fd_write (fd : Z) (bytes : list Z) : io Z := fun w =>
  match sockets w !! fd with
  | Some (incoming, writes) =>
      let '(r, out, rest) := sys_write writes bytes in
      Ret (match r with inl n => n | inr _ => -1 end,
           {| dials := dials w; sockets := <[fd := (incoming, rest)]> (sockets w);
              next_fd := next_fd w; sent := sent w ++ [out]; heap := heap w;
              next_block := next_block w; mallocs := mallocs w; locked := locked w |})
  | None => Ret (-1, w)
  end.
End system.
