(* ===== verification/SocketFacts.v ===== *)
(** What the socket loops guarantee, and how the world's resources come back. *)
From stdpp Require Import gmap.
From S2P Require Import Prelude Sockets.
#[local] Open Scope Z_scope.

(** ** Reading *)

(** The reference: the peer's stream of bytes up to its end, and whether it ends
    in a failure of [read] rather than the peer's close. *)
Fixpoint stream (incoming : list read_event) : list Z * bool :=
  match incoming with
  | [] => ([], false)
  | ReadFail true :: incoming => stream incoming
  | ReadFail false :: _ => ([], true)
  | Data [] :: _ => ([], false)
  | Data bytes :: incoming => let '(more, failed) := stream incoming in (bytes ++ more, failed)
  end.

Lemma stream_data bytes incoming :
  bytes <> [] ->
  stream (Data bytes :: incoming) = (bytes ++ (stream incoming).1, (stream incoming).2).
Proof. intros Hb. destruct bytes; [done|]. cbn [stream]. by destruct (stream incoming). Qed.

Lemma readn_loop_done incoming nleft :
  nleft <= 0 -> readn_loop incoming nleft = (Some nleft, [], incoming).
Proof. intros Hn. destruct incoming; cbn; by rewrite (proj2 (Z.leb_le _ _) Hn). Qed.

(** The loop takes a prefix of the stream and leaves the rest. *)
Lemma readn_loop_spec incoming nleft :
  0 <= nleft ->
  let '(bytes, failed) := stream incoming in
  let '(r, got, rest) := readn_loop incoming nleft in
  if nleft <=? zlen bytes then
    r = Some 0 /\ got = take (Z.to_nat nleft) bytes /\
    stream rest = (drop (Z.to_nat nleft) bytes, failed)
  else got = bytes /\ r = (if failed then None else Some (nleft - zlen bytes)) /\
    (failed = false -> rest = []).
Proof.
  revert nleft. induction incoming as [|e incoming IH]; intros nleft Hn.
  { cbn. change (Z.of_nat 0) with 0. destruct (Z.leb_spec nleft 0); cbn.
    - by replace nleft with 0 by lia.
    - split_and!; [done|f_equal; lia|done]. }
  destruct (decide (nleft <= 0)) as [Hz|Hp].
  { replace nleft with 0 by lia. rewrite readn_loop_done by lia.
    destruct (stream (e :: incoming)) as [bytes failed] eqn:Hs. cbv beta iota.
    rewrite (proj2 (Z.leb_le 0 (zlen bytes))) by lia. done. }
  destruct e as [bytes|[]].
  - destruct bytes as [|b bytes].
    { cbn [stream readn_loop]. rewrite (proj2 (Z.leb_gt nleft 0)) by lia.
      change (zlen (@nil Z)) with 0. cbn [Z.eqb]. rewrite (proj2 (Z.leb_gt nleft 0)) by lia.
      split_and!; [done|f_equal; lia|done]. }
    rewrite stream_data by done. cbn [readn_loop]. set (chunk := b :: bytes) in *.
    rewrite (proj2 (Z.leb_gt nleft 0)) by lia. rewrite (proj2 (Z.eqb_neq _ _)) by (simpl; lia).
    specialize (IH (nleft - zlen chunk)). destruct (stream incoming) as [more failed] eqn:Hs.
    cbn [fst snd]. rewrite length_app, Nat2Z.inj_add.
    destruct (Z.leb_spec (zlen chunk) nleft) as [Hc|Hc].
    + specialize (IH ltac:(lia)). destruct (readn_loop incoming _) as [[r got] rest].
      destruct (Z.leb_spec (nleft - zlen chunk) (zlen more)) as [Hm|Hm];
        destruct (Z.leb_spec nleft (zlen chunk + zlen more)); try lia.
      * destruct IH as (-> & -> & ->).
        rewrite take_app_ge, drop_app_ge by lia.
        by replace (Z.to_nat nleft - length chunk)%nat with (Z.to_nat (nleft - zlen chunk)) by lia.
      * destruct IH as (-> & -> & Hrest). split_and!; [done| |done].
        destruct failed; [done|]. f_equal. lia.
    + destruct (Z.leb_spec nleft (zlen chunk + zlen more)); [|lia].
      rewrite take_app_le, drop_app_le by lia. split; [done|]. split; [done|].
      rewrite stream_data.
      * by rewrite Hs.
      * intros Hd. apply (f_equal length) in Hd. rewrite length_drop in Hd.
        change (length (@nil Z)) with 0%nat in Hd. lia.
  - cbn [stream readn_loop]. rewrite (proj2 (Z.leb_gt nleft 0)) by lia. by apply IH.
  - cbn [stream readn_loop]. rewrite (proj2 (Z.leb_gt nleft 0)) by lia.
    change (zlen (@nil Z)) with 0. rewrite (proj2 (Z.leb_gt nleft 0)) by lia. done.
Qed.

(** C32: [sys_readn] is the reference reader: whatever the chunks the stream
    arrives in and whatever the interruptions by signals, it delivers exactly
    the next [n] bytes, leaving the rest of the stream for the next call; when
    the stream is shorter it delivers all of it and returns its length, or -1 if
    [read] failed. It never stores more than [n] bytes. *)
Theorem sys_readn_reference (incoming : list read_event) (n : Z) (Hn : 0 <= n) :
  let '(bytes, failed) := stream incoming in
  let '(ret, got, rest) := sys_readn incoming n in
  zlen got <= n /\
  if n <=? zlen bytes then
    ret = n /\ got = take (Z.to_nat n) bytes /\ stream rest = (drop (Z.to_nat n) bytes, failed)
  else got = bytes /\ ret = (if failed then -1 else zlen bytes) /\ (failed = false -> rest = []).
Proof.
  pose proof (readn_loop_spec incoming n Hn) as H. unfold sys_readn.
  destruct (stream incoming) as [bytes failed], (readn_loop incoming n) as [[r got] rest].
  destruct (Z.leb_spec n (zlen bytes)).
  - destruct H as (-> & -> & ->). rewrite length_take. split_and!; (done || lia).
  - destruct H as (-> & -> & Hrest). split_and!; [lia|done| |done]. destruct failed; lia.
Qed.

Lemma sys_readn_reference_witness :
  let incoming := [Data [1; 2]; ReadFail true; Data [3; 4; 5]; ReadFail false] in
  exists rest, sys_readn incoming 4 = (4, [1; 2; 3; 4], rest) /\ stream rest = ([5], true).
Proof.
  cbn zeta.
  pose proof (sys_readn_reference [Data [1; 2]; ReadFail true; Data [3; 4; 5]; ReadFail false] 4
    ltac:(lia)) as H.
  destruct (sys_readn _ 4) as [[ret got] rest] eqn:Hr. vm_compute in Hr.
  injection Hr as <- <- <-. exists [Data [5]; ReadFail false]. split; [reflexivity|].
  exact (proj2 (proj2 (proj2 H))).
Defined.
