(* ===== verification/PtcClient.v ===== *)
(** The client of the sensor's command protocol: [tcp_command_client.c].

    A [TC_Command *] is the record it points to (the callers pass the address
    of a local), a [unsigned char *] payload a pointer into the heap of
    [Sockets].  [stack] is what the local [buffer] of [tcpCommandReadCommand]
    held before. Log messages are left out. *)
From stdpp Require Import gmap.
From S2P Require Import Prelude Sockets.
#[local] Open Scope Z_scope.

(** ** Data *)

Definition PTC_COMMAND_GET_CALIBRATION : Z := 0.
Definition PTC_COMMAND_SET_CALIBRATION : Z := 1.
Definition PTC_COMMAND_RESET_CALIBRATION : Z := 3.
Definition PTC_COMMAND_GET_LIDAR_CALIBRATION : Z := 5.

Definition PTC_ERROR_NO_ERROR : Z := 0.
Definition PTC_ERROR_BAD_PARAMETER : Z := 1.
Definition PTC_ERROR_CONNECT_SERVER_FAILED : Z := 2.
Definition PTC_ERROR_TRANSFER_FAILED : Z := 3.

Record TcpCommandHeader := { hd_cmd : Z; hd_ret_code : Z; hd_len : Z }.

Record TC_Command := {
  header : TcpCommandHeader;
  payload : option nat;
  ret_data : option nat;
  ret_size : Z;
}.

(** [ip] is the whole array of 256 bytes. *)
Record TcpCommandClient := { client_ip : list Z; client_port : Z }.

(** [memset] to zero and the three assignments every command starts with. *)
Definition new_command (cmd len : Z) (data : option nat) : TC_Command :=
  {| header := {| hd_cmd := cmd; hd_ret_code := 0; hd_len := len |}; payload := data;
     ret_data := None; ret_size := 0 |}.

(** ** Framing *)

(** The six bytes after the magic; the length is assembled as an [int] and
    stored as an [unsigned int]. *)
Definition tcpCommandHeaderParser (buffer : list Z) : outcome Empty_set TcpCommandHeader :=
  cmd ← arr_get buffer 0;
  ret_code ← arr_get buffer 1;
  b2 ← arr_get buffer 2;
  b3 ← arr_get buffer 3;
  b4 ← arr_get buffer 4;
  b5 ← arr_get buffer 5;
  Ret {| hd_cmd := cmd; hd_ret_code := ret_code;
         hd_len := u32 (i32 (Z.lor (Z.lor (Z.lor (Z.shiftl (Z.land b2 0xff) 24)
           (Z.shiftl (Z.land b3 0xff) 16)) (Z.shiftl (Z.land b4 0xff) 8)) (Z.land b5 0xff))) |}.

Definition TcpCommand_buildHeader (cmd : TC_Command) : list Z :=
  [0x47; 0x74; u8 (hd_cmd (header cmd)); u8 (hd_ret_code (header cmd));
   Z.land (Z.shiftr (hd_len (header cmd)) 24) 0xff;
   Z.land (Z.shiftr (hd_len (header cmd)) 16) 0xff;
   Z.land (Z.shiftr (hd_len (header cmd)) 8) 0xff;
   Z.land (Z.shiftr (hd_len (header cmd)) 0) 0xff].

(** A computation without effects in [io]. *)
Definition lift {A} (m : outcome Empty_set A) : io A := fun w =>
  match m with Ret a => Ret (a, w) | Err e => Err e | Undef => Undef end.

Section client.
Context (stack : list Z).

(** The payload read into its block; [None] is the return of -1. *)
Definition fill_payload (connfd : Z) (h : TcpCommandHeader) (data : option nat)
    : io (option (TcpCommandHeader * option nat)) :=
  '(ret, bytes) ← fd_readn connfd (i32 (hd_len h));
  (if bool_decide (bytes = []) then mret () else store data 0 (Some <$> bytes));;
  if negb (u32 ret =? hd_len h) then free data;; mret None
  else mret (Some (h, data)).

(** What follows the header. *)
Definition read_payload (connfd : Z) (h : TcpCommandHeader)
    : io (option (TcpCommandHeader * option nat)) :=
  data ← (if 0 <? hd_len h then malloc (hd_len h) else mret None);
  if (0 <? hd_len h) && bool_decide (data = None) then mret None
  else fill_payload connfd h data.

(** The feedback: header and payload. *)
Definition tcpCommandReadCommand (connfd : Z) : io (option (TcpCommandHeader * option nat)) :=
  '(ret, got) ← fd_readn connfd 2;
  let buffer := got ++ drop (length got) stack in
  if ret <=? 0 then mret None
  else
    b0 ← lift (arr_get buffer 0);
    b1 ← lift (arr_get buffer 1);
    if negb (b0 =? 0x47) || negb (b1 =? 0x74) then mret None
    else
      '(ret, got) ← fd_readn connfd 6;
      if negb (ret =? 6) then mret None
      else
        h ← lift (tcpCommandHeaderParser (got ++ drop (2 + length got) stack));
        read_payload connfd h.

(** The payload of the request, when there is one; [true] when it went out. *)
Definition write_payload (fd : Z) (cmd : TC_Command) : io bool :=
  if (0 <? hd_len (header cmd)) && negb (bool_decide (payload cmd = None)) then
    block ← load (payload cmd);
    bytes ← take_bytes (hd_len (header cmd)) block;
    ret ← fd_write fd bytes;
    mret (u32 ret =? hd_len (header cmd))
  else mret true.

(** Every way out of [tcpCommandClient_SendCmd] once the socket is open. *)
Definition finish (fd code : Z) (cmd : TC_Command) : io (Z * TC_Command) :=
  socket_close fd;; mutex_unlock;; mret (code, cmd).

Definition exchange (fd : Z) (cmd : TC_Command) : io (Z * TC_Command) :=
  let buffer := TcpCommand_buildHeader cmd in
  ret ← fd_write fd buffer;
  if negb (ret =? zlen buffer) then finish fd PTC_ERROR_TRANSFER_FAILED cmd
  else
    ok ← write_payload fd cmd;
    if negb ok then finish fd PTC_ERROR_TRANSFER_FAILED cmd
    else
      feedBack ← tcpCommandReadCommand fd;
      match feedBack with
      | None => finish fd PTC_ERROR_TRANSFER_FAILED cmd
      | Some (h, data) =>
          finish fd PTC_ERROR_NO_ERROR
            {| header := {| hd_cmd := hd_cmd (header cmd); hd_ret_code := hd_ret_code h;
                            hd_len := hd_len (header cmd) |};
               payload := payload cmd; ret_data := data; ret_size := hd_len h |}
      end.

(** The first test wants both pointers null; [cmd] never is. *)
Definition tcpCommandClient_SendCmd (client : option TcpCommandClient) (cmd : TC_Command)
    : io (Z * TC_Command) :=
  if negb (hd_len (header cmd) =? 0) && bool_decide (payload cmd = None)
  then mret (PTC_ERROR_BAD_PARAMETER, cmd)
  else
    match client with
    | None => undef
    | Some client =>
        mutex_lock;;
        fd ← tcp_open (client_ip client);
        if fd <? 0 then mutex_unlock;; mret (PTC_ERROR_CONNECT_SERVER_FAILED, cmd)
        else exchange fd cmd
    end.

(** ** The interface *)

(** [strlen] of an array: it must hold a terminator. *)
Fixpoint strlen (bytes : list Z) : outcome Empty_set Z :=
  match bytes with
  | [] => Undef
  | b :: bytes => if b =? 0 then Ret 0 else n ← strlen bytes; Ret (n + 1)
  end.

(** The structure takes 320 bytes (Linux, x86-64); its block is never freed.
    [strncpy] of [strlen(ip)] bytes writes no terminator: the zeroed array
    supplies it, up to 255 bytes. *)
Definition TcpCommandClientNew (ip : option (list Z)) (port : Z)
    : io (option TcpCommandClient) :=
  match ip with
  | None => mret None
  | Some ip =>
      client ← malloc 320;
      match client with
      | None => mret None
      | Some _ =>
          n ← lift (strlen ip);
          if decide (n <= 256) then
            mret (Some {| client_ip := take (Z.to_nat n) ip ++ replicate (Z.to_nat (256 - n)) 0;
                          client_port := port |})
          else undef
      end
  end.

Definition strdup (buffer : list Z) : io (option nat) :=
  n ← lift (strlen buffer);
  p ← malloc (n + 1);
  match p with
  | None => mret None
  | Some b => store (Some b) 0 (Some <$> (take (Z.to_nat n) buffer ++ [0]));; mret (Some b)
  end.

Definition TcpCommandSetCalibration (handle : option TcpCommandClient)
    (buffer : option (list Z)) (len : Z) : io Z :=
  match handle, buffer with
  | Some client, Some buffer =>
      if len <=? 0 then mret PTC_ERROR_BAD_PARAMETER
      else
        data ← strdup buffer;
        '(errorCode, cmd) ← tcpCommandClient_SendCmd (Some client)
          (new_command PTC_COMMAND_SET_CALIBRATION len data);
        if negb (errorCode =? PTC_ERROR_NO_ERROR) then free (payload cmd);; mret errorCode
        else free (payload cmd);; free (ret_data cmd);; mret (hd_ret_code (header cmd))
  | _, _ => mret PTC_ERROR_BAD_PARAMETER
  end.

(** What the two reading commands do with the feedback: a copy with a
    terminator, handed out through [*buffer] and [*len]. [memcpy] from a null
    pointer is undefined even for no bytes. *)
Definition copy_feedback (cmd : TC_Command) : io (Z * option (option nat * Z)) :=
  ret_str ← malloc (u32 (ret_size cmd + 1));
  block ← load (ret_data cmd);
  bytes ← take_bytes (ret_size cmd) block;
  store ret_str 0 (Some <$> bytes);;
  store ret_str (ret_size cmd) [Some 0];;
  free (ret_data cmd);;
  mret (hd_ret_code (header cmd), Some (ret_str, u32 (ret_size cmd + 1))).

(** The result and, when they were assigned, [*buffer] and [*len]. *)
Definition TcpCommandGetCalibration (handle : option TcpCommandClient) (buffer_len : bool)
    : io (Z * option (option nat * Z)) :=
  match handle, buffer_len with
  | Some client, true =>
      '(errorCode, cmd) ← tcpCommandClient_SendCmd (Some client)
        (new_command PTC_COMMAND_GET_CALIBRATION 0 None);
      if negb (errorCode =? PTC_ERROR_NO_ERROR) then mret (errorCode, None)
      else copy_feedback cmd
  | _, _ => mret (PTC_ERROR_BAD_PARAMETER, None)
  end.

Definition TcpCommandGetLidarCalibration (handle : option TcpCommandClient) (buffer_len : bool)
    : io (Z * option (option nat * Z)) :=
  match handle, buffer_len with
  | Some client, true =>
      '(errorCode, cmd) ← tcpCommandClient_SendCmd (Some client)
        (new_command PTC_COMMAND_GET_LIDAR_CALIBRATION 0 None);
      if negb (errorCode =? PTC_ERROR_NO_ERROR) then mret (errorCode, None)
      else copy_feedback cmd
  | _, _ => mret (PTC_ERROR_BAD_PARAMETER, None)
  end.

Definition TcpCommandResetCalibration (handle : option TcpCommandClient) : io Z :=
  match handle with
  | Some client =>
      '(errorCode, cmd) ← tcpCommandClient_SendCmd (Some client)
        (new_command PTC_COMMAND_RESET_CALIBRATION 0 None);
      if negb (errorCode =? PTC_ERROR_NO_ERROR) then mret errorCode
      else free (ret_data cmd);; mret (hd_ret_code (header cmd))
  | None => mret PTC_ERROR_BAD_PARAMETER
  end.
End client.
