(* ===== verification/PtcFacts.v ===== *)
(** The command client against an abstract exchange.

    [wp m Q w]: from the world [w], [m] runs without a fault and ends with a
    result and a world satisfying [Q]. *)
From stdpp Require Import gmap.
From S2P Require Import Prelude Sockets SocketFacts PtcClient.
#[local] Open Scope Z_scope.

Definition wp {A} (m : io A) (Q : A -> World -> Prop) (w : World) : Prop :=
  exists a w', m w = Ret (a, w') /\ Q a w'.

Section wp_rules.
Context {A B : Type}.
Implicit Types (Q : A -> World -> Prop) (R : B -> World -> Prop).

Lemma wp_bind (m : io A) (f : A -> io B) R w :
  wp m (fun a => wp (f a) R) w -> wp (m ≫= f) R w.
Proof.
  intros (a & w1 & Hm & b & w2 & Hf & HR). exists b, w2. split; [|done].
  unfold mbind, io_bind. by rewrite Hm.
Qed.

Lemma wp_ret (a : A) Q w : Q a w -> wp (mret a) Q w.
Proof. intros HQ. by exists a, w. Qed.

Lemma wp_mono (m : io A) Q Q' w : (forall a w', Q a w' -> Q' a w') -> wp m Q w -> wp m Q' w.
Proof. intros HQ (a & w' & Hm & Ha). exists a, w'. auto. Qed.

Lemma wp_lift (m : outcome Empty_set A) a Q w : m = Ret a -> Q a w -> wp (lift m) Q w.
Proof. intros -> HQ. by exists a, w. Qed.
End wp_rules.

(** ** Worlds *)

(** Descriptors and blocks are handed out in order. *)
Record world_ok (w : World) : Prop := {
  ok_fd : 0 <= next_fd w;
  ok_sockets : forall fd, next_fd w <= fd -> sockets w !! fd = None;
  ok_heap : forall b, (next_block w <= b)%nat -> heap w !! b = None;
}.

(** What a command gives back: every socket closed, the mutex released. *)
Record restored (w w' : World) : Prop := {
  re_ok : world_ok w';
  re_sockets : sockets w' = sockets w;
  re_locked : locked w' = false;
}.

(** During a command: the mutex is held and [fd] is the one more socket. *)
Record online (w : World) (fd : Z) (inc : list read_event) (wr : list write_event) (w' : World)
    : Prop := {
  on_ok : world_ok w';
  on_fresh : sockets w !! fd = None;
  on_sockets : sockets w' = <[fd := (inc, wr)]> (sockets w);
  on_locked : locked w' = true;
}.

(** What a step of the exchange leaves alone. *)
Definition same_memory (w w' : World) : Prop :=
  heap w' = heap w /\ mallocs w' = mallocs w /\ sent w' = sent w.

Section steps.
Implicit Types (w : World) (fd : Z).

Lemma world_ok_sockets fd c w :
  world_ok w -> is_Some (sockets w !! fd) -> world_ok (set_sockets (<[fd := c]> (sockets w)) w).
Proof.
  intros [Hn Hs Hh] [c' Hfd]. split; cbn; [done| |done].
  intros fd' Hfd'. rewrite lookup_insert_ne; [by apply Hs|].
  intros ->. rewrite Hs in Hfd by done. done.
Qed.

Lemma wp_readn w0 w fd n inc wr (Q : Z * list Z -> World -> Prop) :
  online w0 fd inc wr w -> 0 < n ->
  (forall w' ret got rest, sys_readn inc n = (ret, got, rest) ->
     online w0 fd rest wr w' -> same_memory w w' -> next_block w' = next_block w ->
     Q (ret, got) w') ->
  wp (fd_readn fd n) Q w.
Proof.
  intros Hon Hn HQ. unfold wp, fd_readn. destruct (Z.leb_spec n 0); [lia|].
  rewrite (on_sockets _ _ _ _ _ Hon), lookup_insert_eq.
  destruct (sys_readn inc n) as [[ret got] rest] eqn:Hr.
  eexists _, _. split; [reflexivity|]. apply (HQ _ ret got rest); try done.
  destruct Hon as [Hok Hfr Hs Hl]. split; cbn; try done.
  - rewrite <- Hs. apply world_ok_sockets; [done|]. rewrite Hs, lookup_insert_eq. eauto.
  - by rewrite insert_insert_eq.
Qed.

Lemma wp_readn_none w fd n (Q : Z * list Z -> World -> Prop) :
  n <= 0 -> Q (0, []) w -> wp (fd_readn fd n) Q w.
Proof.
  intros Hn HQ. unfold wp, fd_readn. destruct (Z.leb_spec n 0); [|lia]. eauto.
Qed.

Lemma wp_write w0 w fd bytes inc wr (Q : Z -> World -> Prop) :
  online w0 fd inc wr w ->
  (forall w' r out rest, sys_write wr bytes = (r, out, rest) ->
     online w0 fd inc rest w' -> heap w' = heap w -> mallocs w' = mallocs w ->
     next_block w' = next_block w -> sent w' = sent w ++ [out] ->
     Q (match r with inl n => n | inr _ => -1 end) w') ->
  wp (fd_write fd bytes) Q w.
Proof.
  intros Hon HQ. unfold wp, fd_write.
  rewrite (on_sockets _ _ _ _ _ Hon), lookup_insert_eq.
  destruct (sys_write wr bytes) as [[r out] rest] eqn:Hr.
  eexists _, _. split; [reflexivity|]. eapply HQ; try done.
  destruct Hon as [Hok Hfr Hs Hl].
  pose proof (world_ok_sockets fd (inc, rest) w Hok ltac:(rewrite Hs, lookup_insert_eq; eauto)) as Hok'.
  rewrite Hs in Hok'. split; cbn; try done.
  - destruct Hok'. by split.
  - by rewrite insert_insert_eq.
Qed.

Lemma wp_finish w0 w fd inc wr code cmd (Q : Z * TC_Command -> World -> Prop) :
  online w0 fd inc wr w ->
  (forall w', restored w0 w' -> same_memory w w' -> Q (code, cmd) w') ->
  wp (finish fd code cmd) Q w.
Proof.
  intros [Hok Hfr Hs Hl] HQ. unfold finish.
  apply wp_bind. eexists _, _. split; [reflexivity|].
  apply wp_bind. unfold wp at 1, mutex_unlock. cbn [locked set_sockets]. rewrite Hl.
  eexists _, _. split; [reflexivity|]. apply wp_ret, HQ; [|done].
  assert (delete fd (sockets w) = sockets w0) as Hd
    by (rewrite Hs; by apply delete_insert_id).
  split; cbn; try done. destruct Hok as [Hn Hk Hh]. split; cbn; try done.
  intros fd' Hfd'. rewrite Hd.
  pose proof (Hk fd' Hfd') as H. rewrite Hs in H. by apply lookup_insert_None in H as [? _].
Qed.

Lemma wp_free_block w b block (Q : () -> World -> Prop) :
  heap w !! b = Some block -> Q () (set_heap (delete b (heap w)) w) -> wp (free (Some b)) Q w.
Proof. intros Hb HQ. unfold wp, free. rewrite Hb. eauto. Qed.

Lemma wp_malloc w n (Q : option nat -> World -> Prop) :
  world_ok w ->
  (forall w', world_ok w' -> sockets w' = sockets w -> locked w' = locked w -> sent w' = sent w ->
     mallocs w' = tail (mallocs w) ->
     heap w' = heap w -> mallocs w <> [] -> Q None w') ->
  (forall w' b, world_ok w' -> sockets w' = sockets w -> locked w' = locked w ->
     sent w' = sent w -> mallocs w' = tail (mallocs w) -> heap w !! b = None ->
     heap w' = <[b := replicate (Z.to_nat n) None]> (heap w) -> Q (Some b) w') ->
  wp (malloc n) Q w.
Proof.
  intros [Hn Hs Hh] Hfail Hok. unfold wp, malloc. eexists _, _. split; [reflexivity|].
  destruct (default true (head (mallocs w))) eqn:Hm.
  - cbn [pred next_block]. apply Hok; try done; [|by apply Hh]. split; cbn; try done.
    intros b Hb. rewrite lookup_insert_ne by lia. apply Hh. lia.
  - apply Hfail; try done. intros Hnil. by rewrite Hnil in Hm.
Qed.
End steps.

(** ** The reply *)

(** The reference decoder of a peer's stream: return code and payload of a
    complete reply. *)
Definition parse_reply (bytes : list Z) : option (Z * list Z) :=
  match bytes with
  | m0 :: m1 :: _ :: ret_code :: l3 :: l2 :: l1 :: l0 :: rest =>
      let n := le_combine [l0; l1; l2; l3] in
      if (m0 =? 0x47) && (m1 =? 0x74) && (n <? 2 ^ 31) && (n <=? zlen rest)
      then Some (ret_code, take (Z.to_nat n) rest) else None
  | _ => None
  end.

Lemma header_length b2 b3 b4 b5 :
  is_byte b2 -> is_byte b3 -> is_byte b4 -> is_byte b5 ->
  u32 (i32 (Z.lor (Z.lor (Z.lor (Z.shiftl (Z.land b2 0xff) 24) (Z.shiftl (Z.land b3 0xff) 16))
    (Z.shiftl (Z.land b4 0xff) 8)) (Z.land b5 0xff))) = le_combine [b5; b4; b3; b2].
Proof.
  intros H2 H3 H4 H5. rewrite !byte_land_ff by done. rewrite <- le_combine_lor4 by done.
  assert (forall a b c d, Z.lor (Z.lor (Z.lor a b) c) d = Z.lor (Z.lor (Z.lor d c) b) a) as ->.
  { intros. rewrite (Z.lor_comm _ d), (Z.lor_comm _ c), (Z.lor_comm a b), !Z.lor_assoc. done. }
  rewrite uwrap_swrap by lia. rewrite le_combine_lor4 by done. apply uwrap_small.
  pose proof (le_combine_range [b5; b4; b3; b2]) as H. simpl length in H.
  change (256 ^ Z.of_nat 4) with (2 ^ 32) in H. apply H. solve_Forall.
Qed.

Lemma header_parsed c r l3 l2 l1 l0 more :
  Forall is_byte [l3; l2; l1; l0] ->
  tcpCommandHeaderParser (c :: r :: l3 :: l2 :: l1 :: l0 :: more) =
  Ret {| hd_cmd := c; hd_ret_code := r; hd_len := le_combine [l0; l1; l2; l3] |}.
Proof.
  rewrite !Forall_cons. intros (H3 & H2 & H1 & H0 & _).
  rewrite <- header_length by done. reflexivity.
Qed.

(** What [tcpCommandReadCommand] leaves: nothing, or the payload in a new block
    of its own. *)
Definition reply_stored (w w' : World) (payload : list Z) (data : option nat) : Prop :=
  match data with
  | None => payload = [] /\ heap w' = heap w
  | Some b => payload <> [] /\ heap w !! b = None /\ heap w' = <[b := Some <$> payload]> (heap w)
  end.

Section reply.
Context (stack : list Z) (Hstack : 8 <= zlen stack).

Lemma wp_free_fresh w b (h : gmap nat (list (option Z))) (block : list (option Z))
    (Q : () -> World -> Prop) :
  h !! b = None -> heap w = <[b := block]> h ->
  Q () (set_heap h w) -> wp (free (Some b)) Q w.
Proof.
  intros Hb Hh HQ. apply (wp_free_block _ _ block); [by rewrite Hh, lookup_insert_eq|].
  by rewrite Hh, delete_insert_id.
Qed.

Lemma wp_store_whole w b (h : gmap nat (list (option Z))) (old bytes : list (option Z))
    (Q : () -> World -> Prop) :
  heap w = <[b := old]> h -> zlen bytes <= zlen old ->
  Q () (set_heap (<[b := bytes ++ drop (length bytes) old]> h) w) ->
  wp (store (Some b) 0 bytes) Q w.
Proof.
  intros Hh Hl HQ. unfold wp, store. rewrite Hh, lookup_insert_eq, decide_True by lia.
  eexists _, _. split; [reflexivity|]. by rewrite insert_insert_eq.
Qed.

Lemma online_set_heap w0 fd inc wr w h :
  online w0 fd inc wr w -> (forall b, (next_block w <= b)%nat -> h !! b = None) ->
  online w0 fd inc wr (set_heap h w).
Proof. intros [[Hn Hs Hh] Hf Hk Hl] Hb. split; cbn; try done. Qed.

Lemma online_heap_fresh w0 fd inc wr w b h :
  online w0 fd inc wr w -> (exists block, heap w = <[b := block]> h) ->
  forall b', (next_block w <= b')%nat -> h !! b' = None.
Proof.
  intros Hon [block Hh] b' Hb'. pose proof (ok_heap _ (on_ok _ _ _ _ _ Hon) b' Hb') as H.
  rewrite Hh in H. by apply lookup_insert_None in H as [? _].
Qed.

(** The payload is thrown away. *)
Lemma wp_drop_block {A} w0 fd inc wr w b h (a : A) (Q : A -> World -> Prop) :
  online w0 fd inc wr w -> h !! b = None -> (exists block, heap w = <[b := block]> h) ->
  (online w0 fd inc wr (set_heap h w) -> Q a (set_heap h w)) ->
  wp (free (Some b);; mret a) Q w.
Proof.
  intros Hon Hb [block Hh] HQ. apply wp_bind, (wp_free_fresh _ _ _ _ _ Hb Hh), wp_ret, HQ.
  apply online_set_heap; [done|]. eapply online_heap_fresh; eauto.
Qed.

(** The bytes read are stored at the start of the block. *)
Lemma wp_store_read w0 fd inc wr w b h n bytes (Q : () -> World -> Prop) :
  online w0 fd inc wr w -> heap w = <[b := replicate n None]> h -> (length bytes <= n)%nat ->
  (forall w', online w0 fd inc wr w' -> sent w' = sent w -> mallocs w' = mallocs w ->
     heap w' = <[b := (Some <$> bytes) ++ replicate (n - length bytes) None]> h -> Q () w') ->
  wp (if bool_decide (bytes = []) then mret () else store (Some b) 0 (Some <$> bytes)) Q w.
Proof.
  intros Hon Hh Hl HQ. case_bool_decide as Hg.
  - subst bytes. apply wp_ret, HQ; try done. cbn. by rewrite Nat.sub_0_r.
  - eapply wp_store_whole; [exact Hh|rewrite length_fmap, length_replicate; lia|].
    rewrite length_fmap, drop_replicate. apply HQ; try done.
    apply online_set_heap; [done|]. intros b' Hb'.
    pose proof (ok_heap _ (on_ok _ _ _ _ _ Hon) b' Hb') as H.
    rewrite Hh in H. apply lookup_insert_None in H as [H Hne]. by rewrite lookup_insert_ne.
Qed.

Definition reply_complete (h : TcpCommandHeader) (bytes : list Z) : Prop :=
  hd_len h < 2 ^ 31 /\ hd_len h <= zlen bytes.

Lemma wp_fill_block w0 fd inc wr w b h h0
    (Q : option (TcpCommandHeader * option nat) -> World -> Prop) :
  online w0 fd inc wr w -> 0 < hd_len h < 2 ^ 32 -> h0 !! b = None ->
  heap w = <[b := replicate (Z.to_nat (hd_len h)) None]> h0 ->
  let bytes := (stream inc).1 in
  (forall w' rest, online w0 fd rest wr w' -> heap w' = h0 -> sent w' = sent w ->
     mallocs w' = mallocs w -> ~ reply_complete h bytes -> Q None w') ->
  (forall w' rest, online w0 fd rest wr w' -> reply_complete h bytes ->
     heap w' = <[b := Some <$> take (Z.to_nat (hd_len h)) bytes]> h0 -> sent w' = sent w ->
     mallocs w' = mallocs w -> Q (Some (h, Some b)) w') ->
  wp (fill_payload fd h (Some b)) Q w.
Proof.
  intros Hon Hlen Hfresh Hh bytes Hnone Hsome. unfold fill_payload. apply wp_bind.
  destruct (decide (hd_len h < 2 ^ 31)) as [Hsmall|Hbig].
  - rewrite swrap_small by lia.
    eapply wp_readn; [done|lia|]. intros w2 ret got rest Hr Hon2 (Hh2 & Hm2 & Hse2) _.
    pose proof (sys_readn_reference inc (hd_len h) ltac:(lia)) as Href. rewrite Hr in Href.
    subst bytes. destruct (stream inc) as [bs failed]. cbn [fst] in *.
    destruct Href as [Hgot Href]. apply wp_bind.
    eapply wp_store_read; [done|by rewrite Hh2, Hh|lia|]. intros w3 Hon3 Hse3 Hm3 Hh3.
    destruct (Z.leb_spec (hd_len h) (zlen bs)) as [Hle|Hgt].
    + destruct Href as (-> & -> & _). rewrite uwrap_small, Z.eqb_refl by lia. cbn [negb].
      apply wp_ret, (Hsome _ rest); [done|done| |congruence|congruence].
      rewrite Hh3, length_take. replace (_ - _)%nat with 0%nat by lia. by rewrite app_nil_r.
    + destruct Href as (-> & -> & _). rewrite (proj2 (Z.eqb_neq _ _)).
      * cbn [negb]. eapply wp_drop_block; [done|done|eauto|]. intros Hon4.
        apply (Hnone _ rest); [done|done|cbn; congruence|cbn; congruence|]. intros [_ ?]; lia.
      * destruct failed; [change (u32 (-1)) with (2 ^ 32 - 1); lia|].
        rewrite uwrap_small by lia. lia.
  - assert (swrap 32 (hd_len h) <= 0) as Hneg.
    { unfold swrap. change (2 ^ (32 - 1)) with (2 ^ 31).
      replace (hd_len h + 2 ^ 31) with (hd_len h - 2 ^ 31 + 1 * 2 ^ 32) by lia.
      rewrite Z_mod_plus_full, Z.mod_small by lia. lia. }
    apply wp_readn_none; [done|]. rewrite bool_decide_true by done. apply wp_bind, wp_ret.
    change (u32 0) with 0. rewrite (proj2 (Z.eqb_neq 0 _)) by lia. cbn [negb].
    eapply wp_drop_block; [done|done|eauto|]. intros Hon4.
    apply (Hnone _ inc); try done. intros [? _]. lia.
Qed.

Lemma wp_read_payload w0 fd inc wr w h (Q : option (TcpCommandHeader * option nat) -> World -> Prop) :
  online w0 fd inc wr w -> 0 <= hd_len h < 2 ^ 32 ->
  let bytes := (stream inc).1 in
  (forall w' rest, online w0 fd rest wr w' -> heap w' = heap w -> sent w' = sent w ->
     (mallocs w = [] -> ~ reply_complete h bytes) -> Q None w') ->
  (forall w' rest data, online w0 fd rest wr w' -> reply_complete h bytes ->
     reply_stored w w' (take (Z.to_nat (hd_len h)) bytes) data -> sent w' = sent w ->
     (mallocs w = [] -> mallocs w' = []) -> Q (Some (h, data)) w') ->
  wp (read_payload fd h) Q w.
Proof.
  intros Hon Hlen bytes Hnone Hsome. unfold read_payload.
  destruct (Z.ltb_spec 0 (hd_len h)) as [Hpos|Hz]; apply wp_bind.
  - apply wp_malloc; [by destruct Hon| |].
    + intros w' Hok Hs Hl Hse Hm Hh Hne. cbn [andb]. rewrite bool_decide_true by done.
      apply wp_ret, (Hnone _ inc); try done. destruct Hon. split; try done; congruence.
    + intros w1 b Hok Hs Hl Hse Hm Hfresh Hh. cbn [andb]. rewrite bool_decide_false by done.
      assert (online w0 fd inc wr w1) as Hon1 by (destruct Hon; split; try done; congruence).
      eapply wp_fill_block; [exact Hon1|lia|done|done| |].
      * intros w2 rest Hon2 Hh2 Hse2 _ Hc. apply (Hnone _ rest); [done|done|congruence|done].
      * intros w2 rest Hon2 Hc Hh2 Hse2 Hm2.
        apply (Hsome _ rest); [done|done| |congruence|by intros Hnil; rewrite Hm2, Hm, Hnil].
        split; [|by split]. intros Hnil. apply (f_equal length) in Hnil.
        rewrite length_take in Hnil. destruct Hc as [_ Hc]. fold bytes in Hc.
        change (length (@nil Z)) with 0%nat in Hnil. lia.
  - apply wp_ret. assert (hd_len h = 0) as Hl0 by lia. cbn [andb]. unfold fill_payload.
    apply wp_bind. rewrite Hl0. apply wp_readn_none; [done|]. rewrite bool_decide_true by done.
    apply wp_bind, wp_ret. cbn. apply wp_ret, (Hsome _ inc); try done.
    + unfold reply_complete. lia.
    + by rewrite Hl0.
Qed.

Lemma parse_short bytes : zlen bytes < 8 -> parse_reply bytes = None.
Proof. intros H. do 8 (destruct bytes as [|? bytes]; [done|]). simpl length in H. lia. Qed.

(** A reply cut off before the end of its header. *)
Lemma wp_after_end w0 fd wr w (Q : Z * list Z -> World -> Prop) n :
  online w0 fd [] wr w -> 0 < n ->
  (forall w', online w0 fd [] wr w' -> same_memory w w' -> Q (0, []) w') ->
  wp (fd_readn fd n) Q w.
Proof.
  intros Hon Hn HQ. eapply wp_readn; [done|done|]. intros w' ret got rest Hr Hon' Hm _.
  unfold sys_readn in Hr. cbn [readn_loop] in Hr. rewrite (proj2 (Z.leb_gt n 0)) in Hr by lia.
  injection Hr as <- <- <-. rewrite Z.sub_diag. by apply HQ.
Qed.

Definition feedback_post w0 fd wr w (bytes : list Z) (r : option (TcpCommandHeader * option nat))
    (w' : World) : Prop :=
  exists rest, online w0 fd rest wr w' /\ sent w' = sent w /\
  match r with
  | None => heap w' = heap w /\ (mallocs w = [] -> parse_reply bytes = None)
  | Some (h, data) => exists payload,
      parse_reply bytes = Some (hd_ret_code h, payload) /\ hd_len h = zlen payload /\
      reply_stored w w' payload data /\ (mallocs w = [] -> mallocs w' = [])
  end.

(** The header and what follows it. *)
Lemma wp_read_body w0 fd inc wr w m0 m1 bytes :
  online w0 fd inc wr w -> Forall is_byte bytes -> (stream inc).1 = bytes ->
  (m0 =? 0x47) && (m1 =? 0x74) = true ->
  wp ('(ret, got) ← fd_readn fd 6;
      if negb (ret =? 6) then mret None
      else
        h ← lift (tcpCommandHeaderParser (got ++ drop (2 + length got) stack));
        read_payload fd h)
    (feedback_post w0 fd wr w (m0 :: m1 :: bytes)) w.
Proof.
  intros Hon Hb Hs Hmagic. apply wp_bind. eapply wp_readn; [done|lia|].
  intros w1 ret got rest Hr Hon1 (Hh1 & Hm1 & Hse1) _.
  pose proof (sys_readn_reference inc 6 ltac:(lia)) as Href. rewrite Hr in Href.
  destruct (stream inc) as [bs failed]. cbn [fst] in Hs. subst bs. destruct Href as [_ Href].
  destruct (Z.leb_spec 6 (zlen bytes)) as [H6|H6].
  - destruct Href as (-> & -> & Hrest). cbn [Z.eqb Pos.eqb negb].
    do 6 (destruct bytes as [|? bytes]; [simpl length in H6; lia|]).
    cbn [take drop Z.to_nat Pos.to_nat Pos.iter_op Nat.add] in Hrest. cbn in Hrest.
    rewrite !Forall_cons in Hb. destruct Hb as (H1 & H2 & H3 & H4 & H5 & H7 & Hb).
    apply wp_bind. eapply wp_lift; [apply header_parsed; solve_Forall|].
    set (h := {| hd_cmd := _ |}).
    pose proof (le_combine_range [z4; z3; z2; z1] ltac:(solve_Forall)) as Hn.
    change (256 ^ Z.of_nat (length [z4; z3; z2; z1])) with (2 ^ 32) in Hn.
    assert (parse_reply (m0 :: m1 :: z :: z0 :: z1 :: z2 :: z3 :: z4 :: bytes) =
      if (hd_len h <? 2 ^ 31) && (hd_len h <=? zlen bytes)
      then Some (z0, take (Z.to_nat (hd_len h)) bytes) else None) as Hreply
      by (unfold parse_reply; by rewrite Hmagic, andb_true_l).
    unfold feedback_post. rewrite Hreply. clear Hreply.
    assert ((stream rest).1 = bytes) as Hrest1 by by rewrite Hrest.
    eapply wp_read_payload; [exact Hon1|exact Hn| |]; rewrite Hrest1; unfold reply_complete.
    + intros w2 rest2 Hon2 Hh2 Hse2 Hc. exists rest2. split_and!; try congruence.
      intros Hnil. specialize (Hc ltac:(congruence)).
      destruct (Z.ltb_spec (hd_len h) (2 ^ 31)), (Z.leb_spec (hd_len h) (zlen bytes));
        cbn [andb]; [by destruct Hc|done..].
    + intros w2 rest2 data Hon2 [Hc1 Hc2] Hst Hse2 Hm2. exists rest2. split_and!; try congruence.
      exists (take (Z.to_nat (hd_len h)) bytes).
      rewrite (proj2 (Z.ltb_lt (hd_len h) (2 ^ 31))) by done.
      rewrite (proj2 (Z.leb_le (hd_len h) (zlen bytes))) by done. split_and!; [done| | |].
      * rewrite length_take. subst h. cbn [hd_len] in *. lia.
      * unfold reply_stored in *. by rewrite Hh1 in Hst.
      * intros Hnil. apply Hm2. congruence.
  - destruct Href as (-> & -> & _). rewrite (proj2 (Z.eqb_neq _ 6)).
    + cbn [negb]. apply wp_ret. exists rest. split_and!; try done.
      intros _. apply parse_short. simpl length. lia.
    + destruct failed; lia.
Qed.

Lemma wp_read_command w0 fd inc wr w bytes :
  online w0 fd inc wr w -> Forall is_byte bytes -> (stream inc).1 = bytes ->
  wp (tcpCommandReadCommand stack fd) (feedback_post w0 fd wr w bytes) w.
Proof.
  intros Hon Hb Hs. unfold tcpCommandReadCommand. apply wp_bind.
  eapply wp_readn; [done|lia|]. intros w1 ret got rest Hr Hon1 Hsame _.
  pose proof Hsame as (Hh1 & Hm1 & Hse1).
  pose proof (sys_readn_reference inc 2 ltac:(lia)) as Href. rewrite Hr in Href.
  destruct (stream inc) as [bs failed]. cbn [fst] in Hs. subst bs. destruct Href as [_ Href].
  assert (zlen bytes < 8 -> feedback_post w0 fd wr w bytes None w1) as Hnone.
  { intros Hl. exists rest. split_and!; try done. intros _. by apply parse_short. }
  assert (forall i, (i < 8)%nat -> exists x, stack !! i = Some x) as Hst
    by (intros i Hi; apply lookup_lt_is_Some_2; lia).
  destruct (Z.leb_spec 2 (zlen bytes)) as [H2|H2].
  - destruct Href as (-> & -> & Hrest). cbn [Z.leb Z.compare].
    do 2 (destruct bytes as [|? bytes]; [simpl length in H2; lia|]). cbn in Hrest.
    apply wp_bind. eapply wp_lift; [reflexivity|]. apply wp_bind.
    eapply wp_lift; [reflexivity|]. apply Forall_cons in Hb as [_ Hb].
    apply Forall_cons in Hb as [_ Hb].
    destruct (negb (z =? 71) || negb (z0 =? 116)) eqn:Hmagic.
    + apply wp_ret. exists rest. split_and!; try done. intros _.
      assert ((z =? 71) && (z0 =? 116) = false) as Hm.
      { by rewrite <- negb_orb, negb_false_iff || (destruct (z =? 71), (z0 =? 116)). }
      unfold parse_reply. do 6 (destruct bytes as [|? bytes]; [done|]). by rewrite Hm.
    + eapply wp_mono; [|eapply (wp_read_body w0 fd rest wr w1 z z0 bytes);
        [done|done|by rewrite Hrest|by destruct (z =? 71), (z0 =? 116)]].
      intros r w2 (rest2 & Hon2 & Hse2 & Hres). exists rest2.
      unfold reply_stored in Hres. rewrite Hh1, Hm1, Hse1 in *. by split_and!.
  - destruct Href as (-> & -> & Hend). destruct (Z.leb_spec (if failed then -1 else zlen bytes) 0).
    { apply wp_ret, Hnone. lia. }
    destruct failed; [lia|]. specialize (Hend eq_refl). subst rest.
    destruct bytes as [|b [|]]; [simpl in *; lia| |simpl length in H2; lia].
    destruct (Hst 1%nat ltac:(lia)) as [x Hx].
    apply wp_bind. eapply wp_lift; [reflexivity|]. apply wp_bind.
    eapply wp_lift.
    { apply arr_get_lookup; [lia|]. rewrite lookup_app_r by (simpl; lia).
      rewrite lookup_drop. exact Hx. }
    destruct (_ || _); [by apply wp_ret, Hnone|].
    apply wp_bind. eapply wp_after_end; [done|lia|]. intros w2 Hon2 (Hh2 & Hm2 & Hse2).
    cbn. apply wp_ret. exists []. split_and!; try congruence. intros _. by apply parse_short.
Qed.
End reply.

(** ** Connecting and sending *)

(** Whether [tcp_open] succeeds. *)
Definition dial_ok (v6 : bool) (d : Dial) : bool :=
  socket_ok d && negb (if v6 then inet_pton d =? 0 else inet_pton d <=? 0) && connect_ok d.

(** The kernel takes each of the buffers whole, in one [write] each. *)
Fixpoint accepted (events : list write_event) (buffers : list (list Z)) : bool :=
  match buffers, events with
  | [], _ | _, [] => true
  | b :: buffers, Wrote n :: events => (zlen b <=? n) && accepted events buffers
  | _ :: _, WriteFail _ :: _ => false
  end.

(** The abstract exchange: an error code, or the peer's return code and payload. *)
Definition exchange_spec (v6 : bool) (d : option Dial) (buffers : list (list Z))
    : Z + (Z * list Z) :=
  match d with
  | Some d =>
      if dial_ok v6 d then
        if accepted (writes d) buffers then
          match parse_reply (stream (incoming d)).1 with
          | Some reply => inr reply
          | None => inl PTC_ERROR_TRANSFER_FAILED
          end
        else inl PTC_ERROR_TRANSFER_FAILED
      else inl PTC_ERROR_CONNECT_SERVER_FAILED
  | None => inl PTC_ERROR_CONNECT_SERVER_FAILED
  end.

(** What the next attempt to connect meets. *)
Definition next_dial (w : World) : option Dial := head (dials w).

Section exchange.
Context (stack : list Z) (Hstack : 8 <= zlen stack).
Implicit Types (w : World) (fd : Z).

Lemma wp_tcp_open w ip v6 (Q : Z -> World -> Prop) :
  world_ok w -> locked w = true ->
  (forall w0, strchr 58 ip w0 = Ret (v6, w0)) ->
  (forall w', world_ok w' -> sockets w' = sockets w -> locked w' = true -> heap w' = heap w ->
     mallocs w' = mallocs w -> sent w' = sent w ->
     (forall d, next_dial w = Some d -> dial_ok v6 d = false) -> Q (-1) w') ->
  (forall w' fd d, next_dial w = Some d -> dial_ok v6 d = true -> 0 <= fd ->
     online w fd (incoming d) (writes d) w' -> same_memory w w' -> Q fd w') ->
  wp (tcp_open ip) Q w.
Proof.
  intros Hok Hl Hip Hfail Hgood. unfold tcp_open. apply wp_bind. eexists _, _.
  split; [apply Hip|]. apply wp_bind. unfold wp at 1, new_socket. unfold next_dial in *.
  destruct (dials w) as [|d ds] eqn:Hd; cbn [head] in *.
  { eexists _, _. split; [reflexivity|]. apply wp_ret, Hfail; try done. }
  unfold dial_ok in *. destruct (socket_ok d) eqn:Hsock; eexists _, _; (split; [reflexivity|]).
  2: { destruct Hok as [Hn Hk Hh]. apply wp_ret, Hfail; try done.
       intros d' [= <-]. by rewrite Hsock. }
  pose proof (ok_sockets _ Hok (next_fd w) ltac:(lia)) as Hfresh. destruct Hok as [Hn Hk Hh].
  destruct (if v6 then inet_pton d =? 0 else inet_pton d <=? 0) eqn:Hpton.
  { apply wp_bind. eexists _, _. split; [reflexivity|]. apply wp_ret, Hfail; cbn; try done.
    - split; cbn; [lia| |done]. intros fd Hfd. rewrite delete_insert_id by done. apply Hk. lia.
    - by apply delete_insert_id.
    - intros d' [= <-]. by rewrite Hsock, Hpton. }
  apply wp_bind. unfold wp at 1, connect. destruct (connect_ok d) eqn:Hconn;
    eexists _, _; (split; [reflexivity|]).
  - apply wp_ret, (Hgood _ _ d); try done; [by rewrite Hsock, Hpton, Hconn|].
    split; cbn; try done; [|by rewrite insert_insert_eq].
    split; cbn; [lia| |done]. intros fd Hfd. rewrite !lookup_insert_ne by lia. apply Hk. lia.
  - apply wp_bind. eexists _, _. split; [reflexivity|]. apply wp_ret, Hfail; cbn; try done.
    + split; cbn; [lia| |done]. intros fd Hfd. rewrite delete_insert_id by done. apply Hk. lia.
    + by apply delete_insert_id.
    + intros d' [= <-]. by rewrite Hsock, Hpton, Hconn.
Qed.

(** What a command leaves behind. *)
Definition command_post (w : World) (buffers : list (list Z)) (spec : Z + (Z * list Z))
    (cmd : TC_Command) (r : Z * TC_Command) (w' : World) : Prop :=
  restored w w' /\
  ((r.1 <> PTC_ERROR_NO_ERROR /\ r.2 = cmd /\ heap w' = heap w /\
    (mallocs w = [] -> spec = inl r.1)) \/
   (exists ret_code bytes data, spec = inr (ret_code, bytes) /\
    r = (PTC_ERROR_NO_ERROR,
         {| header := {| hd_cmd := hd_cmd (header cmd); hd_ret_code := ret_code;
                         hd_len := hd_len (header cmd) |};
            payload := payload cmd; ret_data := data; ret_size := zlen bytes |}) /\
    reply_stored w w' bytes data /\ (mallocs w = [] -> mallocs w' = []) /\
    sent w' = sent w ++ buffers)).

Lemma write_whole wr bytes r out rest buffers :
  0 < zlen bytes -> sys_write wr bytes = (r, out, rest) ->
  if (match r with inl n => n | inr _ => -1 end) =? zlen bytes
  then out = bytes /\ accepted wr (bytes :: buffers) = accepted rest buffers
  else accepted wr (bytes :: buffers) = false.
Proof.
  intros Hl. unfold sys_write. destruct wr as [|[n|e] wr]; intros [= <- <- <-].
  - rewrite Z.eqb_refl. split; [done|]. by destruct buffers.
  - cbn [accepted]. destruct (Z.leb_spec (zlen bytes) n) as [Hn|Hn].
    + replace (Z.max 0 (Z.min n (zlen bytes))) with (zlen bytes) by lia.
      rewrite Z.eqb_refl, Nat2Z.id, firstn_all. done.
    + rewrite (proj2 (Z.eqb_neq _ _)); [done|lia].
  - rewrite (proj2 (Z.eqb_neq _ _)) by lia. done.
Qed.

(** The payload of a command can be sent: its bytes, if any, are [chunks]. *)
Definition payload_ready (h : gmap nat (list (option Z))) (cmd : TC_Command)
    (chunks : list (list Z)) : Prop :=
  match payload cmd with
  | Some b =>
      if 0 <? hd_len (header cmd) then
        exists block bytes, h !! b = Some block /\ chunks = [bytes] /\
          zlen bytes = hd_len (header cmd) /\
          take (Z.to_nat (hd_len (header cmd))) block = Some <$> bytes
      else chunks = []
  | None => hd_len (header cmd) = 0 /\ chunks = []
  end.

Lemma mapM_fmap_Some {A} (l : list A) : mapM (M := option) id (Some <$> l) = Some l.
Proof. induction l as [|x l IH]; [done|]. cbn. change (fmap Some l) with (Some <$> l). by rewrite IH. Qed.

Lemma wp_write_payload w0 fd inc wr w cmd chunks (Q : bool -> World -> Prop) :
  online w0 fd inc wr w -> payload_ready (heap w) cmd chunks -> 0 <= hd_len (header cmd) < 2 ^ 31 ->
  (forall w' rest, online w0 fd inc rest w' -> heap w' = heap w -> mallocs w' = mallocs w ->
     sent w' = sent w ++ chunks -> accepted wr chunks = true -> Q true w') ->
  (forall w' rest, online w0 fd inc rest w' -> heap w' = heap w -> mallocs w' = mallocs w ->
     accepted wr chunks = false -> Q false w') ->
  wp (write_payload fd cmd) Q w.
Proof.
  intros Hon Hready Hlen Htrue Hfalse. unfold write_payload, payload_ready in *.
  assert (chunks = [] -> wp (mret true) Q w) as Hskip.
  { intros ->. apply wp_ret, (Htrue _ wr); try done; [by rewrite app_nil_r|by destruct wr]. }
  destruct (payload cmd) as [b|]; [|destruct Hready as [-> ->]; by apply Hskip].
  destruct (Z.ltb_spec 0 (hd_len (header cmd))) as [Hpos|]; [|by apply Hskip].
  destruct Hready as (block & bytes & Hb & -> & Hl & Htake).
  rewrite bool_decide_false by done. cbn [andb negb].
  apply wp_bind. unfold wp at 1, load. cbn [mbind option_bind]. rewrite Hb.
  eexists _, _. split; [reflexivity|]. apply wp_bind. unfold wp at 1, take_bytes.
  assert (hd_len (header cmd) <= zlen block).
  { apply (f_equal length) in Htake. rewrite length_fmap, length_take in Htake. lia. }
  rewrite decide_True by lia. rewrite Htake, mapM_fmap_Some.
  eexists _, _. split; [reflexivity|]. apply wp_bind. eapply wp_write; [done|].
  intros w' r out rest Hw Hon' Hh Hm Hnb Hse.
  pose proof (write_whole wr bytes r out rest [] ltac:(lia) Hw) as Hwhole. rewrite Hl in Hwhole.
  set (x := match r with inl n => n | inr _ => -1 end) in *.
  assert ((u32 x =? hd_len (header cmd)) = (x =? hd_len (header cmd))) as ->.
  { assert (x = -1 \/ 0 <= x <= zlen bytes) as [->|Hx]; [ |change (u32 (-1)) with (2 ^ 32 - 1); rewrite !(proj2 (Z.eqb_neq _ _)) by lia; done|rewrite uwrap_small by lia; done].
    subst x. unfold sys_write in Hw. destruct wr as [|[n|e] wr]; injection Hw as <- <- <-; lia. }
  destruct (x =? hd_len (header cmd)); apply wp_ret.
  - destruct Hwhole as [-> Hacc]. apply (Htrue _ rest); try done.
    rewrite Hacc. by destruct rest.
  - by apply (Hfalse _ rest).
Qed.

Definition request (cmd : TC_Command) (chunks : list (list Z)) : list (list Z) :=
  TcpCommand_buildHeader cmd :: chunks.

Lemma wp_exchange w0 w fd d cmd chunks v6 :
  online w0 fd (incoming d) (writes d) w -> same_memory w0 w -> dial_ok v6 d = true ->
  payload_ready (heap w) cmd chunks -> 0 <= hd_len (header cmd) < 2 ^ 31 ->
  Forall is_byte (stream (incoming d)).1 ->
  wp (exchange stack fd cmd)
    (command_post w0 (request cmd chunks) (exchange_spec v6 (Some d) (request cmd chunks)) cmd) w.
Proof.
  intros Hon (Hh0 & Hm0 & Hs0) Hdial Hready Hlen Hbytes. unfold exchange, exchange_spec.
  rewrite Hdial. unfold request. set (hdr := TcpCommand_buildHeader cmd).
  assert (forall w1 inc wr, online w0 fd inc wr w1 -> heap w1 = heap w0 ->
    (mallocs w0 = [] -> exchange_spec v6 (Some d) (request cmd chunks) = inl PTC_ERROR_TRANSFER_FAILED) ->
    wp (finish fd PTC_ERROR_TRANSFER_FAILED cmd) (command_post w0 (request cmd chunks)
      (exchange_spec v6 (Some d) (request cmd chunks)) cmd) w1) as Hfail.
  { intros w1 inc wr Hon1 Hh1 Hspec. eapply wp_finish; [exact Hon1|]. intros w2 Hre (Hh2 & _).
    split; [done|]. left. split_and!; [done|done|congruence|done]. }
  unfold exchange_spec, request in Hfail. rewrite Hdial in Hfail. fold hdr in Hfail.
  apply wp_bind. eapply wp_write; [done|].
  intros w1 r out rest Hw Hon1 Hh1 Hm1 Hnb1 Hse1.
  pose proof (write_whole _ hdr r out rest chunks ltac:(done) Hw) as Hwhole.
  destruct (_ =? zlen hdr); cbn [negb].
  2: { rewrite Hwhole in *. by eapply Hfail; [done|congruence|]. }
  destruct Hwhole as [-> Hacc]. rewrite Hacc in *. clear Hacc.
  apply wp_bind. eapply wp_write_payload; [done|by rewrite Hh1|done| |].
  2: { intros w2 rest2 Hon2 Hh2 Hm2 Hacc. rewrite Hacc in *. cbn [negb]. by eapply Hfail; [done|congruence|]. }
  intros w2 rest2 Hon2 Hh2 Hm2 Hse2 Hacc. rewrite Hacc in *. cbn [negb]. apply wp_bind.
  eapply wp_mono; [|by eapply (wp_read_command stack Hstack w0 fd _ _ w2)].
  intros [[h data]|] w3 (rest3 & Hon3 & Hse3 & Hres).
  - destruct Hres as (bytes & Hparse & Hl & Hst & Hm3). rewrite Hparse, Hl.
    eapply wp_finish; [exact Hon3|]. intros w4 Hre (Hh4 & Hm4 & Hse4). split; [done|]. right.
    exists (hd_ret_code h), bytes, data. split; [done|]. split; [done|].
    split; [|split; [intros Hnil; rewrite Hm4; apply Hm3; congruence|]].
    + unfold reply_stored in *. rewrite Hh4. by rewrite Hh2, Hh1, Hh0 in Hst.
    + rewrite Hse4, Hse3, Hse2, Hse1, Hs0. by rewrite <- app_assoc.
  - destruct Hres as [Hh3 Hparse]. eapply Hfail; [exact Hon3|congruence|].
    intros Hnil. rewrite Hparse; [done|congruence].
Qed.

(** The IPv6 test of the address. *)
Definition ip_kind (client : TcpCommandClient) (v6 : bool) : Prop :=
  forall w, strchr 58 (client_ip client) w = Ret (v6, w).

Lemma wp_SendCmd w client cmd chunks v6 :
  world_ok w -> locked w = false -> ip_kind client v6 ->
  payload_ready (heap w) cmd chunks -> 0 <= hd_len (header cmd) < 2 ^ 31 ->
  (forall d, next_dial w = Some d -> Forall is_byte (stream (incoming d)).1) ->
  wp (tcpCommandClient_SendCmd stack (Some client) cmd)
    (command_post w (request cmd chunks)
       (exchange_spec v6 (next_dial w) (request cmd chunks)) cmd) w.
Proof.
  intros Hok Hl Hip Hready Hlen Hbytes. unfold tcpCommandClient_SendCmd.
  assert (negb (hd_len (header cmd) =? 0) && bool_decide (payload cmd = None) = false) as ->.
  { unfold payload_ready in Hready. destruct (payload cmd); [|by destruct Hready as [-> _]].
    by rewrite andb_comm. }
  apply wp_bind. unfold wp at 1, mutex_lock. rewrite Hl.
  set (w1 := {| locked := true |}). exists (), w1. split; [reflexivity|].
  assert (world_ok w1) as Hok1 by (destruct Hok; by split).
  apply wp_bind. eapply (wp_tcp_open w1 _ v6); [done|done|exact (Hip)| |].
  - intros w2 Hok2 Hs2 Hl2 Hh2 Hm2 Hse2 Hdial. cbn [Z.ltb Z.compare].
    apply wp_bind. unfold wp at 1, mutex_unlock. rewrite Hl2.
    eexists _, _. split; [reflexivity|]. apply wp_ret.
    split; [destruct Hok2; by repeat split|]. left. split_and!; try done.
    intros _. unfold exchange_spec. change (next_dial w) with (next_dial w1).
    destruct (next_dial w1) as [d|] eqn:Hd; [|done]. by rewrite (Hdial d).
  - intros w2 fd d Hd Hdial Hfd Hon Hsame. rewrite (proj2 (Z.ltb_ge _ _)) by done.
    change (next_dial w) with (next_dial w1). rewrite Hd.
    assert (online w fd (incoming d) (writes d) w2) as Hon' by (destruct Hon; by split).
    destruct Hsame as (Hh2 & Hm2 & Hse2).
    eapply wp_exchange; [exact Hon'|done|done|by rewrite Hh2|done|by apply Hbytes].
Qed.
End exchange.

(** ** The commands *)

Lemma command_post_intro w buffers spec cmd (m : io (Z * TC_Command)) :
  wp m (command_post w buffers spec cmd) w ->
  exists r w', m w = Ret (r, w') /\ command_post w buffers spec cmd r w'.
Proof. done. Qed.

Lemma parse_reply_short bytes ret_code payload :
  parse_reply bytes = Some (ret_code, payload) -> zlen payload < 2 ^ 31.
Proof.
  unfold parse_reply. do 8 (destruct bytes as [|? bytes]; [done|]).
  set (n := le_combine [z6; z5; z4; z3]). clearbody n.
  destruct (Z.ltb_spec n (2 ^ 31)) as [Hl|];
    [|by rewrite andb_false_r, andb_false_l].
  destruct (_ && _); [|done]. intros [= _ <-]. rewrite length_take. lia.
Qed.

Lemma exchange_spec_short v6 d buffers ret_code bytes :
  exchange_spec v6 d buffers = inr (ret_code, bytes) -> zlen bytes < 2 ^ 31.
Proof.
  unfold exchange_spec. destruct d as [d|]; [|done].
  destruct (dial_ok v6 d), (accepted (writes d) buffers); try done.
  destruct (parse_reply _) as [[]|] eqn:Hp; [|done]. intros [= <- <-]. by eapply parse_reply_short.
Qed.

(** A block that the caller owns from now on. *)
Definition new_block (w w' : World) (b : nat) (bytes : list Z) : Prop :=
  heap w !! b = None /\ heap w' = <[b := Some <$> bytes]> (heap w).

Lemma wp_store_at w b h (block bytes : list (option Z)) n (Q : () -> World -> Prop) :
  heap w = <[b := block]> h -> 0 <= n -> n + zlen bytes <= zlen block ->
  Q () (set_heap (<[b := take (Z.to_nat n) block ++ bytes ++
          drop (Z.to_nat n + length bytes) block]> h) w) ->
  wp (store (Some b) n bytes) Q w.
Proof.
  intros Hh Hn Hl HQ. unfold wp, store. rewrite Hh, lookup_insert_eq, decide_True by done.
  eexists _, _. split; [reflexivity|]. by rewrite insert_insert_eq.
Qed.

(** The copy handed to the caller. *)
Lemma wp_copy_feedback w w1 cmd bytes b :
  world_ok w1 -> mallocs w1 = [] -> ret_data cmd = Some b -> ret_size cmd = zlen bytes ->
  zlen bytes < 2 ^ 31 -> heap w !! b = None -> heap w1 = <[b := Some <$> bytes]> (heap w) ->
  wp (copy_feedback cmd) (fun r w' => exists p,
    r = (hd_ret_code (header cmd), Some (Some p, zlen bytes + 1)) /\
    new_block w w' p (bytes ++ [0]) /\ sockets w' = sockets w1 /\ locked w' = locked w1 /\
    sent w' = sent w1 /\ world_ok w') w1.
Proof.
  intros Hok Hm Hd Hs Hlen Hb Hh. unfold copy_feedback. rewrite Hs, Hd, uwrap_small by lia.
  apply wp_bind, wp_malloc; [done|done|]. intros w2 p Hok2 Hs2 Hl2 Hse2 _ Hp Hh2.
  rewrite Hh in Hp. apply lookup_insert_None in Hp as [Hp Hne].
  apply wp_bind. unfold wp at 1, load. cbn [mbind option_bind].
  rewrite Hh2, lookup_insert_ne, Hh, lookup_insert_eq by done.
  eexists _, _. split; [reflexivity|]. apply wp_bind. unfold wp at 1, take_bytes.
  rewrite decide_True by (rewrite length_fmap; lia).
  rewrite take_ge by (rewrite length_fmap; lia). rewrite mapM_fmap_Some.
  eexists _, _. split; [reflexivity|].
  apply wp_bind. eapply wp_store_at; [exact Hh2|lia| |].
  { rewrite length_fmap, length_replicate. lia. }
  apply wp_bind. eapply wp_store_at; [reflexivity|lia| |].
  { rewrite !length_app, length_take, length_drop, !length_fmap, length_replicate.
    cbn [length]. lia. }
  assert (forall l : list (option Z), length l = length bytes ->
    take (Z.to_nat (zlen bytes)) (l ++ drop (length l) (replicate (Z.to_nat (zlen bytes + 1)) None))
      ++ [Some 0] ++ drop (Z.to_nat (zlen bytes) + 1)
           (l ++ drop (length l) (replicate (Z.to_nat (zlen bytes + 1)) None)) = l ++ [Some 0]) as Hlist.
  { intros l Hl. rewrite Nat2Z.id, <- Hl, take_app_length, drop_ge; [done|].
    rewrite length_app, length_drop, length_replicate. lia. }
  change (take (Z.to_nat 0) _) with (@nil (option Z)). cbn [app Z.to_nat Nat.add length].
  rewrite Hlist by apply length_fmap.
  apply wp_bind. eapply wp_free_block; [cbn; by rewrite Hh, lookup_insert_ne, lookup_insert_eq|].
  apply wp_ret. exists p. cbn. split; [done|]. rewrite Hh, delete_insert_ne, delete_insert_id by done.
  split; [split; [done|by rewrite fmap_app]|]. split_and!; try done.
  destruct Hok2 as [Hn2 Hk2 Hf2]. split; cbn; try done. intros b' Hb'. specialize (Hf2 b' Hb').
  rewrite Hh2, Hh in Hf2. apply lookup_insert_None in Hf2 as [Hf2 Hne'].
  apply lookup_insert_None in Hf2 as [Hf2 _]. by rewrite lookup_insert_ne.
Qed.

(** What the callers rely on. *)
Record ready (w : World) (client : TcpCommandClient) (v6 : bool) : Prop := {
  rd_ok : world_ok w;
  rd_unlocked : locked w = false;
  rd_ip : ip_kind client v6;
  rd_bytes : forall d, next_dial w = Some d -> Forall is_byte (stream (incoming d)).1;
}.

(** A reading command against the abstract exchange. *)
Definition get_outcome (w : World) (frame : list Z) (spec : Z + (Z * list Z))
    (result : outcome Empty_set ((Z * option (option nat * Z)) * World)) : Prop :=
  match spec with
  | inl code => exists w', result = Ret ((code, None), w') /\ restored w w' /\ heap w' = heap w
  | inr (_, []) => result = Undef
  | inr (ret_code, bytes) => exists w' p,
      result = Ret ((ret_code, Some (Some p, zlen bytes + 1)), w') /\ restored w w' /\
      new_block w w' p (bytes ++ [0]) /\ sent w' = sent w ++ [frame]
  end.

Section commands.
Context (stack : list Z) (Hstack : 8 <= zlen stack).

(** The request of a command without payload. *)
Definition plain_request (cmd : Z) : list Z := [0x47; 0x74; cmd; 0; 0; 0; 0; 0].

Lemma get_command w client v6 c :
  ready w client v6 -> mallocs w = [] -> 0 <= c < 256 ->
  get_outcome w (plain_request c) (exchange_spec v6 (next_dial w) [plain_request c])
    (('(errorCode, cmd) ← tcpCommandClient_SendCmd stack (Some client) (new_command c 0 None);
      if negb (errorCode =? PTC_ERROR_NO_ERROR) then mret (errorCode, None)
      else copy_feedback cmd) w).
Proof.
  intros [Hok Hl Hip Hb] Hm Hc.
  destruct (wp_SendCmd stack Hstack w client (new_command c 0 None) [] v6 Hok Hl Hip
    ltac:(done) ltac:(cbn; lia) Hb) as ([code cmd'] & w1 & Hrun & [Hok1 Hs1 Hl1] & Hpost).
  unfold request, TcpCommand_buildHeader in Hpost. cbn [header new_command hd_cmd hd_ret_code hd_len] in Hpost.
  rewrite (uwrap_small 8 c) in Hpost by lia. change (u8 0) with 0 in Hpost.
  change (Z.land (Z.shiftr 0 _) 255) with 0 in Hpost. fold (plain_request c) in Hpost.
  unfold mbind, io_bind. rewrite Hrun. cbn [fst snd] in Hpost.
  destruct Hpost as [(Hne & -> & Hh & Hspec)|(ret_code & bytes & data & Hspec & [= -> ->] & Hst & Hm1 & Hse)].
  - rewrite (Hspec Hm), (proj2 (Z.eqb_neq _ _)) by done. by exists w1.
  - rewrite Hspec. cbn [negb]. pose proof (exchange_spec_short _ _ _ _ _ Hspec) as Hlen.
    destruct data as [b|]; cbn [reply_stored] in Hst.
    + destruct Hst as (Hne & Hfresh & Hh).
      destruct (wp_copy_feedback w w1 (Build_TC_Command (Build_TcpCommandHeader c ret_code 0)
        None (Some b) (zlen bytes)) bytes b Hok1 (Hm1 Hm) eq_refl eq_refl Hlen Hfresh Hh)
        as (r & w2 & Hcopy & p & -> & Hnew & Hs2 & Hl2 & Hse2 & Hok2).
      change (PTC_ERROR_NO_ERROR =? PTC_ERROR_NO_ERROR) with true. cbn [negb].
      destruct bytes as [|x bytes]; [done|]. exists w2, p. split; [exact Hcopy|].
      split; [split; [done|congruence|congruence]|]. split; [done|congruence].
    + destruct Hst as [-> _]. reflexivity.
Qed.

(** C15: a reading command refines the abstract exchange, if no allocation fails
    ([mallocs w = []]), for a client whose address has its terminator: it returns the error code
    of the step that failed with every socket closed, the mutex released and no
    memory leaked; or, when the reply has a payload, the peer's return code with a
    new zero-terminated copy of exactly the payload and its size, after sending
    the eight bytes of the request in one write. In the remaining case, a reply
    without payload, which any peer can send, the command does not return: it
    copies from a null pointer, a fault. *)
Theorem ptc_get_calibration (w : World) (client : TcpCommandClient) (v6 : bool)
    (Hw : ready w client v6) (Hm : mallocs w = []) :
  get_outcome w (plain_request PTC_COMMAND_GET_CALIBRATION)
    (exchange_spec v6 (next_dial w) [plain_request PTC_COMMAND_GET_CALIBRATION])
    (TcpCommandGetCalibration stack (Some client) true w) /\
  get_outcome w (plain_request PTC_COMMAND_GET_LIDAR_CALIBRATION)
    (exchange_spec v6 (next_dial w) [plain_request PTC_COMMAND_GET_LIDAR_CALIBRATION])
    (TcpCommandGetLidarCalibration stack (Some client) true w).
Proof. split; by apply get_command. Qed.

Lemma strlen_spec bytes n :
  strlen bytes = Ret n -> 0 <= n < zlen bytes /\ bytes !! Z.to_nat n = Some 0.
Proof.
  revert n. induction bytes as [|b bytes IH]; intros n; [done|]. cbn [strlen length].
  destruct (Z.eqb_spec b 0) as [->|Hb]; [intros [= <-]; split; [lia|done]|].
  destruct (strlen bytes) as [m| |]; try done. cbn. intros [= <-].
  destruct (IH m eq_refl) as [Hm Hz]. split; [lia|].
  by replace (Z.to_nat (m + 1)) with (S (Z.to_nat m)) by lia.
Qed.

(** The duplicate of a string. *)
Lemma wp_strdup w buffer n (Q : option nat -> World -> Prop) :
  world_ok w -> strlen buffer = Ret n ->
  (forall w', world_ok w' -> sockets w' = sockets w -> locked w' = locked w -> sent w' = sent w ->
     dials w' = dials w -> heap w' = heap w -> mallocs w <> [] -> Q None w') ->
  (forall w' b, world_ok w' -> sockets w' = sockets w -> locked w' = locked w ->
     sent w' = sent w -> dials w' = dials w -> mallocs w' = tail (mallocs w) ->
     new_block w w' b (take (Z.to_nat n) buffer ++ [0]) -> Q (Some b) w') ->
  wp (strdup buffer) Q w.
Proof.
  intros Hok Hn Hfail Hgood. pose proof (strlen_spec _ _ Hn) as [Hb _]. unfold strdup.
  apply wp_bind. eapply wp_lift; [exact Hn|]. apply wp_bind.
  unfold wp at 1, malloc. eexists _, _. split; [reflexivity|]. destruct Hok as [Hf Hk Hh].
  destruct (default true (head (mallocs w))) eqn:Hm.
  2: { apply wp_ret, Hfail; try done. intros Hnil. by rewrite Hnil in Hm. }
  cbn [pred next_block]. apply wp_bind. 
  eapply (wp_store_at _ _ (heap w)); [reflexivity|lia| |].
  { rewrite length_fmap, length_app, length_take, length_replicate. cbn [length]. lia. }
  apply wp_ret, Hgood; try done.
  - split; cbn; try done. intros b Hb'. rewrite lookup_insert_ne by lia. apply Hh. lia.
  - split; [apply Hh; lia|]. cbn [heap set_heap]. f_equal. 
    rewrite drop_ge, app_nil_r; [done|].
    rewrite length_fmap, length_app, length_take, length_replicate. cbn [length]. lia.
Qed.

Definition result_code (spec : Z + (Z * list Z)) : Z :=
  match spec with inl code => code | inr (ret_code, _) => ret_code end.

(** Freeing the payload of the feedback, if there is one. *)
Lemma wp_free_reply w w1 bytes data (Q : () -> World -> Prop) :
  reply_stored w w1 bytes data -> Q () (set_heap (heap w) w1) -> (heap w1 = heap w -> Q () w1) -> wp (free data) Q w1.
Proof.
  intros Hst HQ1 HQ2. destruct data as [b|]; cbn [reply_stored] in Hst.
  - destruct Hst as (_ & Hb & Hh). eapply wp_free_fresh; [exact Hb|exact Hh|done].
  - destruct Hst as [_ Hh]. exists (), w1. auto.
Qed.

Lemma restored_set_heap w w' h :
  restored w w' -> (forall b, (next_block w' <= b)%nat -> h !! b = None) ->
  restored w (set_heap h w').
Proof. intros [[Hn Hk Hh] Hs Hl] Hb. by repeat split. Qed.

Lemma heap_fresh_insert w b block h :
  world_ok w -> heap w = <[b := block]> h -> forall b', (next_block w <= b')%nat -> h !! b' = None.
Proof.
  intros Hok Hh b' Hb'. pose proof (ok_heap _ Hok b' Hb') as H. rewrite Hh in H.
  by apply lookup_insert_None in H as [? _].
Qed.

(** The end of the commands without result: everything is freed. *)
Lemma wp_discard w w1 data bytes code (Q : Z -> World -> Prop) :
  restored w w1 -> reply_stored w w1 bytes data ->
  (forall w', restored w w' -> heap w' = heap w -> sent w' = sent w1 -> Q code w') ->
  wp (free data;; mret code) Q w1.
Proof.
  intros Hre Hst HQ. apply wp_bind. eapply wp_free_reply; [exact Hst| |].
  - apply wp_ret, HQ; try done. apply restored_set_heap; [done|].
    destruct data as [b|]; cbn [reply_stored] in Hst; [destruct Hst as (_ & _ & Hh)|destruct Hst as [_ Hh]].
    + eapply heap_fresh_insert; [apply Hre|exact Hh].
    + rewrite <- Hh. apply Hre.
  - intros Hh. apply wp_ret. by apply HQ.
Qed.

Lemma wp_reset w client v6 :
  ready w client v6 ->
  wp (TcpCommandResetCalibration stack (Some client)) (fun code w' =>
    restored w w' /\ heap w' = heap w /\
    (mallocs w = [] -> code = result_code
       (exchange_spec v6 (next_dial w) [plain_request PTC_COMMAND_RESET_CALIBRATION]))) w.
Proof.
  intros [Hok Hl Hip Hb]. unfold TcpCommandResetCalibration. apply wp_bind.
  eapply wp_mono; [|apply (wp_SendCmd stack Hstack w client _ [] v6 Hok Hl Hip);
    [done|cbn; lia|exact Hb]].
  intros [code cmd] w1 [Hre Hpost].
  change (request _ []) with [plain_request PTC_COMMAND_RESET_CALIBRATION] in Hpost.
  cbn [fst snd] in Hpost.
  destruct Hpost as [(Hne & -> & Hh & Hspec)|(ret_code & bytes & data & Hspec & [= -> ->] & Hst & _ & _)].
  - rewrite (proj2 (Z.eqb_neq _ _)) by done. apply wp_ret. split_and!; try done.
    intros Hm. by rewrite (Hspec Hm).
  - rewrite Hspec. eapply wp_discard; [exact Hre|exact Hst|]. intros w2 Hre2 Hh2 _. by split_and!.
Qed.

(** The request's payload freed before the reply's. *)
Lemma free_before_reply w w1 w2 b block bytes data :
  heap w !! b = None -> heap w1 = <[b := block]> (heap w) ->
  reply_stored w1 w2 bytes data -> restored w w2 ->
  exists w3, free (Some b) w2 = Ret ((), w3) /\ restored w w3 /\ reply_stored w w3 bytes data.
Proof.
  intros Hb Hh1 Hst Hre.
  assert (is_Some (heap w2 !! b) /\ reply_stored w (set_heap (delete b (heap w2)) w2) bytes data)
    as [[block2 Hb2] Hst'].
  { destruct data as [d|]; cbn [reply_stored] in *.
    - destruct Hst as (Hne & Hd & Hh2). rewrite Hh1 in Hd, Hh2.
      apply lookup_insert_None in Hd as [Hd Hbd]. rewrite Hh2.
      rewrite lookup_insert_ne, lookup_insert_eq by done. split; [eauto|]. split_and!; [done..|].
      cbn. by rewrite delete_insert_ne, delete_insert_id.
    - destruct Hst as [-> Hh2]. rewrite Hh2, Hh1, lookup_insert_eq. split; [eauto|].
      split; [done|]. cbn. by rewrite delete_insert_id. }
  exists (set_heap (delete b (heap w2)) w2). split; [unfold free; by rewrite Hb2|].
  split; [|done]. apply restored_set_heap; [done|]. intros b' Hb'.
  rewrite lookup_delete_None. right. apply Hre, Hb'.
Qed.

(** The request that carries a calibration. *)
Definition set_request (len : Z) (bytes : list Z) : list (list Z) :=
  request (new_command PTC_COMMAND_SET_CALIBRATION len None) [bytes].

Lemma wp_set w client v6 str n len :
  ready w client v6 -> strlen str = Ret n -> 0 < len <= n + 1 -> len < 2 ^ 31 ->
  wp (TcpCommandSetCalibration stack (Some client) (Some str) len) (fun code w' =>
    restored w w' /\ heap w' = heap w /\
    (mallocs w = [] -> code = result_code (exchange_spec v6 (next_dial w)
       (set_request len (take (Z.to_nat len) str))))) w.
Proof.
  intros [Hok Hl Hip Hb] Hn Hlen Hsmall. pose proof (strlen_spec _ _ Hn) as [Hnb Hzero].
  unfold TcpCommandSetCalibration.
  destruct (Z.leb_spec len 0) as [|_]; [lia|]. apply wp_bind.
  eapply wp_strdup; [done|exact Hn| |].
  { intros w1 Hok1 Hs1 Hl1 Hse1 Hd1 Hh1 Hm1. apply wp_bind.
    unfold wp at 1, tcpCommandClient_SendCmd. cbn [header new_command hd_len payload].
    rewrite (proj2 (Z.eqb_neq len 0)), bool_decide_true by (done || lia). cbn [negb andb].
    eexists _, _. split; [reflexivity|]. cbn. apply wp_bind. eexists _, _.
    split; [reflexivity|]. apply wp_ret. split; [split; [done|congruence|congruence]|].
    split; [congruence|done]. }
  intros w1 b Hok1 Hs1 Hl1 Hse1 Hd1 Hm1 [Hfresh Hh1].
  assert (take (Z.to_nat n) str ++ [0] = take (S (Z.to_nat n)) str) as Hdup
    by (by rewrite (take_S_r _ _ _ Hzero)).
  rewrite Hdup in Hh1. set (cmd := new_command PTC_COMMAND_SET_CALIBRATION len (Some b)).
  apply wp_bind. eapply wp_mono; [|apply (wp_SendCmd stack Hstack w1 client cmd
    [take (Z.to_nat len) str] v6); [done|congruence|done| |cbn; lia|]].
  2: { subst cmd. cbn [payload_ready payload header new_command hd_len].
       unfold payload_ready. cbn [payload header new_command hd_len].
       rewrite (proj2 (Z.ltb_lt 0 len)) by lia. exists (Some <$> take (S (Z.to_nat n)) str), (take (Z.to_nat len) str).
       split_and!; [by rewrite Hh1, lookup_insert_eq|done|rewrite length_take; lia|].
       rewrite <- fmap_take, take_take. do 2 f_equal. lia. }
  2: { intros d Hd. apply Hb. unfold next_dial in *. by rewrite <- Hd1. }
  intros [code cmd'] w2 [Hre Hpost]. cbn [fst snd] in Hpost.
  change (request cmd _) with (set_request len (take (Z.to_nat len) str)) in Hpost.
  assert (next_dial w1 = next_dial w) as Hdial by (unfold next_dial; by rewrite Hd1).
  rewrite Hdial in Hpost. set (spec := exchange_spec _ _ _) in *.
  assert (restored w w2) as Hre' by (destruct Hre as [? ? ?]; split; [done|congruence|done]).
  destruct Hpost as [(Hne & -> & Hh & Hspec)|(ret_code & bytes & data & Hspec & [= -> ->] & Hst & _ & _)].
  - rewrite (proj2 (Z.eqb_neq _ _)) by done. cbn [negb]. apply wp_bind.
    eapply wp_free_fresh; [exact Hfresh|by rewrite Hh|]. apply wp_ret. split_and!; try done.
    + apply restored_set_heap; [done|]. eapply heap_fresh_insert; [apply Hre'|by rewrite Hh].
    + intros Hm. rewrite Hspec; [done|]. by rewrite Hm1, Hm.
  - cbn [negb payload ret_data header hd_ret_code]. rewrite Hspec. cbn [result_code].
    change (PTC_ERROR_NO_ERROR =? PTC_ERROR_NO_ERROR) with true. cbn [negb].
    assert (exists w3, free (Some b) w2 = Ret ((), w3) /\ restored w w3 /\
      reply_stored w w3 bytes data) as (w3 & Hfree & Hre3 & Hst3).
    { by eapply free_before_reply. }
    apply wp_bind. exists (), w3. split; [exact Hfree|].
    eapply wp_discard; [exact Hre3|exact Hst3|]. intros w4 Hre4 Hh4 _. by split_and!.
Qed.

(** C30: setting and resetting the calibration, whatever the network does and
    whether or not [malloc] succeeds, if the length given for the text is between
    1 and its [strlen] plus one (a longer one is read past the end of the copy,
    [set_calibration_overread]): the commands do not fault, and return with every
    socket closed, the mutex released and all memory freed. If no allocation fails
    the result is that of the abstract exchange, the payload being the first [len]
    bytes of the caller's string; if one fails, nothing is said of the result. *)
Theorem ptc_set_reset (w : World) (client : TcpCommandClient) (v6 : bool)
    (str : list Z) (n len : Z) (Hw : ready w client v6) (Hn : strlen str = Ret n)
    (Hlen : 0 < len <= n + 1) (Hsmall : len < 2 ^ 31) :
  (exists code w', TcpCommandSetCalibration stack (Some client) (Some str) len w = Ret (code, w') /\
     restored w w' /\ heap w' = heap w /\
     (mallocs w = [] -> code = result_code (exchange_spec v6 (next_dial w)
        (set_request len (take (Z.to_nat len) str))))) /\
  (exists code w', TcpCommandResetCalibration stack (Some client) w = Ret (code, w') /\
     restored w w' /\ heap w' = heap w /\
     (mallocs w = [] -> code = result_code
        (exchange_spec v6 (next_dial w) [plain_request PTC_COMMAND_RESET_CALIBRATION]))).
Proof.
  split; [by eapply (wp_set w client v6 str n len)|by apply (wp_reset w client v6)].
Qed.
End commands.

(** A device whose reply arrives in three pieces with an interruption. *)
Definition example_client : TcpCommandClient :=
  {| client_ip := [49; 46; 49] ++ replicate 253 0; client_port := 9347 |}.
Definition example_stack : list Z := replicate 1500 0.
Definition example_world : World :=
  {| dials := [{| socket_ok := true; inet_pton := 1; connect_ok := true;
                  incoming := [Data [0x47]; ReadFail true; Data [0x74; 5; 0; 0; 0; 0];
                               Data [3; 65; 66; 67; 99]]; writes := [] |}];
     sockets := ∅; next_fd := 3; sent := []; heap := ∅; next_block := 0; mallocs := [];
     locked := false |}.

Lemma example_ready : ready example_world example_client false.
Proof.
  split; try done. intros d [= <-]. cbn [incoming]. vm_compute (stream _).1. solve_Forall.
Qed.

Lemma ptc_get_calibration_witness :
  exists w' p, TcpCommandGetLidarCalibration example_stack (Some example_client) true example_world =
      Ret ((0, Some (Some p, 4)), w') /\
    heap w' = <[p := [Some 65; Some 66; Some 67; Some 0]]> ∅ /\ sockets w' = ∅.
Proof.
  destruct (ptc_get_calibration example_stack ltac:(vm_compute; discriminate) example_world
    example_client false example_ready eq_refl) as [_ H].
  assert (exchange_spec false (next_dial example_world)
    [plain_request PTC_COMMAND_GET_LIDAR_CALIBRATION] = inr (0, [65; 66; 67])) as Hspec
    by (vm_compute; reflexivity).
  rewrite Hspec in H. destruct H as (w' & p & Hrun & Hre & [_ Hh] & _).
  exists w', p. split; [exact Hrun|]. split; [exact Hh|exact (re_sockets _ _ Hre)].
Defined.

Lemma ptc_set_reset_witness :
  exists code w', TcpCommandSetCalibration example_stack (Some example_client) (Some [49; 50; 0]) 2
      example_world = Ret (code, w') /\ heap w' = ∅ /\ locked w' = false /\ code = 0.
Proof.
  destruct (ptc_set_reset example_stack ltac:(vm_compute; discriminate) example_world
    example_client false [49; 50; 0] 2 2 example_ready eq_refl ltac:(lia) ltac:(lia))
    as [(code & w' & Hrun & Hre & Hh & Hcode) _].
  exists code, w'. split; [exact Hrun|]. split; [exact Hh|]. split; [exact (re_locked _ _ Hre)|].
  rewrite (Hcode eq_refl). vm_compute. reflexivity.
Defined.

(** A length past the terminator reads beyond the duplicated string. *)
Example set_calibration_overread :
  TcpCommandSetCalibration example_stack (Some example_client) (Some [49; 50; 0]) 4 example_world =
  Undef.
Proof. vm_compute. reflexivity. Qed.
