(* ===== verification/Input.v ===== *)
(** The live source of packets: [input.cc].

    The constructor and [getPacket] are functions of what the system calls they
    make answer.  A member the constructor leaves unset is [None]; using it is
    undefined. *)
From stdpp Require Import gmap.
From S2P Require Import Prelude Ieee Sockets Framing.
#[local] Open Scope Z_scope.

(** ** Opening *)

Record Input := {
  socketForLidar : Z;
  socketForGPS : option Z;
  socketNumber : option Z;
}.

(** The answers of the calls of the constructor: a descriptor or -1 from
    [socket], success or failure from the others. *)
Record InputCalls := {
  lidar_socket : Z;
  lidar_bind : bool;
  lidar_nonblock : bool;
  gps_socket : Z;
  gps_bind : bool;
  multicast_pton : bool;
  multicast_membership : bool;
  gps_nonblock : bool;
}.

(** Failures of [SO_REUSEPORT] and of the IPv4 membership are only reported.
    The IPv6 branch clears the address, so it always binds to any address. *)
Definition Input_new (isIpV6 multicast : bool) (port gpsPort : Z) (c : InputCalls) : Input :=
  let failed gps := {| socketForLidar := lidar_socket c; socketForGPS := gps;
                       socketNumber := None |} in
  if lidar_socket c =? -1 then failed None
  else if negb (lidar_bind c) then failed None
  else if negb (lidar_nonblock c) then failed None
  else if port =? gpsPort then
    {| socketForLidar := lidar_socket c; socketForGPS := None; socketNumber := Some 1 |}
  else if gps_socket c =? -1 then failed (Some (-1))
  else if negb (gps_bind c) then failed (Some (gps_socket c))
  else if isIpV6 && multicast && negb (multicast_pton c && multicast_membership c)
  then failed (Some (gps_socket c))
  else if negb (gps_nonblock c) then failed (Some (gps_socket c))
  else {| socketForLidar := lidar_socket c; socketForGPS := Some (gps_socket c);
          socketNumber := Some 2 |}.

(** The descriptors the destructor closes; testing an unset member is
    undefined. *)
Definition Input_delete (i : Input) : outcome Empty_set (list Z) :=
  match socketForGPS i with
  | None => Undef
  | Some gps =>
      Ret ((if 0 <? gps then [gps] else []) ++
           (if 0 <? socketForLidar i then [socketForLidar i] else []))
  end.

(** ** Receiving *)

(** What [poll] and [recvfrom] report for one descriptor: the bits of [revents],
    and the datagram waiting or the failure of [recvfrom], [true] for
    [EWOULDBLOCK]. *)
Record Polled := {
  pollin : bool;
  pollerr : bool;
  pollhup : bool;
  pollnval : bool;
  datagram : list Z + bool;
}.

Definition device_error (p : Polled) : bool := pollerr p || pollhup p || pollnval p.

(** The first descriptor with [POLLIN]. *)
Fixpoint receive (fds : list Polled) : option (list Z + bool) :=
  match fds with
  | [] => None
  | p :: fds => if pollin p then Some (datagram p) else receive fds
  end.

(** [getPacket]: [None] is the return of -1. [retval] is the result of [poll],
    [fds] what it reports for each descriptor in the order polled (the GPS
    socket first when there are two), [time] the clock. *)
Definition getPacket (i : Input) (retval : Z) (fds : list Polled) (time : option (Z * Z))
    (pkt : PandarPacket) : outcome Empty_set (option PandarPacket) :=
  match socketNumber i with
  | None => Undef
  | Some n =>
      if (retval <? 0) || (retval =? 0) then Ret None
      else
        first ← arr_get fds 0;
        if device_error first then Ret None
        else
          match receive (take (Z.to_nat n) fds) with
          | None => Undef
          | Some (inl bytes) =>
              let got := take (Z.to_nat ETHERNET_MTU) bytes in
              Ret (Some {| pkt_data := got ++ drop (length got) (pkt_data pkt);
                           pkt_size := zlen got; pkt_stamp := getNowTimeSec time |})
          | Some (inr false) => Ret None
          | Some (inr true) =>
              Ret (Some {| pkt_data := pkt_data pkt; pkt_size := u32 (-1);
                           pkt_stamp := getNowTimeSec time |})
          end
  end.

(** ** What the receiving thread gets *)

(** The descriptor the datagram is taken from: the first readable one of the
    first [n]. *)
Definition first_readable (n : Z) (fds : list Polled) (q : Polled) : Prop :=
  exists k : nat, Z.of_nat k < n /\ fds !! k = Some q /\ pollin q = true /\
    forall (j : nat) p, (j < k)%nat -> fds !! j = Some p -> pollin p = false.

Lemma receive_first n fds q :
  first_readable n fds q -> receive (take (Z.to_nat n) fds) = Some (datagram q).
Proof.
  intros (k & Hk & Hq & Hin & Hbefore). assert (k < Z.to_nat n)%nat as Hkn by lia.
  clear Hk. revert k fds Hkn Hq Hbefore. induction (Z.to_nat n) as [|m IH]; intros k fds Hkn Hq Hbefore; [lia|].
  destruct fds as [|p fds]; [done|]. destruct k as [|k].
  - injection Hq as ->. cbn. by rewrite Hin.
  - cbn. rewrite (Hbefore 0%nat p) by (done || lia). apply (IH k); [lia|done|].
    intros j p' Hj. apply (Hbefore (S j)). lia.
Qed.

Lemma receive_nothing fds : Forall (fun p => pollin p = false) fds -> receive fds = None.
Proof. induction 1 as [|p fds Hp _ IH]; [done|]. cbn. by rewrite Hp. Qed.

(** A packet of 2 ^ 32 - 1 bytes cannot be recorded. *)
Lemma raw_packet_wouldblock data stamp :
  zlen data = ETHERNET_MTU ->
  raw_packet {| pkt_data := data; pkt_size := u32 (-1); pkt_stamp := stamp |} = Undef.
Proof.
  intros Hbuf. unfold raw_packet. cbn [pkt_size pkt_data pkt_stamp].
  destruct (decide (0 <= u32 (-1) <= zlen data)) as [[_ Hle]|_].
  { change (u32 (-1)) with (2 ^ 32 - 1) in Hle. rewrite Hbuf in Hle. unfold ETHERNET_MTU in Hle. lia. }
  unfold to_signed, to_unsigned. repeat (case_match || case_decide); done.
Qed.

(** C40: what [getPacket] does with a buffer of 1500 bytes, for every answer of the
    kernel. It reports an error exactly when [poll] fails or times out, when the
    first descriptor has an error, hang-up or invalid bit, or when [recvfrom] on
    the first readable descriptor fails other than by [EWOULDBLOCK]. Otherwise it
    delivers the first 1500 bytes of that descriptor's datagram with their exact
    number and the clock's time. After [EWOULDBLOCK], though, it reports success
    with a size of 2^32 - 1, which the processing thread cannot record without
    leaving the buffer; and it uses an unset variable when the constructor had
    failed, or when no descriptor is readable. *)
Theorem getPacket_spec (i : Input) (retval : Z) (first : Polled) (rest : list Polled)
    (time : option (Z * Z)) (pkt : PandarPacket) (Hbuf : zlen (pkt_data pkt) = ETHERNET_MTU) :
  let fds := first :: rest in
  let result := getPacket i retval fds time pkt in
  (socketNumber i = None -> result = Undef) /\
  (forall n, socketNumber i = Some n ->
     (retval <= 0 -> result = Ret None) /\
     (pollerr first || pollhup first || pollnval first = true -> result = Ret None) /\
     (0 < retval -> pollerr first || pollhup first || pollnval first = false ->
        (Forall (fun p => pollin p = false) (take (Z.to_nat n) fds) -> result = Undef) /\
        (forall q, first_readable n fds q ->
           match datagram q with
           | inl bytes => exists p, result = Ret (Some p) /\
               pkt_size p = Z.min ETHERNET_MTU (zlen bytes) /\
               take (Z.to_nat (pkt_size p)) (pkt_data p) = take (Z.to_nat ETHERNET_MTU) bytes /\
               zlen (pkt_data p) = ETHERNET_MTU /\ pkt_stamp p = getNowTimeSec time
           | inr false => result = Ret None
           | inr true => exists p, result = Ret (Some p) /\ pkt_size p = 2 ^ 32 - 1 /\
               raw_packet p = Undef
           end))).
Proof.
  cbn zeta. unfold getPacket. split; [by intros ->|]. intros n ->. fold (device_error first).
  change (arr_get (first :: rest) 0) with (Ret (E := Empty_set) first). cbn [mbind outcome_bind].
  split; [|split].
  - intros Hr. by replace ((retval <? 0) || (retval =? 0)) with true by lia.
  - intros ->. by destruct (_ || _).
  - intros Hr ->. replace ((retval <? 0) || (retval =? 0)) with false by lia.
    split; [by intros ->%receive_nothing|]. intros q ->%receive_first.
    destruct (datagram q) as [bytes|[]]; [|by eexists; split_and!; [..|apply raw_packet_wouldblock]|done].
    eexists. split; [done|]. cbn [pkt_size pkt_data pkt_stamp].
    set (got := take (Z.to_nat ETHERNET_MTU) bytes).
    assert (zlen got = Z.min ETHERNET_MTU (zlen bytes)) as Hgot
      by (subst got; rewrite length_take; unfold ETHERNET_MTU; lia).
    split; [done|]. split; [by rewrite Nat2Z.id, take_app_length|].
    rewrite length_app, length_drop. unfold ETHERNET_MTU in *. split; [lia|done].
Qed.

(** A short datagram on the second socket. *)
Definition example_input : Input :=
  {| socketForLidar := 4; socketForGPS := Some 5; socketNumber := Some 2 |}.
Definition example_polled : list Polled :=
  [{| pollin := false; pollerr := false; pollhup := false; pollnval := false; datagram := inl [] |};
   {| pollin := true; pollerr := false; pollhup := false; pollnval := false; datagram := inl [7; 8] |}].
Definition example_buffer : PandarPacket :=
  {| pkt_data := replicate 1500 0; pkt_size := 0; pkt_stamp := S754_nan |}.

Lemma getPacket_spec_witness :
  exists p, getPacket example_input 1 example_polled (Some (100, 5)) example_buffer = Ret (Some p) /\
    pkt_size p = 2 /\ take 2 (pkt_data p) = [7; 8].
Proof.
  destruct (getPacket_spec example_input 1
    {| pollin := false; pollerr := false; pollhup := false; pollnval := false; datagram := inl [] |}
    [{| pollin := true; pollerr := false; pollhup := false; pollnval := false; datagram := inl [7; 8] |}]
    (Some (100, 5)) example_buffer eq_refl) as [_ H].
  destruct (H 2 eq_refl) as (_ & _ & Hread).
  destruct (Hread ltac:(lia) eq_refl) as [_ Hfirst].
  destruct (Hfirst {| pollin := true; pollerr := false; pollhup := false; pollnval := false;
      datagram := inl [7; 8] |}) as (p & Hp & Hs & Hdata & _).
  - exists 1%nat. split; [lia|]. split; [reflexivity|]. split; [reflexivity|].
    intros j p Hj Hp. replace j with 0%nat in Hp by lia. by injection Hp as <-.
  - exists p. split; [exact Hp|]. rewrite Hs in *. split; [reflexivity|exact Hdata].
Defined.
