(* ===== verification/PcapReader.v ===== *)
(** Replaying a recording: [pcap_reader.cpp].

    The capture library is the list of records that pass the filter; each comes
    with the clock readings its iteration makes.  [count] starts with whatever
    the uninitialised variable holds, a parameter here (reading it is undefined
    in the standard).  Times are 64-bit counts of microseconds; with three-digit
    years they never come near overflow and are plain integers. *)
From stdpp Require Import gmap.
From S2P Require Import Prelude Ieee Calendar.
#[local] Open Scope Z_scope.

Definition IPV4_PKT_HEADER_SIZE : Z := 42.
Definition IPV6_PKT_HEADER_SIZE : Z := 62.
Definition IPV4_TYPE : Z := 0x0800.
Definition IPV6_TYPE : Z := 0x86dd.
Definition MAC_PACKET_HEADER_LEN : Z := 12.
Definition gap : Z := 100.

(** The offsets of the time stamp and of the UTC date in a packet. *)
Definition m_timeIndexMap : list (string * (Z * Z)) :=
  [("Pandar40P", (1250, 1256)); ("Pandar40M", (1250, 1256)); ("Pandar64", (1182, 1188));
   ("PandarQT", (1056, 1062)); ("Pandar20A", (1258, 1264)); ("Pandar20B", (1258, 1264));
   ("PandarXT-32", (1071, 1065)); ("PandarXT-16", (559, 553)); ("PandarXTM", (811, 805))].

(** [m_iTsIndex] and [m_iUTCIndex]. *)
Definition time_indices (frame_id : string) : Z * Z :=
  match list_find (fun e => e.1 = frame_id) m_timeIndexMap with
  | Some (_, (_, indices)) => indices
  | None => (0, 0)
  end.

(** A record: the length on the wire, the bytes captured, the real-time clock at
    the callback and, in microseconds, at the end of the iteration. *)
Record Captured := {
  cap_len : Z;
  cap_data : list Z;
  cap_time : float;
  cap_now : Z;
}.

Section reader.
Context {E S : Type}.
Context (mktime : tm -> Z) (m_iTsIndex m_iUTCIndex : Z).
(** The callback: the buffer ([None] for a null pointer), its length, the time. *)
Context (callback : option (list Z) -> Z -> float -> S -> outcome E S).

Record Replay := {
  count : Z;
  last_pkt_ts : Z;
  last_time : option Z;
  sleeps : list Z;
  sink : S;
}.

(** [packet] and [pktSize]. *)
Definition udp_payload (c : Captured) : outcome E (option (list Z) * Z) :=
  hi ← arr_get (cap_data c) MAC_PACKET_HEADER_LEN;
  lo ← arr_get (cap_data c) (MAC_PACKET_HEADER_LEN + 1);
  let ip_type := Z.lor (Z.shiftl hi 8) lo in
  let skip n := if decide (n <= zlen (cap_data c))
                then Ret (Some (drop (Z.to_nat n) (cap_data c)), i32 (cap_len c - n))
                else Undef in
  if ip_type =? IPV4_TYPE then skip IPV4_PKT_HEADER_SIZE
  else if ip_type =? IPV6_TYPE then skip IPV6_PKT_HEADER_SIZE
  else Ret (None, 0).

(** The packet's own time in microseconds. *)
Definition packet_ts (packet : list Z) : outcome E Z :=
  year ← arr_get packet m_iUTCIndex;
  mon ← arr_get packet (m_iUTCIndex + 1);
  mday ← arr_get packet (m_iUTCIndex + 2);
  hour ← arr_get packet (m_iUTCIndex + 3);
  min ← arr_get packet (m_iUTCIndex + 4);
  sec ← arr_get packet (m_iUTCIndex + 5);
  b0 ← arr_get packet m_iTsIndex;
  b1 ← arr_get packet (m_iTsIndex + 1);
  b2 ← arr_get packet (m_iTsIndex + 2);
  b3 ← arr_get packet (m_iTsIndex + 3);
  Ret (mktime {| tm_sec := sec; tm_min := min; tm_hour := hour; tm_mday := mday;
                 tm_mon := mon - 1; tm_year := year; tm_isdst := 0 |} * 1000000 +
       i32 (Z.lor (Z.lor (Z.lor (Z.land b0 0xff) (Z.shiftl (Z.land b1 0xff) 8))
         (Z.shiftl (Z.land b2 0xff) 16)) (Z.shiftl (Z.land b3 0xff) 24))).

(** Sleeping until the recording's time has passed. *)
Definition pace (pkt_ts current_time : Z) (r : Replay) : outcome E Replay :=
  if last_pkt_ts r =? 0 then
    Ret {| count := count r; last_pkt_ts := pkt_ts; last_time := Some current_time;
           sleeps := sleeps r; sink := sink r |}
  else
    match last_time r with
    | None => Undef
    | Some t =>
        let sleep_time := (pkt_ts - last_pkt_ts r) - (current_time - t) in
        Ret {| count := count r; last_pkt_ts := pkt_ts;
               last_time := Some (current_time + sleep_time);
               sleeps := if 0 <? sleep_time then sleeps r ++ [sleep_time] else sleeps r;
               sink := sink r |}
    end.

(** One iteration of the loop of [parsePcap]. *)
Definition replay_step (c : Captured) (r : Replay) : outcome E Replay :=
  '(packet, pktSize) ← udp_payload c;
  sink ← callback packet pktSize (cap_time c) (sink r);
  let n := count r + 1 in
  if 2 ^ 31 <=? n then Undef
  else if (gap <=? n) && negb (m_iUTCIndex =? 0) then
    match packet with
    | None => Undef
    | Some packet =>
        pkt_ts ← packet_ts packet;
        pace pkt_ts (cap_now c) {| count := 0; last_pkt_ts := last_pkt_ts r;
          last_time := last_time r; sleeps := sleeps r; sink := sink |}
    end
  else Ret {| count := n; last_pkt_ts := last_pkt_ts r; last_time := last_time r;
              sleeps := sleeps r; sink := sink |}.

Fixpoint replay_run (records : list Captured) (r : Replay) : outcome E Replay :=
  match records with
  | [] => Ret r
  | c :: records => r ← replay_step c r; replay_run records r
  end.

(** What the capture library answers before the loop. *)
Record Opened := { open_ok : bool; compile_ok : bool; setfilter_ok : bool }.

(** [parsePcap]: the state of the callback and the sleeps it made. *)
Definition parsePcap (pcapPath : string) (o : Opened) (count0 : Z) (records : list Captured)
    (s : S) : outcome E (S * list Z) :=
  if bool_decide (pcapPath = "") || negb (open_ok o) || negb (compile_ok o) || negb (setfilter_ok o)
  then Ret (s, [])
  else
    r ← replay_run records {| count := count0; last_pkt_ts := 0; last_time := None;
                              sleeps := []; sink := s |};
    Ret (sink r, sleeps r).
End reader.
Arguments Replay : clear implicits.
