(* ===== verification/PcapFacts.v ===== *)
(** The replay keeps the recording's pace and feeds the driver what the sensor
    would have. *)
From stdpp Require Import gmap.
From S2P Require Import Prelude Ieee Calendar SpscQueue PacketFormat ParseLegacy LidarTables.
From S2P Require Import PointCalc Correction Framing FramingFacts Driver DriverFacts PcapReader.
#[local] Open Scope Z_scope.

(** ** Pace *)

Section pace.
Context {E S : Type}.
Context (mktime : tm -> Z) (m_iTsIndex m_iUTCIndex : Z).
Context (callback : option (list Z) -> Z -> float -> S -> outcome E S).
Implicit Types (r : Replay S).

(** The recording's time and the wall clock at the iterations that may sleep. *)
Fixpoint checkpoints (n : Z) (records : list Captured) : list (Z * Z) :=
  match records with
  | [] => []
  | c :: records =>
      if (gap <=? n + 1) && negb (m_iUTCIndex =? 0) then
        match udp_payload (E := E) c with
        | Ret (Some packet, _) =>
            match packet_ts (E := E) mktime m_iTsIndex m_iUTCIndex packet with
            | Ret t => (t, cap_now c) :: checkpoints 0 records
            | _ => checkpoints 0 records
            end
        | _ => checkpoints 0 records
        end
      else checkpoints (n + 1) records
  end.

(** From the first checkpoint on, the wall clock is to advance as the
    recording's clock does. *)
Definition on_schedule (t0 c0 : Z) r : Prop :=
  last_pkt_ts r <> 0 /\ last_time r = Some (last_pkt_ts r - t0 + c0).

Definition sleep_due (t0 c0 : Z) (p : Z * Z) : Z := (p.1 - t0) - (p.2 - c0).

Definition due_sleeps (t0 c0 : Z) (ps : list (Z * Z)) : list Z :=
  filter (fun s => 0 < s) (sleep_due t0 c0 <$> ps).

Lemma pace_on_schedule t0 c0 r r' pkt_ts now :
  on_schedule t0 c0 r -> pace (E := E) pkt_ts now r = Ret r' -> pkt_ts <> 0 ->
  on_schedule t0 c0 r' /\ count r' = count r /\
  sleeps r' = sleeps r ++ due_sleeps t0 c0 [(pkt_ts, now)].
Proof.
  intros [H0 Ht] Hp Hts. unfold pace in Hp. rewrite (proj2 (Z.eqb_neq _ _)), Ht in Hp by done.
  injection Hp as <-. unfold on_schedule. cbn [last_pkt_ts last_time count sleeps].
  split; [split; [done|f_equal; lia]|]. split; [done|].
  assert (pkt_ts - t0 - (now - c0) = pkt_ts - last_pkt_ts r - (now - (last_pkt_ts r - t0 + c0)))
    as Hdue by lia.
  unfold due_sleeps. change (sleep_due t0 c0 <$> [(pkt_ts, now)]) with [pkt_ts - t0 - (now - c0)].
  rewrite Hdue, filter_cons, filter_nil.
  destruct (Z.ltb_spec 0 (pkt_ts - last_pkt_ts r - (now - (last_pkt_ts r - t0 + c0))));
    case_decide; (done || lia || by rewrite app_nil_r).
Qed.

(** One iteration, with the checkpoint it makes if any. *)
Lemma replay_step_inv c r r' :
  replay_step mktime m_iTsIndex m_iUTCIndex callback c r = Ret r' ->
  exists s,
  (checkpoints (count r) [c] = [] /\ (gap <=? count r + 1) && negb (m_iUTCIndex =? 0) = false /\
    r' = {| count := count r + 1; last_pkt_ts := last_pkt_ts r; last_time := last_time r;
            sleeps := sleeps r; sink := s |}) \/
  (exists t, checkpoints (count r) [c] = [(t, cap_now c)] /\
      (gap <=? count r + 1) && negb (m_iUTCIndex =? 0) = true /\
      pace (E := E) t (cap_now c) {| count := 0; last_pkt_ts := last_pkt_ts r;
        last_time := last_time r; sleeps := sleeps r; sink := s |} = Ret r').
Proof.
  unfold replay_step. intros H. apply bind_Ret_inv in H as ([packet size] & Hpay & H).
  apply bind_Ret_inv in H as (s & _ & H). exists s.
  destruct (2 ^ 31 <=? count r + 1); [done|]. cbn [checkpoints].
  destruct ((gap <=? count r + 1) && negb (m_iUTCIndex =? 0)) eqn:Hg.
  - destruct packet as [packet|]; [|done]. apply bind_Ret_inv in H as (t & Ht & H).
    rewrite Hpay, Ht. right. by exists t.
  - injection H as <-. by left.
Qed.

Lemma checkpoints_cons n c records :
  checkpoints n (c :: records) =
  checkpoints n [c] ++
  checkpoints (if (gap <=? n + 1) && negb (m_iUTCIndex =? 0) then 0 else n + 1) records.
Proof.
  cbn [checkpoints]. destruct (_ && _); [|done].
  destruct (udp_payload c) as [[[packet|] ?]|?|]; try done.
  by destruct (packet_ts _ _ _ packet).
Qed.

Lemma replay_on_schedule t0 c0 records r r' :
  on_schedule t0 c0 r -> replay_run mktime m_iTsIndex m_iUTCIndex callback records r = Ret r' ->
  Forall (fun p => p.1 <> 0) (checkpoints (count r) records) ->
  sleeps r' = sleeps r ++ due_sleeps t0 c0 (checkpoints (count r) records).
Proof.
  revert r. induction records as [|c records IH]; intros r Hs Hrun Hts.
  { injection Hrun as <-. by rewrite app_nil_r. }
  cbn [replay_run] in Hrun. apply bind_Ret_inv in Hrun as (r1 & Hstep & Hrun).
  rewrite checkpoints_cons in *. apply Forall_app in Hts as [Hts1 Hts2].
  destruct (replay_step_inv _ _ _ Hstep) as [s [(Hc & Hg & ->)|(t & Hc & Hg & Hpace)]];
    rewrite Hg, Hc in *.
  - by apply (IH (Build_Replay (count r + 1) (last_pkt_ts r) (last_time r) (sleeps r) s)).
  - apply Forall_cons in Hts1 as [Ht _].
    destruct (pace_on_schedule t0 c0
      (Build_Replay 0 (last_pkt_ts r) (last_time r) (sleeps r) s) _ _ _ Hs Hpace Ht) as (Hs1 & Hcount & Hsl).
    cbn [sleeps count] in Hcount, Hsl.
    assert (checkpoints 0 records = checkpoints (count r1) records) as Hck by by rewrite Hcount.
    rewrite Hck in *.
    rewrite (IH _ Hs1 Hrun Hts2), Hsl, <- app_assoc. f_equal.
    unfold due_sleeps. rewrite <- filter_app, <- fmap_app. done.
Qed.

(** C31: the replay never drifts: with the recording's times not 0, the sleeps it
    makes are, at each checkpoint after the first (one packet in a hundred) and
    with no accumulated error, what is missing for the wall clock to have
    advanced since the first checkpoint as much as the recording has; where the
    replay is late it does not sleep. *)
Theorem replay_schedule (records : list Captured) (count0 : Z) (s : S) (r : Replay S)
    (Hrun : replay_run mktime m_iTsIndex m_iUTCIndex callback records
      {| count := count0; last_pkt_ts := 0; last_time := None; sleeps := []; sink := s |} = Ret r)
    (Hts : Forall (fun p => p.1 <> 0) (checkpoints count0 records)) :
  sleeps r = match checkpoints count0 records with
             | [] => []
             | (t0, c0) :: later => due_sleeps t0 c0 later
             end.
Proof.
  revert count0 s Hrun Hts. induction records as [|c records IH]; intros count0 s Hrun Hts.
  { by injection Hrun as <-. }
  cbn [replay_run] in Hrun. apply bind_Ret_inv in Hrun as (r1 & Hstep & Hrun).
  rewrite checkpoints_cons in *. apply Forall_app in Hts as [Hts1 Hts2].
  destruct (replay_step_inv _ _ _ Hstep) as [s' [(Hc & Hg & ->)|(t & Hc & Hg & Hpace)]];
    cbn [count] in *; rewrite Hg, Hc in *.
  - apply (IH _ _ Hrun Hts2).
  - apply Forall_cons in Hts1 as [Ht _]. unfold pace in Hpace. cbn in Hpace. injection Hpace as <-.
    apply (replay_on_schedule t (cap_now c) records
      (Build_Replay 0 t (Some (cap_now c)) [] s') r); [split; [done|cbn; f_equal; lia]|done|done].
Qed.
End pace.

(** ** Replay as reception *)

(** An Ethernet frame with a UDP datagram that the reader understands. *)
Definition frame_of (header payload : list Z) (c : Captured) : Prop :=
  cap_data c = header ++ payload /\ cap_len c = zlen (cap_data c) /\
  ((zlen header = IPV4_PKT_HEADER_SIZE /\ header !! 12%nat = Some 0x08 /\
    header !! 13%nat = Some 0x00) \/
   (zlen header = IPV6_PKT_HEADER_SIZE /\ header !! 12%nat = Some 0x86 /\
    header !! 13%nat = Some 0xdd)).

Lemma udp_payload_frame {E} header payload c :
  frame_of header payload c -> zlen payload <= ETHERNET_MTU ->
  udp_payload (E := E) c = Ret (Some payload, zlen payload).
Proof.
  intros (Hdata & Hlen & Hhdr) Hp. unfold udp_payload, MAC_PACKET_HEADER_LEN.
  assert (forall n x, (n < length header)%nat -> header !! n = Some x ->
    arr_get (E := E) (cap_data c) (Z.of_nat n) = Ret x) as Hget.
  { intros n x Hn Hx. apply arr_get_lookup; [lia|].
    by rewrite Hdata, Nat2Z.id, lookup_app_l by done. }
  assert (forall n, n = zlen header -> n <= 62 ->
    (if decide (n <= zlen (cap_data c))
     then Ret (E := E) (Some (drop (Z.to_nat n) (cap_data c)), i32 (cap_len c - n))
     else Undef) = Ret (Some payload, zlen payload)) as Hskip.
  { intros n -> Hn. rewrite Hlen, Hdata, length_app, Nat2Z.id, drop_app_length.
    rewrite decide_True by lia. unfold ETHERNET_MTU in Hp.
    replace (Z.of_nat (length header + length payload) - zlen header) with (zlen payload) by lia.
    by rewrite swrap_small by lia. }
  destruct Hhdr as [(Hl & H12 & H13)|(Hl & H12 & H13)]; unfold IPV4_PKT_HEADER_SIZE, IPV6_PKT_HEADER_SIZE in *.
  - rewrite (Hget 12%nat _ ltac:(lia) H12 : arr_get (cap_data c) 12 = _). cbn [mbind outcome_bind].
    rewrite (Hget 13%nat _ ltac:(lia) H13 : arr_get (cap_data c) (12 + 1) = _).
    by apply (Hskip 42).
  - rewrite (Hget 12%nat _ ltac:(lia) H12 : arr_get (cap_data c) 12 = _). cbn [mbind outcome_bind].
    rewrite (Hget 13%nat _ ltac:(lia) H13 : arr_get (cap_data c) (12 + 1) = _).
    by apply (Hskip 62).
Qed.

(** What [Start] gives the reader for a callback: [FillPacket]. *)
Definition fill_callback {Q : Type} {depth : Z} `{F : !BoundedFifo thread_error PandarPacket Q depth}
    (stack : list Z) (packet : option (list Z)) (len : Z) (timestamp : float) (d : Driver Q)
    : outcome thread_error (Driver Q) :=
  match packet with
  | Some buf => FillPacket buf len timestamp stack d
  | None => if len =? GPS_PACKET_SIZE then Ret d else Undef
  end.

Section reception.
Context {Q : Type} {depth : Z} `{F : !BoundedFifo thread_error PandarPacket Q depth}.
Context (s : Settings) (mktime : tm -> Z) (m_iTsIndex m_iUTCIndex : Z) (stack : list Z).
Abbreviation replay := (replay_run mktime m_iTsIndex m_iUTCIndex (fill_callback stack)).

(** The live thread, getting these packets one after the other. *)
Fixpoint receive_all (packets : list PandarPacket) (d : Driver Q) : outcome thread_error (Driver Q) :=
  match packets with
  | [] => Ret d
  | packet :: packets => d ← recv_step s mktime (Some packet) d; receive_all packets d
  end.

Definition received (payload : list Z) (time : float) : PandarPacket :=
  {| pkt_data := payload ++ stack; pkt_size := zlen payload; pkt_stamp := time |}.

(** A recorded datagram that is not a GPS message and holds the date. *)
Definition recorded (c : Captured) (packet : PandarPacket) : Prop :=
  exists header payload, frame_of header payload c /\ packet = received payload (cap_time c) /\
    zlen payload <= ETHERNET_MTU /\ zlen payload <> GPS_PACKET_SIZE /\
    (m_iUTCIndex = 0 \/
     (0 < m_iUTCIndex /\ m_iUTCIndex + 6 <= zlen payload /\
      0 <= m_iTsIndex /\ m_iTsIndex + 4 <= zlen payload)).

Lemma packet_ts_defined {E} payload :
  0 < m_iUTCIndex -> m_iUTCIndex + 6 <= zlen payload ->
  0 <= m_iTsIndex -> m_iTsIndex + 4 <= zlen payload ->
  exists t, packet_ts (E := E) mktime m_iTsIndex m_iUTCIndex payload = Ret t.
Proof.
  intros H1 H2 H3 H4. unfold packet_ts.
  assert (forall i, 0 <= i < zlen payload -> exists v, arr_get (E := E) payload i = Ret v) as Hget.
  { intros i Hi. destruct (arr_get_in (E := E) payload i Hi) as (v & _ & ->). by eexists. }
  repeat match goal with |- context [arr_get payload ?i] =>
    let H := fresh in destruct (Hget i ltac:(lia)) as [? H]; rewrite H; cbn [mbind outcome_bind]
  end.
  by eexists.
Qed.

(** The reader never looks at a clock it has not set. *)
Definition timed {T} (r : Replay T) : Prop := last_pkt_ts r = 0 \/ is_Some (last_time r).

Lemma pace_timed {E T} t now (r : Replay T) :
  timed r -> exists r', pace (E := E) t now r = Ret r' /\ timed r' /\ sink r' = sink r /\
    count r' = count r.
Proof.
  intros Ht. unfold pace. destruct (Z.eqb_spec (last_pkt_ts r) 0).
  - eexists. split; [reflexivity|]. split; [right; by eexists|done].
  - destruct Ht as [|[t0 ->]]; [done|].
    eexists. split; [reflexivity|]. split; [right; by eexists|done].
Qed.

(** One record is one reception. *)
Lemma replay_step_receives c packet r :
  recorded c packet -> timed r -> count r + 1 < 2 ^ 31 ->
  (exists r', replay_step mktime m_iTsIndex m_iUTCIndex (fill_callback stack) c r = Ret r' /\
     recv_step s mktime (Some packet) (sink r) = Ret (sink r') /\ timed r' /\
     count r' <= Z.max 0 (count r + 1)) \/
  (exists e, replay_step mktime m_iTsIndex m_iUTCIndex (fill_callback stack) c r = Err e /\
     recv_step s mktime (Some packet) (sink r) = Err e) \/
  (replay_step mktime m_iTsIndex m_iUTCIndex (fill_callback stack) c r = Undef /\
     recv_step s mktime (Some packet) (sink r) = Undef).
Proof.
  intros (header & payload & Hframe & -> & Hmtu & Hgps & Hidx) Ht Hcount.
  unfold replay_step. rewrite (udp_payload_frame header payload) by done.
  cbn [mbind outcome_bind fill_callback recv_step received pkt_size].
  rewrite (proj2 (Z.eqb_neq (zlen payload) GPS_PACKET_SIZE)) by done.
  unfold FillPacket. rewrite (proj2 (Z.eqb_neq (zlen payload) GPS_PACKET_SIZE)) by done.
  cbn [negb]. rewrite decide_True by lia. unfold ETHERNET_MTU in Hmtu.
  rewrite Nat2Z.id, firstn_all, uwrap_small by lia. fold (received payload (cap_time c)).
  destruct (PushLiDARData _ (sink r)) as [d|e|]; cbn [mbind outcome_bind];
    [left|right; left; by exists e|by right; right].
  rewrite (proj2 (Z.leb_gt (2 ^ 31) (count r + 1))) by lia.
  destruct ((gap <=? count r + 1) && negb (m_iUTCIndex =? 0)) eqn:Hg.
  - apply andb_true_iff in Hg as [_ Hutc]. destruct Hidx as [->|(H1 & H2 & H3 & H4)]; [done|].
    destruct (packet_ts_defined (E := thread_error) payload H1 H2 H3 H4) as [t ->].
    cbn [mbind outcome_bind].
    destruct (pace_timed (E := thread_error) t (cap_now c)
      (Build_Replay 0 (last_pkt_ts r) (last_time r) (sleeps r) d) Ht) as (r' & -> & Ht' & Hs' & Hc').
    exists r'. split_and!; [done|by rewrite Hs'|done|]. rewrite Hc'. cbn. lia.
  - eexists. split; [reflexivity|]. split_and!; [done|exact Ht|cbn; lia].
Qed.

(** C17: replaying a recording is receiving it: for well-formed frames of up to
    1500 bytes that are not GPS messages, whatever the value [count] starts
    with, the reader hands the driver exactly what the network thread would
    have, datagram by datagram, with the same result or the same fault; the
    sleeps change nothing else. *)
Theorem replay_is_reception (records : list Captured) (packets : list PandarPacket)
    (count0 : Z) (d : Driver Q)
    (Hrec : Forall2 recorded records packets) (Hcount : count0 + zlen records < 2 ^ 31)
    (Hshort : zlen records < 2 ^ 31) :
  sink <$> replay records {| count := count0; last_pkt_ts := 0; last_time := None; sleeps := [];
                             sink := d |} = receive_all packets d.
Proof.
  assert (forall r, timed r -> count r + zlen records < 2 ^ 31 ->
    sink <$> replay records r = receive_all packets (sink r)) as Hgen; [|by apply Hgen; [left|]].
  clear Hcount d count0. revert Hshort. induction Hrec as [|c packet records packets Hc _ IH];
    intros Hshort r Ht Hcount; [done|].
  cbn [replay_run receive_all length] in *.
  destruct (replay_step_receives c packet r Hc Ht ltac:(lia))
    as [(r' & -> & -> & Ht' & Hc')|[(e & -> & ->)|(-> & ->)]]; [|done..].
  cbn [mbind outcome_bind]. apply IH; [lia|done|lia].
Qed.
End reception.

Definition ipv4_header : list Z := replicate 12 0 ++ [0x08; 0x00] ++ replicate 28 0.

Definition captured (payload : list Z) (now : Z) : Captured :=
  {| cap_len := 42 + zlen payload; cap_data := ipv4_header ++ payload; cap_time := d_of_Z 5;
     cap_now := now |}.

Lemma captured_frame payload now : frame_of ipv4_header payload (captured payload now).
Proof.
  split; [done|]. split; [|left; by vm_compute].
  cbn [captured cap_len cap_data]. rewrite length_app. by change (length ipv4_header) with 42%nat; lia.
Qed.

(** A first checkpoint, ninety-nine packets, and a second checkpoint two seconds
    later in the recording and half a second later here. *)
Definition dated (sec usec : Z) : list Z := [0; 124; 1; 1; 0; 0; sec; usec; 0; 0; 0].
Definition example_recording : list Captured :=
  captured (dated 10 0) 7000000 :: replicate 99 (captured (dated 11 0) 7100000) ++
  [captured (dated 12 0) 7500000].

Lemma replay_schedule_witness :
  exists r, replay_run (E := Empty_set) mktime_utc 7 1 (fun _ _ _ n => Ret (n + 1)) example_recording
      {| count := 99; last_pkt_ts := 0; last_time := None; sleeps := []; sink := 0 |} = Ret r /\
    sleeps r = [1500000].
Proof.
  destruct (replay_run (E := Empty_set) mktime_utc 7 1 (fun _ _ _ n => Ret (n + 1))
    example_recording _) as [r|[]|] eqn:Hrun; [|vm_compute in Hrun; discriminate Hrun].
  exists r. split; [reflexivity|].
  rewrite (replay_schedule mktime_utc 7 1 _ example_recording 99 0 r Hrun).
  - vm_compute. reflexivity.
  - apply (bool_decide_unpack _). vm_compute. exact I.
Defined.

Definition xtm_payload : list Z := take 820 (pkt_data (xtm_packet 7 35990 (d_of_Z 5))).

Lemma replay_is_reception_witness :
  (sink <$> replay_run mktime_utc 811 805 (fill_callback (F := packets_buffer_fifo) [])
      [captured xtm_payload 0; captured xtm_payload 0]
      {| count := 99; last_pkt_ts := 0; last_time := None; sleeps := []; sink := fresh_driver |}) =
  receive_all (F := packets_buffer_fifo) xtm_settings mktime_utc
    [received [] xtm_payload (d_of_Z 5); received [] xtm_payload (d_of_Z 5)] fresh_driver.
Proof.
  apply (replay_is_reception (F := packets_buffer_fifo) xtm_settings mktime_utc 811 805 []).
  - assert (recorded 811 805 [] (captured xtm_payload 0) (received [] xtm_payload (d_of_Z 5))) as H.
    { exists ipv4_header, xtm_payload. split; [apply captured_frame|].
      split; [reflexivity|].
      assert (zlen xtm_payload = 820) as -> by (vm_compute; reflexivity).
      unfold ETHERNET_MTU, GPS_PACKET_SIZE. lia. }
    constructor; [exact H|]. constructor; [exact H|constructor].
  - reflexivity.
  - reflexivity.
Defined.
