(* ===== verification/Sdk.v ===== *)
(** The interface to the node: [pandarGeneral_sdk.cc], the wrapper
    [pandarGeneral.cc] and the constructors of [PandarGeneral_Internal].

    The calibration thread talks to the sensor in a [World] of [Sockets] and
    then loads what it got, or the configured file. *)
From stdpp Require Import gmap.
From S2P Require Import Prelude SpscQueue Ieee Calendar PacketDefenses CompactCloud PacketFormat.
From S2P Require Import ParseXT ParseLegacy LidarTables PointCalc Correction Framing FramingFacts.
From S2P Require Import Driver Sockets PtcClient.
#[local] Open Scope Z_scope.

(** ** Construction *)

(** [m_sFrameId]. *)
Definition cloud_frame_id (frame_id target_frame fixed_frame : string) : string :=
  if negb (bool_decide (target_frame = "")) then target_frame
  else if negb (bool_decide (fixed_frame = "")) then fixed_frame
  else frame_id.

Definition new_settings (tz pcl_type : Z) (lidar_type timestampType : string)
    (coordinate_correction_flag : bool) (frame_id target_frame fixed_frame : string) : Settings :=
  {| m_sTimestampType := timestampType; tz_second_ := i32 (tz * 3600);
     pcl_type_ := negb (pcl_type =? 0); m_sLidarType := lidar_type;
     m_bCoordinateCorrectionFlag := coordinate_correction_flag;
     m_sFrameId := cloud_frame_id frame_id target_frame fixed_frame |}.

Section sdk.
Context {Q : Type} {depth : Z} `{F : !BoundedFifo thread_error PandarPacket Q depth}.
Context (sinf cosf : float -> float) (stack : list Z).

(** The members a new driver starts with, the queue being given. *)
Definition new_internal (queue : Q) (start_angle : Z) (tfs : TfState) (lidar_type : string)
    : Driver Q :=
  {| m_PacketsBuffer := queue;
     receiver := {| m_queueOverloadDrops := 0; m_enqueuedPackets := 0;
                    m_maxQueueDepthObserved := 0 |};
     process := started start_angle tfs; calibration := Init sinf cosf lidar_type;
     got_lidar_correction_flag := false; enable_lidar_recv_thr_ := false;
     enable_lidar_process_thr_ := false; processing := false; gps_times := [] |}.

(** The constructor for a recording sets them alike: [pcap_reader_] and
    [connect_lidar_], in which it differs, are in [PcapReader] and [Threads]. *)
Definition new_recorded (queue : Q) (start_angle : Z) (tfs : TfState) (lidar_type : string)
    : Driver Q :=
  new_internal queue start_angle tfs lidar_type.

(** [PandarGeneral] passes the arguments of its two constructors on. *)
Definition pg_device (queue : Q) (start_angle : Z) (tfs : TfState) (lidar_type : string)
    : Driver Q :=
  new_internal queue start_angle tfs lidar_type.
Definition pg_recorded (queue : Q) (start_angle : Z) (tfs : TfState) (lidar_type : string)
    : Driver Q :=
  new_recorded queue start_angle tfs lidar_type.

Record PandarGeneralSDK := {
  pandarGeneral_ : Driver Q;
  tcp_command_client_ : option TcpCommandClient;
  correction_content_ : list Z;
}.

Definition set_driver (d : Driver Q) (sdk : PandarGeneralSDK) : PandarGeneralSDK :=
  {| pandarGeneral_ := d; tcp_command_client_ := tcp_command_client_ sdk;
     correction_content_ := correction_content_ sdk |}.

Definition PANDARGENERALSDK_TCP_COMMAND_PORT : Z := 9347.

(** The two constructors; the strings are given without their terminators. *)
Definition sdk_device (queue : Q) (start_angle : Z) (tfs : TfState) (lidar_type : string)
    (device_ip : list Z) : io PandarGeneralSDK :=
  client ← TcpCommandClientNew (Some (device_ip ++ [0])) PANDARGENERALSDK_TCP_COMMAND_PORT;
  mret {| pandarGeneral_ := pg_device queue start_angle tfs lidar_type;
          tcp_command_client_ := client; correction_content_ := [] |}.
Definition sdk_recorded (queue : Q) (start_angle : Z) (tfs : TfState) (lidar_type : string)
    : PandarGeneralSDK :=
  {| pandarGeneral_ := pg_recorded queue start_angle tfs lidar_type;
     tcp_command_client_ := None; correction_content_ := [] |}.

(** ** The wrapper

    [PandarGeneral] hands every call on to its [internal_]. *)

Definition pg_LoadCorrectionFile (file : list Z) (internal_ : Driver Q)
    : outcome thread_error (Z * Driver Q) :=
  '(ret, c) ← LoadCorrectionFile sinf cosf file (calibration internal_);
  Ret (ret, set_calibration c (got_lidar_correction_flag internal_) internal_).
Definition pg_ResetStartAngle (start_angle : Z) (internal_ : Driver Q) : Driver Q :=
  ResetStartAngle start_angle internal_.
Definition pg_Start (lookupTransform : nat -> string -> string -> stamp -> lookup_result)
    (s : Settings) (pcl_callback char_signed : bool) (mktime : tm -> Z) (now : stamp)
    (internal_ : Driver Q) : outcome thread_error (Driver Q) :=
  Start lookupTransform sinf cosf s pcl_callback char_signed mktime now internal_.
Definition pg_Stop (internal_ : Driver Q) : Driver Q := Stop internal_.
Definition pg_PushScanPacket (correction_file : option (list Z)) (scan : list PandarPacketMsg)
    (internal_ : Driver Q) : outcome thread_error (Driver Q) :=
  PushScanPacket sinf cosf correction_file scan stack internal_.
Definition pg_GetCorrectionFileFlag (internal_ : Driver Q) : bool :=
  got_lidar_correction_flag internal_.
Definition pg_SetCorrectionFileFlag (flag : bool) (internal_ : Driver Q) : Driver Q :=
  set_calibration (calibration internal_) flag internal_.

(** ** The facade *)

Definition LoadLidarCorrectionFile (correction_content : list Z) (sdk : PandarGeneralSDK)
    : outcome thread_error (Z * PandarGeneralSDK) :=
  '(ret, d) ← pg_LoadCorrectionFile correction_content (pandarGeneral_ sdk);
  Ret (ret, set_driver d sdk).
Definition GetLidarCalibration (sdk : PandarGeneralSDK) : list Z := correction_content_ sdk.

Definition ResetLidarStartAngle (start_angle : Z) (sdk : PandarGeneralSDK) : PandarGeneralSDK :=
  set_driver (pg_ResetStartAngle start_angle (pandarGeneral_ sdk)) sdk.

(** A load and, when it returns 0, [SetCorrectionFileFlag(true)]. *)
Definition load_and_flag (text : list Z) (sdk : PandarGeneralSDK)
    : outcome thread_error PandarGeneralSDK :=
  '(ret, sdk) ← LoadLidarCorrectionFile text sdk;
  Ret (if ret =? 0 then set_driver (pg_SetCorrectionFileFlag true (pandarGeneral_ sdk)) sdk
       else sdk).

(** ** Calibration *)

(** The effects of the client cannot raise the driver's errors. *)
Definition embed {A} (m : outcome Empty_set A) : outcome thread_error A :=
  match m with Ret a => Ret a | Err e => match e with end | Undef => Undef end.

(** The text the sensor sent: [std::string(buffer)]. *)
Definition sensor_text (block : list (option Z)) (w : World) : outcome thread_error (list Z) :=
  '(bytes, _) ← embed (take_bytes (zlen block) block w);
  c_string bytes.

(** The first half of [GetCalibrationFromDevice]. *)
Definition load_from_device (client : TcpCommandClient) (sdk : PandarGeneralSDK) (w : World)
    : outcome thread_error (PandarGeneralSDK * World) :=
  '((ret, buffer), w) ← embed (TcpCommandGetLidarCalibration stack (Some client) true w);
  match buffer with
  | Some (Some p, _) =>
      if ret =? 0 then
        '(block, w) ← embed (load (Some p) w);
        text ← sensor_text block w;
        sdk ← load_and_flag text {| pandarGeneral_ := pandarGeneral_ sdk;
                tcp_command_client_ := tcp_command_client_ sdk; correction_content_ := text |};
        '(_, w) ← embed (free (Some p) w);
        Ret (sdk, w)
      else Ret (sdk, w)
  | _ => Ret (sdk, w)
  end.

(** [new char[length]], with the file read into it; it does not fail. *)
Definition read_into_new (content : list Z) (w : World) : World :=
  {| dials := dials w; sockets := sockets w; next_fd := next_fd w; sent := sent w;
     heap := <[next_block w := Some <$> content]> (heap w); next_block := S (next_block w);
     mallocs := mallocs w; locked := locked w |}.

(** The second half: the configured file, [None] when it does not open. The
    buffer has no terminator of its own, and is never deleted. *)
Definition load_from_file (correction_file : option (list Z)) (sdk : PandarGeneralSDK) (w : World)
    : outcome thread_error (PandarGeneralSDK * World) :=
  if pg_GetCorrectionFileFlag (pandarGeneral_ sdk) then Ret (sdk, w)
  else
    match correction_file with
    | None => Ret (sdk, w)
    | Some content =>
        let w := read_into_new content w in
        strlidarCalibration ← c_string content;
        sdk ← load_and_flag strlidarCalibration sdk;
        Ret (sdk, w)
    end.

Definition GetCalibrationFromDevice (correction_file : option (list Z)) (sdk : PandarGeneralSDK)
    (w : World) : outcome thread_error (PandarGeneralSDK * World) :=
  match tcp_command_client_ sdk with
  | None => Ret (sdk, w)
  | Some client =>
      '(sdk, w) ← load_from_device client sdk w;
      load_from_file correction_file sdk w
  end.

(** ** Packets, start and stop *)

Definition sdk_PushScanPacket (correction_file : option (list Z)) (packets : list PandarPacketMsg)
    (sdk : PandarGeneralSDK) : outcome thread_error PandarGeneralSDK :=
  d ← pg_PushScanPacket correction_file packets (pandarGeneral_ sdk);
  Ret (set_driver d sdk).

Definition sdk_Stop (sdk : PandarGeneralSDK) : PandarGeneralSDK :=
  set_driver (pg_Stop (pandarGeneral_ sdk)) sdk.

Definition sdk_Start (lookupTransform : nat -> string -> string -> stamp -> lookup_result)
    (s : Settings) (pcl_callback char_signed : bool) (mktime : tm -> Z) (now : stamp)
    (sdk : PandarGeneralSDK) : outcome thread_error PandarGeneralSDK :=
  let sdk := sdk_Stop sdk in
  d ← pg_Start lookupTransform s pcl_callback char_signed mktime now (pandarGeneral_ sdk);
  Ret (set_driver d sdk).
End sdk.
Arguments PandarGeneralSDK Q : clear implicits.
