(* ===== verification/SdkFacts.v ===== *)
(** Where the calibration comes from. *)
From stdpp Require Import gmap.
From S2P Require Import Prelude SpscQueue Ieee Calendar LidarTables PointCalc Correction Framing.
From S2P Require Import FramingFacts Driver DriverFacts Sockets SocketFacts PtcClient PtcFacts Sdk.
#[local] Open Scope Z_scope.

(** The text before the first zero byte. *)
Fixpoint before_nul (bytes : list Z) : list Z :=
  match bytes with
  | [] => []
  | b :: bytes => if b =? 0 then [] else b :: before_nul bytes
  end.

Lemma c_string_terminated bytes : c_string (bytes ++ [0]) = Ret (before_nul bytes).
Proof.
  induction bytes as [|b bytes IH]; [done|]. cbn [c_string before_nul app].
  destruct (b =? 0); [done|]. by rewrite IH.
Qed.

Section calibration.
Context {Q : Type} {depth : Z} `{F : !BoundedFifo thread_error PandarPacket Q depth}.
Context (sinf cosf : float -> float) (stack : list Z) (Hstack : 8 <= zlen stack).
Implicit Types (sdk : PandarGeneralSDK Q).

(** [LoadCorrectionFile] never returns anything but 0. *)
Lemma load_correction_zero {E} text c r :
  LoadCorrectionFile (E := E) sinf cosf text c = Ret r -> r.1 = 0.
Proof.
  unfold LoadCorrectionFile. destruct (getline _ _ _) as [[? line] ifs]. intros H.
  apply bind_Ret_inv in H as ([n cols] & _ & H). apply bind_Ret_inv in H as (c' & _ & H).
  by injection H as <-.
Qed.

Lemma load_and_flag_sets text sdk sdk' :
  load_and_flag sinf cosf text sdk = Ret sdk' -> got_lidar_correction_flag (pandarGeneral_ sdk') = true.
Proof.
  unfold load_and_flag, LoadLidarCorrectionFile. intros H.
  apply bind_Ret_inv in H as ([ret sdk1] & H1 & H).
  apply bind_Ret_inv in H1 as ([ret' d] & H1 & H2). injection H2 as <- <-.
  apply bind_Ret_inv in H1 as ([ret'' c] & Hload & H1). injection H1 as <- <-.
  apply load_correction_zero in Hload. cbn in Hload. subst ret''. by injection H as <-.
Qed.

Lemma sensor_text_terminated bytes w : sensor_text (Some <$> (bytes ++ [0])) w = Ret (before_nul bytes).
Proof.
  unfold sensor_text, take_bytes. rewrite decide_True by lia.
  rewrite Nat2Z.id, firstn_all, mapM_fmap_Some. cbn [embed mbind outcome_bind].
  apply c_string_terminated.
Qed.

Definition with_content (text : list Z) sdk : PandarGeneralSDK Q :=
  {| pandarGeneral_ := pandarGeneral_ sdk; tcp_command_client_ := tcp_command_client_ sdk;
     correction_content_ := text |}.

(** What the configured file gives, if it is read: the blocks left behind are the
    buffer it was read into. *)
Definition file_calibration (correction_file : option (list Z)) sdk
    : outcome thread_error (PandarGeneralSDK Q * list (list Z)) :=
  match pg_GetCorrectionFileFlag (pandarGeneral_ sdk), correction_file with
  | false, Some content =>
      text ← c_string content; sdk' ← load_and_flag sinf cosf text sdk; Ret (sdk', [content])
  | _, _ => Ret (sdk, [])
  end.

(** The blocks of [h'] that [h] does not have, in the order of their allocation. *)
Fixpoint leaks (blocks : list (list Z)) (h h' : gmap nat (list (option Z))) : Prop :=
  match blocks with
  | [] => h' = h
  | block :: blocks => exists p, h !! p = None /\ leaks blocks (<[p := Some <$> block]> h) h'
  end.

(** What the calibration thread comes to: the facade it leaves, and the memory it
    never frees. *)
Definition comes_to (expected : outcome thread_error (PandarGeneralSDK Q * list (list Z)))
    (w : World) (result : outcome thread_error (PandarGeneralSDK Q * World)) : Prop :=
  match expected with
  | Ret (sdk', blocks) =>
      exists w', result = Ret (sdk', w') /\ restored w w' /\ leaks blocks (heap w) (heap w')
  | Err e => result = Err e
  | Undef => result = Undef
  end.

(** What it should come to, by the outcome of the exchange. *)
Definition calibrated (correction_file : option (list Z)) sdk (spec : Z + (Z * list Z))
    : outcome thread_error (PandarGeneralSDK Q * list (list Z)) :=
  match spec with
  | inl _ => file_calibration correction_file sdk
  | inr (_, []) => Undef
  | inr (ret_code, bytes) =>
      if ret_code =? 0 then
        sdk' ← load_and_flag sinf cosf (before_nul bytes) (with_content (before_nul bytes) sdk);
        Ret (sdk', [])
      else
        '(sdk', blocks) ← file_calibration correction_file sdk;
        Ret (sdk', (bytes ++ [0]) :: blocks)
  end.

(** The file after a first half that left [blocks]. *)
Lemma file_comes_to correction_file sdk w w1 blocks :
  restored w w1 -> leaks blocks (heap w) (heap w1) ->
  comes_to ('(sdk', more) ← file_calibration correction_file sdk; Ret (sdk', blocks ++ more)) w
    (load_from_file sinf cosf correction_file sdk w1).
Proof.
  intros Hre Hl. pose proof Hre as [[Hn Hs Hh] Hsock Hlock]. unfold file_calibration, load_from_file.
  destruct (pg_GetCorrectionFileFlag _).
  { cbn. exists w1. split; [done|]. split; [done|]. by rewrite app_nil_r. }
  destruct correction_file as [content|].
  2: { cbn. exists w1. split; [done|]. split; [done|]. by rewrite app_nil_r. }
  destruct (c_string content) as [text|e|]; [|done..]. cbn [mbind outcome_bind].
  destruct (load_and_flag sinf cosf text sdk) as [sdk'|e|]; [|done..]. cbn [mbind outcome_bind comes_to].
  eexists. split; [reflexivity|]. split.
  - split; [split|done|done]; cbn; [done|done|].
    intros b Hb. rewrite lookup_insert_ne by lia. apply Hh. lia.
  - clear Hre Hsock. revert Hl. generalize (heap w). induction blocks as [|block blocks IH]; intros h Hb.
    + cbn in *. subst h. exists (next_block w1). split; [|done]. apply Hh. lia.
    + destruct Hb as (p & Hp & Hb). exists p. split; [done|]. by apply IH.
Qed.

(** C16: where the calibration thread takes its calibration from, if no allocation
    fails. When the exchange succeeds with return code 0 and some payload, from the
    sensor, and then never from the file; no memory is left behind. When the
    connection or the exchange fails, or the sensor refuses with another return
    code, from the configured file; the buffer it is read into is never freed, nor
    is the copy of a refusal. In all these cases the thread ends with its socket
    closed and the lock released, having loaded exactly the text before the first
    zero byte, unless the load itself faults. A reply without payload, whatever its
    code, faults, and so does a file whose buffer has no zero byte. *)
Theorem calibration_source (correction_file : option (list Z)) (w : World)
    (client : TcpCommandClient) (v6 : bool) (sdk : PandarGeneralSDK Q)
    (Hclient : tcp_command_client_ sdk = Some client)
    (Hw : ready w client v6) (Hm : mallocs w = []) :
  comes_to
    (calibrated correction_file sdk
       (exchange_spec v6 (next_dial w) [plain_request PTC_COMMAND_GET_LIDAR_CALIBRATION]))
    w (GetCalibrationFromDevice sinf cosf stack correction_file sdk w).
Proof.
  assert (get_outcome w (plain_request PTC_COMMAND_GET_LIDAR_CALIBRATION)
    (exchange_spec v6 (next_dial w) [plain_request PTC_COMMAND_GET_LIDAR_CALIBRATION])
    (TcpCommandGetLidarCalibration stack (Some client) true w)) as Hget
    by (by apply get_command).
  unfold GetCalibrationFromDevice, load_from_device, calibrated. rewrite Hclient.
  destruct (exchange_spec _ _ _) as [code|[ret_code [|b bytes]]]; cbn [get_outcome] in Hget.
  - destruct Hget as (w' & -> & Hre & Hh). cbn [embed mbind outcome_bind].
    pose proof (file_comes_to correction_file sdk w w' [] Hre Hh) as Hfile.
    by destruct (file_calibration _ _) as [[]| |].
  - by rewrite Hget.
  - destruct Hget as (w' & p & -> & Hre & [Hfresh Hh] & _). cbn [embed mbind outcome_bind].
    set (text := b :: bytes) in *. destruct (ret_code =? 0).
    + unfold load. cbn [mbind option_bind]. rewrite Hh, lookup_insert_eq.
      cbn [embed mbind outcome_bind]. rewrite sensor_text_terminated. cbn [mbind outcome_bind].
      unfold with_content. rewrite Hclient.
      destruct (load_and_flag _ _ _ _) as [sdk'|e|] eqn:Hload; [|reflexivity..]. cbn [mbind outcome_bind].
      unfold free. rewrite Hh, lookup_insert_eq, delete_insert_id by done.
      cbn [embed mbind outcome_bind]. unfold load_from_file, pg_GetCorrectionFileFlag. rewrite (load_and_flag_sets _ _ _ Hload).
      cbn [comes_to leaks]. eexists. split; [reflexivity|]. split; [|done].
      apply restored_set_heap; [done|]. eapply heap_fresh_insert; [apply Hre|exact Hh].
    + cbn [mbind outcome_bind].
      apply (file_comes_to correction_file sdk w w' [text ++ [0]] Hre). by exists p.
Qed.
End calibration.

Definition example_sdk : PandarGeneralSDK (BoundedSpscQueue PandarPacket) :=
  {| pandarGeneral_ := fresh_driver; tcp_command_client_ := Some example_client;
     correction_content_ := [] |}.

Definition returns {A} (m : outcome thread_error A) : bool :=
  match m with Ret _ => true | _ => false end.

(** Without a connection the configured file is taken, and its buffer stays. *)
Definition example_down : World :=
  {| dials := []; sockets := ∅; next_fd := 3; sent := []; heap := ∅; next_block := 0;
     mallocs := []; locked := false |}.
Definition example_content : list Z := [65; 66; 67; 0; 9].

Lemma example_down_ready : ready example_down example_client false.
Proof. by split. Qed.

Lemma calibration_source_witness :
  (exists sdk' w', GetCalibrationFromDevice id id example_stack None
      example_sdk example_world = Ret (sdk', w') /\ heap w' = ∅ /\ locked w' = false) /\
  (exists sdk' w' p, GetCalibrationFromDevice id id example_stack (Some example_content)
      example_sdk example_down = Ret (sdk', w') /\
      heap w' = <[p := Some <$> example_content]> ∅ /\ locked w' = false).
Proof.
  assert (returns (load_and_flag id id [65; 66; 67]
    (with_content [65; 66; 67] example_sdk)) = true) as Hload by (vm_compute; reflexivity).
  assert (returns (load_and_flag id id [65; 66; 67] example_sdk) = true) as Hfile
    by (vm_compute; reflexivity).
  split.
  - pose proof (calibration_source id id example_stack
      ltac:(vm_compute; discriminate) None example_world example_client false example_sdk eq_refl
      example_ready eq_refl) as H.
    assert (exchange_spec false (next_dial example_world)
      [plain_request PTC_COMMAND_GET_LIDAR_CALIBRATION] = inr (0, [65; 66; 67])) as Hspec
      by (vm_compute; reflexivity).
    rewrite Hspec in H. cbn [calibrated Z.eqb] in H.
    change (before_nul [65; 66; 67]) with [65; 66; 67] in H.
    destruct (load_and_flag id id _ _) as [sdk'| |]; [|discriminate Hload..].
    destruct H as (w' & Hrun & Hre & Hh). exists sdk', w'.
    split; [exact Hrun|]. split; [exact Hh|exact (re_locked _ _ Hre)].
  - pose proof (calibration_source id id example_stack
      ltac:(vm_compute; discriminate) (Some example_content) example_down example_client false
      example_sdk eq_refl example_down_ready eq_refl) as H.
    assert (exists code, exchange_spec false (next_dial example_down)
      [plain_request PTC_COMMAND_GET_LIDAR_CALIBRATION] = inl code) as [code Hspec]
      by (eexists; vm_compute; reflexivity).
    rewrite Hspec in H. cbn [calibrated] in H. unfold file_calibration in H.
    change (pg_GetCorrectionFileFlag (pandarGeneral_ example_sdk)) with false in H.
    change (c_string example_content) with (@Ret thread_error _ [65; 66; 67]) in H.
    cbn [mbind outcome_bind] in H.
    destruct (load_and_flag id id _ example_sdk) as [sdk'| |]; [|discriminate Hfile..].
    destruct H as (w' & Hrun & Hre & p & _ & Hh). cbn [leaks] in Hh. exists sdk', w', p.
    split; [exact Hrun|]. split; [exact Hh|exact (re_locked _ _ Hre)].
Defined.
