(* ===== verification/Launch.v ===== *)
(** Starting the node: the constructor and [initialize_sdk] of [main_ros2.cc].

    The parameters, the correction file and the answers of [malloc] are inputs;
    the publishers, the subscriptions and the messages are left out, the live
    source is modelled in [Input]. *)
From stdpp Require Import gmap.
From S2P Require Import Prelude SpscQueue Ieee Calendar PacketDefenses CompactCloud PacketFormat.
From S2P Require Import LidarTables PointCalc Correction Framing FramingFacts Driver Sockets.
From S2P Require Import PtcClient Node Sdk.
#[local] Open Scope Z_scope.

(** The parameters of the node; [server_ip] is given as bytes, without its
    terminator. The ports and the multicast address are inputs of [Input]. *)
Record Parameters := {
  pcap_file : string;
  server_ip : list Z;
  startAngle : float;
  lidar_type : string;
  frame_id : string;
  pcldata_type : Z;
  publish_type : string;
  timestamp_type : string;
  data_type : string;
  coordinate_correction_flag : bool;
  target_frame : string;
  fixed_frame : string;
  pointcloud_reliability : string;
  pointcloud_qos_depth : Z;
  pointcloud_layout : string;
}.

(** The values declared for the case that none are given. *)
Definition declared_parameters : Parameters :=
  {| pcap_file := ""; server_ip := []; startAngle := d_of_Z 0; lidar_type := ""; frame_id := "";
     pcldata_type := 0; publish_type := ""; timestamp_type := ""; data_type := "";
     coordinate_correction_flag := false; target_frame := ""; fixed_frame := "";
     pointcloud_reliability := "reliable"; pointcloud_qos_depth := 1000;
     pointcloud_layout := "compact" |}.

(** The three kinds of [hsdk]. *)
Inductive source := Recording | Bag | Device.

(** What leaves the constructor: an exception of its own checks, of the SDK, or,
    ending the process, of the new processing thread. *)
Inductive launch_error := node_failed (e : node_error) | driver_failed | terminated.

Definition in_node {A} (m : outcome node_error A) : outcome launch_error A :=
  match m with Ret a => Ret a | Err e => Err (node_failed e) | Undef => Undef end.
Definition in_driver {A} (thrown : launch_error) (m : outcome thread_error A)
    : outcome launch_error A :=
  match m with Ret a => Ret a | Err e => Err thrown | Undef => Undef end.

Section launch.
Context {Q : Type} {depth : Z} `{F : !BoundedFifo thread_error PandarPacket Q depth}.
Context (lookupTransform : nat -> string -> string -> stamp -> lookup_result).
Context (sinf cosf : float -> float) (char_signed : bool) (mktime : tm -> Z).
(** The queue as constructed, the matrices before the first transformation, the
    time the processing thread starts at, the correction file if it opens. *)
Context (queue : Q) (unset : point3 -> point3) (now : stamp) (correction_file : option (list Z)).

Definition initial_tf (p : Parameters) : TfState :=
  {| m_sSensorFrame := frame_id p; m_sFixedFrame := fixed_frame p;
     m_sTargetFrame := target_frame p; m_tf_buffer := false; m_tf_matrix_to_fixed := unset;
     m_tf_matrix_to_target := unset; tf_queries := 0 |}.

Definition settings_of (p : Parameters) : Settings :=
  new_settings 0 (pcldata_type p) (lidar_type p) (timestamp_type p) (coordinate_correction_flag p)
    (frame_id p) (target_frame p) (fixed_frame p).

(** The file a recording is played with, used as a C string; the flag of
    [GetCorrectionFileFlag] stays as it is. *)
Definition load_recorded (sdk : PandarGeneralSDK Q)
    : outcome thread_error (PandarGeneralSDK Q) :=
  match correction_file with
  | None => Ret sdk
  | Some content =>
      strlidarCalibration ← c_string content;
      '(_, sdk) ← LoadLidarCorrectionFile sinf cosf strlidarCalibration sdk;
      Ret sdk
  end.

(** Where the packets come from. *)
Definition source_of (p : Parameters) : source :=
  if negb (bool_decide (pcap_file p = "")) then Recording
  else if bool_decide (data_type p = "rosbag") then Bag else Device.

(** The three ways to make [hsdk]: a recording, a bag, the sensor. *)
Definition make_sdk (p : Parameters) (start_angle : Z) (w : World)
    : outcome thread_error (PandarGeneralSDK Q * World) :=
  if negb (bool_decide (pcap_file p = "")) then
    sdk ← load_recorded (sdk_recorded sinf cosf queue start_angle (initial_tf p) (lidar_type p));
    Ret (sdk, w)
  else if bool_decide (data_type p = "rosbag") then
    Ret (sdk_recorded sinf cosf queue start_angle (initial_tf p) (lidar_type p), w)
  else
    embed (sdk_device sinf cosf queue start_angle (initial_tf p) (lidar_type p) (server_ip p) w).

Definition initialize_sdk (p : Parameters) (w : World)
    : outcome launch_error (PandarGeneralSDK Q * World) :=
  start_angle ← in_node (start_angle_argument (startAngle p));
  '(hsdk, w) ← in_driver driver_failed (make_sdk p start_angle w);
  hsdk ← in_driver terminated (sdk_Start sinf cosf lookupTransform (settings_of p) true
                                 char_signed mktime now hsdk);
  Ret (hsdk, w).

(** The constructor: on an exception of [initialize_sdk] it stops the publishing
    thread and throws it again. *)
Definition HesaiLidarClient (p : Parameters) (w : World)
    : outcome launch_error (PandarGeneralSDK Q * World) * Node :=
  match pointcloud_qos (pointcloud_reliability p) (pointcloud_qos_depth p) (pointcloud_layout p) with
  | Ret _ =>
      match initialize_sdk p w with
      | Err terminated => (Err terminated, node_new)
      | Err e => (Err e, stop_publishing node_new)
      | r => (r, node_new)
      end
  | Err e => (Err (node_failed e), node_new)
  | Undef => (Undef, node_new)
  end.

(** [scanCallback]. *)
Definition scanCallback (stack : list Z) (scan : list PandarPacketMsg) (hsdk : PandarGeneralSDK Q)
    : outcome thread_error (PandarGeneralSDK Q) :=
  sdk_PushScanPacket sinf cosf stack correction_file scan hsdk.
End launch.
