(* ===== verification/LaunchFacts.v ===== *)
(** What a launched node does: the composition of the facade, the driver, the
    calibration and the processing thread. *)
From stdpp Require Import gmap.
From S2P Require Import Prelude SpscQueue Ieee IeeeRound IeeeInterval Calendar PacketDefenses CompactCloud.
From S2P Require Import PacketFormat ParseXT ParseLegacy LidarTables PointCalc Correction.
From S2P Require Import CalibrationFacts.
From S2P Require Import Framing FrameModes FramingFacts Streams Driver DriverFacts Sockets PtcClient.
From S2P Require Import PtcFacts Node NodeFacts.
From S2P Require Import Sdk SdkFacts Launch.
#[local] Open Scope Z_scope.

(** ** Operations on a running driver *)

(** A turn of one of the two threads, a calibration loaded between two packets,
    a scan of a bag, and the calls of the node. *)
Inductive operation :=
  | Turn (u : turn)
  | Calibrate (text : list Z)
  | Scan (packets : list PandarPacketMsg)
  | SetAngle (start_angle : Z)
  | StopDriver
  | StartDriver (now : stamp).

(** A correction file whose lines are numbered from 1, one for each laser and at
    most 64, with azimuth offsets within the limits. *)
Record good_file (t : string) (n : nat) (text : list Z) (rows : list (list Z * list Z))
    (elevs azimuths : list float) : Prop := {
  gf_text : exists header, (newline ∉ header) /\ text = header ++ newline :: file_lines 1 rows;
  gf_rows : (n <= length rows <= 64)%nat;
  gf_elevs : Forall2 (fun row v => field row.1 v) rows elevs;
  gf_azimuths : Forall2 (fun row v => field row.2 v) rows azimuths;
  gf_limit : Forall (dwithin (- offset_limit t) (offset_limit t)) azimuths;
}.

Definition calibrates (t : string) (n : nat) (text : list Z) : Prop :=
  exists rows elevs azimuths, good_file t n text rows elevs azimuths.

(** The configured file, if it opens: its buffer holds a terminator. *)
Definition file_ok (correction_file : option (list Z)) (t : string) (n : nat) : Prop :=
  forall content, correction_file = Some content ->
    exists text rest, content = text ++ 0 :: rest /\ (0 ∉ text) /\ calibrates t n text.

Lemma c_string_prefix text rest : 0 ∉ text -> c_string (text ++ 0 :: rest) = Ret text.
Proof.
  induction text as [|b text IH]; [done|]. rewrite not_elem_of_cons. intros [Hb Ht].
  cbn [c_string app]. rewrite (proj2 (Z.eqb_neq b 0)) by done. by rewrite IH.
Qed.

(** ** Packets of a bag *)

(** The packet made of any other message. *)
Definition recorded_packet (stack : list Z) (m : PandarPacketMsg) : PandarPacket :=
  {| pkt_data := take (Z.to_nat (size m)) (data m) ++ stack; pkt_size := size m;
     pkt_stamp := d_add (d_of_Z (stamp_sec m)) (d_div (d_of_Z (stamp_nanosec m)) (d_of_Z 1000000000)) |}.

(** A correction message of a sound text, or of a length the driver takes for
    damaged; any other message fits its array. *)
Record good_message (t : string) (n : nat) (stack : list Z) (deliverable : PandarPacket -> Prop)
    (m : PandarPacketMsg) : Prop := {
  gm_bytes : exists b0 rest, data m = b0 :: rest /\ (b0 = 0x47 -> rest <> []);
  gm_correction : is_correction m = true -> 8 <= zlen (data m) /\
    (u32 (declared_length m) = size m ->
     0 < declared_length m /\ 8 + size m <= zlen (data m) /\
     exists text, c_string (take (Z.to_nat (size m)) (drop 8 (data m))) = @Ret thread_error _ text /\
       calibrates t n text);
  gm_packet : is_correction m = false ->
    0 <= size m <= zlen (data m) /\ size m <= ETHERNET_MTU /\ deliverable (recorded_packet stack m);
}.

Section lifecycle.
Context {Q : Type} {depth : Z} `{F : !BoundedFifo thread_error PandarPacket Q depth}.
Context (lookupTransform : nat -> string -> string -> stamp -> lookup_result).
Context (sinf cosf : float -> float) (k : sensor) (t : string) (n : nat) (s : Settings).
Context (pcl_callback char_signed : bool) (mktime : tm -> Z) (stack : list Z).
Context (correction_file : option (list Z)).
Context (Hk : supported k t n s) (Hfile : file_ok correction_file t n).
Implicit Types (sdk : PandarGeneralSDK Q).

Definition operate (o : operation) (sdk : PandarGeneralSDK Q)
    : outcome thread_error (PandarGeneralSDK Q) :=
  match o with
  | Turn u =>
      d ← take_turn lookupTransform sinf cosf s pcl_callback char_signed mktime u
            (pandarGeneral_ sdk);
      Ret (set_driver d sdk)
  | Calibrate text => load_and_flag sinf cosf text sdk
  | Scan packets => scanCallback sinf cosf correction_file stack packets sdk
  | SetAngle start_angle => Ret (ResetLidarStartAngle start_angle sdk)
  | StopDriver => Ret (sdk_Stop sdk)
  | StartDriver now =>
      sdk_Start sinf cosf lookupTransform s pcl_callback char_signed mktime now sdk
  end.

Fixpoint operate_all (ops : list operation) (sdk : PandarGeneralSDK Q)
    : outcome thread_error (PandarGeneralSDK Q) :=
  match ops with
  | [] => Ret sdk
  | o :: ops => sdk ← operate o sdk; operate_all ops sdk
  end.

Definition good_operation (o : operation) : Prop :=
  match o with
  | Turn u => good_turn k t s char_signed u
  | Calibrate text => calibrates t n text
  | Scan packets => Forall (good_message t n stack (stream_good k t s char_signed)) packets
  | _ => True
  end.

(** What every operation keeps. *)
Record running_ok (waiting : list PandarPacket) (d : Driver Q) : Prop := {
  ro_queue : fifo_repr (m_PacketsBuffer d) waiting;
  ro_waiting : Forall (stream_good k t s char_signed) waiting;
  ro_framing : stream_inv s (process d);
  ro_usable : usable t n (calibration d);
  ro_angles : angles_only sinf cosf t (calibration d);
}.

Definition sdk_ok sdk : Prop := exists waiting, running_ok waiting (pandarGeneral_ sdk).

Lemma load_usable {E} text c :
  calibrates t n text -> usable t n c -> angles_only sinf cosf t c ->
  exists c', LoadCorrectionFile (E := E) sinf cosf text c = Ret (0, c') /\ usable t n c' /\
    angles_only sinf cosf t c'.
Proof.
  intros (rows & elevs & azimuths & [(header & Hh & ->) Hrows He Ha Hl]) Hc Hao.
  pose proof (supported_type _ _ _ _ Hk).
  by apply (good_file_usable sinf cosf t n header rows elevs azimuths).
Qed.

Lemma load_ok text sdk :
  calibrates t n text -> sdk_ok sdk ->
  exists sdk', load_and_flag sinf cosf text sdk = Ret sdk' /\ sdk_ok sdk' /\
    tcp_command_client_ sdk' = tcp_command_client_ sdk.
Proof.
  intros Htext (waiting & [Hq Hw Hf Hu Ha]).
  destruct (load_usable (E := thread_error) text _ Htext Hu Ha) as (c' & Hload & Hu' & Ha').
  unfold load_and_flag, LoadLidarCorrectionFile, pg_LoadCorrectionFile. rewrite Hload.
  eexists. split; [reflexivity|]. split; [|done]. by exists waiting.
Qed.

Lemma stop_ok waiting (d : Driver Q) : running_ok waiting d -> running_ok [] (Stop d).
Proof.
  intros [Hq Hw Hf Hu Ha]. split; [by eapply fifo_reset_empty|constructor| |done|done].
  by apply (stream_inv_ext _ (process d)).
Qed.

Lemma start_ok waiting (d : Driver Q) now :
  running_ok waiting d ->
  exists d', Start lookupTransform sinf cosf s pcl_callback char_signed mktime now d = Ret d' /\
    running_ok [] d' /\ processing d' = true /\ start_angle_ (process d') = start_angle_ (process d).
Proof.
  intros [Hq Hw Hf Hu Ha]. pose proof (stream_inv_frames _ _ Hf) as [_ Htgt].
  unfold Start. cbn [Stop process]. unfold ProcessLiarPacket, computeTransformToTarget.
  cbn [tf set_outMsg set_scan set_frame set_last set_guard set_tracker].
  rewrite Htgt. cbn [is_empty bool_decide mbind outcome_bind negb process_packets].
  eexists. split; [reflexivity|]. cbn. split; [|done]. split; cbn; [|constructor| |done|done].
  - do 2 (eapply fifo_reset_empty). exact Hq.
  - by apply (stream_inv_restart _ (process d)).
Qed.

Lemma push_ok waiting (d : Driver Q) packet :
  running_ok waiting d -> stream_good k t s char_signed packet ->
  exists d' waiting', PushLiDARData packet d = Ret d' /\ running_ok waiting' d'.
Proof.
  intros [Hq Hw Hf Hu Ha] Hp. unfold PushLiDARData. destruct (decide (zlen waiting < depth)) as [Hlt|Hge].
  - destruct (fifo_push_room _ _ packet (Some 0) Hq Hlt) as (q' & -> & Hq').
    eexists _, (waiting ++ [packet]). split; [reflexivity|]. split; cbn; try done.
    by apply Forall_app_2; [|constructor].
  - rewrite (fifo_push_full _ _ packet (Some 0) Hq) by lia.
    eexists _, waiting. split; [reflexivity|]. by split.
Qed.

Lemma receive_ok waiting (d : Driver Q) packet :
  running_ok waiting d -> good_turn k t s char_signed (Receive (Some packet)) ->
  exists d' waiting', recv_step s mktime (Some packet) d = Ret d' /\ running_ok waiting' d'.
Proof.
  intros Hd Hp. cbn [recv_step]. cbn [good_turn] in Hp. unfold is_gps in Hp.
  destruct (Z.eqb_spec (pkt_size packet) GPS_PACKET_SIZE) as [Hsz|]; [|by eapply push_ok].
  rewrite Hsz. destruct (ParseGPS_defined _ Hp) as [g ->]. eexists _, waiting.
  split; [reflexivity|]. by destruct Hd.
Qed.

(** A text loaded into the tables, the flag being set. *)
Lemma load_message_ok waiting (d : Driver Q) text :
  running_ok waiting d -> calibrates t n text ->
  exists c, LoadCorrectionFile sinf cosf text (calibration d) = @Ret thread_error _ (0, c) /\
    running_ok waiting (set_calibration c true d).
Proof.
  intros [Hq Hw Hf Hu Ha] Htext.
  destruct (load_usable (E := thread_error) text _ Htext Hu Ha) as (c & Hload & Hu' & Ha').
  by exists c.
Qed.

Lemma arr_get_nth {E} (l : list Z) i :
  0 <= i < zlen l -> arr_get (E := E) l i = Ret (nth (Z.to_nat i) l 0).
Proof.
  intros Hi. destruct (arr_get_in (E := E) l i Hi) as (x & Hx & ->). f_equal. symmetry.
  by apply nth_lookup_Some.
Qed.

Lemma correction_ok waiting (d : Driver Q) m :
  running_ok waiting d -> good_message t n stack (stream_good k t s char_signed) m ->
  is_correction m = true ->
  exists d', push_correction sinf cosf correction_file m d = Ret d' /\ running_ok waiting d'.
Proof.
  intros Hd [_ Hcor _] Hm. destruct (Hcor Hm) as [H8 Hlen]. unfold push_correction.
  destruct (got_lidar_correction_flag d) eqn:Hflag; [by exists d|].
  rewrite !arr_get_nth by lia. cbn [mbind outcome_bind].
  change (exists d', (d ← (if u32 (declared_length m) =? size m then
      if decide (0 < declared_length m /\ 8 + size m <= zlen (data m)) then
        text ← c_string (take (Z.to_nat (size m)) (drop 8 (data m)));
        '(_, c) ← LoadCorrectionFile sinf cosf text (calibration d);
        Ret (set_calibration c true d)
      else Undef else Ret d);
    if negb (got_lidar_correction_flag d) then load_from_path sinf cosf correction_file d else Ret d)
    = Ret d' /\ running_ok waiting d').
  destruct (Z.eqb_spec (u32 (declared_length m)) (size m)) as [Heq|Hne].
  - destruct (Hlen Heq) as (Hpos & Hfit & text & Hc & Htext). rewrite decide_True by done. rewrite Hc.
    destruct (load_message_ok waiting d text Hd Htext) as (c & Hload & Hd').
    cbn [mbind outcome_bind]. rewrite Hload. by eexists.
  - cbn [mbind outcome_bind]. rewrite Hflag. cbn [negb]. unfold load_from_path.
    destruct correction_file as [content|] eqn:Hcf.
    + destruct (Hfile content eq_refl) as (text & rest & -> & Hz & Htext). rewrite c_string_prefix by done.
      destruct (load_message_ok waiting d text Hd Htext) as (c & Hload & Hd').
      cbn [mbind outcome_bind]. rewrite Hload. by eexists.
    + eexists. split; [reflexivity|]. by destruct Hd.
Qed.

(** What [PushScanPacket] does with a message. *)
Lemma message_step m packets (d : Driver Q) :
  (exists b0 rest, data m = b0 :: rest /\ (b0 = 0x47 -> rest <> [])) ->
  PushScanPacket sinf cosf correction_file (m :: packets) stack d =
  (d ← (if is_correction m then push_correction sinf cosf correction_file m d
        else push_recorded m stack d);
   PushScanPacket sinf cosf correction_file packets stack d).
Proof.
  intros (b0 & rest & Hdata & Hrest). cbn [PushScanPacket]. unfold is_correction. rewrite Hdata.
  rewrite (arr_get_nth _ 0) by (rewrite ?length_cons; cbn [length]; lia).
  change (nth (Z.to_nat 0) (b0 :: rest) 0) with b0. cbn [mbind outcome_bind].
  destruct (Z.eqb_spec b0 0x47) as [Hb|Hb].
  - destruct rest as [|b1 rest]; [by destruct (Hrest Hb)|].
    rewrite (arr_get_nth _ 1) by (cbn [length]; lia). reflexivity.
  - by destruct rest.
Qed.

Lemma message_ok waiting (d : Driver Q) m :
  running_ok waiting d -> good_message t n stack (stream_good k t s char_signed) m ->
  exists d' waiting', (if is_correction m then push_correction sinf cosf correction_file m d
    else push_recorded m stack d) = Ret d' /\ running_ok waiting' d'.
Proof.
  intros Hd Hm. destruct (is_correction m) eqn:Hcor.
  - destruct (correction_ok waiting d m Hd Hm Hcor) as (d' & -> & Hd'). by eexists _, _.
  - destruct (gm_packet _ _ _ _ _ Hm Hcor) as (Hsz & Hmtu & Hp). unfold push_recorded.
    rewrite decide_True by done. by eapply push_ok.
Qed.

Lemma scan_ok packets waiting (d : Driver Q) :
  running_ok waiting d -> Forall (good_message t n stack (stream_good k t s char_signed)) packets ->
  exists d' waiting', PushScanPacket sinf cosf correction_file packets stack d = Ret d' /\
    running_ok waiting' d'.
Proof.
  intros Hd Hgood. revert waiting d Hd. induction Hgood as [|m packets Hm _ IH]; intros waiting d Hd.
  { by exists d, waiting. }
  rewrite message_step by apply Hm. destruct (message_ok waiting d m Hd Hm) as (d1 & w1 & -> & Hd1).
  cbn [mbind outcome_bind]. by eapply IH.
Qed.

Lemma process_ok waiting (d : Driver Q) fresh :
  running_ok waiting d -> ~ nearly_full k s (process d) ->
  exists d' waiting',
    process_step lookupTransform sinf cosf s pcl_callback char_signed mktime fresh d = Ret d' /\
    running_ok waiting' d'.
Proof.
  intros [Hq Hw Hf Hu Ha] Hroom. unfold process_step.
  destruct (processing d && enable_lidar_process_thr_ d); [|by exists d, waiting].
  destruct waiting as [|packet waiting].
  - rewrite (fifo_pop_empty _ fresh Hq). eexists _, []. split; [reflexivity|]. by split.
  - destruct (fifo_pop_cons _ packet waiting fresh Hq) as (q' & -> & Hq').
    cbn [mbind outcome_bind negb]. apply Forall_cons in Hw as [Hp Hw].
    destruct (stream_step lookupTransform sinf cosf k t n (calibration d) s pcl_callback char_signed
      mktime Hk Hu packet (process d) Hf Hp Hroom) as (p' & -> & Hinv & _).
    eexists _, waiting. split; [reflexivity|]. by split.
Qed.

Lemma operate_ok o sdk :
  sdk_ok sdk -> good_operation o ->
  (exists fresh, o = Turn (ProcessOne fresh)) /\ nearly_full k s (process (pandarGeneral_ sdk)) \/
  exists sdk', operate o sdk = Ret sdk' /\ sdk_ok sdk'.
Proof.
  intros Hok Ho. pose proof Hok as (waiting & Hd). destruct o as [u|text|packets|angle| |now].
  - cbn [operate]. destruct u as [[packet|]|fresh]; cbn [take_turn].
    + right. destruct (receive_ok _ _ packet Hd Ho) as (d' & waiting' & -> & Hd').
      eexists. split; [reflexivity|]. by exists waiting'.
    + right. eexists. split; [reflexivity|]. by exists waiting.
    + destruct (decide (nearly_full k s (process (pandarGeneral_ sdk)))) as [Hover|Hroom].
      { left. split; [by exists fresh|done]. }
      right. destruct (process_ok _ _ fresh Hd Hroom) as (d' & waiting' & -> & Hd').
      eexists. split; [reflexivity|]. by exists waiting'.
  - right. destruct (load_ok text sdk Ho Hok) as (sdk' & Hload & Hok' & _). by exists sdk'.
  - right. cbn [operate]. unfold scanCallback, sdk_PushScanPacket, pg_PushScanPacket.
    destruct (scan_ok packets waiting _ Hd Ho) as (d' & waiting' & -> & Hd').
    eexists. split; [reflexivity|]. by exists waiting'.
  - right. eexists. split; [reflexivity|]. exists waiting. destruct Hd. split; try done.
    by eapply stream_inv_ext.
  - right. eexists. split; [reflexivity|]. exists []. by eapply stop_ok.
  - right. cbn [operate]. unfold sdk_Start, pg_Start.
    destruct (start_ok [] (Stop (pandarGeneral_ sdk)) now (stop_ok _ _ Hd)) as (d' & Hstart & Hd' & _).
    cbn [sdk_Stop set_driver pandarGeneral_]. unfold pg_Stop. rewrite Hstart.
    eexists. split; [reflexivity|]. by exists [].
Qed.

Lemma operate_all_ok ops sdk :
  sdk_ok sdk -> Forall good_operation ops ->
  (exists pre fresh post sdk', ops = pre ++ Turn (ProcessOne fresh) :: post /\ operate_all pre sdk = Ret sdk' /\
     nearly_full k s (process (pandarGeneral_ sdk'))) \/
  (exists sdk', operate_all ops sdk = Ret sdk' /\ sdk_ok sdk').
Proof.
  intros Hok Hops. revert sdk Hok. induction Hops as [|o ops Ho _ IH]; intros sdk Hok.
  { right. by exists sdk. }
  destruct (operate_ok o sdk Hok Ho) as [[[fresh ->] Hover]|(sdk1 & Hop & Hok1)].
  { left. by exists [], fresh, ops, sdk. }
  cbn [operate_all]. rewrite Hop. cbn [mbind outcome_bind].
  destruct (IH sdk1 Hok1) as [(pre & fresh & post & sdk2 & -> & Hrun & Hover)|(sdk2 & Hrun & Hok2)].
  - left. exists (o :: pre), fresh, post, sdk2. cbn [operate_all]. rewrite Hop. by split.
  - right. by exists sdk2.
Qed.
End lifecycle.

(** ** Launching *)

Lemma strlen_prefix text rest : 0 ∉ text -> strlen (text ++ 0 :: rest) = Ret (zlen text).
Proof.
  induction text as [|b text IH]; [done|]. rewrite not_elem_of_cons. intros [Hb Ht].
  cbn [strlen app]. rewrite (proj2 (Z.eqb_neq b 0)) by done. rewrite IH by done.
  cbn [mbind outcome_bind]. f_equal. cbn [length]. lia.
Qed.

(** The steps of [initialize_sdk]. *)
Lemma three_steps {A B} (m1 : outcome node_error A) (m2 : A -> outcome thread_error (B * World))
    (m3 : B -> outcome thread_error B) a b c w' :
  m1 = Ret a -> m2 a = Ret (b, w') -> m3 b = Ret c ->
  (a ← in_node m1; '(b, w) ← in_driver driver_failed (m2 a); b ← in_driver terminated (m3 b);
   Ret (b, w)) = Ret (c, w').
Proof. intros -> H2 H3. cbn. rewrite H2. cbn. by rewrite H3. Qed.

(** The address fits the client's array, with or without room for the
    terminator; [malloc] may fail. *)
Lemma client_new_defined ip port w :
  0 ∉ ip -> zlen ip <= 256 ->
  exists client w', TcpCommandClientNew (Some (ip ++ [0])) port w = Ret (client, w').
Proof.
  intros Hip Hlen. unfold TcpCommandClientNew, mbind, io_bind, mret, io_ret.
  assert (exists b w', malloc 320 w = Ret (b, w')) as (b & w' & ->).
  { unfold malloc. repeat case_match; by eexists _, _. }
  destruct b as [b|]; [|by eexists _, _].
  rewrite strlen_prefix by done. unfold lift. rewrite decide_True by done. by eexists _, _.
Qed.

Section launch.
Context {Q : Type} {depth : Z} `{F : !BoundedFifo thread_error PandarPacket Q depth}.
Context (lookupTransform : nat -> string -> string -> stamp -> lookup_result).
Context (sinf cosf : float -> float) (char_signed : bool) (mktime : tm -> Z).
Context (queue : Q) (unset : point3 -> point3) (now : stamp) (correction_file : option (list Z)).
Context (k : sensor) (t : string) (n : nat) (p : Parameters) (start_angle : Z).
Context (Hk : supported k t n (settings_of p)) (Hqueue : fifo_repr queue []).
Context (Hfixed : fixed_frame p = ""%string) (Htarget : target_frame p = ""%string).

Lemma new_internal_ok :
  running_ok (F := F) sinf cosf k t n (settings_of p) char_signed []
    (new_internal sinf cosf queue start_angle (initial_tf unset p) (lidar_type p)).
Proof.
  pose proof (supported_type _ _ _ _ Hk) as Ht. destruct Hk as [Htype _].
  change (m_sLidarType (settings_of p)) with (lidar_type p) in Htype. rewrite Htype.
  split; cbn; [done|constructor| |by apply init_usable|by eapply init_angles_only].
  by apply stream_inv_started.
Qed.

Lemma load_recorded_ok sdk :
  file_ok correction_file t n ->
  sdk_ok (F := F) sinf cosf k t n (settings_of p) char_signed sdk ->
  exists sdk', load_recorded sinf cosf correction_file sdk = Ret sdk' /\
    sdk_ok (F := F) sinf cosf k t n (settings_of p) char_signed sdk' /\
    tcp_command_client_ sdk' = tcp_command_client_ sdk /\
    start_angle_ (process (pandarGeneral_ sdk')) = start_angle_ (process (pandarGeneral_ sdk)).
Proof.
  intros Hfile Hok. unfold load_recorded.
  destruct correction_file as [content|]; [|by exists sdk].
  destruct (Hfile content eq_refl) as (text & rest & -> & Hz & Htext). rewrite c_string_prefix by done.
  destruct Hok as (waiting & [Hq Hw Hf Hu Ha]).
  destruct (load_usable sinf cosf k t n (settings_of p) Hk (E := thread_error) text _ Htext Hu Ha)
    as (c' & Hload & Hu' & Ha').
  cbn [mbind outcome_bind]. unfold LoadLidarCorrectionFile, pg_LoadCorrectionFile. rewrite Hload.
  eexists. split; [reflexivity|]. split; [by exists waiting|done].
Qed.

Lemma make_sdk_ok w :
  file_ok correction_file t n -> 0 ∉ server_ip p -> zlen (server_ip p) <= 256 ->
  exists sdk w',
    make_sdk sinf cosf queue unset correction_file p start_angle w = Ret (sdk, w') /\
    sdk_ok (F := F) sinf cosf k t n (settings_of p) char_signed sdk /\
    start_angle_ (process (pandarGeneral_ sdk)) = start_angle /\
    (pcap_file p <> ""%string \/ data_type p = "rosbag"%string -> tcp_command_client_ sdk = None).
Proof.
  intros Hfile Hip Hlen. pose proof new_internal_ok as Hnew. unfold make_sdk.
  case_bool_decide as Hp; cbn [negb].
  - case_bool_decide as Hd.
    + eexists _, w. split; [reflexivity|]. split; [by exists []|done].
    + unfold sdk_device, mbind, io_bind, mret, io_ret.
      destruct (client_new_defined (server_ip p) PANDARGENERALSDK_TCP_COMMAND_PORT w Hip Hlen)
        as (client & w' & ->).
      eexists _, w'. split; [reflexivity|]. split; [by exists []|]. by split; [|intros []].
  - destruct (load_recorded_ok (sdk_recorded sinf cosf queue start_angle (initial_tf unset p)
      (lidar_type p)) Hfile) as (sdk' & -> & Hok & Hc & Ha); [by exists []|].
    eexists _, w. split; [reflexivity|]. by rewrite Hc, Ha.
Qed.

(** No thread is running yet. *)
Lemma load_recorded_idle (sdk sdk' : PandarGeneralSDK Q) :
  load_recorded sinf cosf correction_file sdk = Ret sdk' ->
  processing (pandarGeneral_ sdk') = processing (pandarGeneral_ sdk).
Proof.
  unfold load_recorded. destruct correction_file as [content|]; [|by intros [= <-]]. intros H.
  apply bind_Ret_inv in H as (text & _ & H). apply bind_Ret_inv in H as ([ret sdk1] & Hload & [= <-]).
  unfold LoadLidarCorrectionFile, pg_LoadCorrectionFile in Hload.
  apply bind_Ret_inv in Hload as ([ret1 d] & Hload & [= <- <-]).
  apply bind_Ret_inv in Hload as ([ret2 c] & _ & [= <- <-]). reflexivity.
Qed.

Lemma make_sdk_idle w (sdk : PandarGeneralSDK Q) w' :
  make_sdk sinf cosf queue unset correction_file p start_angle w = Ret (sdk, w') ->
  processing (pandarGeneral_ sdk) = false.
Proof.
  unfold make_sdk. case_bool_decide; cbn [negb].
  - case_bool_decide; [by intros [= <- <-]|]. unfold sdk_device, mbind, io_bind, mret, io_ret.
    destruct (TcpCommandClientNew _ _ w) as [[client w1]|[]|]; [|discriminate]. by intros [= <- <-].
  - intros Hsdk. apply bind_Ret_inv in Hsdk as (sdk1 & Hload & [= <- <-]).
    by apply load_recorded_idle in Hload.
Qed.

Lemma initialize_steps w sdk hsdk w' :
  start_angle_argument (startAngle p) = Ret start_angle ->
  make_sdk sinf cosf queue unset correction_file p start_angle w = Ret (sdk, w') ->
  sdk_Start sinf cosf lookupTransform (settings_of p) true char_signed mktime now sdk = Ret hsdk ->
  initialize_sdk lookupTransform sinf cosf char_signed mktime queue unset now correction_file p w =
    Ret (hsdk, w').
Proof.
  exact (three_steps (start_angle_argument (startAngle p))
    (fun start_angle => make_sdk sinf cosf queue unset correction_file p start_angle w)
    (sdk_Start sinf cosf lookupTransform (settings_of p) true char_signed mktime now)
    start_angle sdk hsdk w').
Qed.

(** The facade after [Start]. *)
Lemma sdk_start_ok s sdk :
  sdk_ok (F := F) sinf cosf k t n s char_signed sdk ->
  exists sdk', sdk_Start sinf cosf lookupTransform s true char_signed mktime now sdk = Ret sdk' /\
    running_ok (F := F) sinf cosf k t n s char_signed [] (pandarGeneral_ sdk') /\
    processing (pandarGeneral_ sdk') = true /\
    start_angle_ (process (pandarGeneral_ sdk')) = start_angle_ (process (pandarGeneral_ sdk)) /\
    tcp_command_client_ sdk' = tcp_command_client_ sdk.
Proof.
  intros (waiting & Hd). unfold sdk_Start, pg_Start, sdk_Stop, pg_Stop. cbn [set_driver pandarGeneral_].
  destruct (start_ok lookupTransform sinf cosf k t n s true char_signed mktime [] (Stop (pandarGeneral_ sdk)) now
    (stop_ok sinf cosf k t n s char_signed _ _ Hd)) as (d' & Hstart & Hd' & Hrun & Ha).
  rewrite Hstart. cbn [mbind outcome_bind]. eexists. split; [reflexivity|].
  split; [exact Hd'|]. split; [exact Hrun|]. split; [exact Ha|done].
Qed.
End launch.

(** C9: launching the node for a sensor and cloud mode of [supported] (array or
    channels, but no PandarQT with channels), without tf frames, succeeds, from a
    recording, a bag or the sensor, when the start angle converts, the address fits
    and the correction file is sound ([file_ok]), whether or not [malloc] finds memory
    for the command client; only the sensor's mode has one. From then on, under any
    sequence of turns of the threads on the packets of [good_turn] (a size of the
    model or of none, a stamp in range if finite, counts that fit, from a PandarXTM
    only echo 0x3d, of a Pandar40 nothing measured by laser 7), scans of a bag with
    sound messages, calibrations from sound correction files, new start angles, stops
    and restarts, nothing faults, except that a frame of plain clouds may come within
    one packet's points of the end of [m_vPointCloud] before a processing turn. Until
    then the queue keeps its bound, the calibration stays usable, and every cloud
    handed out has points and the time of the first. *)
Theorem launch_lifecycle {Q : Type} {depth : Z}
    `{F : !BoundedFifo thread_error PandarPacket Q depth}
    (lookupTransform : nat -> string -> string -> stamp -> lookup_result)
    (sinf cosf : float -> float) (char_signed : bool) (mktime : tm -> Z) (queue : Q)
    (unset : point3 -> point3) (now : stamp) (correction_file : option (list Z)) (k : sensor)
    (t : string) (n : nat) (p : Parameters) (start_angle : Z) (stack : list Z) (w : World)
    (ops : list operation)
    (Hk : supported k t n (settings_of p)) (Hqueue : fifo_repr queue [])
    (Hfixed : fixed_frame p = ""%string) (Htarget : target_frame p = ""%string)
    (Hangle : start_angle_argument (startAngle p) = Ret start_angle)
    (Hip : 0 ∉ server_ip p) (Hlen : zlen (server_ip p) <= 256)
    (Hfile : file_ok correction_file t n)
    (Hops : Forall (good_operation k t n (settings_of p) char_signed stack) ops) :
  exists hsdk w',
    initialize_sdk lookupTransform sinf cosf char_signed mktime queue unset now correction_file p w =
      Ret (hsdk, w') /\
    start_angle_ (process (pandarGeneral_ hsdk)) = start_angle /\
    processing (pandarGeneral_ hsdk) = true /\ fifo_repr (m_PacketsBuffer (pandarGeneral_ hsdk)) [] /\
    (pcap_file p <> ""%string \/ data_type p = "rosbag"%string -> tcp_command_client_ hsdk = None) /\
    let run := operate_all (F := F) lookupTransform sinf cosf (settings_of p) true char_signed mktime
                 stack correction_file in
    ((exists pre fresh post hsdk', ops = pre ++ Turn (ProcessOne fresh) :: post /\ run pre hsdk = Ret hsdk' /\
       nearly_full k (settings_of p) (process (pandarGeneral_ hsdk'))) \/
     (exists hsdk' waiting, run ops hsdk = Ret hsdk' /\
       fifo_repr (m_PacketsBuffer (pandarGeneral_ hsdk')) waiting /\ zlen waiting <= depth /\
       usable t n (calibration (pandarGeneral_ hsdk')) /\
       Forall (sound_emission (settings_of p)) (emitted (process (pandarGeneral_ hsdk'))))).
Proof.
  destruct (make_sdk_ok sinf cosf char_signed queue unset correction_file k t n p start_angle Hk Hqueue
    Hfixed Htarget w Hfile Hip Hlen) as (sdk & w' & Hmake & Hok & Ha & Hclient).
  destruct (sdk_start_ok lookupTransform sinf cosf char_signed mktime now k t n (settings_of p) sdk Hok)
    as (hsdk & Hstart & Hrun & Hproc & Ha' & Hc').
  exists hsdk, w'. split; [by eapply initialize_steps|]. rewrite Ha', Hc'. do 2 (split; [done|]). split; [by destruct Hrun|]. split; [done|].
  destruct (operate_all_ok lookupTransform sinf cosf k t n (settings_of p) true char_signed mktime stack
    correction_file Hk Hfile ops hsdk (ex_intro _ [] Hrun) Hops) as [Hover|(hsdk' & Hall & waiting & [])];
    [by left|right].
  exists hsdk', waiting. split_and!; try done; [by eapply fifo_depth_bound|by apply stream_inv_emitted].
Qed.

(** Without any parameters the node is one for a sensor with no address and an
    unknown model, and publishes neither clouds nor packets. *)
Lemma declared_node :
  source_of declared_parameters = Device /\
  pointcloud_qos (pointcloud_reliability declared_parameters) (pointcloud_qos_depth declared_parameters)
    (pointcloud_layout declared_parameters) = Ret {| qos_depth := 1000; qos_reliable := true |} /\
  (lidar_type declared_parameters ∉ lidar_types.*1) /\
  wants_points (publish_type declared_parameters) = false /\
  wants_raw (publish_type declared_parameters) = false.
Proof. split_and!; try reflexivity. apply (bool_decide_unpack _). vm_compute. exact I. Qed.

(** The PandarXT-16 of the launch file, from the sensor or from a bag. *)
Definition parameters_from (source : string) : Parameters :=
  {| pcap_file := ""; server_ip := str "192.168.123.20"; startAngle := d_of_Z 0;
     lidar_type := "PandarXT-16"; frame_id := "hesai_lidar"; pcldata_type := 0; publish_type := "both";
     timestamp_type := "realtime"; data_type := source; coordinate_correction_flag := false;
     target_frame := ""; fixed_frame := ""; pointcloud_reliability := "reliable";
     pointcloud_qos_depth := 1000; pointcloud_layout := "compact" |}.
Definition example_parameters : Parameters := parameters_from "".
Definition bag_parameters : Parameters := parameters_from "rosbag".

Definition example_file : list Z :=
  str "Channel,Elevation,Azimuth" ++ newline :: file_lines 1 (replicate 16 (str "15", str "0.25")).

Lemma example_calibrates : calibrates "PandarXT-16" 16 example_file.
Proof.
  exists (replicate 16 (str "15", str "0.25")), (replicate 16 (d_of_Z 15)),
    (replicate 16 (d_lit 25 100)). split.
  - exists (str "Channel,Elevation,Azimuth"). split; [|done].
    apply (bool_decide_unpack _). vm_compute. exact I.
  - vm_compute. lia.
  - apply Forall2_replicate. split_and!; [discriminate| | |vm_compute; reflexivity];
      apply (bool_decide_unpack _); vm_compute; exact I.
  - apply Forall2_replicate. split_and!; [discriminate| | |vm_compute; reflexivity];
      apply (bool_decide_unpack _); vm_compute; exact I.
  - apply Forall_replicate. split; [split; reflexivity|]. vm_compute. split; discriminate.
Qed.

Definition example_queue : BoundedSpscQueue PandarPacket :=
  spsc_new PACKET_BUFFER_STORAGE_SIZE blank_packet.

(** A scan with the correction file and a packet of a size the driver ignores. *)
Definition example_scan : list PandarPacketMsg :=
  [{| stamp_sec := 0; stamp_nanosec := 0; size := zlen example_file + 1;
      data := [0x47; 0x74; 1; 0; 0; 0; 0; 194] ++ example_file ++ [0] |};
   {| stamp_sec := 5; stamp_nanosec := 0; size := 3; data := [1; 2; 3] |}].

Definition example_operations : list operation :=
  [Scan example_scan; StopDriver; StartDriver (0, 0); SetAngle 100].

Lemma example_supported source : supported XT "PandarXT-16" 16 (settings_of (parameters_from source)).
Proof. split; [done|]. split; [|done]. apply (bool_decide_unpack _). vm_compute. exact I. Qed.

Lemma example_scan_good source :
  Forall (good_message "PandarXT-16" 16 []
    (stream_good XT "PandarXT-16" (settings_of (parameters_from source)) true)) example_scan.
Proof.
  apply Forall_cons_2; [split|apply Forall_cons_2; [split|constructor]]; try discriminate.
  - eexists _, _. by split.
  - intros _. split; [vm_compute; discriminate|]. intros _. split; [done|]. split; [vm_compute; discriminate|].
    exists example_file. split; [vm_compute; reflexivity|exact example_calibrates].
  - eexists _, _. split; [reflexivity|discriminate].
  - intros _. split; [split; vm_compute; discriminate|]. split; [vm_compute; discriminate|]. split.
    + apply (bool_decide_unpack _). vm_compute. exact I.
    + split; vm_compute; discriminate.
    + left. reflexivity.
    + intros _. split; [solve_valid|split; vm_compute; discriminate].
    + intros r Hr. discriminate Hr.
Qed.

Lemma launch_lifecycle_witness :
  exists hsdk w' hsdk',
    initialize_sdk (F := packets_buffer_fifo) (fun _ _ _ _ => LookupFailed) id id true mktime_utc
      example_queue id (0, 0) None bag_parameters example_world = Ret (hsdk, w') /\
    operate_all (F := packets_buffer_fifo) (fun _ _ _ _ => LookupFailed) id id
      (settings_of bag_parameters) true true mktime_utc [] None example_operations hsdk = Ret hsdk' /\
    usable "PandarXT-16" 16 (calibration (pandarGeneral_ hsdk')).
Proof.
  destruct (launch_lifecycle (F := packets_buffer_fifo) (fun _ _ _ _ => LookupFailed) id id true
    mktime_utc example_queue id (0, 0) None XT "PandarXT-16" 16 bag_parameters 0 [] example_world
    example_operations) as (hsdk & w' & Hinit & _ & _ & _ & _ & Hrun).
  - apply example_supported.
  - apply ring_new; done.
  - reflexivity.
  - reflexivity.
  - vm_compute. reflexivity.
  - apply (bool_decide_unpack _). vm_compute. exact I.
  - vm_compute. discriminate.
  - discriminate.
  - apply Forall_cons_2; [apply example_scan_good|repeat constructor].
  - exists hsdk, w'. destruct Hrun as [(pre & fresh & post & hsdk' & Heq & _)|
      (hsdk' & waiting & Hrun & _ & _ & Hu & _)].
    + exfalso. unfold example_operations in Heq.
      do 4 (destruct pre as [|? pre]; [discriminate Heq|injection Heq as _ Heq]).
      destruct pre; discriminate Heq.
    + exists hsdk'. split; [exact Hinit|]. split; [exact Hrun|exact Hu].
Defined.
