(* ===== verification/Threads.v ===== *)
(** The threads of the driver: how [Start], [Stop], the subscription to a bag,
    [RecvTask], [ProcessLiarPacket], the replay thread of [PcapReader] and
    [GetCalibrationFromDevice] interleave.

    [Driver] takes [Stop] and [Start] as single operations, and a turn of the
    processing thread as one.  Here every flag, every join and every reset of
    the two is a step of the controlling thread, and the other threads stand at
    a program point: before the test of their flag, waiting for a packet,
    holding one.  The controlling thread is the one that constructs the node,
    spins it and destroys it, so the packets of a bag are pushed by it.  The
    exchange with the sensor ([Sdk], [PtcClient]) ends, if it does, with a step of
    the calibration thread and the text it got.  The tables are written without a
    lock: [sys_run] interleaves the steps as they are, and [thread_run] makes a load
    undefined while the processing thread has a packet in hand, a data race. *)
From stdpp Require Import gmap.
From S2P Require Import Prelude SpscQueue Ieee Calendar PacketDefenses CompactCloud PacketFormat.
From S2P Require Import ParseXT ParseLegacy LidarTables PointCalc Correction Framing FramingFacts.
From S2P Require Import Driver DriverFacts PcapReader PcapFacts Sockets PtcClient Node Sdk Launch.
#[local] Open Scope Z_scope.

(** ** Program points *)

(** [RecvTask]: at the test of the flag, in [getPacket], with a packet, returned. *)
Inductive recv_pc := RTest | RGet | RHave (packet : PandarPacket) | RDone.

(** [parsePcap]: opening the file, at [pcap_next_ex(...) >= 0 && loop], with a
    record to hand to the callback, after it, returned. *)
Inductive parse_pc :=
  | POpen
  | PNext
  | PHave (packet : option (list Z)) (pktSize : Z) (time : float)
  | PPace
  | PDone.

(** [ProcessLiarPacket]: before the loop, at the test of the flag, before
    [try_pop], in [usleep], with a packet, returned. *)
Inductive process_pc :=
  | CInit (now : stamp)
  | CTest
  | CPop
  | CSleep
  | CHave (packet : PandarPacket)
  | CDone.

(** [GetCalibrationFromDevice]: before the exchange with the sensor, with the text
    it sent, before the test for the configured file, returned. *)
Inductive calibrate_pc := KExchange | KLoad (text : list Z) | KFile | KDone.

(** The statements of [Start] and [Stop], those of [PcapReader] among them, and a
    packet of a bag. *)
Inductive instruction :=
  | StoreRecv (enable : bool)
  | StoreProcess (enable : bool)
  | StoreLoop (enable : bool)
  | JoinParse
  | JoinRecv
  | JoinProcess
  | ResetQueue
  | ResetGuard
  | ResetTracker
  | ResetLast
  | ResetIndex
  | ResetList
  | SpawnProcess (now : stamp)
  | SpawnRecv
  | SpawnParse
  | JoinCalibration
  | SpawnCalibration
  | PushMessage (packet : PandarPacketMsg).

(** A call of the node; [now] is the time the new processing thread reads. *)
Inductive call := CallStop | CallStart (now : stamp) | CallScan (scan : list PandarPacketMsg).

Section threads.
Context {Q : Type} {depth : Z} `{F : !BoundedFifo thread_error PandarPacket Q depth}.
Context (lookupTransform : nat -> string -> string -> stamp -> lookup_result).
Context (sinf cosf : float -> float) (s : Settings) (pcl_callback char_signed : bool).
(** [client]: the command client was allocated, which only [Device] attempts. *)
Context (mktime : tm -> Z) (stack : list Z) (correction_file : option (list Z)).
Context (src : source) (client : bool).

Definition connect_lidar_ : bool := match src with Device => true | _ => false end.

(** [PcapReader::stop] and [start]; the pointer to the callback is constant. *)
Definition pcap_stop : list instruction := [StoreLoop false; JoinParse].
Definition pcap_start : list instruction := pcap_stop ++ [StoreLoop true; SpawnParse].

(** [PandarGeneral_Internal::Stop] and [Start]; [pcap_reader_] is null when the
    packets come from the sensor. *)
Definition internal_stop : list instruction :=
  [StoreRecv false; StoreProcess false] ++ (if connect_lidar_ then [] else pcap_stop) ++
  [JoinRecv; JoinProcess; ResetQueue; ResetGuard; ResetTracker].
Definition start_prefix : list instruction :=
  internal_stop ++ [ResetQueue; ResetGuard; ResetTracker; ResetLast; ResetIndex; ResetList;
                    StoreRecv true; StoreProcess true].
Definition start_suffix : list instruction :=
  if connect_lidar_ then [SpawnRecv] else pcap_start.

(** [PandarGeneralSDK::Stop], [Start], which stops first, and [scanCallback]. *)
Definition sdk_stop : list instruction := internal_stop ++ [JoinCalibration].
Definition code (c : call) : list instruction :=
  match c with
  | CallStop => sdk_stop
  | CallStart now =>
      sdk_stop ++ start_prefix ++ SpawnProcess now :: start_suffix ++ [SpawnCalibration]
  | CallScan scan => PushMessage <$> scan
  end.

(** A null handle is [None]; [processing] of the driver is not used: the program
    point says whether [ProcessLiarPacket] has returned. *)
Record System := {
  driver : Driver Q;
  loop : bool;
  lidar_recv_thr_ : option recv_pc;
  parse_thr_ : option parse_pc;
  lidar_process_thr_ : option process_pc;
  get_calibration_thr_ : option calibrate_pc;
  control : list instruction;
}.

Definition set_control (l : list instruction) (sys : System) : System :=
  {| driver := driver sys; loop := loop sys; lidar_recv_thr_ := lidar_recv_thr_ sys;
     parse_thr_ := parse_thr_ sys; lidar_process_thr_ := lidar_process_thr_ sys;
     get_calibration_thr_ := get_calibration_thr_ sys; control := l |}.
Definition set_loop (b : bool) (sys : System) : System :=
  {| driver := driver sys; loop := b; lidar_recv_thr_ := lidar_recv_thr_ sys;
     parse_thr_ := parse_thr_ sys; lidar_process_thr_ := lidar_process_thr_ sys;
     get_calibration_thr_ := get_calibration_thr_ sys; control := control sys |}.
Definition at_recv (pc : option recv_pc) (d : Driver Q) (sys : System) : System :=
  {| driver := d; loop := loop sys; lidar_recv_thr_ := pc; parse_thr_ := parse_thr_ sys;
     lidar_process_thr_ := lidar_process_thr_ sys;
     get_calibration_thr_ := get_calibration_thr_ sys; control := control sys |}.
Definition at_parse (pc : option parse_pc) (d : Driver Q) (sys : System) : System :=
  {| driver := d; loop := loop sys; lidar_recv_thr_ := lidar_recv_thr_ sys; parse_thr_ := pc;
     lidar_process_thr_ := lidar_process_thr_ sys;
     get_calibration_thr_ := get_calibration_thr_ sys; control := control sys |}.
Definition at_process (pc : option process_pc) (d : Driver Q) (sys : System) : System :=
  {| driver := d; loop := loop sys; lidar_recv_thr_ := lidar_recv_thr_ sys;
     parse_thr_ := parse_thr_ sys; lidar_process_thr_ := pc;
     get_calibration_thr_ := get_calibration_thr_ sys; control := control sys |}.
Definition at_calibrate (pc : option calibrate_pc) (d : Driver Q) (sys : System) : System :=
  {| driver := d; loop := loop sys; lidar_recv_thr_ := lidar_recv_thr_ sys;
     parse_thr_ := parse_thr_ sys; lidar_process_thr_ := lidar_process_thr_ sys;
     get_calibration_thr_ := pc; control := control sys |}.

(** ** The controlling thread *)

Definition map_process (f : Process -> Process) (d : Driver Q) : Driver Q :=
  set_process (m_PacketsBuffer d) (f (process d)) (processing d) d.
Definition store_flags (recv process_ : bool) (d : Driver Q) : Driver Q :=
  {| m_PacketsBuffer := m_PacketsBuffer d; receiver := receiver d; process := process d;
     calibration := calibration d; got_lidar_correction_flag := got_lidar_correction_flag d;
     enable_lidar_recv_thr_ := recv; enable_lidar_process_thr_ := process_;
     processing := processing d; gps_times := gps_times d |}.

(** What an instruction does to the driver's members. *)
Definition effect (i : instruction) (d : Driver Q) : Driver Q :=
  match i with
  | StoreRecv b => store_flags b (enable_lidar_process_thr_ d) d
  | StoreProcess b => store_flags (enable_lidar_recv_thr_ d) b d
  | ResetQueue => set_queue (fifo_reset (m_PacketsBuffer d)) (receiver d) d
  | ResetGuard => map_process (fun p => set_guard (guard_reset (m_packetTimestampGuard p)) p) d
  | ResetTracker => map_process (fun p => set_tracker (tracker_reset (m_xtSequenceTracker p)) p) d
  | ResetLast => map_process (set_last 0 (d_of_Z 0)) d
  | ResetIndex =>
      map_process (fun p => set_frame {| m_iPointCloudIndex := 0;
        m_vPointCloud := m_vPointCloud (frame p);
        m_vPointCloudList := m_vPointCloudList (frame p) |} p) d
  | ResetList =>
      map_process (fun p => set_frame {| m_iPointCloudIndex := m_iPointCloudIndex (frame p);
        m_vPointCloud := m_vPointCloud (frame p);
        m_vPointCloudList := (fun _ => []) <$> m_vPointCloudList (frame p) |} p) d
  | _ => d
  end.

Definition set_driver_of (d : Driver Q) (sys : System) : System :=
  at_recv (lidar_recv_thr_ sys) d sys.

(** [None]: the thread to be joined has not returned.  The handle of the
    calibration thread is kept, so that it is joined again at the next stop. *)
Definition execute (i : instruction) (sys : System) : option (outcome thread_error System) :=
  match i with
  | JoinRecv =>
      match lidar_recv_thr_ sys with
      | None | Some RDone => Some (Ret (at_recv None (driver sys) sys))
      | _ => None
      end
  | JoinParse =>
      match parse_thr_ sys with
      | None | Some PDone => Some (Ret (at_parse None (driver sys) sys))
      | _ => None
      end
  | JoinProcess =>
      match lidar_process_thr_ sys with
      | None | Some CDone => Some (Ret (at_process None (driver sys) sys))
      | _ => None
      end
  | JoinCalibration =>
      match get_calibration_thr_ sys with
      | None | Some KDone => Some (Ret sys)
      | _ => None
      end
  | SpawnRecv => Some (Ret (at_recv (Some RTest) (driver sys) sys))
  | SpawnParse => Some (Ret (at_parse (Some POpen) (driver sys) sys))
  | SpawnProcess now => Some (Ret (at_process (Some (CInit now)) (driver sys) sys))
  | SpawnCalibration => Some (Ret (at_calibrate (Some KExchange) (driver sys) sys))
  | StoreLoop b => Some (Ret (set_loop b sys))
  | PushMessage packet =>
      Some (d ← pg_PushScanPacket sinf cosf stack correction_file [packet] (driver sys);
            Ret (set_driver_of d sys))
  | _ => Some (Ret (set_driver_of (effect i (driver sys)) sys))
  end.

(** ** Events *)

(** [EReplay]: whether the file opens, the next record if there is one, or the
    end of the pause, by the program point. [ECalibrate]: the text the sensor
    sent, if it did. *)
Inductive event :=
  | ECall (c : call)
  | EControl
  | EReceive (received : option PandarPacket)
  | EReplay (record : option (option (list Z) * Z * float))
  | EProcess (fresh : PandarPacket)
  | ECalibrate (answer : option (list Z)).

Definition recv_event (received : option PandarPacket) (sys : System)
    : option (outcome thread_error System) :=
  let d := driver sys in
  match lidar_recv_thr_ sys with
  | Some RTest =>
      Some (Ret (at_recv (Some (if enable_lidar_recv_thr_ d then RGet else RDone)) d sys))
  | Some RGet =>
      Some (Ret (at_recv (Some (match received with Some p => RHave p | None => RTest end)) d sys))
  | Some (RHave packet) =>
      Some (d ← recv_step s mktime (Some packet) d; Ret (at_recv (Some RTest) d sys))
  | _ => None
  end.

(** A bag is played without a recording: no file has the empty name. *)
Definition parse_event (record : option (option (list Z) * Z * float)) (sys : System)
    : option (outcome thread_error System) :=
  let d := driver sys in
  match parse_thr_ sys with
  | Some POpen =>
      Some (Ret (at_parse (Some (match src, record with
        | Bag, _ | _, None => PDone
        | _, Some _ => PNext
        end)) d sys))
  | Some PNext =>
      Some (Ret (at_parse (Some (match record with
        | Some (packet, pktSize, time) => if loop sys then PHave packet pktSize time else PDone
        | None => PDone
        end)) d sys))
  | Some (PHave packet pktSize time) =>
      Some (d ← fill_callback stack packet pktSize time d; Ret (at_parse (Some PPace) d sys))
  | Some PPace => Some (Ret (at_parse (Some PNext) d sys))
  | _ => None
  end.

Definition after (running : bool) : option process_pc := Some (if running then CTest else CDone).

Definition begin_processing (now : stamp) (d : Driver Q) : outcome thread_error (bool * Process) :=
  ProcessLiarPacket lookupTransform sinf cosf (calibration d) s pcl_callback char_signed mktime now
    [] (set_outMsg new_cloud (set_scan [] (process d))).
Definition process_one (packet : PandarPacket) (d : Driver Q)
    : outcome thread_error (bool * Process) :=
  process_packet lookupTransform sinf cosf (calibration d) s pcl_callback char_signed mktime packet
    (process d).

Definition process_event (fresh : PandarPacket) (sys : System)
    : option (outcome thread_error System) :=
  let d := driver sys in
  let finish (r : bool * Process) :=
    Ret (at_process (after r.1) (set_process (m_PacketsBuffer d) r.2 (processing d) d) sys) in
  match lidar_process_thr_ sys with
  | Some (CInit now) => Some (r ← begin_processing now d; finish r)
  | Some CTest =>
      Some (Ret (at_process (Some (if enable_lidar_process_thr_ d then CPop else CDone)) d sys))
  | Some CPop =>
      Some ('(ok, packet, q) ← fifo_pop fresh (m_PacketsBuffer d);
            Ret (at_process (Some (if ok : bool then CHave packet else CSleep))
                   (set_process q (process d) (processing d) d) sys))
  | Some CSleep => Some (Ret (at_process (Some CTest) d sys))
  | Some (CHave packet) => Some (r ← process_one packet d; finish r)
  | _ => None
  end.

(** A text loaded by the calibration thread, which then sets the flag. *)
Definition load_flagged (text : list Z) (d : Driver Q) : outcome thread_error (Driver Q) :=
  '(ret, d) ← pg_LoadCorrectionFile sinf cosf text d;
  Ret (if ret =? 0 then pg_SetCorrectionFileFlag true d else d).

(** The configured file, when the sensor's text was not loaded; the buffer it is
    read into is in [Sdk]. *)
Definition load_configured (d : Driver Q) : outcome thread_error (Driver Q) :=
  if pg_GetCorrectionFileFlag d then Ret d
  else
    match correction_file with
    | None => Ret d
    | Some content => text ← c_string content; load_flagged text d
    end.

Definition calibrate_event (answer : option (list Z)) (sys : System)
    : option (outcome thread_error System) :=
  let d := driver sys in
  match get_calibration_thr_ sys with
  | Some KExchange =>
      Some (Ret (at_calibrate (Some (if client then
        match answer with Some text => KLoad text | None => KFile end else KDone)) d sys))
  | Some (KLoad text) => Some (d ← load_flagged text d; Ret (at_calibrate (Some KFile) d sys))
  | Some KFile => Some (d ← load_configured d; Ret (at_calibrate (Some KDone) d sys))
  | _ => None
  end.

(** The node subscribes to packets only when it plays a bag. *)
Definition may_call (c : call) : bool :=
  match c, src with CallScan _, Bag => true | CallScan _, _ => false | _, _ => true end.

(** [None]: the thread has nothing to do or is blocked. *)
Definition fire (e : event) (sys : System) : option (outcome thread_error System) :=
  match e with
  | ECall c =>
      match control sys with
      | [] => if may_call c then Some (Ret (set_control (code c) sys)) else None
      | _ => None
      end
  | EControl =>
      match control sys with
      | [] => None
      | i :: rest => (fun r => sys ← r; Ret (set_control rest sys)) <$> execute i sys
      end
  | EReceive received => recv_event received sys
  | EReplay record => parse_event record sys
  | EProcess fresh => process_event fresh sys
  | ECalibrate answer => calibrate_event answer sys
  end.

(** A run in which every event can happen, up to a fault. *)
Fixpoint sys_run (events : list event) (sys : System) : option (outcome thread_error System) :=
  match events with
  | [] => Some (Ret sys)
  | e :: events =>
      match fire e sys with
      | Some (Ret sys) => sys_run events sys
      | r => r
      end
  end.

(** The calibration thread waits for the sensor, without a time-out; only the
    sensor's answer, or the end of the connection, lets it go on. *)
Definition exchanging (sys : System) : bool :=
  client && match get_calibration_thr_ sys with Some KExchange => true | _ => false end.

(** ** Data races *)

(** A thread about to write the tables: the calibration thread, or the controlling
    thread with the correction file of a bag. *)
Definition calibration_loads (sys : System) : bool :=
  match get_calibration_thr_ sys with
  | Some (KLoad _) => true
  | Some KFile =>
      negb (pg_GetCorrectionFileFlag (driver sys)) && bool_decide (is_Some correction_file)
  | _ => false
  end.
Definition control_loads (sys : System) : bool :=
  match control sys with
  | PushMessage m :: _ =>
      is_correction m && negb (got_lidar_correction_flag (driver sys)) &&
      ((u32 (declared_length m) =? size m) || bool_decide (is_Some correction_file))
  | _ => false
  end.
(** The processing thread reads them for the packet it has in hand. *)
Definition in_hand (sys : System) : bool :=
  match lidar_process_thr_ sys with Some (CHave _) => true | _ => false end.
(** Two threads are about to access the tables, and one of them writes. *)
Definition races (sys : System) : bool :=
  (calibration_loads sys || control_loads sys) && in_hand sys ||
  calibration_loads sys && control_loads sys.

Definition step (e : event) (sys : System) : option (outcome thread_error System) :=
  if races sys then Some Undef else fire e sys.

(** What the C++ program does: a race is undefined behaviour. *)
Fixpoint thread_run (events : list event) (sys : System) : option (outcome thread_error System) :=
  match events with
  | [] => Some (Ret sys)
  | e :: events =>
      match step e sys with
      | Some (Ret sys) => thread_run events sys
      | r => r
      end
  end.

(** Does the run come to a race? *)
Fixpoint raced (events : list event) (sys : System) : bool :=
  match events with
  | [] => false
  | e :: events =>
      races sys || match fire e sys with Some (Ret sys) => raced events sys | _ => false end
  end.

(** The driver as constructed: no thread, nothing to do. *)
Definition idle (d : Driver Q) : System :=
  {| driver := d; loop := false; lidar_recv_thr_ := None; parse_thr_ := None;
     lidar_process_thr_ := None; get_calibration_thr_ := None; control := [] |}.
End threads.
Arguments System Q : clear implicits.
