(* ===== verification/ThreadFacts.v ===== *)
(** The threads never meet the queue's [reset], the queue has one producer, and
    [Stop] returns. *)
From stdpp Require Import gmap.
From S2P Require Import Prelude SpscQueue Ieee Calendar PacketDefenses CompactCloud PacketFormat.
From S2P Require Import ParseXT ParseLegacy LidarTables PointCalc Correction Framing FramingFacts.
From S2P Require Import Driver DriverFacts PcapReader PcapFacts Sockets PtcClient Sdk Launch.
From S2P Require Import LaunchFacts Threads.
#[local] Open Scope Z_scope.

(** ** Which threads can exist *)

Record handles := { h_recv : bool; h_parse : bool; h_process : bool; h_calibrate : bool }.

Definition no_handles (h : handles) : bool := negb (h_recv h || h_parse h || h_process h).

(** The handles that may be set after an instruction, for the calibration thread
    whether it may run; [None] when it must not be reached with these: a reset or
    the start of the processing thread while a thread of the driver exists, a
    second producer, a second calibration thread. *)
Definition check1 (i : instruction) (h : handles) : option handles :=
  match i with
  | JoinRecv => Some (Build_handles false (h_parse h) (h_process h) (h_calibrate h))
  | JoinParse => Some (Build_handles (h_recv h) false (h_process h) (h_calibrate h))
  | JoinProcess => Some (Build_handles (h_recv h) (h_parse h) false (h_calibrate h))
  | JoinCalibration => Some (Build_handles (h_recv h) (h_parse h) (h_process h) false)
  | ResetQueue | ResetGuard | ResetTracker | ResetLast | ResetIndex | ResetList =>
      if no_handles h then Some h else None
  | SpawnProcess _ =>
      if no_handles h then Some (Build_handles false false true (h_calibrate h)) else None
  | SpawnRecv =>
      if h_recv h || h_parse h then None
      else Some (Build_handles true false (h_process h) (h_calibrate h))
  | SpawnParse =>
      if h_recv h || h_parse h then None
      else Some (Build_handles false true (h_process h) (h_calibrate h))
  | SpawnCalibration =>
      if h_calibrate h then None
      else Some (Build_handles (h_recv h) (h_parse h) (h_process h) true)
  | StoreRecv _ | StoreProcess _ | StoreLoop _ | PushMessage _ => Some h
  end.

Fixpoint check (l : list instruction) (h : handles) : option handles :=
  match l with
  | [] => Some h
  | i :: l => h ← check1 i h; check l h
  end.

(** Between two calls: one producer and the processing thread. *)
Definition within (connect_lidar_ : bool) (h : handles) : bool :=
  (negb (h_recv h) || connect_lidar_) && (negb (h_parse h) || negb connect_lidar_).

Lemma code_checked src c h :
  within (connect_lidar_ src) h = true ->
  exists h', check (code src c) h = Some h' /\ within (connect_lidar_ src) h' = true.
Proof.
  destruct c as [|now|scan].
  1-2: destruct src, h as [[] [] [] []]; try discriminate; intros _; eexists; split; reflexivity.
  intros Hw. exists h. split; [|done]. by induction scan.
Qed.

Section threads.
Context {Q : Type} {depth : Z} `{F : !BoundedFifo thread_error PandarPacket Q depth}.
Context (lookupTransform : nat -> string -> string -> stamp -> lookup_result).
Context (sinf cosf : float -> float) (s : Settings) (pcl_callback char_signed : bool).
Context (mktime : tm -> Z) (stack : list Z) (correction_file : option (list Z)).
Context (src : source) (client : bool).
Implicit Types (sys : System Q) (d a : Driver Q).

Abbreviation fire := (fire lookupTransform sinf cosf s pcl_callback char_signed mktime stack
  correction_file src client).
Abbreviation sys_run := (sys_run lookupTransform sinf cosf s pcl_callback char_signed mktime stack
  correction_file src client).
Abbreviation execute := (execute sinf cosf stack correction_file).
Abbreviation code := (code src).

(** The calibration thread has returned, or was never started. *)
Definition calibration_over sys : Prop :=
  match get_calibration_thr_ sys with None | Some KDone => True | _ => False end.

(** [h] covers the threads that exist. *)
Record covers (h : handles) sys : Prop := {
  cv_recv : h_recv h = false -> lidar_recv_thr_ sys = None;
  cv_parse : h_parse h = false -> parse_thr_ sys = None;
  cv_process : h_process h = false -> lidar_process_thr_ sys = None;
  cv_calibrate : h_calibrate h = false -> calibration_over sys;
}.

(** With the rest of the call done, [h'] covers the threads. *)
Definition checked (h' : handles) sys : Prop :=
  exists h, covers h sys /\ check (control sys) h = Some h' /\ h_recv h && h_parse h = false.

(** The queue is fed by the receiving thread, by the replay thread, or, for a bag,
    by the controlling thread: the replay thread then finds no file. *)
Definition fits_source (i : instruction) : Prop :=
  match i with PushMessage _ => src = Bag | SpawnRecv => src = Device | _ => True end.
Definition not_replaying sys : Prop :=
  match parse_thr_ sys with None | Some (POpen | PDone) => True | _ => False end.
Record sourced sys : Prop := {
  so_recv : src <> Device -> lidar_recv_thr_ sys = None;
  so_parse : src = Bag -> not_replaying sys;
  so_control : Forall fits_source (control sys);
}.

Definition disciplined sys : Prop :=
  (exists h', checked h' sys /\ within (connect_lidar_ src) h' = true) /\ sourced sys.

Definition no_threads sys : Prop :=
  lidar_recv_thr_ sys = None /\ parse_thr_ sys = None /\ lidar_process_thr_ sys = None.

Lemma no_handles_spec h sys : no_handles h = true -> covers h sys -> no_threads sys.
Proof.
  destruct h as [[] [] [] cal]; try discriminate. intros _ []. unfold no_threads. auto.
Qed.

(** Two states with the same threads. *)
Lemma covers_threads h sys sys' :
  (lidar_recv_thr_ sys = None -> lidar_recv_thr_ sys' = None) ->
  (parse_thr_ sys = None -> parse_thr_ sys' = None) ->
  (lidar_process_thr_ sys = None -> lidar_process_thr_ sys' = None) ->
  (calibration_over sys -> calibration_over sys') ->
  covers h sys -> covers h sys'.
Proof. intros H1 H2 H3 H4 []. split; auto. Qed.

Lemma execute_covers i sys sys' h h' :
  execute i sys = Some (Ret sys') -> covers h sys -> check1 i h = Some h' ->
  h_recv h && h_parse h = false ->
  covers h' sys' /\ control sys' = control sys /\ h_recv h' && h_parse h' = false.
Proof.
  intros Hex [H1 H2 H3 H4] Hch Hone. destruct h as [[] [] proc cal]; try discriminate Hone; simpl in *;
    destruct i; simpl in Hex, Hch; repeat case_match; simplify_eq;
    try (apply bind_Ret_inv in Hex as (? & _ & Hex)); simplify_eq;
    (split; [constructor; simpl; try first [discriminate|exact H1|exact H2|exact H3|exact H4|done]|by split]);
    intros _; unfold calibration_over; by simplify_option_eq.
Qed.

Definition is_thread_event (e : event) : bool :=
  match e with ECall _ | EControl => false | _ => true end.

Lemma thread_event_covers e sys sys' :
  is_thread_event e = true ->
  fire e sys = Some (Ret sys') -> control sys' = control sys /\ forall h, covers h sys -> covers h sys'.
Proof.
  intros He Hf. destruct e as [c| |r|r|fresh|answer]; try done; simpl in Hf;
    unfold recv_event, parse_event, process_event, calibrate_event in Hf;
    repeat (case_match; try discriminate); simplify_eq;
    try (apply bind_Ret_inv in Hf as (? & _ & Hf); repeat case_match; simplify_eq);
    (split; [done|]; intros h; apply covers_threads; unfold calibration_over; simpl; try congruence).
  all: by repeat case_match; simplify_eq.
Qed.

(** The control thread between its statements, and the producers. *)
Lemma may_call_fits c : may_call src c = true -> Forall fits_source (code c).
Proof.
  unfold fits_source. destruct c as [|now|scan]; cbn [Threads.code may_call].
  1-2: intros _; unfold sdk_stop, start_prefix, internal_stop, start_suffix, pcap_start, pcap_stop;
    destruct src; cbn; repeat (apply Forall_cons_2; [done|]); apply Forall_nil_2.
  intros Hsrc. rewrite Forall_fmap. apply Forall_true. intros m. by destruct src.
Qed.

Lemma fire_sourced e sys sys' : sourced sys -> fire e sys = Some (Ret sys') -> sourced sys'.
Proof.
  intros [Hr Hp Hc] Hf. destruct e as [c| |r|r|fresh|answer]; simpl in Hf.
  - destruct (control sys); [|discriminate]. destruct (may_call src c) eqn:Hmay; simplify_eq.
    split; [done|done|by apply may_call_fits].
  - destruct (control sys) as [|i rest] eqn:Hctl; [discriminate|]. apply Forall_cons in Hc as [Hi Hc].
    destruct i; simpl in Hf, Hi; repeat (case_match; simpl in Hf); simplify_eq;
      try (apply bind_Ret_inv in Hf as (? & Hf1 & Hf); simplify_eq;
           apply bind_Ret_inv in Hf1 as (? & _ & Hf1); simplify_eq);
      (split; simpl; first [exact Hc|exact Hp|by intros; exact I|done|congruence]).
  - unfold recv_event in Hf. destruct (lidar_recv_thr_ sys) as [[]|] eqn:Hpc; simplify_eq;
      try (apply bind_Ret_inv in Hf as (? & _ & Hf); simplify_eq);
      (split; simpl; [intros Hs; by specialize (Hr Hs)|done|done]).
  - unfold parse_event in Hf. unfold not_replaying in Hp.
    destruct (parse_thr_ sys) as [[]|] eqn:Hpc; simplify_eq;
      try (apply bind_Ret_inv in Hf as (? & _ & Hf); simplify_eq);
      (split; simpl; [done|unfold not_replaying; simpl; intros Hs; specialize (Hp Hs); try done|done]).
    by rewrite Hs.
  - unfold process_event in Hf. destruct (lidar_process_thr_ sys) as [[]|]; simplify_eq;
      try (apply bind_Ret_inv in Hf as (? & _ & Hf); repeat case_match; simplify_eq); by split.
  - unfold calibrate_event in Hf. destruct (get_calibration_thr_ sys) as [[]|]; simplify_eq;
      try (apply bind_Ret_inv in Hf as (? & _ & Hf); simplify_eq); by split.
Qed.

Definition is_call (e : event) : bool := match e with ECall _ => true | _ => false end.

Lemma fire_checked h' e sys sys' :
  is_call e = false -> checked h' sys -> fire e sys = Some (Ret sys') -> checked h' sys'.
Proof.
  intros Hcall (h & Hc & Hch & Hone) Hf. destruct (is_thread_event e) eqn:He.
  { destruct (thread_event_covers e sys sys' He Hf) as [Hctl Hcov]. exists h. rewrite Hctl. auto. }
  destruct e as [c| |r|r|fresh|answer]; try discriminate. simpl in Hf.
  destruct (control sys) as [|i rest] eqn:Hctl; [done|].
  destruct (execute i sys) as [[sys1| |]|] eqn:Hex; simpl in Hf; simplify_eq.
  simpl in Hch. apply bind_Some in Hch as (h1 & Hch1 & Hch).
  destruct (execute_covers i sys sys1 h h1 Hex Hc Hch1 Hone) as (Hc1 & _ & Hone1).
  exists h1. split; [by eapply covers_threads; [| | | |exact Hc1]|done].
Qed.

Lemma fire_disciplined e sys sys' : disciplined sys -> fire e sys = Some (Ret sys') -> disciplined sys'.
Proof.
  intros [(h' & Hch & Hw) Hso] Hf. split; [|by eapply fire_sourced].
  destruct (is_call e) eqn:He.
  - destruct e as [c| |r|r|fresh|answer]; try discriminate. simpl in Hf.
    destruct (control sys) as [|i rest] eqn:Hctl; [|done]. destruct (may_call src c); simplify_eq.
    destruct Hch as (h & Hc & Hch & Hone). rewrite Hctl in Hch. simpl in Hch. simplify_eq.
    destruct (code_checked src c h' Hw) as (h2 & Hch & Hw2).
    exists h2. split; [|done]. exists h'. split; [by eapply covers_threads; [| | | |exact Hc]|done].
  - exists h'. split; [by eapply fire_checked|done].
Qed.

Lemma run_disciplined events sys sys' :
  disciplined sys -> sys_run events sys = Some (Ret sys') -> disciplined sys'.
Proof.
  revert sys. induction events as [|e events IH]; intros sys Hd Hrun; simpl in Hrun; [by simplify_eq|].
  destruct (fire e sys) as [[sys1| |]|] eqn:Hf; try discriminate.
  by eapply IH; [eapply fire_disciplined|].
Qed.

Lemma idle_disciplined d : disciplined (idle d).
Proof.
  split; [|by split; [|intros; exact I|constructor]].
  exists (Build_handles false false false false). split; [|done].
  exists (Build_handles false false false false). by repeat split.
Qed.

Definition resets (i : instruction) : bool :=
  match i with
  | ResetQueue | ResetGuard | ResetTracker | ResetLast | ResetIndex | ResetList => true
  | _ => false
  end.

Lemma disciplined_reset sys i rest :
  disciplined sys -> control sys = i :: rest ->
  (resets i = true \/ (exists now, i = SpawnProcess now) -> no_threads sys) /\
  (i = SpawnRecv \/ i = SpawnParse -> lidar_recv_thr_ sys = None /\ parse_thr_ sys = None) /\
  (i = SpawnCalibration -> calibration_over sys) /\
  (forall m, i = PushMessage m -> lidar_recv_thr_ sys = None /\ not_replaying sys).
Proof.
  intros [(h' & (h & Hc & Hch & _) & _) [Hr Hp Hf]] Hctl. rewrite Hctl in Hch, Hf. simpl in Hch.
  apply bind_Some in Hch as (h1 & Hch & _). apply Forall_cons in Hf as [Hf _]. split_and!.
  - intros [Hi|[now ->]]; [destruct i; try discriminate Hi|]; simpl in Hch; case_match; try done;
      by eapply no_handles_spec.
  - intros [-> | ->]; simpl in Hch; case_match; try done;
      destruct Hc, h as [[] [] [] ?]; try discriminate; auto.
  - intros ->. simpl in Hch. apply (cv_calibrate _ _ Hc). by destruct (h_calibrate h).
  - intros m ->. simpl in Hf. split; [apply Hr; by rewrite Hf|by apply Hp].
Qed.

(** C12: however the threads interleave and however often the node starts and
    stops, the queue has one producer: the receiving and the replay thread never
    exist together, and when a packet of a bag is pushed there is no receiving
    thread and the replay thread, which found no file, pushes nothing. Whenever
    [Start] or [Stop] is about to reset the queue, a guard, the tracker or the
    frame, none of the three threads of the driver exists; and no thread is started
    while its predecessor exists, or, for the calibration thread, has not
    returned. This is the discipline [SpscConcurrent] needs. *)
Theorem thread_discipline (d : Driver Q) (events : list event) (sys : System Q)
    (Hrun : sys_run events (idle d) = Some (Ret sys)) :
  (lidar_recv_thr_ sys = None \/ parse_thr_ sys = None) /\
  (forall i rest, control sys = i :: rest ->
     (resets i = true \/ (exists now, i = SpawnProcess now) -> no_threads sys) /\
     (i = SpawnRecv \/ i = SpawnParse -> lidar_recv_thr_ sys = None /\ parse_thr_ sys = None) /\
     (i = SpawnCalibration -> calibration_over sys) /\
     (forall m, i = PushMessage m -> lidar_recv_thr_ sys = None /\ not_replaying sys)).
Proof.
  pose proof (run_disciplined events _ _ (idle_disciplined d) Hrun) as Hd. split.
  - destruct Hd as [(_ & (h & [H1 H2 _ _] & _ & Hone) & _) _].
    destruct (h_recv h); [right; apply H2; by destruct (h_parse h)|left; by apply H1].
  - intros i rest. by apply disciplined_reset.
Qed.

(** ** Stopping *)

(** Turns a thread has left when its flag is cleared. *)
Definition recv_left (pc : option recv_pc) : nat :=
  match pc with None | Some RDone => 0 | Some RTest => 1 | Some (RHave _) => 2 | Some RGet => 3 end.
Definition parse_left (pc : option parse_pc) : nat :=
  match pc with
  | None | Some PDone => 0 | Some PNext => 1 | Some (POpen | PPace) => 2 | Some (PHave _ _ _) => 3
  end.
Definition process_left (pc : option process_pc) : nat :=
  match pc with
  | None | Some CDone => 0 | Some CTest => 1 | Some (CInit _ | CSleep | CHave _) => 2
  | Some CPop => 3
  end.
Definition calibrate_left (pc : option calibrate_pc) : nat :=
  match pc with
  | None | Some KDone => 0 | Some KFile => 1 | Some (KLoad _) => 2 | Some KExchange => 3
  end.

Definition turns_left sys : nat :=
  recv_left (lidar_recv_thr_ sys) + parse_left (parse_thr_ sys) +
  process_left (lidar_process_thr_ sys) + calibrate_left (get_calibration_thr_ sys) +
  length (control sys).

(** The flags are cleared and the control thread will not set them again. *)
Definition winds_down (i : instruction) : bool :=
  match i with
  | StoreRecv b | StoreProcess b | StoreLoop b => negb b
  | SpawnProcess _ | SpawnRecv | SpawnParse | SpawnCalibration | PushMessage _ => false
  | _ => true
  end.
Record stopping sys : Prop := {
  st_recv : enable_lidar_recv_thr_ (driver sys) = false;
  st_process : enable_lidar_process_thr_ (driver sys) = false;
  st_parse : loop sys = false \/ parse_thr_ sys = None;
  st_control : forallb winds_down (control sys) = true;
}.

Lemma recv_step_flags packet d d' :
  recv_step s mktime packet d = Ret d' ->
  enable_lidar_recv_thr_ d' = enable_lidar_recv_thr_ d /\
  enable_lidar_process_thr_ d' = enable_lidar_process_thr_ d.
Proof.
  unfold recv_step, PushLiDARData. intros H. repeat case_match; simplify_eq; try done.
  apply bind_Ret_inv in H as ([[ok sz] q] & _ & H). by simplify_eq.
Qed.

Lemma fill_callback_flags packet len time d d' :
  fill_callback stack packet len time d = Ret d' ->
  enable_lidar_recv_thr_ d' = enable_lidar_recv_thr_ d /\
  enable_lidar_process_thr_ d' = enable_lidar_process_thr_ d.
Proof.
  unfold fill_callback, FillPacket, PushLiDARData. intros H. repeat case_match; simplify_eq; try done.
  apply bind_Ret_inv in H as ([[ok sz] q] & _ & H). by simplify_eq.
Qed.

Lemma load_flagged_flags text d d' :
  load_flagged sinf cosf text d = Ret d' ->
  enable_lidar_recv_thr_ d' = enable_lidar_recv_thr_ d /\
  enable_lidar_process_thr_ d' = enable_lidar_process_thr_ d.
Proof.
  unfold load_flagged, pg_LoadCorrectionFile. intros H.
  apply bind_Ret_inv in H as ([ret d1] & H1 & H). apply bind_Ret_inv in H1 as ([ret1 c] & _ & H1).
  simplify_eq. by destruct (ret =? 0).
Qed.

Lemma load_configured_flags d d' :
  load_configured sinf cosf correction_file d = Ret d' ->
  enable_lidar_recv_thr_ d' = enable_lidar_recv_thr_ d /\
  enable_lidar_process_thr_ d' = enable_lidar_process_thr_ d.
Proof.
  unfold load_configured. intros H. repeat case_match; simplify_eq; try done.
  apply bind_Ret_inv in H as (text & _ & H). by eapply load_flagged_flags.
Qed.

Lemma stopping_thread_event e sys sys' :
  is_thread_event e = true -> stopping sys -> fire e sys = Some (Ret sys') ->
  stopping sys' /\ (turns_left sys' < turns_left sys)%nat.
Proof.
  intros He [Hr Hp Hl Hctl] Hf. destruct e as [c| |r|r|fresh|answer]; try discriminate He; simpl in Hf;
    unfold recv_event, parse_event, process_event, calibrate_event in Hf; rewrite ?Hr, ?Hp in Hf.
  - destruct (lidar_recv_thr_ sys) as [[| |packet|]|] eqn:Hpc; simplify_eq.
    + split; [by split|]. unfold turns_left. simpl. rewrite Hpc. simpl. lia.
    + split; [by split|]. unfold turns_left. simpl. rewrite Hpc. destruct r; simpl; lia.
    + apply bind_Ret_inv in Hf as (d & Hd & Hf). apply recv_step_flags in Hd as [H1 H2]. simplify_eq.
      split; [by split; simpl; rewrite ?H1, ?H2|]. unfold turns_left. simpl. rewrite Hpc. simpl. lia.
  - destruct (parse_thr_ sys) as [[| |packet len time| |]|] eqn:Hpc; simplify_eq;
      (destruct Hl as [Hl|]; [rewrite ?Hl in *|done]); simplify_eq.
    + split; [split; simpl; auto|]. unfold turns_left. simpl. rewrite Hpc. destruct src, r; simpl; lia.
    + split; [split; simpl; auto|]. unfold turns_left. simpl. rewrite Hpc.
      destruct r as [[[packet len] time]|]; simpl; lia.
    + apply bind_Ret_inv in Hf as (d & Hd & Hf). apply fill_callback_flags in Hd as [H1 H2].
      simplify_eq. split; [split; simpl; rewrite ?H1, ?H2; auto|].
      unfold turns_left. simpl. rewrite Hpc. simpl. lia.
    + split; [split; simpl; auto|]. unfold turns_left. simpl. rewrite Hpc. simpl. lia.
  - destruct (lidar_process_thr_ sys) as [[now| | | |packet|]|] eqn:Hpc; simplify_eq;
      try (apply bind_Ret_inv in Hf as (r & _ & Hf); repeat case_match; simplify_eq);
      (split; [by split|]); unfold turns_left; simpl; rewrite Hpc; simpl; try lia.
    all: try (destruct r as [[] ?]; simpl; lia). all: case_match; simpl; lia.
  - destruct (get_calibration_thr_ sys) as [[|text| |]|] eqn:Hpc; simplify_eq;
      try (apply bind_Ret_inv in Hf as (d & Hd & Hf); simplify_eq;
           (apply load_flagged_flags in Hd as [H1 H2] || apply load_configured_flags in Hd as [H1 H2]));
      (split; [by split; simpl; rewrite ?H1, ?H2|]); unfold turns_left; simpl; rewrite Hpc; simpl; try lia.
    destruct client, answer; simpl; lia.
Qed.

Lemma control_event_left sys sys' :
  stopping sys -> fire EControl sys = Some (Ret sys') ->
  stopping sys' /\ (turns_left sys' < turns_left sys)%nat.
Proof.
  intros [Hr Hp Hl Hctl] Hf. simpl in Hf. unfold turns_left.
  destruct (control sys) as [|i rest]; [done|]. simpl in Hctl. apply andb_true_iff in Hctl as [Hi Hctl].
  destruct (execute i sys) as [[sys1| |]|] eqn:Hex; simpl in Hf; simplify_eq.
  destruct i as [[]|[]|[]| | | | | | | | | |now| | | | |m]; try discriminate Hi; simpl in Hex;
    repeat case_match; simplify_eq; (split; [split; simpl; auto|simpl; rewrite ?H; simpl; lia]).
Qed.

Lemma stopping_run events sys sys' :
  stopping sys -> forallb (negb ∘ is_call) events = true -> sys_run events sys = Some (Ret sys') ->
  stopping sys' /\ (length events + turns_left sys' <= turns_left sys)%nat.
Proof.
  revert sys. induction events as [|e events IH]; intros sys Hst Hev Hrun; simpl in Hrun.
  { simplify_eq. split; [done|simpl; lia]. }
  simpl in Hev. apply andb_true_iff in Hev as [He Hev]. apply negb_true_iff in He.
  destruct (fire e sys) as [[sys1| |]|] eqn:Hf; try discriminate.
  assert (stopping sys1 /\ (turns_left sys1 < turns_left sys)%nat) as [Hst1 Hlt].
  { destruct (is_thread_event e) eqn:Ht; [by eapply stopping_thread_event|].
    destruct e; try discriminate. by apply control_event_left. }
  destruct (IH sys1 Hst1 Hev Hrun) as [Hst' Hle]. split; [done|]. simpl. lia.
Qed.

(** The progress of a call of [Stop]: [k] of its statements are done. *)
Record at_stop (k : nat) sys : Prop := {
  as_control : control sys = drop k (sdk_stop src);
  as_recv : (1 <= k)%nat -> enable_lidar_recv_thr_ (driver sys) = false;
  as_process : (2 <= k)%nat -> enable_lidar_process_thr_ (driver sys) = false;
  as_loop : connect_lidar_ src = false -> (3 <= k)%nat -> loop sys = false;
  as_parse : connect_lidar_ src = true -> parse_thr_ sys = None;
}.

Lemma thread_event_flags e sys sys' :
  is_thread_event e = true -> fire e sys = Some (Ret sys') ->
  enable_lidar_recv_thr_ (driver sys') = enable_lidar_recv_thr_ (driver sys) /\
  enable_lidar_process_thr_ (driver sys') = enable_lidar_process_thr_ (driver sys) /\
  loop sys' = loop sys.
Proof.
  intros He Hf. destruct e as [c| |r|r|fresh|answer]; try discriminate He; simpl in Hf;
    unfold recv_event, parse_event, process_event, calibrate_event in Hf;
    repeat (case_match; try discriminate); simplify_eq; try done;
    apply bind_Ret_inv in Hf as (x & Hx & Hf); repeat case_match; simplify_eq; try done.
  - by apply recv_step_flags in Hx as [].
  - by apply fill_callback_flags in Hx as [].
  - by apply load_flagged_flags in Hx as [].
  - by apply load_configured_flags in Hx as [].
Qed.

Lemma at_stop_event k e sys sys' :
  at_stop k sys -> is_call e = false -> fire e sys = Some (Ret sys') ->
  at_stop (k + (if is_thread_event e then 0 else 1)) sys'.
Proof.
  intros [Hctl Hr Hp Hl Hpa] He Hf. destruct (is_thread_event e) eqn:Ht.
  - destruct (thread_event_flags e sys sys' Ht Hf) as (Hr' & Hp' & Hl').
    destruct (thread_event_covers e sys sys' Ht Hf) as [Hctl' Hcov]. rewrite Nat.add_0_r.
    split; rewrite ?Hr', ?Hp', ?Hl', ?Hctl'; auto.
    intros Hcon. by apply (Hcov (Build_handles true false true true)); [split; auto|].
  - destruct e as [c| |r|r|fresh|answer]; try discriminate. simpl in Hf. rewrite Hctl in Hf.
    unfold sdk_stop, internal_stop in Hf. destruct (connect_lidar_ src) eqn:Hcl; do 11 (destruct k as [|k]; [simpl in Hf;
      repeat (case_match; simpl in Hf); simplify_eq; split; unfold sdk_stop, internal_stop; rewrite ?Hcl; simpl; intros;
      first [reflexivity | discriminate | exfalso; lia | apply Hr; lia | apply Hp; lia
        | apply Hl; [done|lia] | by apply Hpa]|]); done.
Qed.

Definition is_control (e : event) : bool := match e with EControl => true | _ => false end.

(** Turns of the controlling thread. *)
Definition control_turns (events : list event) : nat := length (filter is_control events).

Lemma at_stop_run events k sys sys' :
  at_stop k sys -> forallb (negb ∘ is_call) events = true -> sys_run events sys = Some (Ret sys') ->
  at_stop (k + control_turns events) sys'.
Proof.
  revert k sys. induction events as [|e events IH]; intros k sys Hst Hev Hrun; simpl in Hrun.
  { simplify_eq. unfold control_turns. simpl. by rewrite Nat.add_0_r. }
  simpl in Hev. apply andb_true_iff in Hev as [He Hev]. apply negb_true_iff in He.
  destruct (fire e sys) as [[sys1| |]|] eqn:Hf; try discriminate.
  pose proof (IH _ _ (at_stop_event k e sys sys1 Hst He Hf) Hev Hrun) as Hat.
  unfold control_turns. destruct e; try discriminate He; cbn in *; rewrite ?Nat.add_0_r in Hat;
    try exact Hat. by rewrite <- Nat.add_assoc in Hat.
Qed.

Lemma at_stop_stopping k sys : at_stop k sys -> (3 <= k)%nat -> stopping sys.
Proof.
  intros [Hctl Hr Hp Hl Hpa] Hk. split; [apply Hr; lia|apply Hp; lia| |].
  - destruct (connect_lidar_ src); auto.
  - rewrite Hctl. unfold sdk_stop, internal_stop.
    destruct (connect_lidar_ src); do 11 (destruct k as [|k]; [reflexivity|]); done.
Qed.

Lemma stopping_bound k sys : at_stop k sys -> (3 <= k)%nat -> (turns_left sys <= 19)%nat.
Proof.
  intros [Hctl _ _ _ _] Hk. unfold turns_left. rewrite Hctl, length_drop.
  assert (length (sdk_stop src) <= 10)%nat as Hl by (unfold sdk_stop; destruct src; cbn; lia).
  assert (recv_left (lidar_recv_thr_ sys) <= 3)%nat by (destruct (lidar_recv_thr_ sys) as [[]|]; cbn; lia).
  assert (parse_left (parse_thr_ sys) <= 3)%nat by (destruct (parse_thr_ sys) as [[]|]; cbn; lia).
  assert (process_left (lidar_process_thr_ sys) <= 3)%nat
    by (destruct (lidar_process_thr_ sys) as [[]|]; cbn; lia).
  assert (calibrate_left (get_calibration_thr_ sys) <= 3)%nat
    by (destruct (get_calibration_thr_ sys) as [[]|]; cbn; lia).
  lia.
Qed.

Lemma run_app events1 events2 sys sys' :
  sys_run (events1 ++ events2) sys = Some (Ret sys') ->
  exists sys1, sys_run events1 sys = Some (Ret sys1) /\ sys_run events2 sys1 = Some (Ret sys').
Proof.
  revert sys. induction events1 as [|e events1 IH]; intros sys Hrun; simpl in *; [by eexists|].
  destruct (fire e sys) as [[sys1| |]|]; try discriminate. by apply IH.
Qed.

Lemma checked_run h' events sys sys' :
  checked h' sys -> forallb (negb ∘ is_call) events = true -> sys_run events sys = Some (Ret sys') ->
  checked h' sys'.
Proof.
  revert sys. induction events as [|e events IH]; intros sys Hst Hev Hrun; simpl in Hrun; [by simplify_eq|].
  simpl in Hev. apply andb_true_iff in Hev as [He Hev]. apply negb_true_iff in He.
  destruct (fire e sys) as [[sys1| |]|] eqn:Hf; try discriminate.
  by eapply IH; [eapply fire_checked| |].
Qed.

(** At the start of a call of [Stop] only the threads of the source exist. *)
Lemma stop_begins sys :
  disciplined sys -> control sys = sdk_stop src ->
  at_stop 0 sys /\ checked (Build_handles false false false false) sys.
Proof.
  intros [(h' & (h & Hc & Hch & Hone) & Hw) _] Hctl. rewrite Hctl in Hch.
  assert (h' = Build_handles false (h_parse h') false false /\
    (connect_lidar_ src = true -> h_parse h = false) /\
    (connect_lidar_ src = false -> h_parse h' = false)) as (Heq & Hp & Hp').
  { unfold sdk_stop, internal_stop, within in *.
    destruct (connect_lidar_ src), h as [[] [] [] []]; simpl in *; simplify_eq; try done. }
  split.
  - split; [done|lia|lia|lia|]. intros Hcon. by apply (cv_parse _ _ Hc), Hp.
  - exists h. split; [done|]. split; [|done]. rewrite Hctl, Hch, Heq. do 2 f_equal.
    destruct (connect_lidar_ src); [|auto]. unfold within in Hw. by destruct (h_parse h'), (h_recv h').
Qed.

(** A thread that has not returned can take its turn. *)
Lemma recv_enabled sys : recv_left (lidar_recv_thr_ sys) <> 0%nat -> fire (EReceive None) sys <> None.
Proof. simpl. unfold recv_event. by destruct (lidar_recv_thr_ sys) as [[]|]. Qed.
Lemma parse_enabled sys : parse_left (parse_thr_ sys) <> 0%nat -> fire (EReplay None) sys <> None.
Proof. simpl. unfold parse_event. by destruct (parse_thr_ sys) as [[]|]. Qed.
Lemma process_enabled fresh sys :
  process_left (lidar_process_thr_ sys) <> 0%nat -> fire (EProcess fresh) sys <> None.
Proof. simpl. unfold process_event. by destruct (lidar_process_thr_ sys) as [[]|]. Qed.
Lemma calibrate_enabled sys :
  calibrate_left (get_calibration_thr_ sys) <> 0%nat -> fire (ECalibrate None) sys <> None.
Proof. simpl. unfold calibrate_event. by destruct (get_calibration_thr_ sys) as [[]|]. Qed.

Lemma joins_left i sys :
  recv_left (lidar_recv_thr_ sys) = 0%nat -> parse_left (parse_thr_ sys) = 0%nat ->
  process_left (lidar_process_thr_ sys) = 0%nat -> execute i sys = None -> i = JoinCalibration.
Proof.
  intros Hr Hp Hc Hnone.
  destruct i; simpl in Hnone; try done;
    [destruct (parse_thr_ sys) as [[]|]|destruct (lidar_recv_thr_ sys) as [[]|]
    |destruct (lidar_process_thr_ sys) as [[]|]]; done.
Qed.

(** Some thread can go on, unless all wait for the sensor to end the exchange. *)
Lemma no_deadlock fresh sys :
  control sys <> [] ->
  (exists e, e ∈ [EControl; EReceive None; EReplay None; EProcess fresh; ECalibrate None] /\
     fire e sys <> None /\ (e = ECalibrate None -> exchanging client sys = false)) \/
  (exchanging client sys = true /\ exists rest, control sys = JoinCalibration :: rest).
Proof.
  intros Hctl. destruct (decide (recv_left (lidar_recv_thr_ sys) = 0%nat)) as [Hr|Hr];
    [|left; exists (EReceive None); split_and!; [set_solver|by apply recv_enabled|done]].
  destruct (decide (parse_left (parse_thr_ sys) = 0%nat)) as [Hp|Hp];
    [|left; exists (EReplay None); split_and!; [set_solver|by apply parse_enabled|done]].
  destruct (decide (process_left (lidar_process_thr_ sys) = 0%nat)) as [Hc|Hc];
    [|left; exists (EProcess fresh); split_and!; [set_solver|by apply process_enabled|done]].
  destruct (control sys) as [|i rest] eqn:Hcons; [done|].
  destruct (execute i sys) as [r|] eqn:Hex.
  { left. exists EControl. split_and!; [set_solver| |done]. simpl. by rewrite Hcons, Hex. }
  pose proof (joins_left i sys Hr Hp Hc Hex) as ->.
  destruct (exchanging client sys) eqn:Hx; [right; split; [done|by exists rest]|left].
  exists (ECalibrate None). split_and!; [set_solver| |done]. apply calibrate_enabled.
  simpl in Hex. by destruct (get_calibration_thr_ sys) as [[]|].
Qed.

(** It is the last statement of [Stop] that waits for the sensor. *)
Lemma stop_last k rest sys : at_stop k sys -> control sys = JoinCalibration :: rest -> rest = [].
Proof.
  intros [Hctl _ _ _ _]. rewrite Hctl. unfold sdk_stop, internal_stop.
  destruct (connect_lidar_ src); do 11 (destruct k as [|k]; [simpl; by intros [= <-]|]); done.
Qed.

(** C13: [Stop] returns, provided the sensor ends the exchange of the calibration
    thread: whatever state the threads are in when it is called, once its thread
    has had three turns the threads take at most nineteen more between them,
    however they are scheduled; while it has not returned, one of them can go on
    without the sensor, unless the exchange, a read without a time-out, has not
    ended and its thread is all that is left to join; and when it has returned,
    no thread of the driver is left and the calibration thread is over. *)
Theorem stop_returns (d : Driver Q) (before first rest : list event) (fresh : PandarPacket)
    (sys sys' : System Q)
    (Hreach : sys_run before (idle d) = Some (Ret sys))
    (Hstop : control sys = code CallStop)
    (Hcalls : forallb (negb ∘ is_call) (first ++ rest) = true)
    (Hturns : (3 <= control_turns first)%nat)
    (Hrun : sys_run (first ++ rest) sys = Some (Ret sys')) :
  (length rest <= 19)%nat /\
  (control sys' <> [] ->
     (exists e, e ∈ [EControl; EReceive None; EReplay None; EProcess fresh; ECalibrate None] /\
        fire e sys' <> None /\ (e = ECalibrate None -> exchanging client sys' = false)) \/
     (exchanging client sys' = true /\ control sys' = [JoinCalibration])) /\
  (control sys' = [] -> no_threads sys' /\ calibration_over sys').
Proof.
  destruct (stop_begins sys (run_disciplined before _ _ (idle_disciplined d) Hreach) Hstop)
    as [Hat Hchk].
  pose proof (checked_run _ _ _ _ Hchk Hcalls Hrun) as (h & Hcov & Hch & _).
  rewrite forallb_app in Hcalls. apply andb_true_iff in Hcalls as [Hc1 Hc2].
  apply run_app in Hrun as (sys1 & Hrun1 & Hrun2).
  pose proof (at_stop_run _ _ _ _ Hat Hc1 Hrun1) as Hat1.
  pose proof (at_stop_stopping _ _ Hat1 Hturns) as Hst1.
  pose proof (stopping_bound _ _ Hat1 Hturns) as Hbound.
  destruct (stopping_run _ _ _ Hst1 Hc2 Hrun2) as [_ Hle].
  pose proof (at_stop_run _ _ _ _ Hat1 Hc2 Hrun2) as Hat'.
  split; [lia|]. split.
  { intros Hne. destruct (no_deadlock fresh sys' Hne) as [|(Hx & l & Hl)]; [by left|right].
    split; [done|]. by rewrite Hl, (stop_last _ _ _ Hat' Hl). }
  intros Hnil. rewrite Hnil in Hch. injection Hch as ->.
  split; [by apply (no_handles_spec (Build_handles false false false false))|by apply Hcov].
Qed.
End threads.

(** A live driver is started, gets one packet, and is stopped while it has it. *)
Definition example_before : list event :=
  ECall (CallStart (0, 0)) :: replicate 26 EControl ++
  [ECalibrate None; EProcess blank_packet; EReceive None; EReceive (Some (xtm_packet 7 35990 (d_lit 1005 10)));
   ECall CallStop].
Definition example_first : list event :=
  [EControl; EControl; EReceive None; EReceive None; EControl; ECalibrate None].
Definition example_rest : list event :=
  [EProcess blank_packet; EControl; EControl; EControl; EControl; EControl].

Abbreviation example_sys_run events sys :=
  (sys_run (F := packets_buffer_fifo) (fun _ _ _ _ => LookupFailed) id id xtm_settings true true
     mktime_utc [] None Device true events sys).

Definition at_rest {Q : Type} (r : option (outcome thread_error (System Q))) : bool :=
  match r with
  | Some (Ret sys) => match control sys with [] => true | _ => false end
  | _ => false
  end.

Definition begins_stop (l : list instruction) : bool :=
  match l with
  | [StoreRecv false; StoreProcess false; JoinRecv; JoinProcess; ResetQueue; ResetGuard; ResetTracker;
     JoinCalibration] => true
  | _ => false
  end.

Lemma begins_stop_spec l : begins_stop l = true -> l = sdk_stop Device.
Proof. unfold begins_stop. intros H. repeat (case_match; try discriminate). done. Qed.

Lemma example_runs :
  match example_sys_run example_before (idle fresh_driver) with
  | Some (Ret sys) =>
      begins_stop (control sys) &&
      at_rest (example_sys_run (example_first ++ example_rest) sys)
  | _ => false
  end = true.
Proof. vm_compute. reflexivity. Qed.

Lemma thread_discipline_witness :
  exists sys, example_sys_run example_before (idle fresh_driver) = Some (Ret sys) /\
    (lidar_recv_thr_ sys = None \/ parse_thr_ sys = None).
Proof.
  pose proof example_runs as Htest.
  destruct (example_sys_run example_before (idle fresh_driver)) as [[sys|e|]|] eqn:Hrun;
    try discriminate Htest.
  exists sys. split; [reflexivity|].
  exact (proj1 (thread_discipline (F := packets_buffer_fifo) (fun _ _ _ _ => LookupFailed) id id
    xtm_settings true true mktime_utc [] None Device true fresh_driver example_before sys Hrun)).
Defined.

Lemma stop_returns_witness :
  exists sys sys', example_sys_run example_before (idle fresh_driver) = Some (Ret sys) /\
    example_sys_run (example_first ++ example_rest) sys = Some (Ret sys') /\
    (length example_rest <= 19)%nat /\ no_threads sys' /\ calibration_over sys'.
Proof.
  pose proof example_runs as Htest.
  destruct (example_sys_run example_before (idle fresh_driver)) as [[sys|e|]|] eqn:Hrun;
    try discriminate Htest.
  apply andb_true_iff in Htest as [Hctl Htest]. apply begins_stop_spec in Hctl.
  destruct (example_sys_run (example_first ++ example_rest) sys) as [[sys'|e|]|] eqn:Hstop;
    try discriminate Htest.
  exists sys, sys'. split; [reflexivity|]. split; [exact Hstop|].
  destruct (stop_returns (F := packets_buffer_fifo) (fun _ _ _ _ => LookupFailed) id id
    xtm_settings true true mktime_utc [] None Device true fresh_driver example_before example_first example_rest
    blank_packet sys sys' Hrun Hctl eq_refl ltac:(vm_compute; lia) Hstop) as (Hlen & _ & Hno).
  split; [exact Hlen|]. apply Hno. cbn [at_rest] in Htest.
  destruct (control sys'); [reflexivity|discriminate Htest].
Defined.
