(* ===== verification/ThreadActions.v ===== *)
(** Operations of the driver that keep to one side of it: pushes, which touch the
    queue, the counters and the GPS times, and loads, which touch the tables; and
    the operation each step of a thread is ([operation_of]).

    A packet in the hands of the processing thread is one that the operations
    have processed already, when it was taken from the queue.  A load meanwhile is
    a data race, so between two steps that do not race the calibration the packet
    is processed with is the one of the turn. *)
From stdpp Require Import gmap.
From S2P Require Import Prelude SpscQueue Ieee Calendar PacketDefenses CompactCloud PacketFormat.
From S2P Require Import ParseXT ParseLegacy LidarTables PointCalc Correction Framing FramingFacts Streams.
From S2P Require Import Driver DriverFacts PcapReader PcapFacts Sockets PtcClient PtcFacts Node Sdk SdkFacts Launch.
From S2P Require Import LaunchFacts Threads.
#[local] Open Scope Z_scope.

Section actions.
Context {Q : Type} {depth : Z} `{F : !BoundedFifo thread_error PandarPacket Q depth}.
Context (lookupTransform : nat -> string -> string -> stamp -> lookup_result).
Context (sinf cosf : float -> float) (s : Settings) (pcl_callback char_signed : bool).
Context (mktime : tm -> Z) (stack : list Z) (correction_file : option (list Z)).
Implicit Types (d a : Driver Q) (sdk : PandarGeneralSDK Q).

Abbreviation operate := (operate lookupTransform sinf cosf s pcl_callback char_signed mktime stack
  correction_file).
Abbreviation operate_all := (operate_all lookupTransform sinf cosf s pcl_callback char_signed mktime
  stack correction_file).
Abbreviation push_message m := (pg_PushScanPacket sinf cosf stack correction_file [m]).

(** ** Operations that leave the processing thread's members alone *)

(** What a producer reads and writes, and what a load does. *)
Definition input_side d : Q * Receiver * list float := (m_PacketsBuffer d, receiver d, gps_times d).
Definition with_input (x : Q * Receiver * list float) d : Driver Q :=
  {| m_PacketsBuffer := x.1.1; receiver := x.1.2; process := process d; calibration := calibration d;
     got_lidar_correction_flag := got_lidar_correction_flag d;
     enable_lidar_recv_thr_ := enable_lidar_recv_thr_ d;
     enable_lidar_process_thr_ := enable_lidar_process_thr_ d; processing := processing d;
     gps_times := x.2 |}.
Definition table_side d : Calibration * bool := (calibration d, got_lidar_correction_flag d).
Definition with_tables (x : Calibration * bool) d : Driver Q := set_calibration x.1 x.2 d.

(** An action of its side alone: on a driver with the same one it does the same. *)
Definition action : Type := Driver Q -> outcome thread_error (Driver Q).
Definition producing (f : action) : Prop :=
  forall d d', input_side d = input_side d' -> f d' = (e ← f d; Ret (with_input (input_side e) d')).
Definition loading (f : action) : Prop :=
  forall d d', table_side d = table_side d' -> f d' = (e ← f d; Ret (with_tables (table_side e) d')).

(** What an operation is on the driver. *)
Definition does (o : operation) (f : action) : Prop :=
  forall sdk, operate o sdk = (d ← f (pandarGeneral_ sdk); Ret (set_driver d sdk)).

Lemma with_input_self d : with_input (input_side d) d = d.
Proof. by destruct d. Qed.
Lemma with_tables_self d : with_tables (table_side d) d = d.
Proof. by destruct d. Qed.

Lemma push_producing packet : producing (PushLiDARData packet).
Proof.
  intros d d' [= Hq Hr Hg]. unfold PushLiDARData. rewrite <- Hq, <- Hr.
  destruct (fifo_push _ _ _) as [[[ok sz] q]|e|]; try done. cbn [mbind outcome_bind].
  unfold set_queue, with_input, input_side. cbn. by rewrite Hg.
Qed.

Lemma recv_producing packet : producing (recv_step s mktime (Some packet)).
Proof.
  intros d d' Hin. unfold recv_step. destruct (pkt_size packet =? GPS_PACKET_SIZE);
    [|by apply push_producing].
  injection Hin as Hq Hr Hg. destruct (ParseGPS _ _); cbn; try done.
  - unfold add_gps_time, with_input, input_side. cbn. by rewrite Hq, Hr, Hg.
  - rewrite <- (with_input_self d') at 1. unfold input_side. by rewrite Hq, Hr, Hg.
Qed.

(** A message of a bag is pushed, or loaded. *)
Lemma recorded_producing m : producing (push_recorded m stack).
Proof. intros d d' Hin. unfold push_recorded. destruct (decide _); [by apply push_producing|done]. Qed.

Lemma loading_ret : loading Ret.
Proof. intros d d' Hd. cbn. by rewrite Hd, with_tables_self. Qed.

Lemma loading_bind (f g : action) : loading f -> loading g -> loading (fun d => e ← f d; g e).
Proof.
  intros Hf Hg d d' Hd. rewrite (Hf d d' Hd). destruct (f d) as [e| |]; try done.
  cbn [mbind outcome_bind]. rewrite (Hg e (with_tables (table_side e) d')) by (by destruct e).
  by destruct (g e).
Qed.

Lemma loading_if (f g : action) :
  loading f -> loading g -> loading (fun d => if got_lidar_correction_flag d then f d else g d).
Proof.
  intros Hf Hg d d' Hd. pose proof Hd as [= _ Hflag]. rewrite <- Hflag.
  by destruct (got_lidar_correction_flag d); [apply Hf|apply Hg].
Qed.

Lemma loading_given {A} (m : outcome thread_error A) (f : A -> action) :
  (forall x, loading (f x)) -> loading (fun d => x ← m; f x d).
Proof. intros Hf d d' Hd. destruct m as [x| |]; try done. by apply Hf. Qed.

Lemma loading_text text :
  loading (fun d => '(_, c) ← LoadCorrectionFile sinf cosf text (calibration d);
                    Ret (set_calibration c true d)).
Proof. intros d d' [= <- _]. by destruct (LoadCorrectionFile _ _ _ _) as [[ret c]| |]. Qed.

Lemma path_loading : loading (load_from_path sinf cosf correction_file).
Proof.
  unfold load_from_path. destruct correction_file as [content|].
  - by apply (loading_given (c_string content)); intros text; apply loading_text.
  - by intros d d' [= <- _].
Qed.

Lemma correction_loading m : loading (push_correction sinf cosf correction_file m).
Proof.
  unfold push_correction. apply (loading_if Ret); [apply loading_ret|].
  do 4 (apply loading_given; intros ?). apply (loading_bind (fun d => if _ : bool then _ else Ret d)).
  - destruct (_ =? _); [|apply loading_ret]. destruct (decide _); [|done].
    by apply (loading_given (c_string _)); intros text; apply loading_text.
  - intros d d' Hd. pose proof (loading_if Ret _ loading_ret path_loading d d' Hd) as H. cbv beta in H.
    destruct (got_lidar_correction_flag d'), (got_lidar_correction_flag d); exact H.
Qed.

(** Without an embedded text, and without a configured file, only the flag is set. *)
Lemma correction_keeps m d e :
  negb (got_lidar_correction_flag d) &&
    ((u32 (declared_length m) =? size m) || bool_decide (is_Some correction_file)) = false ->
  push_correction sinf cosf correction_file m d = Ret e -> calibration e = calibration d.
Proof.
  unfold push_correction. destruct (got_lidar_correction_flag d) eqn:Hflag; [by intros _ [= <-]|].
  cbn [negb andb]. intros Hno H. apply orb_false_iff in Hno as [Hlen Hfile].
  apply bind_Ret_inv in H as (b4 & [_ G4]%arr_get_Ret & H).
  apply bind_Ret_inv in H as (b5 & [_ G5]%arr_get_Ret & H).
  apply bind_Ret_inv in H as (b6 & [_ G6]%arr_get_Ret & H).
  apply bind_Ret_inv in H as (b7 & [_ G7]%arr_get_Ret & H).
  apply bind_Ret_inv in H as (d1 & H1 & H).
  match type of H1 with (if u32 ?n =? _ then _ else _) = _ =>
    assert (n = declared_length m) as Heq end.
  { unfold declared_length. by rewrite (nth_lookup_Some _ _ _ _ G4), (nth_lookup_Some _ _ _ _ G5),
      (nth_lookup_Some _ _ _ _ G6), (nth_lookup_Some _ _ _ _ G7). }
  rewrite Heq, Hlen in H1. injection H1 as <-. rewrite Hflag in H. cbn [negb] in H.
  unfold load_from_path in H. destruct correction_file; [discriminate Hfile|]. by injection H as <-.
Qed.

Lemma message_shape m : producing (push_message m) \/ loading (push_message m).
Proof.
  unfold pg_PushScanPacket. cbn [PushScanPacket].
  assert (forall (r : outcome thread_error bool) (f g : action), producing f -> loading g ->
    let h d := (b ← r; d ← (if b : bool then g d else f d); Ret d) in producing h \/ loading h) as Hcase.
  { intros r f g Hf Hg. destruct r as [[]|e|]; cbn; [right|left|left; by intros d d'..];
      intros d d' Hd; rewrite !bind_Ret_r; auto. }
  assert (forall f : action, (forall d, f d = (b ← (b0 ← arr_get (data m) 0;
      if b0 =? 0x47 then b1 ← arr_get (data m) 1; Ret (b1 =? 0x74) else Ret false);
    d ← (if b : bool then push_correction sinf cosf correction_file m d else push_recorded m stack d);
    Ret d)) -> producing f \/ loading f) as Hext.
  { intros f Hf. destruct (Hcase (b0 ← arr_get (data m) 0;
      if b0 =? 0x47 then b1 ← arr_get (data m) 1; Ret (b1 =? 0x74) else Ret false) _ _
      (recorded_producing m) (correction_loading m)) as [H|H]; [left|right]; intros d d' Hd;
      rewrite !Hf; by apply H. }
  apply Hext. intros d. by destruct (arr_get (data m) 0).
Qed.

Lemma flagged_loading text : loading (load_flagged sinf cosf text).
Proof.
  intros d d' [= Hc Hf]. unfold load_flagged, pg_LoadCorrectionFile, pg_SetCorrectionFileFlag.
  rewrite <- Hc, <- Hf. destruct (LoadCorrectionFile _ _ _ _) as [[ret c]|e|]; try done.
  cbn [mbind outcome_bind]. by destruct (ret =? 0).
Qed.

Lemma receive_does packet : does (Turn (Receive (Some packet))) (recv_step s mktime (Some packet)).
Proof. done. Qed.
Lemma scan_does m : does (Scan [m]) (push_message m).
Proof. done. Qed.
Lemma calibrate_does text : does (Calibrate text) (load_flagged sinf cosf text).
Proof.
  intros sdk. cbn [LaunchFacts.operate]. unfold load_and_flag, LoadLidarCorrectionFile, load_flagged.
  destruct (pg_LoadCorrectionFile _ _ _ _) as [[ret d]|e|]; try done. cbn [mbind outcome_bind].
  by destruct (ret =? 0).
Qed.

Lemma operate_all_app ops1 ops2 sdk :
  operate_all (ops1 ++ ops2) sdk = (sdk ← operate_all ops1 sdk; operate_all ops2 sdk).
Proof.
  revert sdk. induction ops1 as [|o ops1 IH]; intros sdk; [done|]. simpl.
  destruct (operate o sdk); simpl; auto.
Qed.

(** A message that does not load leaves the calibration, though it may set the flag. *)
Lemma message_keeps m d e :
  is_correction m && negb (got_lidar_correction_flag d) &&
    ((u32 (declared_length m) =? size m) || bool_decide (is_Some correction_file)) = false ->
  push_message m d = Ret e -> calibration e = calibration d.
Proof.
  intros Hno. unfold pg_PushScanPacket. cbn [PushScanPacket].
  destruct (data m) as [|b0 [|b1 rest]] eqn:Hdata; [done| |].
  - change (arr_get (E := thread_error) [b0] 0) with (@Ret thread_error _ b0).
    change (arr_get (E := thread_error) [b0] 1) with (@Undef thread_error Z).
    cbn [mbind outcome_bind]. destruct (b0 =? 0x47); [done|]. cbn [mbind outcome_bind].
    intros H. apply bind_Ret_inv in H as (e1 & H & [= <-]).
    unfold push_recorded, PushLiDARData in H. case_decide; [|done].
    apply bind_Ret_inv in H as ([[ok sz] q] & _ & [= <-]). done.
  - assert (forall i, 0 <= i < 2 -> arr_get (E := thread_error) (b0 :: b1 :: rest) i =
      Ret (nth (Z.to_nat i) (b0 :: b1 :: rest) 0)) as Hget.
    { intros i Hi. apply arr_get_nth. cbn [length]. lia. }
    rewrite !Hget by lia. cbn [mbind outcome_bind]. clear Hget.
    change (nth (Z.to_nat 0) (b0 :: b1 :: rest) 0) with b0.
    change (nth (Z.to_nat 1) (b0 :: b1 :: rest) 0) with b1.
    assert (is_correction m = (b0 =? 0x47) && (b1 =? 0x74)) as Hcor by (unfold is_correction; by rewrite Hdata).
    assert (forall b : bool, b = is_correction m -> forall e1,
      (if b then push_correction sinf cosf correction_file m d else push_recorded m stack d) = Ret e1 ->
      calibration e1 = calibration d) as Hcase.
    { intros b -> e1. destruct (is_correction m); cbn [andb] in Hno.
      - by apply correction_keeps.
      - unfold push_recorded, PushLiDARData. intros H. case_decide; [|done].
        apply bind_Ret_inv in H as ([[ok sz] q] & _ & [= <-]). done. }
    intros H. apply bind_Ret_inv in H as (b & Hb & H). apply bind_Ret_inv in H as (e1 & H & [= <-]).
    apply (Hcase b); [|done]. rewrite Hcor. by destruct (b0 =? 0x47); injection Hb.
Qed.
End actions.

(** ** The operation a step is *)

Section trace.
Context {Q : Type} {depth : Z} `{F : !BoundedFifo thread_error PandarPacket Q depth}.
Context (lookupTransform : nat -> string -> string -> stamp -> lookup_result).
Context (sinf cosf : float -> float) (s : Settings) (pcl_callback char_signed : bool).
Context (mktime : tm -> Z) (stack : list Z) (correction_file : option (list Z)).
Context (src : source) (client : bool).
Implicit Types (sys : System Q).

(** A packet is received when its thread has it; processed when the processing
    thread takes it from the queue; a text is loaded, a message pushed, at once; a
    start is done when the processing thread is started, a stop when the last
    thread is joined. *)
Definition control_operation (l : list instruction) : list operation :=
  match l with
  | PushMessage m :: _ => [Scan [m]]
  | SpawnProcess now :: _ => [StartDriver now]
  | [JoinCalibration] => [StopDriver]
  | _ => []
  end.
Definition configured_operation (flag : bool) : list operation :=
  match flag, correction_file with
  | false, Some content =>
      match c_string content with Ret text => [Calibrate text] | _ => [] end
  | _, _ => []
  end.
Definition operation_of (e : event) sys : list operation :=
  match e with
  | ECall _ => []
  | EControl => control_operation (control sys)
  | EReceive _ =>
      match lidar_recv_thr_ sys with
      | Some (RHave packet) => [Turn (Receive (Some packet))]
      | _ => []
      end
  | EReplay _ =>
      match parse_thr_ sys with
      | Some (PHave (Some buf) pktSize time) =>
          if pktSize =? GPS_PACKET_SIZE then []
          else [Turn (Receive (Some {| pkt_data := take (Z.to_nat pktSize) buf ++ stack;
                                       pkt_size := u32 pktSize; pkt_stamp := time |}))]
      | _ => []
      end
  | EProcess fresh =>
      match lidar_process_thr_ sys with Some CPop => [Turn (ProcessOne fresh)] | _ => [] end
  | ECalibrate _ =>
      match get_calibration_thr_ sys with
      | Some (KLoad text) => [Calibrate text]
      | Some KFile => configured_operation (pg_GetCorrectionFileFlag (driver sys))
      | _ => []
      end
  end.

(** The operations of a run, in the order of its steps. *)
Fixpoint trace (events : list event) sys : list operation :=
  match events with
  | [] => []
  | e :: events =>
      operation_of e sys ++
      match fire lookupTransform sinf cosf s pcl_callback char_signed mktime stack correction_file
              src client e sys with
      | Some (Ret sys) => trace events sys
      | _ => []
      end
  end.

Lemma operation_short e sys : operation_of e sys = [] \/ exists o, operation_of e sys = [o].
Proof.
  unfold operation_of, control_operation, configured_operation.
  repeat case_match; first [by left|right; by eexists].
Qed.
End trace.
