(* ===== verification/ThreadRefine.v ===== *)
(** What the threads do together is what a sequence of the driver's operations
    does, the one [trace] reads off their steps: a forward simulation from
    [Threads] to [Driver], for runs without a data race on the tables.

    A packet is pushed, a calibration loaded at once on both sides; a turn of the
    processing thread is over, on the side of the operations, when its packet is
    taken from the queue. *)
From stdpp Require Import gmap.
From S2P Require Import Prelude SpscQueue Ieee Calendar PacketDefenses CompactCloud PacketFormat.
From S2P Require Import ParseXT ParseLegacy LidarTables PointCalc Correction Framing FramingFacts Streams.
From S2P Require Import Driver DriverFacts PcapReader PcapFacts Sockets PtcClient PtcFacts Node Sdk SdkFacts Launch.
From S2P Require Import LaunchFacts Threads ThreadFacts ThreadActions.
#[local] Open Scope Z_scope.

(** A list with one element that passes a test splits there in one way. *)
Lemma one_split {A} (P : A -> bool) (l1 l2 l1' l2' : list A) x y :
  l1 ++ x :: l2 = l1' ++ y :: l2' -> P y = true -> existsb P l1 = false -> existsb P l2 = false ->
  l1 = l1'.
Proof.
  intros H Hy H1 H2. revert l1' H H1. induction l1 as [|a l1 IH]; intros [|b l1'] H H1; simpl in *.
  - done.
  - injection H as _ ->. rewrite existsb_app in H2. simpl in H2. rewrite Hy, orb_true_r in H2. done.
  - injection H as -> _. by rewrite Hy in H1.
  - injection H as -> H. apply orb_false_iff in H1 as [_ H1]. by rewrite (IH l1').
Qed.

Section refinement.
Context {Q : Type} {depth : Z} `{F : !BoundedFifo thread_error PandarPacket Q depth}.
Context (lookupTransform : nat -> string -> string -> stamp -> lookup_result).
Context (sinf cosf : float -> float) (s : Settings) (pcl_callback char_signed : bool).
Context (mktime : tm -> Z) (stack : list Z) (correction_file : option (list Z)).
Context (src : source) (client : bool).
(** The packets the network, the texts the sensor, the messages a bag may
    deliver; the configured file holds such a text. *)
Context (deliverable : PandarPacket -> Prop) (text_ok : list Z -> Prop).
Context (message_ok : PandarPacketMsg -> Prop).
Context (Hfile : forall content, correction_file = Some content ->
  exists text, c_string content = @Ret thread_error _ text /\ text_ok text).
Implicit Types (sys : System Q) (d a : Driver Q) (sdk : PandarGeneralSDK Q).

Abbreviation fire := (fire lookupTransform sinf cosf s pcl_callback char_signed mktime stack
  correction_file src client).
Abbreviation sys_run := (sys_run lookupTransform sinf cosf s pcl_callback char_signed mktime stack
  correction_file src client).
Abbreviation execute := (execute sinf cosf stack correction_file).
Abbreviation code := (code src).
Abbreviation operate := (operate lookupTransform sinf cosf s pcl_callback char_signed mktime stack
  correction_file).
Abbreviation operate_all := (operate_all lookupTransform sinf cosf s pcl_callback char_signed mktime
  stack correction_file).
Abbreviation begin_processing :=
  (begin_processing lookupTransform sinf cosf s pcl_callback char_signed mktime).
Abbreviation process_one :=
  (process_one lookupTransform sinf cosf s pcl_callback char_signed mktime).
Abbreviation thread_run := (thread_run lookupTransform sinf cosf s pcl_callback char_signed mktime
  stack correction_file src client).
Abbreviation races := (races correction_file).
Abbreviation does := (does lookupTransform sinf cosf s pcl_callback char_signed mktime stack
  correction_file).
Abbreviation operation_of := (operation_of stack correction_file).
Abbreviation trace := (trace lookupTransform sinf cosf s pcl_callback char_signed mktime stack
  correction_file src client).
Abbreviation disciplined := (disciplined src).
Abbreviation push_message m := (pg_PushScanPacket sinf cosf stack correction_file [m]).

(** ** [Start] and [Stop] as their statements *)

Definition effects (l : list instruction) d : Driver Q := foldl (fun d i => effect i d) d l.

Lemma Stop_effects d : processing d = false -> effects (sdk_stop src) d = Stop d.
Proof.
  intros Hp. destruct d. simpl in Hp. subst. unfold sdk_stop, internal_stop. by destruct src.
Qed.

Definition prepared a : Driver Q := effects (start_prefix src) (Stop a).

Lemma Start_prepared now a :
  Start lookupTransform sinf cosf s pcl_callback char_signed mktime now (Stop a) =
  '(running, p) ← begin_processing now (prepared a);
  Ret (set_process (m_PacketsBuffer (prepared a)) p running (prepared a)).
Proof. unfold Start, begin_processing, prepared, start_prefix, internal_stop. by destruct src. Qed.

(** What [Stop] or [Start] leaves the driver with, before it starts threads; the
    push of a scan has no such part. *)
Definition target (c : call) a : Driver Q :=
  match c with CallStart _ => prepared a | _ => Stop a end.
Definition driver_part (c : call) : list instruction :=
  match c with
  | CallStart _ => sdk_stop src ++ start_prefix src
  | _ => sdk_stop src
  end.
Definition thread_part (c : call) : list instruction :=
  match c with
  | CallStart now => SpawnProcess now :: start_suffix src ++ [SpawnCalibration]
  | _ => []
  end.
Definition is_scan (c : call) : bool := match c with CallScan _ => true | _ => false end.

Lemma code_parts c : is_scan c = false -> code c = driver_part c ++ thread_part c.
Proof.
  destruct c; try done; intros _; cbn [Threads.code driver_part thread_part];
    by rewrite ?app_nil_r, <- ?app_assoc.
Qed.

Lemma driver_part_effects c d : processing d = false -> effects (driver_part c) d = target c d.
Proof.
  intros Hp. destruct c; cbn [driver_part target]; try by apply Stop_effects.
  unfold effects. rewrite foldl_app. fold (effects (sdk_stop src) d). by rewrite Stop_effects.
Qed.

(** ** The simulation relation *)

(** Everything but the flags and the processing thread's members. *)
Record core d a : Prop := {
  co_input : input_side d = input_side a;
  co_tables : table_side d = table_side a;
  co_idle : processing d = false;
}.

(** A packet the processing thread holds is one the driver has processed. *)
Definition lagging (pc : option process_pc) d a : Prop :=
  match pc with
  | None | Some CDone => process d = process a
  | Some (CTest | CPop | CSleep) =>
      process d = process a /\ processing a = true /\ enable_lidar_process_thr_ a = true
  | Some (CInit now) =>
      begin_processing now d = Ret (processing a, process a) /\ enable_lidar_process_thr_ a = true
  | Some (CHave packet) =>
      process_one packet d = Ret (processing a, process a) /\ enable_lidar_process_thr_ a = true
  end.

(** The datagram [FillPacket] makes a packet of. *)
Definition good_record (packet : option (list Z)) (pktSize : Z) (time : float) : Prop :=
  exists buf, packet = Some buf /\ 0 <= pktSize <= zlen buf /\ pktSize <= ETHERNET_MTU /\
    deliverable {| pkt_data := take (Z.to_nat pktSize) buf ++ stack; pkt_size := pktSize;
                   pkt_stamp := time |}.

Definition good_event (e : event) : Prop :=
  match e with
  | EReceive (Some packet) => deliverable packet
  | EReplay (Some (packet, pktSize, time)) => good_record packet pktSize time
  | ECalibrate (Some text) => text_ok text
  | ECall (CallScan scan) => Forall message_ok scan
  | _ => True
  end.

(** What the producers and the calibration thread hold. *)
Definition good_instruction (i : instruction) : Prop :=
  match i with PushMessage m => message_ok m | _ => True end.
Record holding sys : Prop := {
  ho_recv : match lidar_recv_thr_ sys with Some (RHave packet) => deliverable packet | _ => True end;
  ho_parse : match parse_thr_ sys with
    | Some (PHave packet pktSize time) => good_record packet pktSize time
    | _ => True
    end;
  ho_calibrate : match get_calibration_thr_ sys with Some (KLoad text) => text_ok text | _ => True end;
  ho_control : Forall good_instruction (control sys);
}.

(** The statements left push, or change no member, or are those of a call whose
    first reset is ahead. *)
Definition neutral (i : instruction) : bool :=
  match i with
  | StoreLoop _ | JoinParse | SpawnRecv | SpawnParse | SpawnCalibration | PushMessage _ => true
  | _ => false
  end.
Definition same_flags d a : Prop :=
  enable_lidar_recv_thr_ d = enable_lidar_recv_thr_ a /\
  enable_lidar_process_thr_ d = enable_lidar_process_thr_ a.
Definition leads_to (l : list instruction) (c : call) d : Prop :=
  forall d0 a0, core d0 a0 -> process d0 = process a0 -> same_flags d0 d ->
    effects l d0 = target c a0.
Definition plain (i : instruction) : bool :=
  match i with
  | SpawnProcess _ | SpawnRecv | SpawnParse | SpawnCalibration | PushMessage _ => false
  | _ => true
  end.
Definition before_reset (l : list instruction) d : Prop :=
  forallb neutral l = true \/
  exists c pre, is_scan c = false /\ l = pre ++ thread_part c /\ pre `suffix_of` driver_part c /\
    existsb resets pre = true /\ leads_to pre c d.

Record running sys a : Prop := {
  ru_core : core (driver sys) a;
  ru_lag : lagging (lidar_process_thr_ sys) (driver sys) a;
  ru_control : before_reset (control sys) (driver sys);
}.
Definition quiet sys a : Prop :=
  no_threads sys /\ processing (driver sys) = false /\ control sys <> [] /\
  exists c pre, is_scan c = false /\ control sys = pre ++ thread_part c /\
    pre `suffix_of` driver_part c /\ effects pre (driver sys) = target c a.

Definition simulates sys sdk : Prop :=
  running sys (pandarGeneral_ sdk) \/ quiet sys (pandarGeneral_ sdk).

(** The operations of a simulation. *)
Definition allowed (o : operation) : Prop :=
  match o with
  | Turn (Receive (Some packet)) => deliverable packet
  | Calibrate text => text_ok text
  | Scan scan => Forall message_ok scan
  | SetAngle _ => False
  | _ => True
  end.

(** When [ops] do not fault from [sdk], the threads have not, and are simulated. *)
Definition simulated (ops : list operation) sdk (r : outcome thread_error (System Q)) : Prop :=
  forall sdk', operate_all ops sdk = Ret sdk' -> exists sys', r = Ret sys' /\ simulates sys' sdk'.

Lemma driver_part_plain pre c : pre `suffix_of` driver_part c -> forallb plain pre = true.
Proof.
  intros [l Hl]. assert (forallb plain (driver_part c) = true) as H.
  { unfold driver_part, sdk_stop, start_prefix, internal_stop. by destruct c, src. }
  rewrite Hl, forallb_app in H. by apply andb_true_iff in H as [_ H].
Qed.

(** [Stop] ends with the join of the calibration thread. *)
Lemma sdk_stop_last i : [i] `suffix_of` sdk_stop src -> i = JoinCalibration.
Proof.
  intros [pre Hpre]. apply (f_equal last) in Hpre. rewrite last_snoc in Hpre. revert Hpre.
  unfold sdk_stop, internal_stop. destruct src; cbn; by intros [= <-].
Qed.

(** A statement of [Start] or [Stop] before the threads are started. *)
Lemma plain_operation i rest : plain i = true -> rest <> [] -> control_operation (i :: rest) = [].
Proof. destruct i, rest; done. Qed.

(** ** What the producers and the calibration thread hold *)

Lemma holding_code c : good_event (ECall c) -> Forall good_instruction (code c).
Proof.
  intros Hc. destruct c as [|now|scan]; cbn [Threads.code].
  1-2: unfold sdk_stop, start_prefix, internal_stop, start_suffix, pcap_start, pcap_stop; destruct src;
    repeat (apply Forall_cons_2; [done|]); apply Forall_nil_2.
  rewrite Forall_fmap. exact Hc.
Qed.

(** A statement changes what it spawns, or nothing a thread holds. *)
Lemma execute_held i sys sys' :
  execute i sys = Some (Ret sys') ->
  (lidar_recv_thr_ sys' = lidar_recv_thr_ sys \/ lidar_recv_thr_ sys' = None \/
   lidar_recv_thr_ sys' = Some RTest) /\
  (parse_thr_ sys' = parse_thr_ sys \/ parse_thr_ sys' = None \/ parse_thr_ sys' = Some POpen) /\
  (get_calibration_thr_ sys' = get_calibration_thr_ sys \/
   get_calibration_thr_ sys' = Some KExchange).
Proof.
  destruct i; cbn [Threads.execute]; intros Hex; repeat (case_match; try discriminate);
    try (injection Hex as <-; cbn; by auto).
  injection Hex as Hex. apply bind_Ret_inv in Hex as (d & _ & [= <-]). cbn. auto.
Qed.

Lemma control_holding i rest sys sys' :
  holding sys -> Forall good_instruction rest -> execute i sys = Some (Ret sys') ->
  holding (set_control rest sys').
Proof.
  intros [H1 H2 H3 _] H4 Hex. destruct (execute_held _ _ _ Hex) as (Hr & Hp & Hc).
  split; cbn; [destruct Hr as [->|[->| ->]]|destruct Hp as [->|[->| ->]]|destruct Hc as [->| ->]|]; done.
Qed.

Lemma fire_holding e sys sys' :
  holding sys -> good_event e -> fire e sys = Some (Ret sys') -> holding sys'.
Proof.
  intros Hh He Hf. pose proof Hh as [H1 H2 H3 H4]. destruct e as [c| |r|r|fresh|answer]; simpl in Hf.
  - destruct (control sys); [|done]. destruct (may_call src c); simplify_eq.
    split; [done..|by apply holding_code].
  - destruct (control sys) as [|i rest]; [done|]. apply Forall_cons in H4 as [_ H4].
    destruct (execute i sys) as [[sys1| |]|] eqn:Hex; try discriminate. injection Hf as <-.
    by eapply control_holding.
  - unfold recv_event in Hf. destruct (lidar_recv_thr_ sys) as [[| |packet|]|]; simplify_eq;
      try (apply bind_Ret_inv in Hf as (? & _ & Hf); simplify_eq); split; try done; simpl.
    + by destruct (enable_lidar_recv_thr_ _).
    + by destruct r.
  - unfold parse_event in Hf. destruct (parse_thr_ sys) as [[| |packet len time| |]|]; simplify_eq;
      try (apply bind_Ret_inv in Hf as (? & _ & Hf); simplify_eq); split; try done; simpl.
    + by destruct src, r.
    + destruct r as [[[packet len] time]|]; [|done]. by destruct (loop sys).
  - clear H1 H2 H3 H4. unfold process_event in Hf.
    destruct (lidar_process_thr_ sys) as [[]|]; simplify_eq;
      try (apply bind_Ret_inv in Hf as (? & _ & Hf); repeat case_match; simplify_eq); by destruct Hh.
  - unfold calibrate_event in Hf. destruct (get_calibration_thr_ sys) as [[]|]; simplify_eq;
      try (apply bind_Ret_inv in Hf as (? & _ & Hf); simplify_eq); split; try done.
    simpl. by destruct client, answer.
Qed.

(** The packet of a record is the one the network would have delivered. *)
Lemma operation_allowed e sys : holding sys -> Forall allowed (operation_of e sys).
Proof.
  intros [H1 H2 H3 H4]. destruct e as [c| |r|r|fresh|answer]; cbn [ThreadActions.operation_of].
  - constructor.
  - destruct H4 as [|i rest Hi]; [constructor|].
    destruct i; cbn [control_operation]; try (by constructor); [by destruct rest; repeat constructor|].
    constructor; [|constructor]. cbn. by constructor.
  - destruct (lidar_recv_thr_ sys) as [[]|]; try constructor; [exact H1|constructor].
  - destruct (parse_thr_ sys) as [[| |[buf|] len time| |]|]; try constructor.
    destruct H2 as (buf' & [= <-] & Hsz & Hmtu & Hdel).
    destruct (len =? GPS_PACKET_SIZE); repeat constructor. cbn [allowed]. unfold ETHERNET_MTU in Hmtu. rewrite uwrap_small by lia. exact Hdel.
  - destruct (lidar_process_thr_ sys) as [[]|]; try constructor; [exact I|constructor].
  - destruct (get_calibration_thr_ sys) as [[]|]; try constructor; [exact H3|constructor|].
    unfold configured_operation. destruct (pg_GetCorrectionFileFlag _); [constructor|].
    destruct correction_file as [content|]; [|constructor].
    destruct (Hfile content eq_refl) as (text & -> & Ht). constructor; [exact Ht|constructor].
Qed.

Lemma run_holding events sys :
  holding sys -> Forall good_event events -> Forall allowed (trace events sys).
Proof.
  intros Hh Hgood. revert sys Hh. induction Hgood as [|e events He _ IH]; intros sys Hh; [constructor|].
  cbn [ThreadActions.trace]. apply Forall_app_2; [by apply operation_allowed|].
  destruct (fire e sys) as [[sys'| |]|] eqn:Hf; [|constructor..]. by eapply IH, fire_holding.
Qed.

(** ** The members of a call in progress *)

Lemma core_queue d a : core d a -> m_PacketsBuffer d = m_PacketsBuffer a.
Proof. by intros [[= ?] _ _]. Qed.
Lemma core_calibration d a : core d a -> calibration d = calibration a.
Proof. by intros [_ [= ?] _]. Qed.

Lemma core_process d a q p p' r :
  core d a -> core (set_process q p (processing d) d) (set_process q p' r a).
Proof.
  intros [[= _ Hr Hg] Htab Hidle]. split; [|exact Htab|exact Hidle].
  unfold input_side. cbn. by rewrite Hr, Hg.
Qed.

Lemma core_flags d a recv process_ : core d a -> core (store_flags recv process_ d) a.
Proof. intros [Hin Htab Hidle]. split; [exact Hin|exact Htab|exact Hidle]. Qed.

Lemma before_reset_flags l d d' : same_flags d' d -> before_reset l d -> before_reset l d'.
Proof.
  intros [H1 H2] [Hn|(c & pre & Hc & -> & Hp & Hres & Hl)]; [by left|right].
  exists c, pre. do 4 (split; [done|]). intros d0 a0 Hc0 Hpr [H3 H4]. apply Hl; [done..|]. split; congruence.
Qed.

Lemma before_reset_input l d x : before_reset l d -> before_reset l (with_input x d).
Proof. by apply before_reset_flags. Qed.
Lemma before_reset_tables l d x : before_reset l d -> before_reset l (with_tables x d).
Proof. by apply before_reset_flags. Qed.
Lemma before_reset_process l d q p b : before_reset l d -> before_reset l (set_process q p b d).
Proof. by apply before_reset_flags. Qed.

(** A member of the processing thread is read with the tables, not the input. *)
Lemma lagging_input pc d a x y : lagging pc d a -> lagging pc (with_input x d) (with_input y a).
Proof. by destruct pc as [[]|]. Qed.

Lemma begin_tables now x d : begin_processing now (with_tables x d) = begin_processing now d.
Proof. reflexivity. Qed.

Lemma effect_tables i x d : effect i (with_tables x d) = with_tables x (effect i d).
Proof. by destruct i. Qed.

Lemma effects_tables l x d : effects l (with_tables x d) = with_tables x (effects l d).
Proof.
  revert d. induction l as [|i l IH]; intros d; [done|]. cbn. rewrite effect_tables. apply IH.
Qed.

Lemma effects_table_side l d : table_side (effects l d) = table_side d.
Proof. revert d. induction l as [|i l IH]; intros d; [done|]. by etransitivity; [apply IH|destruct i]. Qed.

Lemma target_tables c x a : target c (with_tables x a) = with_tables x (target c a).
Proof. destruct c; [done| |done]. apply (effects_tables _ x (Stop a)). Qed.

Lemma target_table_side c a : table_side (target c a) = table_side a.
Proof. destruct c; [done| |done]. apply (effects_table_side _ (Stop a)). Qed.

(** A race ends the run. *)
Abbreviation raced := (raced lookupTransform sinf cosf s pcl_callback char_signed mktime stack
  correction_file src client).
Lemma raced_undefined events sys res :
  raced events sys = true -> thread_run events sys = Some res -> res = Undef.
Proof.
  revert sys. induction events as [|e events IH]; intros sys; cbn [Threads.raced Threads.thread_run];
    [done|]. unfold Threads.step. destruct (races sys); [by intros _ [= <-]|].
  destruct (fire e sys) as [[sys1| |]|]; [apply IH|done..].
Qed.

Lemma thread_run_raceless events sys :
  raced events sys = false -> thread_run events sys = sys_run events sys.
Proof.
  revert sys. induction events as [|e events IH]; intros sys;
    cbn [Threads.raced Threads.thread_run Threads.sys_run]; [done|].
  unfold Threads.step. destruct (races sys); [done|]. cbn [orb].
  by destruct (fire e sys) as [[sys1| |]|]; [apply IH|..].
Qed.

Lemma raced_prefix events1 events2 sys : raced (events1 ++ events2) sys = false -> raced events1 sys = false.
Proof.
  revert sys. induction events1 as [|e events1 IH]; intros sys; [done|]. cbn [app Threads.raced].
  destruct (races sys); [done|]. cbn [orb]. by destruct (fire e sys) as [[sys1| |]|]; [apply IH|..].
Qed.

(** ** Events from a simulated state *)

Section events.
Context (sys : System Q) (sdk : PandarGeneralSDK Q).

Lemma simulated_none sys' : simulates sys' sdk -> simulated [] sdk (Ret sys').
Proof. intros Hs sdk' [= <-]. by exists sys'. Qed.

Lemma simulated_one o r :
  (forall sdk', operate o sdk = Ret sdk' -> exists sys', r = Ret sys' /\ simulates sys' sdk') ->
  simulated [o] sdk r.
Proof. intros Hsim sdk' Hrun. apply Hsim. by apply bind_Ret_inv in Hrun as (? & ? & [= <-]). Qed.

(** A state that differs in the points the other threads stand at. *)
Lemma moved_simulated sys' :
  running sys (pandarGeneral_ sdk) -> driver sys' = driver sys ->
  before_reset (control sys') (driver sys) ->
  lagging (lidar_process_thr_ sys') (driver sys) (pandarGeneral_ sdk) ->
  simulated [] sdk (Ret sys').
Proof.
  intros [Hcore _ _] Hd Hbr Hlag. apply simulated_none. left. by split; rewrite ?Hd.
Qed.

(** A packet handed on by a producer. *)
Lemma push_simulated o (f : action) (back : Driver Q -> System Q) :
  running sys (pandarGeneral_ sdk) -> does o f -> producing f ->
  (forall d, driver (back d) = d /\ lidar_process_thr_ (back d) = lidar_process_thr_ sys /\
     before_reset (control (back d)) (driver sys)) ->
  simulated [o] sdk (d ← f (driver sys); Ret (back d)).
Proof.
  intros [[Hin Htab Hidle] Hlag _] Hdo Hf Hback. apply simulated_one.
  intros sdk'. rewrite Hdo, (Hf _ (driver sys) (eq_sym Hin)).
  rewrite (Hf _ (pandarGeneral_ sdk) eq_refl).
  destruct (f (pandarGeneral_ sdk)) as [e| |]; try discriminate. cbn [mbind outcome_bind].
  change (input_side (with_input (input_side e) _)) with (input_side e).
  intros [= <-]. eexists. split; [reflexivity|].
  destruct (Hback (with_input (input_side e) (driver sys))) as (H1 & H2 & H3).
  left. split; rewrite ?H1, ?H2; cbn [set_driver pandarGeneral_].
  - by split.
  - by apply lagging_input.
  - by apply before_reset_input.
Qed.

(** A load while threads run; one that changes the tables finds no packet in hand. *)
Lemma load_running o (f : action) (back : Driver Q -> System Q) :
  running sys (pandarGeneral_ sdk) -> does o f -> loading f ->
  (in_hand sys = true ->
   forall e, f (driver sys) = Ret e -> calibration e = calibration (driver sys)) ->
  (forall d, driver (back d) = d /\ lidar_process_thr_ (back d) = lidar_process_thr_ sys /\
     before_reset (control (back d)) (driver sys)) ->
  simulated [o] sdk (d ← f (driver sys); Ret (back d)).
Proof.
  intros [[Hin Htab Hidle] Hlag Hbr] Hdo Hf Hhand Hback. apply simulated_one. intros sdk'.
  rewrite (Hf _ (driver sys) (eq_sym Htab)) in *.
  rewrite Hdo, (Hf _ (pandarGeneral_ sdk) eq_refl).
  destruct (f (pandarGeneral_ sdk)) as [e| |]; try discriminate. cbn [mbind outcome_bind] in *.
  change (table_side (with_tables (table_side e) _)) with (table_side e).
  intros [= <-]. eexists. split; [reflexivity|].
  destruct (Hback (with_tables (table_side e) (driver sys))) as (H1 & H2 & H3).
  left. split; rewrite ?H1, ?H2; cbn [set_driver pandarGeneral_]; [by split| |by apply before_reset_tables].
  unfold in_hand in Hhand. destruct (lidar_process_thr_ sys) as [[now| | | |packet|]|];
    [exact Hlag..| |exact Hlag|exact Hlag].
  specialize (Hhand eq_refl _ eq_refl). cbn in Hhand. destruct Hlag as [Hone Hen]. split; [|done].
  etransitivity; [|exact Hone]. unfold Threads.process_one. cbn [calibration process with_tables set_calibration table_side fst].
  rewrite Hhand. reflexivity.
Qed.

(** A load while the driver stands still. *)
Lemma load_quiet o (f : action) (back : Driver Q -> System Q) :
  quiet sys (pandarGeneral_ sdk) -> does o f -> loading f ->
  (forall d, driver (back d) = d /\ (no_threads sys -> no_threads (back d)) /\
     control (back d) = control sys) ->
  simulated [o] sdk (d ← f (driver sys); Ret (back d)).
Proof.
  intros (Hno & Hidle & Hne & c & pre & Hc & Hctl & Hp & Heff) Hdo Hf Hback.
  assert (table_side (driver sys) = table_side (pandarGeneral_ sdk)) as Htab.
  { rewrite <- (effects_table_side pre), Heff. apply target_table_side. }
  apply simulated_one. intros sdk'.
  rewrite Hdo, (Hf _ (driver sys) (eq_sym Htab)), (Hf _ (pandarGeneral_ sdk) eq_refl).
  destruct (f (pandarGeneral_ sdk)) as [e| |]; try discriminate. cbn [mbind outcome_bind].
  change (table_side (with_tables (table_side e) _)) with (table_side e).
  intros [= <-]. eexists. split; [reflexivity|].
  destruct (Hback (with_tables (table_side e) (driver sys))) as (H1 & H2 & H3).
  right. unfold quiet. rewrite H1, H3. split; [by apply H2|]. split; [done|].
  split; [done|]. exists c, pre. split; [done|]. split; [done|]. split; [done|].
  cbn [set_driver pandarGeneral_]. by rewrite effects_tables, Heff, target_tables.
Qed.

(** ** The producers *)

(** A record that [FillPacket] skips, or makes a packet of. *)
Lemma fill_record packet pktSize time :
  good_record packet pktSize time ->
  (pktSize = GPS_PACKET_SIZE /\ forall d, fill_callback stack packet pktSize time d = Ret d) \/
  exists buf, packet = Some buf /\ pktSize <> GPS_PACKET_SIZE /\
    forall d, fill_callback stack packet pktSize time d =
      recv_step s mktime (Some {| pkt_data := take (Z.to_nat pktSize) buf ++ stack;
                                  pkt_size := u32 pktSize; pkt_stamp := time |}) d.
Proof.
  intros (buf & -> & Hsz & Hmtu & Hdel). cbn [fill_callback]. unfold FillPacket, recv_step.
  destruct (Z.eqb_spec pktSize GPS_PACKET_SIZE) as [->|Hne]; [by left|right].
  exists buf. split; [done|]. split; [done|]. intros d. cbn [negb pkt_size].
  unfold ETHERNET_MTU in Hmtu. rewrite uwrap_small by lia.
  rewrite (proj2 (Z.eqb_neq _ _)) by done. by rewrite decide_True by done.
Qed.

Lemma recv_event_simulated r res :
  running sys (pandarGeneral_ sdk) ->
  fire (EReceive r) sys = Some res -> simulated (operation_of (EReceive r) sys) sdk res.
Proof.
  intros Hrun Hf. pose proof Hrun as [_ Hlag Hbr].
  simpl in Hf. unfold recv_event in Hf. cbn [ThreadActions.operation_of].
  destruct (lidar_recv_thr_ sys) as [[| |packet|]|] eqn:Hpc; simplify_eq.
  - by apply moved_simulated.
  - by apply moved_simulated.
  - apply (push_simulated (Turn (Receive (Some packet)))); try done; apply recv_producing.
Qed.

Lemma parse_event_simulated r res :
  running sys (pandarGeneral_ sdk) -> holding sys ->
  fire (EReplay r) sys = Some res -> simulated (operation_of (EReplay r) sys) sdk res.
Proof.
  intros Hrun [_ Hh2 _ _] Hf. pose proof Hrun as [_ Hlag Hbr].
  simpl in Hf. unfold parse_event in Hf. cbn [ThreadActions.operation_of].
  destruct (parse_thr_ sys) as [[| |packet len time| |]|] eqn:Hpc; simplify_eq.
  - by apply moved_simulated.
  - by apply moved_simulated.
  - destruct (fill_record packet len time Hh2) as [[-> Hskip]|(buf & -> & Hne & Hfill)].
    + rewrite Hskip. replace (match packet with Some _ => _ | None => _ end) with (@nil operation)
        by (by destruct packet). by apply moved_simulated.
    + rewrite Hfill, (proj2 (Z.eqb_neq _ _)) by done.
      apply (push_simulated (Turn (Receive (Some _)))); try done. apply recv_producing.
  - by apply moved_simulated.
Qed.

(** ** The calibration thread *)

Lemma load_simulated text pc :
  simulates sys sdk -> in_hand sys = false ->
  simulated [Calibrate text] sdk
    (d ← load_flagged sinf cosf text (driver sys); Ret (at_calibrate pc d sys)).
Proof.
  intros [Hrun|Hq] Hhand.
  - pose proof (ru_control _ _ Hrun).
    apply (load_running (Calibrate text)); [done|apply calibrate_does|apply flagged_loading| |done].
    by rewrite Hhand.
  - by apply (load_quiet (Calibrate text)); [|apply calibrate_does|apply flagged_loading|].
Qed.

Lemma calibration_moved pc :
  simulates sys sdk -> simulated [] sdk (Ret (at_calibrate pc (driver sys) sys)).
Proof. intros Hcase. apply simulated_none. destruct Hcase as [[]|Hq]; [left; by split|by right]. Qed.

(** Without a race, a load finds no packet in hand. *)
Lemma calibration_alone :
  races sys = false -> calibration_loads correction_file sys = true -> in_hand sys = false.
Proof. unfold Threads.races. intros H Hl. rewrite Hl in H. by destruct (in_hand sys). Qed.

Lemma calibrate_event_simulated answer res :
  simulates sys sdk -> races sys = false ->
  fire (ECalibrate answer) sys = Some res -> simulated (operation_of (ECalibrate answer) sys) sdk res.
Proof.
  intros Hsim Hrace Hf. pose proof (calibration_alone Hrace) as Halone. unfold calibration_loads in Halone.
  simpl in Hf. unfold calibrate_event in Hf. cbn [ThreadActions.operation_of].
  destruct (get_calibration_thr_ sys) as [[|text| |]|]; simplify_eq.
  - by apply calibration_moved.
  - by apply load_simulated; [|apply Halone].
  - unfold load_configured, configured_operation.
    destruct (pg_GetCorrectionFileFlag (driver sys)); [by apply calibration_moved|].
    destruct correction_file as [content|]; [|by apply calibration_moved].
    destruct (Hfile content eq_refl) as (text & -> & Ht). by apply load_simulated; [|apply Halone].
Qed.

(** ** The processing thread *)

(** The end of [begin_processing] or [process_one], already made by the driver. *)
Lemma finish_simulated :
  let a := pandarGeneral_ sdk in let d := driver sys in
  core d a -> enable_lidar_process_thr_ a = true -> before_reset (control sys) d ->
  simulated [] sdk (Ret (at_process (after (processing a))
    (set_process (m_PacketsBuffer d) (process a) (processing d) d) sys)).
Proof.
  intros a d Hcore Hen Hbr. apply simulated_none. left. split; cbn.
  - by destruct Hcore.
  - fold a. unfold after. by destruct (processing a) eqn:Hp.
  - by apply before_reset_process.
Qed.

Lemma process_event_simulated fresh res :
  running sys (pandarGeneral_ sdk) ->
  fire (EProcess fresh) sys = Some res -> simulated (operation_of (EProcess fresh) sys) sdk res.
Proof.
  intros Hrun Hf. pose proof Hrun as [Hcore Hlag Hbr]. simpl in Hf. unfold process_event in Hf.
  cbn [ThreadActions.operation_of].
  destruct (lidar_process_thr_ sys) as [[now| | | |packet|]|] eqn:Hpc; simplify_eq; simpl in Hlag.
  - destruct Hlag as [-> Hen]. by apply finish_simulated.
  - apply moved_simulated; try done.
    simpl. destruct (enable_lidar_process_thr_ (driver sys)); [done|]. by destruct Hlag.
  - destruct Hlag as (Hp & Hpr & Hen). apply simulated_one.
    intros sdk' Hop. cbn [LaunchFacts.operate take_turn] in Hop.
    apply bind_Ret_inv in Hop as (a' & Ha & Hop). pose proof (core_queue _ _ Hcore) as Hq.
    unfold process_step in Ha. rewrite Hpr, Hen, <- Hq in Ha. cbn [andb] in Ha.
    apply bind_Ret_inv in Ha as ([[ok packet] q] & Hpop & Ha). rewrite Hpop.
    eexists. split; [reflexivity|]. left.
    destruct ok; cbn [negb] in Ha.
    + apply bind_Ret_inv in Ha as ([running_ p] & Hone & Ha). simplify_eq. split; cbn.
      * by apply core_process.
      * split; [|done]. unfold Threads.process_one. cbn. by rewrite Hp, (core_calibration _ _ Hcore).
      * by apply before_reset_process.
    + simplify_eq. split; cbn; [by apply core_process|done|by apply before_reset_process].
  - by apply moved_simulated.
  - destruct Hlag as [-> Hen]. by apply finish_simulated.
Qed.

(** ** The controlling thread *)

(** A statement before the resets, in terms of what is left. *)
Lemma leads_to_step i pre c d :
  plain i = true -> resets i = false -> leads_to (i :: pre) c d -> leads_to pre c (effect i d).
Proof.
  intros Hi Hres Hl d0 a0 Hc Hp [H1 H2].
  destruct i as [b|b|b| | | | | | | | | |now| | | | |m]; try discriminate; simpl in H1, H2;
    try by apply (Hl d0 a0).
  all: rewrite <- (Hl (store_flags (enable_lidar_recv_thr_ d) (enable_lidar_process_thr_ d) d0) a0);
    try done; [destruct d0; simpl in *; by subst|by destruct Hc].
Qed.

(** A statement of a call while threads may run. *)
Lemma execute_running i sys1 rest :
  plain i = true -> resets i = false -> execute i sys = Some (Ret sys1) ->
  running sys (pandarGeneral_ sdk) -> before_reset rest (effect i (driver sys)) ->
  simulates (set_control rest sys1) sdk.
Proof.
  intros Hi Hres Hex [Hcore Hlag _] Hbr. left.
  destruct i as [b|b|b| | | | | | | | | |now| | | | |m]; try discriminate; simpl in Hex, Hbr.
  1-3: simplify_eq; (split; cbn; [first [exact Hcore|by apply core_flags]
      |by destruct (lidar_process_thr_ sys) as [[]|]|exact Hbr]).
  all: repeat case_match; simplify_eq;
    split; cbn; repeat match goal with H : _ = Some _ |- _ => rewrite ?H in *; clear H
      | H : _ = None |- _ => rewrite ?H in *; clear H end; done.
Qed.

Lemma execute_quiet i sys1 :
  plain i = true -> no_threads sys -> execute i sys = Some (Ret sys1) ->
  no_threads sys1 /\ driver sys1 = effect i (driver sys) /\
    get_calibration_thr_ sys1 = get_calibration_thr_ sys.
Proof.
  intros Hi (H1 & H2 & H3) Hex.
  destruct i; try discriminate; simpl in Hex; rewrite ?H1, ?H2, ?H3 in Hex; repeat case_match; by simplify_eq.
Qed.

(** Whatever the members were, the start leaves both flags set. *)
Lemma prepared_flags a :
  processing (prepared a) = false /\ enable_lidar_process_thr_ (prepared a) = true.
Proof. unfold prepared, start_prefix, internal_stop. by destruct src. Qed.

Lemma operate_stop sdk' :
  operate StopDriver sdk = Ret sdk' -> pandarGeneral_ sdk' = Stop (pandarGeneral_ sdk).
Proof. intros [= <-]. reflexivity. Qed.

Lemma operate_start_eq now :
  operate (StartDriver now) sdk =
  (d ← Start lookupTransform sinf cosf s pcl_callback char_signed mktime now
         (Stop (pandarGeneral_ sdk));
   Ret (set_driver d (sdk_Stop sdk))).
Proof. reflexivity. Qed.

Lemma operate_start now sdk' :
  operate (StartDriver now) sdk = Ret sdk' ->
  exists running_ p, begin_processing now (prepared (pandarGeneral_ sdk)) = Ret (running_, p) /\
    pandarGeneral_ sdk' = set_process (m_PacketsBuffer (prepared (pandarGeneral_ sdk))) p running_
                            (prepared (pandarGeneral_ sdk)).
Proof.
  rewrite operate_start_eq. intros Hop. apply bind_Ret_inv in Hop as (a' & Ha & Hop).
  injection Hop as <-. rewrite Start_prepared in Ha. revert Ha.
  generalize (prepared (pandarGeneral_ sdk)). intros d Ha.
  apply bind_Ret_inv in Ha as ([running_ p] & Hbegin & Ha). injection Ha as <-.
  exists running_, p. by split.
Qed.

(** The start of the processing thread. *)
Lemma spawn_simulated now rest :
  driver sys = prepared (pandarGeneral_ sdk) -> forallb neutral rest = true ->
  simulated [StartDriver now] sdk
    (Ret (set_control rest (at_process (Some (CInit now)) (driver sys) sys))).
Proof.
  intros Hd Hrest. apply simulated_one.
  intros sdk' Hop. apply operate_start in Hop as (running_ & p & Hbegin & Ha).
  destruct (prepared_flags (pandarGeneral_ sdk)) as [Hf1 Hf2].
  revert Hd Hbegin Ha Hf1 Hf2. generalize (prepared (pandarGeneral_ sdk)).
  intros d Hd Hbegin Ha Hf1 Hf2. eexists. split; [reflexivity|].
  left. rewrite Ha. split; cbn; rewrite ?Hd; [by split|by split|by left].
Qed.

Lemma stop_simulated sys1 :
  no_threads sys1 -> control sys1 = [] -> driver sys1 = Stop (pandarGeneral_ sdk) ->
  simulated [StopDriver] sdk (Ret sys1).
Proof.
  intros (_ & _ & H3) Hctl Hd. apply simulated_one.
  intros sdk' Hop. apply operate_stop in Hop. eexists. split; [reflexivity|]. left.
  rewrite Hop. split; rewrite ?H3, ?Hctl, ?Hd; [done|done|by left].
Qed.

Lemma thread_part_neutral : forallb neutral (start_suffix src ++ [SpawnCalibration]) = true.
Proof. unfold start_suffix. by destruct src. Qed.

Lemma plain_control i rest res :
  plain i = true ->
  (fun r => sys ← r; Ret (set_control rest sys)) <$> execute i sys = Some res ->
  exists sys1, execute i sys = Some (Ret sys1) /\ res = Ret (set_control rest sys1).
Proof.
  intros Hi Hf. apply fmap_Some in Hf as (r & Hex & ->). rewrite Hex.
  assert (exists sys1, r = Ret sys1) as [sys1 ->]; [|by exists sys1].
  destruct i; try discriminate; simpl in Hex; repeat case_match; simplify_eq; by eexists.
Qed.

Lemma quiet_control i rest res :
  quiet sys (pandarGeneral_ sdk) -> control sys = i :: rest ->
  (fun r => sys ← r; Ret (set_control rest sys)) <$> execute i sys = Some res ->
  simulated (control_operation (i :: rest)) sdk res.
Proof.
  intros (Hno & Hproc & _ & c & pre & Hscan & Hctl & Hsuf & Heff) Hcons Hf. rewrite Hcons in Hctl.
  destruct pre as [|i' pre]; cbn [app] in Hctl.
  - destruct c as [|now|]; try discriminate. injection Hctl as -> ->.
    injection Hf as <-. apply spawn_simulated; [done|apply thread_part_neutral].
  - injection Hctl as <- Hrest. pose proof (driver_part_plain _ _ Hsuf) as Hplain.
    simpl in Hplain. apply andb_true_iff in Hplain as [Hi Hplain].
    destruct (plain_control _ _ _ Hi Hf) as (sys1 & Hex & ->).
    destruct (execute_quiet _ _ Hi Hno Hex) as (Hno1 & Hd1 & Hcal1).
    change (effects pre (effect i (driver sys)) = target c (pandarGeneral_ sdk)) in Heff.
    rewrite <- Hd1 in Heff. destruct rest as [|i2 rest2] eqn:Hr.
    + symmetry in Hrest. apply app_eq_nil in Hrest as [-> Hc]. destruct c; try discriminate.
      apply sdk_stop_last in Hsuf as ->. by apply stop_simulated.
    + rewrite plain_operation by done. apply simulated_none. right. split; [done|].
      split; [cbn [driver set_control]; rewrite Hd1; by destruct i|].
      split; [done|]. exists c, pre. split; [done|]. split; [done|]. split; [|done].
      by eapply suffix_cons_l.
Qed.

(** Without threads, nothing lags behind. *)
Lemma running_quiet c pre :
  running sys (pandarGeneral_ sdk) -> no_threads sys -> control sys <> [] -> is_scan c = false ->
  control sys = pre ++ thread_part c -> pre `suffix_of` driver_part c -> leads_to pre c (driver sys) ->
  quiet sys (pandarGeneral_ sdk).
Proof.
  intros [Hcore Hlag _] Hno Hne Hs Hctl Hp Hl. split; [done|]. split; [by destruct Hcore|].
  split; [done|]. exists c, pre. split; [done|]. split; [done|]. split; [done|]. apply Hl; [done| |done].
  destruct Hno as (_ & _ & H3). by rewrite H3 in Hlag.
Qed.

(** A packet of a bag. *)
Lemma message_simulated m rest :
  running sys (pandarGeneral_ sdk) -> races sys = false -> control sys = PushMessage m :: rest ->
  forallb neutral rest = true ->
  simulated [Scan [m]] sdk
    (d ← push_message m (driver sys); Ret (set_control rest (set_driver_of d sys))).
Proof.
  intros Hrun Hrace Hctl Hrest.
  destruct (message_shape sinf cosf stack correction_file m) as [Hf|Hf];
    [eapply (push_simulated (Scan [m]))|eapply (load_running (Scan [m]))]; try done;
    try (intros d; (split; [done|split; [done|by left]])).
  intros Hhand e. apply message_keeps. unfold Threads.races, control_loads in Hrace.
  rewrite Hhand, Hctl in Hrace. apply orb_false_iff in Hrace as [Hrace _].
  rewrite andb_true_r in Hrace. by apply orb_false_iff in Hrace as [_ Hrace].
Qed.

Lemma neutral_simulated i rest res :
  running sys (pandarGeneral_ sdk) -> races sys = false -> control sys = i :: rest ->
  neutral i = true -> forallb neutral rest = true ->
  (fun r => sys ← r; Ret (set_control rest sys)) <$> execute i sys = Some res ->
  simulated (control_operation (i :: rest)) sdk res.
Proof.
  intros Hrun Hrace Hctl Hi Hrest Hf. pose proof Hrun as [Hcore Hlag _].
  apply fmap_Some in Hf as (r & Hex & ->).
  destruct i as [b|b|b| | | | | | | | | |now| | | | |m]; try discriminate;
    unfold Threads.execute in Hex; repeat case_match; simplify_eq; cbn [mbind outcome_bind];
    cbn [control_operation]; try (apply moved_simulated; [done|done|by left|done]).
  pose proof (message_simulated m rest Hrun Hrace Hctl Hrest) as Hm.
  by destruct (push_message m (driver sys)).
Qed.

Lemma running_control i rest res :
  disciplined sys -> races sys = false -> running sys (pandarGeneral_ sdk) -> control sys = i :: rest ->
  (fun r => sys ← r; Ret (set_control rest sys)) <$> execute i sys = Some res ->
  simulated (control_operation (i :: rest)) sdk res.
Proof.
  intros Hdis Hrace Hrun Hcons Hf.
  destruct (disciplined_reset _ sys i rest Hdis Hcons) as (Hreset & _).
  pose proof (ru_control _ _ Hrun) as Hbr. rewrite Hcons in Hbr.
  destruct Hbr as [Hn|(c & pre & Hs & Hl & Hp & Hex & Hleads)].
  { simpl in Hn. apply andb_true_iff in Hn as [Hi Hn]. by apply (neutral_simulated i rest). }
  destruct pre as [|i' pre]; [done|]. simpl in Hl, Hex. injection Hl as <- Hrest.
  destruct (resets i) eqn:Hres.
  - apply quiet_control; [|done|done]. apply (running_quiet c (i :: pre)); try done.
    + by apply Hreset; left.
    + by rewrite Hcons.
    + by rewrite Hcons, Hrest.
  - pose proof (driver_part_plain _ _ Hp) as Hplain. simpl in Hplain.
    apply andb_true_iff in Hplain as [Hi _].
    destruct (plain_control _ _ _ Hi Hf) as (sys1 & Hex1 & ->).
    rewrite plain_operation; [|done|by rewrite Hrest; destruct pre].
    apply simulated_none. apply (execute_running i sys1); try done.
    right. exists c, pre. split; [done|]. split; [done|].
    split; [by eapply suffix_cons_l|]. split; [done|]. by apply leads_to_step.
Qed.

Lemma target_core c d a : core d a -> process d = process a -> target c d = target c a.
Proof.
  intros [[= H1 H2 H3] [= H4 H5] _] H6.
  assert (Stop d = Stop a) as Hs by (unfold Stop; by rewrite H1, H2, H3, H4, H5, H6).
  destruct c; simpl; unfold prepared; by rewrite Hs.
Qed.

(** ** Runs *)

Lemma call_simulated c :
  running sys (pandarGeneral_ sdk) -> control sys = [] ->
  simulated [] sdk (Ret (set_control (code c) sys)).
Proof.
  intros [Hcore Hlag _] Hctl. apply simulated_none.
  left. split; [done|done|]. destruct (is_scan c) eqn:Hs.
  - left. destruct c as [| |scan]; try discriminate. cbn. clear. by induction scan.
  - right. exists c, (driver_part c). split; [done|]. split; [by apply code_parts|]. split; [done|].
    split; [unfold driver_part, sdk_stop, start_prefix, internal_stop; by destruct c, src|].
    intros d0 a0 Hc0 Hp _. rewrite driver_part_effects by apply Hc0. by apply target_core.
Qed.

Lemma fire_simulated e res :
  disciplined sys -> holding sys -> simulates sys sdk -> races sys = false ->
  fire e sys = Some res -> simulated (operation_of e sys) sdk res.
Proof.
  intros Hdis Hh Hcase Hrace Hf. destruct e as [c| |r|r|fresh|answer].
  - simpl in Hf. destruct (control sys) as [|i rest] eqn:Hctl; [|discriminate].
    destruct (may_call src c); [|discriminate]. injection Hf as <-.
    destruct Hcase as [Hrun|(_ & _ & Hne & _)]; [by apply call_simulated|by destruct Hne].
  - simpl in Hf. cbn [ThreadActions.operation_of].
    destruct (control sys) as [|i rest] eqn:Hctl; [discriminate|].
    destruct Hcase as [Hrun|Hq]; [by apply running_control|by apply quiet_control].
  - destruct Hcase as [Hrun|((H1 & _) & _)]; [by apply recv_event_simulated|].
    simpl in Hf. unfold recv_event in Hf. by rewrite H1 in Hf.
  - destruct Hcase as [Hrun|((_ & H2 & _) & _)]; [by apply parse_event_simulated|].
    simpl in Hf. unfold parse_event in Hf. by rewrite H2 in Hf.
  - destruct Hcase as [Hrun|((_ & _ & H3) & _)]; [by apply process_event_simulated|].
    simpl in Hf. unfold process_event in Hf. by rewrite H3 in Hf.
  - by apply calibrate_event_simulated.
Qed.
End events.

Lemma run_simulated events sys sdk res :
  disciplined sys -> holding sys -> simulates sys sdk -> Forall good_event events ->
  thread_run events sys = Some res ->
  (raced events sys = true /\ res = Undef) \/
  (raced events sys = false /\ simulated (trace events sys) sdk res).
Proof.
  intros Hdis Hh Hs Hgood. revert sys sdk Hdis Hh Hs.
  induction Hgood as [|e events He _ IH]; intros sys sdk Hdis Hh Hs Hrun;
    cbn [Threads.thread_run ThreadActions.trace Threads.raced] in *.
  { injection Hrun as <-. right. split; [done|]. by apply simulated_none. }
  unfold Threads.step in Hrun. destruct (races sys) eqn:Hrace; [left; by injection Hrun as <-|].
  cbn [orb]. destruct (fire e sys) as [r|] eqn:Hf; [|discriminate].
  pose proof (fire_simulated sys sdk e r Hdis Hh Hs Hrace Hf) as Hone.
  destruct r as [sys1| |]; [|right; split; [done|]; rewrite app_nil_r; by injection Hrun as <-..].
  destruct (raced events sys1) eqn:Hraced.
  - left. split; [done|]. by eapply raced_undefined.
  - right. split; [done|]. intros sdk2 Hall. rewrite operate_all_app in Hall.
    apply bind_Ret_inv in Hall as (sdk1 & Hop & Hall).
    destruct (Hone sdk1 Hop) as (sys2 & [= <-] & Hs1).
    destruct (IH sys1 sdk1) as [[Hbad _]|[_ Hsim]]; [by eapply fire_disciplined|by eapply fire_holding|done..| |].
    + by rewrite Hraced in Hbad.
    + by apply Hsim.
Qed.

Lemma idle_simulates sdk : processing (pandarGeneral_ sdk) = false -> simulates (idle (pandarGeneral_ sdk)) sdk.
Proof. intros Hp. left. by split; [split|split|left]. Qed.

Lemma idle_holding d : holding (idle d).
Proof. by split. Qed.

(** The operations up to one of them are those of the steps up to its own. *)
Lemma trace_split events sys pre o post :
  trace events sys = pre ++ o :: post ->
  exists events1 e events2 sys1, events = events1 ++ e :: events2 /\
    sys_run events1 sys = Some (Ret sys1) /\ trace events1 sys = pre /\ operation_of e sys1 = [o].
Proof.
  clear Hfile. revert sys pre. induction events as [|e events IH]; intros sys pre Ht; cbn [ThreadActions.trace] in Ht.
  { by destruct pre. }
  destruct (operation_short stack correction_file e sys) as [Hop|[o1 Hop]]; rewrite Hop in Ht.
  - destruct (fire e sys) as [[sys1| |]|] eqn:Hf; try by destruct pre.
    destruct (IH sys1 pre Ht) as (ev1 & e1 & ev2 & sys2 & -> & Hrun & Htr & Ho).
    exists (e :: ev1), e1, ev2, sys2. cbn [Threads.sys_run ThreadActions.trace]. by rewrite Hf, Hop.
  - destruct pre as [|o2 pre]; cbn [app] in Ht; injection Ht as <- Ht.
    { by exists [], e, events, sys. }
    destruct (fire e sys) as [[sys1| |]|] eqn:Hf; try by destruct pre.
    destruct (IH sys1 pre Ht) as (ev1 & e1 & ev2 & sys2 & -> & Hrun & Htr & Ho).
    exists (e :: ev1), e1, ev2, sys2. cbn [Threads.sys_run ThreadActions.trace]. by rewrite Hf, Hop, <- Htr.
Qed.

(** Only a processing thread at its queue processes. *)
Lemma operation_process e sys fresh :
  operation_of e sys = [Turn (ProcessOne fresh)] ->
  e = EProcess fresh /\ lidar_process_thr_ sys = Some CPop.
Proof.
  clear Hfile. destruct e; cbn [ThreadActions.operation_of]; try done;
    unfold control_operation, configured_operation; intros H; repeat case_match; by simplify_eq.
Qed.

(** What is left of the members in a state that is simulated. *)
Lemma simulates_process sys sdk :
  simulates sys sdk -> lidar_process_thr_ sys = Some CPop -> process (driver sys) = process (pandarGeneral_ sdk).
Proof.
  intros [[_ Hlag _]|((_ & _ & Hno) & _)] Hpc; rewrite Hpc in *; [by destruct Hlag|discriminate].
Qed.

(** C11: every run of the threads, whatever the schedule and however often the
    node starts and stops, either comes to a data race on the calibration tables
    (a load while a packet is being processed), or does what the driver's
    operations do that [trace] reads off its steps, each done at once: receptions
    and processing turns of deliverable packets, packets of a bag, calibrations,
    starts and stops. If these operations do not fault, neither do the threads,
    and between two calls the queue, the counters, the calibration and the GPS
    times are those of the operations, and so are the members of the processing
    thread unless it is at work on a packet. *)
Theorem threads_refine (sdk0 : PandarGeneralSDK Q) (events : list event)
    (res : outcome thread_error (System Q))
    (Hidle : processing (pandarGeneral_ sdk0) = false) (Hgood : Forall good_event events)
    (Hrun : thread_run events (idle (pandarGeneral_ sdk0)) = Some res) :
  let ops := trace events (idle (pandarGeneral_ sdk0)) in
  Forall allowed ops /\
  ((raced events (idle (pandarGeneral_ sdk0)) = true /\ res = Undef) \/
   (raced events (idle (pandarGeneral_ sdk0)) = false /\
    forall sdk', operate_all ops sdk0 = Ret sdk' ->
      exists sys, res = Ret sys /\
       (control sys = [] ->
        let d := driver sys in let a := pandarGeneral_ sdk' in
        input_side d = input_side a /\ table_side d = table_side a /\
        match lidar_process_thr_ sys with
        | Some (CInit now) => begin_processing now d = Ret (processing a, process a)
        | Some (CHave packet) => process_one packet d = Ret (processing a, process a)
        | _ => process d = process a
        end))).
Proof.
  split; [apply run_holding; [apply idle_holding|done]|].
  destruct (run_simulated events _ sdk0 res (idle_disciplined src _) (idle_holding _)
    (idle_simulates _ Hidle) Hgood Hrun) as [|[Hno Hsim]]; [by left|right]. split; [done|].
  intros sdk' Hop. destruct (Hsim sdk' Hop) as (sys & -> & Hs). exists sys. split; [done|]. intros Hctl.
  destruct Hs as [[[] Hlag _]|(_ & _ & Hne & _)]; [|done].
  split_and!; try done. destruct (lidar_process_thr_ sys) as [[]|]; by destruct Hlag.
Qed.
End refinement.

Lemma allowed_good k t n s char_signed stack ops :
  Forall (allowed (fun packet => good_turn k t s char_signed (Receive (Some packet))) (calibrates t n)
    (good_message t n stack (stream_good k t s char_signed))) ops ->
  Forall (good_operation k t n s char_signed stack) ops.
Proof.
  intros Hops. eapply Forall_impl; [exact Hops|].
  by intros [[[packet|]|fresh]|text|scan|angle| |now].
Qed.

Lemma configured_text correction_file t n :
  file_ok correction_file t n ->
  forall content, correction_file = Some content ->
    exists text, c_string content = @Ret thread_error _ text /\ calibrates t n text.
Proof.
  intros Hfile content Hc. destruct (Hfile content Hc) as (text & rest & -> & Hz & Ht).
  exists text. by rewrite c_string_prefix.
Qed.

(** C10: a node for a sensor and a cloud mode of [supported] (all but a PandarQT
    with channels), without tf frames, made from a recording, a bag or the sensor
    with a sound correction file, if any, and then its threads in any interleaving
    of any number of starts and stops, on the packets of [good_turn] (sizes,
    counts and stamps as the sensor sends them), sound calibrations and sound
    messages of a bag. No thread faults, with two exceptions: the run comes to a
    data race on the calibration tables, or its processing thread is about to take
    a packet when the frame is within one packet's points of the end of
    [m_vPointCloud]. Otherwise, between two calls, the queue holds at most [depth]
    packets and the calibration keeps every index inside the tables. *)
Theorem launched_threads_safe {Q : Type} {depth : Z}
    `{F : !BoundedFifo thread_error PandarPacket Q depth}
    (lookupTransform : nat -> string -> string -> stamp -> lookup_result)
    (sinf cosf : float -> float) (char_signed : bool) (mktime : tm -> Z) (stack : list Z)
    (queue : Q) (unset : point3 -> point3) (correction_file : option (list Z))
    (k : sensor) (t : string) (n : nat) (p : Parameters) (start_angle : Z) (w : World)
    (events : list event) (Hk : supported k t n (settings_of p)) (Hqueue : fifo_repr queue [])
    (Hfixed : fixed_frame p = ""%string) (Htarget : target_frame p = ""%string)
    (Hip : 0 ∉ server_ip p) (Hlen : zlen (server_ip p) <= 256)
    (Hfile : file_ok correction_file t n)
    (Hgood : Forall (good_event stack (fun packet =>
       good_turn k t (settings_of p) char_signed (Receive (Some packet))) (calibrates t n)
       (good_message t n stack (stream_good k t (settings_of p) char_signed))) events) :
  exists sdk w',
    make_sdk sinf cosf queue unset correction_file p start_angle w = Ret (sdk, w') /\
    let client := bool_decide (is_Some (tcp_command_client_ sdk)) in
    let s := settings_of p in
    let launched := idle (pandarGeneral_ sdk) in
    forall res,
      thread_run lookupTransform sinf cosf s true char_signed mktime stack correction_file
        (source_of p) client events launched = Some res ->
      (raced lookupTransform sinf cosf s true char_signed mktime stack correction_file
         (source_of p) client events launched = true /\ res = Undef) \/
      (exists before fresh after sys, events = before ++ EProcess fresh :: after /\
         sys_run lookupTransform sinf cosf s true char_signed mktime stack correction_file
           (source_of p) client before launched = Some (Ret sys) /\
         lidar_process_thr_ sys = Some CPop /\ nearly_full k s (process (driver sys))) \/
      (exists sys, res = Ret sys /\
         (control sys = [] ->
          exists waiting, fifo_repr (m_PacketsBuffer (driver sys)) waiting /\
            zlen waiting <= depth /\ usable t n (calibration (driver sys)))).
Proof.
  destruct (make_sdk_ok sinf cosf char_signed queue unset correction_file k t n p start_angle Hk Hqueue
    Hfixed Htarget w Hfile Hip Hlen) as (sdk & w' & Hmake & Hok & _).
  exists sdk, w'. split; [done|]. intros client s launched res Hrun.
  pose proof (make_sdk_idle _ _ _ _ _ _ _ _ _ _ Hmake) as Hi.
  assert (simulates lookupTransform sinf cosf s true char_signed mktime (source_of p) launched sdk) as Hs0
    by (by apply idle_simulates).
  pose proof (run_holding lookupTransform sinf cosf s true char_signed mktime stack correction_file
    (source_of p) client _ _ _ (configured_text _ _ _ Hfile) events launched (idle_holding _ _ _ _ _) Hgood) as Hops.
  destruct (run_simulated lookupTransform sinf cosf s true char_signed mktime stack correction_file
    (source_of p) client _ _ _ (configured_text _ _ _ Hfile) events launched sdk res
    (idle_disciplined _ _) (idle_holding _ _ _ _ _) Hs0 Hgood Hrun)
    as [Hrace|[Hraceless Hsim]]; [by left|right].
  destruct (operate_all_ok lookupTransform sinf cosf k t n s true char_signed mktime stack
    correction_file Hk Hfile _ sdk Hok (allowed_good _ _ n _ _ _ _ Hops))
    as [(pre & fresh & post & sdk1 & Htr & Hpre & Hover)|(sdk1 & Hall & waiting & Hd)]; [left|right].
  - apply trace_split in Htr as (before & e & later & sys1 & -> & Hsys & <- & Ho).
    apply operation_process in Ho as [-> Hpop]. exists before, fresh, later, sys1.
    split; [done|]. split; [done|]. split; [done|].
    apply raced_prefix in Hraceless. rewrite <- (thread_run_raceless _ _ _ _ _ _ _ _ _ _ _ _ _ Hraceless) in Hsys.
    apply Forall_app in Hgood as [Hgood _].
    destruct (run_simulated lookupTransform sinf cosf s true char_signed mktime stack correction_file
      (source_of p) client _ _ _ (configured_text _ _ _ Hfile) before launched sdk (Ret sys1)
      (idle_disciplined _ _) (idle_holding _ _ _ _ _) Hs0 Hgood Hsys)
      as [[_ Hbad]|[_ Hsim1]]; [discriminate|].
    destruct (Hsim1 sdk1 Hpre) as (sys2 & [= <-] & Hs). by erewrite simulates_process.
  - destruct (Hsim sdk1 Hall) as (sys & -> & Hs). exists sys. split; [done|]. intros Hctl.
    destruct Hs as [[Hcore _ _]|(_ & _ & Hne & _)]; [|done]. destruct Hd.
    exists waiting. rewrite (core_queue _ _ Hcore), (core_calibration _ _ Hcore).
    split; [done|]. split; [by eapply fifo_depth_bound|done].
Qed.

Definition example_sdk : PandarGeneralSDK (BoundedSpscQueue PandarPacket) :=
  {| pandarGeneral_ := new_internal id id example_queue 0 (no_tf "lidar" "") "PandarXTM";
     tcp_command_client_ := None; correction_content_ := [] |}.

(** The driver starts, gets a packet, and is stopped with it in hand. *)
Definition example_thread_events : list event := example_before ++ example_first ++ example_rest.

Lemma example_thread_events_good :
  Forall (good_event [] (fun packet => good_turn XT "PandarXTM" xtm_settings true (Receive (Some packet)))
    (fun _ => False) (fun _ => False)) example_thread_events.
Proof.
  pose proof example_turns_good as Hg. unfold example_turns in Hg. apply Forall_cons in Hg as [Hg _].
  unfold example_thread_events, example_before, example_first, example_rest.
  repeat (apply Forall_app_2 || apply Forall_cons_2 || apply Forall_nil_2 || apply Forall_replicate);
    first [exact I | exact Hg].
Qed.

Abbreviation example_thread_run events sys :=
  (thread_run (F := packets_buffer_fifo) (fun _ _ _ _ => LookupFailed) id id xtm_settings true true
     mktime_utc [] None Device true events sys).
Abbreviation example_raced events sys :=
  (raced (F := packets_buffer_fifo) (fun _ _ _ _ => LookupFailed) id id xtm_settings true true
     mktime_utc [] None Device true events sys).
Abbreviation example_trace events sys :=
  (trace (F := packets_buffer_fifo) (fun _ _ _ _ => LookupFailed) id id xtm_settings true true
     mktime_utc [] None Device true events sys).
Abbreviation example_operations_run ops sdk :=
  (operate_all (F := packets_buffer_fifo) (fun _ _ _ _ => LookupFailed) id id xtm_settings true true
     mktime_utc [] None ops sdk).

(** A run without a race and its operations, both done. *)
Definition both_done {Q : Type} (raced : bool) (run : option (outcome thread_error (System Q)))
    (ops : outcome thread_error (PandarGeneralSDK Q)) : bool :=
  match raced, run, ops with
  | false, Some (Ret sys), Ret _ => match control sys with [] => true | _ => false end
  | _, _, _ => false
  end.

Lemma both_done_spec {Q} raced run ops :
  both_done (Q := Q) raced run ops = true ->
  raced = false /\ exists sys sdk', run = Some (Ret sys) /\ control sys = [] /\ ops = Ret sdk'.
Proof.
  destruct raced, run as [[sys| |]|], ops as [sdk'| |]; try discriminate. cbn. intros H.
  split; [done|]. exists sys, sdk'. by destruct (control sys).
Qed.

Lemma example_both_done :
  let start := idle (pandarGeneral_ example_sdk) in
  both_done (example_raced example_thread_events start) (example_thread_run example_thread_events start)
    (example_operations_run (example_trace example_thread_events start) example_sdk) = true.
Proof. vm_compute. reflexivity. Qed.

Lemma threads_refine_witness :
  exists sys sdk',
    example_thread_run example_thread_events (idle (pandarGeneral_ example_sdk)) = Some (Ret sys) /\
    example_operations_run (example_trace example_thread_events (idle (pandarGeneral_ example_sdk)))
      example_sdk = Ret sdk' /\
    input_side (driver sys) = input_side (pandarGeneral_ sdk') /\
    table_side (driver sys) = table_side (pandarGeneral_ sdk').
Proof.
  destruct (both_done_spec _ _ _ example_both_done) as (Hraced & sys & sdk' & Hrun & Hctl & Hops).
  exists sys, sdk'. split; [exact Hrun|]. split; [exact Hops|].
  destruct (threads_refine (F := packets_buffer_fifo) (fun _ _ _ _ => LookupFailed) id id
    xtm_settings true true mktime_utc [] None Device true _ _ _ ltac:(discriminate) example_sdk
    example_thread_events _ eq_refl example_thread_events_good Hrun)
    as [_ [[Hbad _]|[_ Href]]].
  - rewrite Hraced in Hbad. discriminate Hbad.
  - destruct (Href sdk' Hops) as (sys1 & Heq & Hsame). injection Heq as <-.
    destruct (Hsame Hctl) as (Hin & Htab & _). split; [exact Hin|exact Htab].
Defined.

(** A bag: the node starts, and a scan with its correction file is pushed. *)
Definition bag_events : list event :=
  ECall (CallStart (0, 0)) :: replicate 33 EControl ++
  [EProcess blank_packet; ECall (CallScan example_scan); EControl; EControl].

Abbreviation bag_run sdk events :=
  (thread_run (F := packets_buffer_fifo) (fun _ _ _ _ => LookupFailed) id id
    (settings_of bag_parameters) true true mktime_utc [] None (source_of bag_parameters)
    (bool_decide (is_Some (tcp_command_client_ sdk))) events (idle (pandarGeneral_ sdk))).

(** The run up to the turn of the processing thread. *)
Definition bag_calls : list event := ECall (CallStart (0, 0)) :: replicate 33 EControl.
Abbreviation bag_start sdk :=
  (sys_run (F := packets_buffer_fifo) (fun _ _ _ _ => LookupFailed) id id
    (settings_of bag_parameters) true true mktime_utc [] None (source_of bag_parameters)
    (bool_decide (is_Some (tcp_command_client_ sdk))) bag_calls (idle (pandarGeneral_ sdk))).

(** The processing thread's turn is its start; the scan's correction file is
    loaded and its packet waits. *)
Definition bag_ok {Q : Type} (start run : option (outcome thread_error (System Q))) : bool :=
  match start, run with
  | Some (Ret sys1), Some (Ret sys) =>
      match lidar_process_thr_ sys1 with Some CPop => false | _ => true end &&
      got_lidar_correction_flag (driver sys) && (m_enqueuedPackets (receiver (driver sys)) =? 1) &&
      match control sys with [] => true | _ => false end
  | _, _ => false
  end.

Lemma bag_scan_pushed :
  match make_sdk id id example_queue id None bag_parameters 0 example_world with
  | Ret (sdk, _) => bag_ok (bag_start sdk) (bag_run sdk bag_events)
  | _ => false
  end = true.
Proof. vm_compute. reflexivity. Qed.

Lemma bag_ok_spec {Q} (start run : option (outcome thread_error (System Q))) :
  bag_ok start run = true ->
  (forall sys, start = Some (Ret sys) -> lidar_process_thr_ sys <> Some CPop) /\
  exists sys, run = Some (Ret sys) /\ control sys = [].
Proof.
  unfold bag_ok. destruct start as [[sys1| |]|], run as [[sys| |]|]; try discriminate.
  intros H. apply andb_true_iff in H as [H Hctl].
  apply andb_true_iff in H as [H _]. apply andb_true_iff in H as [H _]. split.
  - intros sys2 [= <-] Hpc. by rewrite Hpc in H.
  - exists sys. by destruct (control sys).
Qed.

Definition is_process (e : event) : bool := match e with EProcess _ => true | _ => false end.

Lemma bag_one_turn before fresh after :
  bag_events = before ++ EProcess fresh :: after -> before = bag_calls.
Proof.
  intros H. symmetry. refine (one_split is_process bag_calls _ before after _ _ H _ _ _); reflexivity.
Qed.

Lemma bag_events_good :
  Forall (good_event [] (fun packet =>
      good_turn XT "PandarXT-16" (settings_of bag_parameters) true (Receive (Some packet)))
    (calibrates "PandarXT-16" 16)
    (good_message "PandarXT-16" 16 [] (stream_good XT "PandarXT-16" (settings_of bag_parameters) true)))
    bag_events.
Proof.
  unfold bag_events. apply Forall_cons_2; [exact I|]. apply Forall_app_2; [by apply Forall_replicate|].
  apply Forall_cons_2; [exact I|]. apply Forall_cons_2; [apply example_scan_good|repeat constructor].
Qed.

Lemma launched_threads_safe_witness :
  exists sdk w' sys, make_sdk id id example_queue id None bag_parameters 0 example_world =
    Ret (sdk, w') /\
    bag_run sdk bag_events = Some (Ret sys) /\
    exists waiting, fifo_repr (BoundedFifo := packets_buffer_fifo) (m_PacketsBuffer (driver sys)) waiting /\
      zlen waiting <= 400 /\ usable "PandarXT-16" 16 (calibration (driver sys)).
Proof.
  destruct (launched_threads_safe (F := packets_buffer_fifo) (fun _ _ _ _ => LookupFailed) id id
    true mktime_utc [] example_queue id None XT "PandarXT-16" 16 bag_parameters 0 example_world
    bag_events) as (sdk & w' & Hmake & Hsafe).
  - apply example_supported.
  - apply ring_new; done.
  - reflexivity.
  - reflexivity.
  - apply (bool_decide_unpack _). vm_compute. exact I.
  - vm_compute. discriminate.
  - discriminate.
  - exact bag_events_good.
  - pose proof bag_scan_pushed as Htest. rewrite Hmake in Htest.
    destruct (bag_ok_spec _ _ Htest) as (Hpc & sys & Hrun & Hctl).
    exists sdk, w', sys. split; [exact Hmake|]. split; [exact Hrun|].
    cbv zeta in Hsafe.
    destruct (Hsafe _ Hrun) as [[_ Hbad]|[(before & fresh & later & sys1 & Heq & Hstart & Hpop & _)|
      (sys1 & Heq & Hend)]].
    + discriminate Hbad.
    + apply bag_one_turn in Heq as ->. destruct (Hpc sys1 Hstart Hpop).
    + injection Heq as <-. exact (Hend Hctl).
Defined.
