(* ===== verification/Pipeline.v ===== *)
(** From the packets to the published clouds: the driver and the node together.

    The processing thread hands each cloud to [lidarCallback] and goes on when
    it has returned; the receiving thread, the publishing thread and the
    destructor's stop interleave freely.  A call of the callback is a step of
    its own after the turn that made the cloud, and the next turn waits until
    all clouds of the last one are handed over. *)
From stdpp Require Import gmap sorting.
From S2P Require Import Prelude SpscQueue Ieee IeeeRound IeeeInterval Stamps GuardCascade Calendar.
From S2P Require Import PacketDefenses LatestValueMailbox CompactCloud PacketFormat ParseXT.
From S2P Require Import ParseLegacy LidarTables PointCalc Correction Framing FrameModes FramingFacts.
From S2P Require Import LegacyModels LegacyStream Streams Driver DriverFacts Node NodeFacts Launch.
#[local] Open Scope Z_scope.

(** ** The composition *)

Record Pipeline {Q : Type} := {
  pl_driver : Driver Q;
  pl_node : Node;
  pl_handed : nat;
}.
Arguments Pipeline Q : clear implicits.

(** A turn of the driver, the next call of the callback, or a step of the node's
    other threads. *)
Inductive pipe_action :=
  | PTurn (u : turn)
  | PHand (clock : Clock)
  | PNode (a : node_action).

Definition is_callback (a : node_action) : bool :=
  match a with Callback _ _ _ _ => true | _ => false end.

Section composition.
Context {Q : Type} {depth : Z} `{F : !BoundedFifo thread_error PandarPacket Q depth}.
Context (lookupTransform : nat -> string -> string -> stamp -> lookup_result).
Context (sinf cosf : float -> float) (s : Settings) (char_signed : bool) (mktime : tm -> Z).
Context (m_sPublishType m_sPointcloudLayout : string).
Context (dt : datatypes) (big_endian : bool) (toROSMsg : PPointCloud -> PointCloud2).

Definition handed_all (pl : Pipeline Q) : bool :=
  bool_decide (pl_handed pl = length (emitted (process (pl_driver pl)))).

(** The callback as the driver calls it. *)
Definition call_back (e : Emission) (clock : Clock) : node_action :=
  Callback (Some (em_cloud e)) (em_timestamp e) (em_scan e) clock.

Definition run_node (a : node_action) (nd : Node) : outcome launch_error Node :=
  in_node (node_step m_sPublishType m_sPointcloudLayout dt big_endian toROSMsg a nd).

Definition pipe_step (a : pipe_action) (pl : Pipeline Q) : outcome launch_error (Pipeline Q) :=
  match a with
  | PTurn u =>
      if match u with ProcessOne _ => handed_all pl | _ => true end then
        d ← in_driver terminated
              (take_turn lookupTransform sinf cosf s true char_signed mktime u (pl_driver pl));
        Ret {| pl_driver := d; pl_node := pl_node pl; pl_handed := pl_handed pl |}
      else Ret pl
  | PHand clock =>
      match emitted (process (pl_driver pl)) !! pl_handed pl with
      | Some e =>
          nd ← run_node (call_back e clock) (pl_node pl);
          Ret {| pl_driver := pl_driver pl; pl_node := nd; pl_handed := S (pl_handed pl) |}
      | None => Ret pl
      end
  | PNode a =>
      if is_callback a then Ret pl
      else
        nd ← run_node a (pl_node pl);
        Ret {| pl_driver := pl_driver pl; pl_node := nd; pl_handed := pl_handed pl |}
  end.

Fixpoint pipe_run (actions : list pipe_action) (pl : Pipeline Q)
    : outcome launch_error (Pipeline Q) :=
  match actions with
  | [] => Ret pl
  | a :: actions => pl ← pipe_step a pl; pipe_run actions pl
  end.
End composition.

Definition turns_of (actions : list pipe_action) : list turn :=
  omap (fun a => match a with PTurn u => Some u | _ => None end) actions.

(** ** Time stamps *)

(** The times of the points made so far; of ring 0 if clouds are structured. *)
Definition point_times (s : Settings) (p : Process) : list float :=
  CompactCloud.timestamp <$> leading_points s p.

(** Packets are received, or measured by the sensor's clock, late enough. *)
Definition timely_packet (sr : sensor) (s : Settings) (char_signed : bool) (mktime : tm -> Z)
    (packet : PandarPacket) : Prop :=
  if realtime s then isfinite (pkt_stamp packet) = true -> timely (pkt_stamp packet)
  else sensor_clock sr s char_signed mktime packet.

(** With reception times a packet's points have its time, if its guard lets it
    pass. *)
Lemma effect_received sr s char_signed mktime packet g pts g' l :
  realtime s = true -> packet_effect sr s char_signed mktime packet g pts g' -> passed g l ->
  timely_packet sr s char_signed mktime packet ->
  passed g' (l ++ (CompactCloud.timestamp <$> pts)) /\
  Forall (fun y => y = pkt_stamp packet /\ isfinite y = true) (CompactCloud.timestamp <$> pts).
Proof.
  intros Hrt [Ho Hno Htimes _] Hp Ht'. unfold timely_packet in Ht'. rewrite Hrt in Ht'. specialize (Htimes Hrt).
  pose proof (accepted_finite g (pkt_stamp packet)) as Hfin.
  destruct (guard_observe (pkt_stamp packet) g) as [d g1] eqn:Hobs. cbn [fst snd] in *. subst g1.
  destruct (timestamp_accepted d) eqn:Hd.
  - split; [apply (passed_observe g l (pkt_stamp packet) d); auto|].
    eapply Forall_impl; [exact Htimes|]. intros y ->. auto.
  - rewrite (Hno eq_refl). cbn. rewrite app_nil_r. split; [by eapply passed_refused|constructor].
Qed.

(** ** What the node's guard makes of the clouds *)

Definition screen_one (screened : list Emission * TimestampGuard) (e : Emission)
    : list Emission * TimestampGuard :=
  let '(d, g) := guard_observe (em_timestamp e) screened.2 in
  (if timestamp_accepted d then screened.1 ++ [e] else screened.1, g).

(** The clouds it lets through, in order, and its state after them. *)
Definition screen (sent : list Emission) : list Emission * TimestampGuard :=
  foldl screen_one ([], guard_new kTimestampRegressionToleranceSec) sent.
Definition let_through (sent : list Emission) : list Emission := (screen sent).1.

Lemma screen_snoc sent e : screen (sent ++ [e]) = screen_one (screen sent) e.
Proof. unfold screen. by rewrite foldl_snoc. Qed.

Lemma let_through_length sent : (length (let_through sent) <= length sent)%nat.
Proof.
  unfold let_through. induction sent as [|e sent IH] using rev_ind; [done|].
  rewrite screen_snoc, length_app. unfold screen_one. destruct (guard_observe _ _) as [d g]. cbn [fst].
  destruct (timestamp_accepted d); rewrite ?length_app; cbn [length]; lia.
Qed.

(** It refuses none of those whose times the driver's guard has let through. *)
Lemma let_through_all sent :
  StronglySorted close (em_timestamp <$> sent) -> Forall timely (em_timestamp <$> sent) ->
  let_through sent = sent.
Proof.
  intros Hs Ht. apply (proj1 (A := _) (B := GuardCascade.behind (screen sent).2 (em_timestamp <$> sent))).
  unfold let_through. induction sent as [|e sent IH] using rev_ind; [by split_and!|].
  rewrite fmap_app in *. cbn [fmap list_fmap] in *. apply Forall_app in Ht as [Ht Hte].
  apply Forall_cons in Hte as [Hte _].
  destruct IH as [IHl IHb]; [by eapply sorted_sublist; [apply sublist_inserts_r|]|done|].
  rewrite screen_snoc. unfold screen_one.
  destruct (behind_accepts _ _ (em_timestamp e) IHb Hte) as [Hacc Hb]; [by eapply sorted_split|].
  destruct (guard_observe _ _) as [d g]. cbn [fst snd] in *. by rewrite Hacc, IHl.
Qed.

(** ** The invariant *)

(** A [PointCloud2] has no room for a structured cloud of that many points. *)
Definition oversized (s : Settings) (p : Process) : Prop :=
  pcl_type_ s = true /\
  Exists (fun e => UINT32_MAX / kCompactPointStep < zlen (points (em_cloud e))) (emitted p).

(** The exceptions of the theorems below. *)
Definition strained (sr : sensor) (s : Settings) (p : Process) : Prop :=
  nearly_full sr s p \/ oversized s p.

#[export] Instance oversized_dec s p : Decision (oversized s p).
Proof. unfold oversized. apply _. Defined.
#[export] Instance strained_dec sr s p : Decision (strained sr s p).
Proof. unfold strained. apply _. Defined.

Section invariant.
Context {Q : Type} {depth : Z} `{F : !BoundedFifo thread_error PandarPacket Q depth}.
Context (lookupTransform : nat -> string -> string -> stamp -> lookup_result).
Context (sinf cosf : float -> float) (sr : sensor) (t : string) (n : nat) (c : Calibration).
Context (s : Settings) (char_signed : bool) (mktime : tm -> Z).
Context (Hsr : supported sr t n s) (Hc : usable t n c).
Context (m_sPublishType m_sPointcloudLayout : string).
Context (dt : datatypes) (big_endian : bool) (toROSMsg : PPointCloud -> PointCloud2).
Context (Hpub : wants_points m_sPublishType = true).
Implicit Types (d : Driver Q) (pl : Pipeline Q) (L : Ledger).

Abbreviation take_turn := (take_turn lookupTransform sinf cosf s true char_signed mktime).
Abbreviation pipe_step := (pipe_step lookupTransform sinf cosf s char_signed mktime m_sPublishType
  m_sPointcloudLayout dt big_endian toROSMsg).
Abbreviation pipe_run := (pipe_run lookupTransform sinf cosf s char_signed mktime m_sPublishType
  m_sPointcloudLayout dt big_endian toROSMsg).
Abbreviation convert_cloud := (convert_cloud m_sPointcloudLayout dt big_endian toROSMsg).
Abbreviation timely_packet := (timely_packet sr s char_signed mktime).
Abbreviation accounted :=
  (accounted lookupTransform sinf cosf sr t c s true char_signed mktime).

(** The message made of a cloud. *)
Definition converts (e : Emission) (m : PointCloud2) : Prop :=
  convert_cloud (em_cloud e) (em_timestamp e) = Ret m.

(** What the clouds handed over should have come to. *)
Record led_ok (sent : list Emission) L : Prop := {
  lo_refused : led_refused L = zlen sent - zlen (let_through sent);
  lo_empty : led_empty L = 0;
  lo_guard : led_guard L = (screen sent).2;
  lo_offered : exists k, (k <= length (let_through sent))%nat /\
    Forall2 converts (take k (let_through sent)) (led_offered L) /\
    (led_stopped L = false -> k = length (let_through sent));
  lo_scans : wants_raw m_sPublishType = true -> led_scans L = em_scan <$> sent;
}.

Definition sent_of pl : list Emission :=
  take (pl_handed pl) (emitted (process (pl_driver pl))).

Definition node_ok (sent : list Emission) (nd : Node) : Prop :=
  exists L o f k, NodeFacts.accounts L o f k nd /\ led_ok sent L.

Record times_ok (p : Process) : Prop := {
  tk_passed : realtime s = true -> passed (m_packetTimestampGuard p) (point_times s p);
  tk_stamps : Forall good_stamp (point_times s p);
}.

Record pipe_ok d0 (off popped pending : list PandarPacket) pl : Prop := {
  pk_driver : accounted d0 off popped pending (pl_driver pl);
  pk_timely : Forall timely_packet off;
  pk_times : times_ok (process (pl_driver pl));
  pk_handed : (pl_handed pl <= length (emitted (process (pl_driver pl))))%nat;
  pk_node : node_ok (sent_of pl) (pl_node pl);
}.

(** What a turn of the processing thread does. *)
Lemma process_step_inv fresh d d' pending :
  calibration d = c -> fifo_repr (m_PacketsBuffer d) pending ->
  take_turn (ProcessOne fresh) d = Ret d' ->
  process d' = process d \/
  exists packet, packet ∈ pending /\
    process_packet lookupTransform sinf cosf c s true char_signed mktime packet (process d) =
      Ret (processing d', process d').
Proof.
  intros Hcal Hq Hturn. cbn [DriverFacts.take_turn] in Hturn. unfold process_step in Hturn.
  destruct (processing d && enable_lidar_process_thr_ d); [|injection Hturn as <-; by left].
  destruct pending as [|packet pending].
  - rewrite (fifo_pop_empty _ fresh Hq) in Hturn. cbn in Hturn. injection Hturn as <-. by left.
  - destruct (fifo_pop_cons _ packet pending fresh Hq) as (q' & Hpop & _). rewrite Hpop in Hturn.
    cbn [mbind outcome_bind negb] in Hturn. rewrite Hcal in Hturn. right. exists packet.
    split; [by left|]. destruct (process_packet _ _ _ _ _ _ _ _ _ _) as [[running p]| |];
      cbn in Hturn; [|discriminate..]. by injection Hturn as <-.
Qed.

Lemma packet_times_ok packet p p' running :
  stream_good sr t s char_signed packet -> timely_packet packet -> stream_inv s p ->
  ~ nearly_full sr s p -> times_ok p ->
  process_packet lookupTransform sinf cosf c s true char_signed mktime packet p = Ret (running, p') ->
  times_ok p' /\ emitted p `prefix_of` emitted p'.
Proof.
  intros Hgood Hti Hinv Hroom [Hpass Hst] Hrun.
  destruct (stream_step lookupTransform sinf cosf sr t n c s true char_signed mktime Hsr Hc packet p
    Hinv Hgood Hroom) as (p1 & Hrun1 & _ & _ & Hpre & Hpts).
  rewrite Hrun in Hrun1. injection Hrun1 as _ <-. split; [|done].
  destruct Hpts as (pts & Hall & Heff).
  split; unfold point_times; rewrite Hall, fmap_app.
  - intros Hrt. by eapply effect_received; auto.
  - apply Forall_app_2; [done|]. destruct (realtime s) eqn:Hrt.
    + destruct (effect_received _ _ _ _ packet _ _ _ _ Hrt Heff (Hpass eq_refl) Hti) as [_ Htimes].
      eapply Forall_impl; [exact Htimes|]. intros y [-> Hf]. by apply (stream_good_stamp _ _ _ _ _ Hgood).
    + apply (pe_measured _ _ _ _ _ _ _ _ Heff Hrt). unfold Pipeline.timely_packet in Hti. by rewrite Hrt in Hti.
Qed.

Lemma sent_grows pl d' :
  handed_all pl = true -> emitted (process (pl_driver pl)) `prefix_of` emitted (process d') ->
  take (pl_handed pl) (emitted (process d')) = sent_of pl /\
  (pl_handed pl <= length (emitted (process d')))%nat.
Proof.
  intros Hh [l ->]. apply bool_decide_eq_true in Hh. unfold sent_of.
  rewrite Hh, take_app_length, firstn_all, length_app. split; [done|lia].
Qed.

(** ** Handing a cloud over *)

Lemma emission_subtimes p :
  Forall (sound_emission s) (emitted p) -> sublist (em_timestamp <$> emitted p) (point_times s p).
Proof.
  intros Hem. pose proof (emission_times _ _ Hem) as Hsub.
  unfold point_times. destruct (leading_points_clouds s p) as [rest ->]. rewrite fmap_app.
  by apply sublist_inserts_r.
Qed.

Lemma emissions_stamped p :
  times_ok p -> Forall (sound_emission s) (emitted p) -> Forall good_stamp (em_timestamp <$> emitted p).
Proof.
  intros [_ Hgood] Hem. rewrite Forall_forall in *. intros x Hx. apply Hgood.
  eapply sublist_subseteq; [by apply emission_subtimes|done].
Qed.

(** With reception times the node's guard lets everything pass. *)
Lemma received_pass p k :
  realtime s = true -> times_ok p -> Forall (sound_emission s) (emitted p) ->
  let_through (take k (emitted p)) = take k (emitted p).
Proof.
  intros Hrt [Hpass _] Hem. specialize (Hpass Hrt).
  assert (sublist (em_timestamp <$> take k (emitted p)) (point_times s p)) as Hsub.
  { etrans; [apply fmap_sublist, sublist_take|by apply emission_subtimes]. }
  apply let_through_all.
  - by eapply sorted_sublist; [|apply pa_sorted in Hpass].
  - apply pa_timely in Hpass. rewrite Forall_forall in *. intros x Hx. apply Hpass.
    by eapply sublist_subseteq.
Qed.

(** A cloud the node can convert. *)
Definition fine_cloud e : Prop := encodable (em_cloud e) /\ points (em_cloud e) <> [].

Lemma emission_fine p e :
  Forall (sound_emission s) (emitted p) -> ~ oversized s p -> e ∈ emitted p -> fine_cloud e.
Proof.
  intros Hem Hsize He. rewrite Forall_forall in Hem. specialize (Hem e He).
  assert (zlen (points (em_cloud e)) <= 165191049) as Hn.
  { destruct (pcl_type_ s) eqn:Hpcl.
    - apply Z.nlt_ge. intros Hlt. apply Hsize. split; [done|]. apply Exists_exists. by exists e.
    - unfold sound_emission in Hem. rewrite Hpcl in Hem.
      destruct Hem as (? & ? & _ & _ & _ & _ & Hn). unfold MAX_POINT_CLOUD_NUM in Hn. lia. }
  destruct (sound_emission_shape s e Hem) as (first & rest & Hpts & _ & _ & Hw & Hh).
  unfold fine_cloud, encodable. rewrite Hw, Hh.
  pose proof (uwrap_range 32 (zlen (points (em_cloud e))) ltac:(lia)).
  split; [split_and!; lia|]. by rewrite Hpts.
Qed.

Lemma ledger_hand sent e clock L :
  led_ok sent L -> fine_cloud e -> good_stamp (em_timestamp e) ->
  led_ok (sent ++ [e])
    (ledger_step m_sPublishType m_sPointcloudLayout dt big_endian toROSMsg (call_back e clock) L).
Proof.
  intros [Hr He Hb (k & Hk & Hoff & Hst) Hsc] [Henc Hne] Hg.
  destruct (convert_cloud_defined m_sPointcloudLayout dt big_endian toROSMsg _ _ Henc Hg) as [m Hm].
  cbn [ledger_step call_back]. rewrite Hpub. cbn [ledger_cloud].
  rewrite bool_decide_false by done. unfold ledger_observe.
  pose proof (screen_snoc sent e) as Hscreen. unfold screen_one in Hscreen. rewrite <- Hb in Hscreen.
  destruct (guard_observe (em_timestamp e) (led_guard L)) as [d g].
  pose proof (let_through_length sent) as Hlen.
  assert (wants_raw m_sPublishType = true -> led_scans L ++ [em_scan e] = em_scan <$> (sent ++ [e]))
    as Hsc' by (intros Hw; by rewrite Hsc, fmap_app).
  assert (let_through (sent ++ [e]) =
    if timestamp_accepted d then let_through sent ++ [e] else let_through sent) as Hlet
    by (unfold let_through; by rewrite Hscreen).
  destruct (timestamp_accepted d).
  - rewrite Hm. unfold ledger_offer. cbn [led_stopped].
    destruct (led_stopped L) eqn:Hstop, (wants_raw m_sPublishType) eqn:Hraw; split; cbn;
      rewrite ?Hscreen, ?Hlet, ?Hr, ?Hraw, ?length_app; cbn [length]; auto; try discriminate; try lia.
    1,2: exists k; split; [lia|]; split; [|discriminate]; by rewrite take_app_le by lia.
    all: eexists; split; [done|]; split; [|done]; rewrite <- (length_app _ [e]), firstn_all;
      apply Forall2_app; [|by constructor]; by rewrite (Hst eq_refl), firstn_all in Hoff.
  - destruct (wants_raw m_sPublishType) eqn:Hraw; split; cbn;
      rewrite ?Hscreen, ?Hlet, ?Hr, ?Hraw, ?length_app; cbn [length]; auto; try discriminate; try lia;
      by exists k.
Qed.

Lemma hand_ok sent e clock nd :
  node_ok sent nd -> raw_throws clock = false -> fine_cloud e -> good_stamp (em_timestamp e) ->
  exists nd', run_node m_sPublishType m_sPointcloudLayout dt big_endian toROSMsg (call_back e clock) nd =
    Ret nd' /\ node_ok (sent ++ [e]) nd'.
Proof.
  intros (L & o & f & k & Hac & Hled) Hraw Hok Hg.
  destruct (node_step_accounts m_sPublishType m_sPointcloudLayout dt big_endian toROSMsg L o f k nd
    (call_back e clock) Hac) as (nd' & o' & f' & k' & Hstep & Hac').
  { split; [done|]. right. split; [done|]. apply Hok. }
  exists nd'. split; [unfold run_node; by rewrite Hstep|]. eexists _, o', f', k'. split; [exact Hac'|].
  by apply ledger_hand.
Qed.

(** A step of the publishing thread or the stop. *)
Lemma other_ok sent a nd :
  node_ok sent nd -> is_callback a = false ->
  exists nd', run_node m_sPublishType m_sPointcloudLayout dt big_endian toROSMsg a nd = Ret nd' /\
    node_ok sent nd'.
Proof.
  intros (L & o & f & k & Hac & Hled) Ha.
  destruct (node_step_accounts m_sPublishType m_sPointcloudLayout dt big_endian toROSMsg L o f k nd
    a Hac) as (nd' & o' & f' & k' & Hstep & Hac'); [by destruct a|].
  exists nd'. split; [unfold run_node; by rewrite Hstep|]. eexists _, o', f', k'. split; [exact Hac'|].
  destruct a; try done. destruct Hled as [Hr He Hb (j & Hj & Hoff & _) Hsc].
  split; cbn; try done. exists j. by split_and!.
Qed.

(** ** Steps and runs *)

(** What the packets, and the publisher of raw scans, have to be like. *)
Definition good_pipe (a : pipe_action) : Prop :=
  match a with
  | PTurn u => good_turn sr t s char_signed u /\ Forall timely_packet (offered [u])
  | PHand clock => raw_throws clock = false
  | PNode _ => True
  end.

Lemma recv_process received d d' :
  take_turn (Receive received) d = Ret d' -> process d' = process d.
Proof.
  cbn [DriverFacts.take_turn]. destruct received as [packet|]; unfold recv_step; [|by intros [= <-]].
  destruct (pkt_size packet =? GPS_PACKET_SIZE).
  - destruct (ParseGPS (pkt_data packet) (pkt_size packet)); [by intros [= <-]|by intros [= <-]|done].
  - unfold PushLiDARData. intros H. apply bind_Ret_inv in H as ([[? ?] ?] & _ & H). by injection H as <-.
Qed.

Lemma sent_same pl d' :
  process d' = process (pl_driver pl) ->
  sent_of {| pl_driver := d'; pl_node := pl_node pl; pl_handed := pl_handed pl |} = sent_of pl.
Proof. intros Hp. unfold sent_of. cbn. by rewrite Hp. Qed.

Lemma process_turn_ok d0 off popped pending pl fresh d' :
  pipe_ok d0 off popped pending pl -> ~ nearly_full sr s (process (pl_driver pl)) -> handed_all pl = true ->
  take_turn (ProcessOne fresh) (pl_driver pl) = Ret d' ->
  times_ok (process d') /\ emitted (process (pl_driver pl)) `prefix_of` emitted (process d').
Proof.
  intros [[Hq Hsub _ _ _ _ _ Hfr _ Hcal Hgood] Hti Htimes _ _] Hroom Hall Hturn.
  destruct (process_step_inv fresh _ _ pending Hcal Hq Hturn) as [->|(packet & Hin & Hrun)]; [done|].
  eapply (packet_times_ok packet); try done; rewrite Forall_forall in *; [by apply Hgood|].
  apply Hti. eapply sublist_subseteq; [exact Hsub|]. rewrite elem_of_app. by right.
Qed.

Lemma turn_ok d0 off popped pending pl u :
  pipe_ok d0 off popped pending pl -> good_pipe (PTurn u) -> ~ nearly_full sr s (process (pl_driver pl)) ->
  (forall fresh, u = ProcessOne fresh -> handed_all pl = true) ->
  exists d' popped' pending', take_turn u (pl_driver pl) = Ret d' /\
    pipe_ok d0 (off ++ offered [u]) popped' pending'
      {| pl_driver := d'; pl_node := pl_node pl; pl_handed := pl_handed pl |}.
Proof.
  intros Hok [Hu Hti] Hroom Hall.
  destruct (turn_accounted lookupTransform sinf cosf sr t n c s true char_signed mktime Hsr Hc
    _ _ _ _ _ _ (pk_driver _ _ _ _ _ Hok) Hu Hroom) as (d' & popped' & pending' & Hturn & Hac).
  exists d', popped', pending'. split; [done|].
  assert (times_ok (process d') /\ emitted (process (pl_driver pl)) `prefix_of` emitted (process d') /\
    sent_of {| pl_driver := d'; pl_node := pl_node pl; pl_handed := pl_handed pl |} = sent_of pl)
    as (Htimes & Hpre & Hsent).
  { destruct u as [received|fresh].
    - pose proof (recv_process _ _ _ Hturn) as Hp. rewrite (sent_same _ _ Hp), Hp. by destruct Hok.
    - destruct (process_turn_ok _ _ _ _ _ _ _ Hok Hroom (Hall _ eq_refl) Hturn) as [Htimes Hpre].
      split_and!; [done..|]. exact (proj1 (sent_grows pl d' (Hall _ eq_refl) Hpre)). }
  destruct Hok as [_ Hoff _ Hh Hnd]. split; [done|by apply Forall_app_2|done| |by rewrite Hsent].
  apply prefix_length in Hpre. cbn. lia.
Qed.

Lemma driver_emissions d0 off popped pending d :
  accounted d0 off popped pending d -> Forall (sound_emission s) (emitted (process d)).
Proof. intros []. by apply stream_inv_emitted. Qed.

Lemma hand_step_ok d0 off popped pending pl e clock :
  pipe_ok d0 off popped pending pl -> ~ oversized s (process (pl_driver pl)) -> raw_throws clock = false ->
  emitted (process (pl_driver pl)) !! pl_handed pl = Some e ->
  exists nd', run_node m_sPublishType m_sPointcloudLayout dt big_endian toROSMsg (call_back e clock)
      (pl_node pl) = Ret nd' /\
    pipe_ok d0 off popped pending
      {| pl_driver := pl_driver pl; pl_node := nd'; pl_handed := S (pl_handed pl) |}.
Proof.
  intros [Hac Hti Htimes Hh Hnd] Hsize Hraw He.
  assert (Forall (sound_emission s) (emitted (process (pl_driver pl)))) as Hem by by apply driver_emissions in Hac.
  pose proof (emissions_stamped _ Htimes Hem) as Hgd.
  destruct (hand_ok (sent_of pl) e clock (pl_node pl) Hnd Hraw) as (nd' & Hrun & Hnd').
  - apply (emission_fine _ _ Hem Hsize). by eapply list_elem_of_lookup_2.
  - rewrite Forall_forall in Hgd. apply Hgd, list_elem_of_fmap_2. by eapply list_elem_of_lookup_2.
  - exists nd'. split; [done|]. split; cbn; try done; [by apply lookup_lt_Some in He|].
    unfold sent_of. cbn. by rewrite (take_S_r _ _ _ He).
Qed.

Lemma pipe_step_ok d0 off popped pending pl a :
  pipe_ok d0 off popped pending pl -> good_pipe a -> ~ strained sr s (process (pl_driver pl)) ->
  exists pl' popped' pending', pipe_step a pl = Ret pl' /\
    pipe_ok d0 (off ++ offered (turns_of [a])) popped' pending' pl'.
Proof.
  intros Hok Ha [Hroom Hsize]%Decidable.not_or. destruct a as [u|clock|a]; cbn [Pipeline.pipe_step turns_of omap list_omap].
  - destruct (match u with ProcessOne _ => handed_all pl | _ => true end) eqn:Hall.
    + destruct (turn_ok _ _ _ _ _ _ Hok Ha Hroom) as (d' & popped' & pending' & -> & Hok').
      { by intros fresh ->. }
      by eexists _, popped', pending'.
    + eexists pl, popped, pending. split; [done|]. destruct u; [done|]. cbn. by rewrite app_nil_r.
  - rewrite app_nil_r. destruct (_ !! _) as [e|] eqn:He; [|by exists pl, popped, pending].
    destruct (hand_step_ok _ _ _ _ _ _ clock Hok Hsize Ha He) as (nd' & -> & Hok').
    by eexists _, popped, pending.
  - rewrite app_nil_r. destruct (is_callback a) eqn:Hcb; [by exists pl, popped, pending|].
    destruct Hok as [Hac Hti Htimes Hh Hnd]. destruct (other_ok _ _ _ Hnd Hcb) as (nd' & -> & Hnd').
    by eexists _, popped, pending.
Qed.

Lemma pipe_run_ok actions d0 off popped pending pl :
  pipe_ok d0 off popped pending pl -> Forall good_pipe actions ->
  (exists pre a post pl1, actions = pre ++ a :: post /\ pipe_run pre pl = Ret pl1 /\
     strained sr s (process (pl_driver pl1))) \/
  (exists popped' pending' pl', pipe_run actions pl = Ret pl' /\
     pipe_ok d0 (off ++ offered (turns_of actions)) popped' pending' pl').
Proof.
  intros Hok Hgood. revert off popped pending pl Hok.
  induction Hgood as [|a actions Ha _ IH]; intros off popped pending pl Hok.
  { right. exists popped, pending, pl. by rewrite app_nil_r. }
  destruct (decide (strained sr s (process (pl_driver pl)))) as [Ho|Hno]; [left; by exists [], a, actions, pl|].
  destruct (pipe_step_ok _ _ _ _ _ _ Hok Ha Hno) as (pl1 & pop1 & pend1 & Hstep & Hok1).
  cbn [Pipeline.pipe_run]. rewrite Hstep. cbn [mbind outcome_bind].
  destruct (IH _ _ _ _ Hok1) as [(pre & v & post & pl2 & -> & Hrun & Ho)|
    (pop2 & pend2 & pl2 & Hrun & Hok2)].
  - left. exists (a :: pre), v, post, pl2. cbn [Pipeline.pipe_run]. rewrite Hstep. by split.
  - right. exists pop2, pend2, pl2. split; [done|].
    rewrite <- app_assoc, <- offered_app in Hok2.
    replace (turns_of (a :: actions)) with (turns_of [a] ++ turns_of actions)
      by (symmetry; apply (omap_app _ [a])). done.
Qed.
End invariant.

Definition pipe_new {Q : Type} (d : Driver Q) : Pipeline Q :=
  {| pl_driver := d; pl_node := node_new; pl_handed := 0 |}.

(** C1: the driver of a sensor and cloud mode of [supported] (array or channels, but
    no PandarQT with channels; no tf frames), with any usable calibration and the
    node that publishes its clouds (a publish type with points), from a fresh start
    and under any interleaving of the receiving, processing and publishing threads,
    the calls of the callback and the stop, but for the exceptions of [strained]: a
    frame of plain clouds within one packet's points of the end of [m_vPointCloud],
    and a structured cloud of more points than a [PointCloud2] has room for. The
    packets received are those of [good_turn] (see [good_packet] and
    [good_legacy]: sizes of the model or of none, counts that fit, stamps in range);
    with reception times as time stamps they are received one second after the epoch
    or later, with the sensor's own times its clock stands between one second after
    the epoch and the last second but one of 32 bits; publishing raw scans never
    throws. Then there is no fault; none of the clouds the driver hands over is
    empty; the node refuses those that go back in time and counts them, and with
    reception times there are none; what is offered for publication are the
    conversions of the others, in order, all of them unless publishing is stopped;
    each of those is published, failed, overwritten, in flight, pending or the one
    discarded by the stop, the published ones are in order, and the raw scans
    published are those of the clouds handed over. The driver meanwhile does exactly
    what the packets it took from the queue, one after the other, make it do. *)
Theorem pipeline_clouds {Q : Type} {depth : Z}
    `{F : !BoundedFifo thread_error PandarPacket Q depth}
    (lookupTransform : nat -> string -> string -> stamp -> lookup_result)
    (sinf cosf : float -> float) (sr : sensor) (t : string) (n : nat) (c : Calibration)
    (s : Settings) (char_signed : bool) (mktime : tm -> Z)
    (m_sPublishType m_sPointcloudLayout : string) (dt : datatypes) (big_endian : bool)
    (toROSMsg : PPointCloud -> PointCloud2) (actions : list pipe_action) (d : Driver Q)
    (Hsr : supported sr t n s) (Hc : usable t n c)
    (Hpub : wants_points m_sPublishType = true)
    (Hqueue : fifo_repr (m_PacketsBuffer d) []) (Hrx : receiver d = Build_Receiver 0 0 0)
    (Hp : stream_inv s (process d)) (Hcal : calibration d = c)
    (Hguard : m_packetTimestampGuard (process d) = guard_new kTimestampRegressionToleranceSec)
    (Hfirst : leading_points s (process d) = [])
    (Hrun : processing d = true /\ enable_lidar_process_thr_ d = true)
    (Hactions : Forall (good_pipe sr t s char_signed mktime) actions) :
  let run := pipe_run (F := F) lookupTransform sinf cosf s char_signed mktime m_sPublishType
    m_sPointcloudLayout dt big_endian toROSMsg in
  (exists pre a post pl, actions = pre ++ a :: post /\ run pre (pipe_new d) = Ret pl /\
     strained sr s (process (pl_driver pl))) \/
  (exists pl messages overwritten failed discarded processed waiting,
     run actions (pipe_new d) = Ret pl /\
     let nd := pl_node pl in
     let made := emitted (process (pl_driver pl)) in
     let handed := take (pl_handed pl) made in
     let passed := let_through handed in
     let in_flight := option_list (publishing nd) in
     let pending := option_list (pending_ (cloudPublishMailbox nd)) in
     (pl_handed pl <= length made)%nat /\
     cloudTimestampRegressions (node_counters nd) = u64 (zlen handed - zlen passed) /\
     (realtime s = true -> passed = handed) /\ emptyCloudDrops (node_counters nd) = 0 /\
     (exists k, (k <= length passed)%nat /\
        Forall2 (converts m_sPointcloudLayout dt big_endian toROSMsg) (take k passed) messages /\
        (stopped_ (cloudPublishMailbox nd) = false -> k = length passed)) /\
     zlen messages = zlen (clouds nd) + failed + overwritten + zlen in_flight + zlen pending +
       discarded /\
     0 <= overwritten /\ 0 <= failed /\
     0 <= discarded <= (if stopped_ (cloudPublishMailbox nd) then 1 else 0) /\
     sublist (clouds nd ++ in_flight ++ pending) messages /\
     (wants_raw m_sPublishType = true -> raw_scans nd = em_scan <$> handed) /\
     sublist (processed ++ waiting) (offered (turns_of actions)) /\
     fifo_repr (m_PacketsBuffer (pl_driver pl)) waiting /\
     process_packets lookupTransform sinf cosf c s true char_signed mktime processed (process d) =
       Ret (true, process (pl_driver pl))).
Proof.
  intros run.
  assert (pipe_ok (F := F) lookupTransform sinf cosf sr t c s char_signed mktime m_sPublishType
    m_sPointcloudLayout dt big_endian toROSMsg d [] [] [] (pipe_new d)) as Hok.
  { assert (point_times s (process d) = []) as Hnone by (unfold point_times; by rewrite Hfirst).
    split.
    - pose proof (fifo_depth_bound _ _ Hqueue). change (pl_driver (pipe_new d)) with d.
      by split; rewrite ?Hrx.
    - constructor.
    - split; cbn [pipe_new pl_driver]; rewrite Hnone; [|constructor].
      intros _. apply passed_nil. rewrite Hguard. by split.
    - cbn. lia.
    - exists ledger_new, 0, 0, 0. split; [apply accounts_new|]. split; try done.
      exists 0%nat. split; [cbn; lia|]. split; [by apply Forall2_nil|done]. }
  destruct (pipe_run_ok lookupTransform sinf cosf sr t n c s char_signed mktime Hsr Hc
    m_sPublishType m_sPointcloudLayout dt big_endian toROSMsg Hpub actions d [] [] [] _ Hok Hactions)
    as [H|(processed & waiting & pl & Hr & [Hac _ Htimes Hh (L & o & f & k & Hnode & Hled)])];
    [by left|right].
  exists pl, (led_offered L), o, f, k, processed, waiting. split; [done|].
  pose proof (driver_emissions _ _ _ _ _ _ _ _ _ _ _ _ _ _ Hac) as Hem.
  destruct Hled as [Hre Hee _ (j & Hj & Hoff & Hst) Hsc], Hac, Hnode. unfold sent_of in *.
  cbn zeta. split_and!; try done; try lia.
  - by rewrite ac_refused, Hre.
  - intros Hrt. by eapply received_pass.
  - by rewrite ac_empty, Hee.
  - exists j. split; [done|]. split; [done|]. by rewrite ac_stopped.
  - rewrite ac_stopped. destruct (led_stopped L) eqn:Hstop; [lia|]. by rewrite ac_discard.
  - intros Hw. rewrite ac_raw. auto.
Qed.

(** ** An example: the cloud of the first frame is published *)

Definition example_actions : list pipe_action :=
  (PTurn <$> example_turns) ++
  [PHand {| t0 := 0; t1 := 1000; t2 := 2000; t3 := 3500; raw_throws := false |}; PNode Pop; PNode (Publish false 10 20)].

Definition example_settings (received structured : bool) : Settings :=
  {| m_sTimestampType := if received then "realtime" else ""; tz_second_ := 0; pcl_type_ := structured;
     m_sLidarType := "PandarXTM"; m_bCoordinateCorrectionFlag := false; m_sFrameId := "lidar" |}.

Abbreviation pipe_example received structured actions :=
  (pipe_run (F := packets_buffer_fifo) (fun _ _ _ _ => LookupFailed) id id
     (example_settings received structured) true mktime_utc "both" "compact" ros_datatypes false
     (fun _ => blank_message) actions (pipe_new fresh_driver)).

(** The frame is far from the end of its array, or the clouds are small. *)
Definition easy (structured : bool) (p : Process) : bool :=
  if structured then forallb (fun e => zlen (points (em_cloud e)) <=? 1000) (emitted p)
  else m_iPointCloudIndex (frame p) + 256 <=? MAX_POINT_CLOUD_NUM.

Lemma easy_room received structured p : easy structured p = true -> ~ strained XT (example_settings received structured) p.
Proof.
  intros He [[Hpcl Ho]|[Hpcl Ho]]; cbn in Hpcl; subst structured; cbn [easy] in He.
  - apply Z.leb_le in He. cbn [sensor_room] in Ho. lia.
  - rewrite forallb_forall in He. apply Exists_exists in Ho as (e & Hin & Ho).
    specialize (He e (proj1 (list_elem_of_In _ _) Hin)). apply Z.leb_le in He.
    change (UINT32_MAX / kCompactPointStep) with 165191049 in Ho. lia.
Qed.

(** No exception is met, and one cloud has been published in the end. *)
Fixpoint pipe_roomy (received structured : bool) (actions : list pipe_action)
    (pl : Pipeline (BoundedSpscQueue PandarPacket)) : bool :=
  easy structured (process (pl_driver pl)) &&
  match actions with
  | [] => zlen (clouds (pl_node pl)) =? 1
  | a :: actions =>
      match pipe_step (F := packets_buffer_fifo) (fun _ _ _ _ => LookupFailed) id id
              (example_settings received structured) true mktime_utc "both" "compact" ros_datatypes false
              (fun _ => blank_message) a pl with
      | Ret pl => pipe_roomy received structured actions pl
      | _ => true
      end
  end.

Lemma pipe_roomy_prefix received structured pre post pl pl' :
  pipe_roomy received structured (pre ++ post) pl = true ->
  pipe_run (F := packets_buffer_fifo) (fun _ _ _ _ => LookupFailed) id id
    (example_settings received structured) true mktime_utc "both" "compact" ros_datatypes false
    (fun _ => blank_message) pre pl = Ret pl' ->
  ~ strained XT (example_settings received structured) (process (pl_driver pl')).
Proof.
  revert pl. induction pre as [|a pre IH]; intros pl Hroom; cbn [pipe_run].
  - intros [= <-]. apply easy_room. destruct post; by apply andb_true_iff in Hroom as [? _].
  - cbn [app pipe_roomy] in Hroom. apply andb_true_iff in Hroom as [_ Hroom].
    destruct (pipe_step _ _ _ _ _ _ _ _ _ _ _ a pl) as [pl1| |]; try discriminate.
    cbn [mbind outcome_bind]. by apply IH.
Qed.

Lemma pipe_roomy_end received structured actions pl pl' :
  pipe_roomy received structured actions pl = true ->
  pipe_run (F := packets_buffer_fifo) (fun _ _ _ _ => LookupFailed) id id
    (example_settings received structured) true mktime_utc "both" "compact" ros_datatypes false
    (fun _ => blank_message) actions pl = Ret pl' ->
  zlen (clouds (pl_node pl')) = 1.
Proof.
  revert pl. induction actions as [|a actions IH]; intros pl Hroom; cbn [pipe_run pipe_roomy] in *;
    apply andb_true_iff in Hroom as [_ Hroom].
  - intros [= <-]. by apply Z.eqb_eq.
  - destruct (pipe_step _ _ _ _ _ _ _ _ _ _ _ a pl) as [pl1| |]; try discriminate.
    cbn [mbind outcome_bind]. by apply IH.
Qed.

Lemma pipe_example_room received structured : pipe_roomy received structured example_actions (pipe_new fresh_driver) = true.
Proof. destruct received, structured; vm_compute; reflexivity. Qed.

Definition clock_test (time : float) : bool :=
  isfinite time && valid_binary 53 1024 time && (1 * 2 ^ 1074 <=? dval time) &&
  (dval time <=? (2 ^ 31 - 2) * 2 ^ 1074).

Lemma clock_test_spec time : clock_test time = true -> dwithin 1 (2 ^ 31 - 2) time.
Proof.
  intros [[[Hf Hv]%andb_true_iff Hlo]%andb_true_iff Hhi]%andb_true_iff.
  apply Z.leb_le in Hlo, Hhi. split; [by split|].
  change (2 ^ (- emin 53 1024)) with (2 ^ 1074). by split.
Qed.

(** The clock of a packet, as the parser reads it. *)
Definition clocked (data : list Z) : bool :=
  match ParseXTData true mktime_utc (take 820 data) 820 with
  | Ret pkt => clock_test (d_add (timestamp_point pkt) (d_of_Z 0))
  | _ => false
  end.

Lemma example_clocked :
  forallb (fun '(k, a) => clocked (encode_xt (xtm_example k a) ++ replicate 680 0)) [(7, 35990); (8, 100)] = true.
Proof. vm_compute. reflexivity. Qed.

Lemma clocked_sensor structured packet :
  Forall is_byte (pkt_data packet) -> zlen (pkt_data packet) = 1500 -> pkt_size packet = 820 ->
  clocked (pkt_data packet) = true -> sensor_clock XT (example_settings false structured) true mktime_utc packet.
Proof.
  intros Hbytes Hlen Hsize Hclock r Hr Henc. rewrite Hsize in Henc. change (Z.to_nat 820) with 820%nat in Henc.
  assert (zlen (encode_xt r) = 820) as Hz by (rewrite <- Henc, length_take; lia).
  pose proof (ParseXTData_encoded true mktime_utc r [] Hr) as Hparse. rewrite app_nil_r, Hz in Hparse.
  unfold clocked in Hclock. rewrite Henc, Hparse in Hclock.
  2: { rewrite <- Henc. by apply Forall_take. }
  exact (clock_test_spec _ Hclock).
Qed.

Lemma example_packet_timely received structured k a x :
  good_packet "PandarXTM" (example_settings received structured) (xtm_packet k a x) ->
  (k, a) ∈ [(7, 35990); (8, 100)] -> isfinite x && (2 ^ 1074 <=? dval x) = true -> dvalid x ->
  timely_packet XT (example_settings received structured) true mktime_utc (xtm_packet k a x).
Proof.
  intros Hgood Hin [_ H]%andb_true_iff Hv. destruct received.
  - intros _. split; [done|]. by apply Z.leb_le.
  - pose proof example_clocked as Hall. rewrite forallb_forall in Hall.
    specialize (Hall _ (proj1 (list_elem_of_In _ _) Hin)).
    apply clocked_sensor; [by apply (gp_bytes _ _ _ Hgood)| |done|exact Hall].
    rewrite !elem_of_cons, elem_of_nil in Hin. by destruct Hin as [[= -> ->]|[[= -> ->]|[]]].
Qed.

Lemma example_turn_good received structured u :
  u ∈ example_turns -> good_pipe XT "PandarXTM" (example_settings received structured) true mktime_utc (PTurn u).
Proof.
  intros Hu. pose proof example_turns_good as Hall. rewrite Forall_forall in Hall.
  specialize (Hall u Hu).
  assert (good_turn XT "PandarXTM" (example_settings received structured) true u) as Hgood.
  { destruct u as [[packet|]|]; try exact I. cbn [good_turn] in *.
    destruct (is_gps packet); [exact Hall|]. by destruct Hall; split. }
  split; [exact Hgood|].
  unfold example_turns in Hu. rewrite !elem_of_cons, elem_of_nil in Hu.
  repeat destruct Hu as [->|Hu]; try constructor; try destruct Hu; try constructor;
    (apply example_packet_timely; [exact Hgood|set_solver|vm_compute; reflexivity|solve_valid]).
Qed.

Lemma example_inv received structured : stream_inv (example_settings received structured) (process fresh_driver).
Proof. by apply stream_inv_started. Qed.

(** With both kinds of times, in both ways of collecting points. *)
Definition published_one (received structured : bool) : Prop :=
  exists pl, pipe_example received structured example_actions = Ret pl /\ zlen (clouds (pl_node pl)) = 1 /\
    (received = true -> cloudTimestampRegressions (node_counters (pl_node pl)) = 0) /\
    emptyCloudDrops (node_counters (pl_node pl)) = 0.

Lemma pipeline_clouds_witness :
  (published_one true false /\ published_one true true) /\ published_one false false /\ published_one false true.
Proof.
  cut (forall received structured, published_one received structured).
  { intros H. exact (conj (conj (H _ _) (H _ _)) (conj (H _ _) (H _ _))). }
  intros received structured.
  assert (("PandarXTM", 32%nat) ∈ lidar_types) as Ht
    by (apply (bool_decide_unpack _); vm_compute; exact I).
  assert (Forall (good_pipe XT "PandarXTM" (example_settings received structured) true mktime_utc) example_actions) as Hgood.
  { apply Forall_app_2; [|repeat constructor]. rewrite Forall_fmap, Forall_forall.
    exact (example_turn_good received structured). }
  destruct (pipeline_clouds (F := packets_buffer_fifo) (fun _ _ _ _ => LookupFailed) id id
    XT "PandarXTM" 32 (Init id id "PandarXTM") (example_settings received structured) true mktime_utc "both"
    "compact" ros_datatypes false (fun _ => blank_message) example_actions fresh_driver
    (conj eq_refl (conj Ht eq_refl)) (init_usable id id _ _ Ht) eq_refl
    ltac:(apply ring_new; done) eq_refl (example_inv received structured) eq_refl eq_refl
    ltac:(by destruct received, structured) (conj eq_refl eq_refl) Hgood)
    as [(pre & a & post & pl & Hpk & Hrun & Ho)|
      (pl & ms & o & f & k & packets & waiting & Hrun & _ & Hr & Hall & He & _)].
  - exfalso. pose proof (pipe_example_room received structured) as Hroom. rewrite Hpk in Hroom.
    exact (pipe_roomy_prefix received structured pre (a :: post) _ pl Hroom Hrun Ho).
  - exists pl. split; [exact Hrun|]. split; [|split; [|exact He]].
    2: { intros ->. rewrite Hr, (Hall eq_refl), Z.sub_diag. reflexivity. }
    exact (pipe_roomy_end received structured _ _ pl (pipe_example_room received structured) Hrun).
Defined.
