(* ===== verification/Shutdown.v ===== *)
(** The end of the node: [~HesaiLidarClient] of [main_ros2.cc], with the
    destructors of the driver below it, and the diagnostics they log.

    The destructor is a thread of its own beside those of [Pipeline]: it clears
    the driver's flags, joins its threads and the calibration thread, logs the
    packet counters, stops the mailbox, joins the publishing thread and logs the
    cloud counters.  A step of a thread that would block is not enabled.  The
    calibration thread is in its exchange with the sensor when the model begins, as
    after [Start]; it ends with nothing to load, since loads are in [Threads]. *)
From stdpp Require Import gmap sorting.
From S2P Require Import Prelude SpscQueue Ieee IeeeRound IeeeInterval Stamps GuardCascade Calendar.
From S2P Require Import PacketDefenses LatestValueMailbox CompactCloud PacketFormat ParseXT.
From S2P Require Import ParseLegacy LidarTables PointCalc Correction Framing FrameModes FramingFacts.
From S2P Require Import Streams Driver DriverFacts Node NodeFacts Sdk Launch Threads Pipeline.
#[local] Open Scope Z_scope.

(** ** The reports *)

Record PacketDiagnostics := {
  queue_overload_drops : Z;
  sequence_gap_packets : Z;
  sequence_duplicates : Z;
  sequence_backwards : Z;
  sequence_restarts : Z;
  packet_timestamp_regressions : Z;
  driver_empty_cloud_drops : Z;
  enqueued_packets : Z;
  processed_packets : Z;
  max_queue_depth : Z;
}.

Record CloudDiagnostics := {
  empty_cloud_drops : Z;
  cloud_timestamp_regressions : Z;
  clouds_enqueued : Z;
  cloud_queue_overwrites : Z;
  cloud_publish_failures : Z;
  clouds_published : Z;
  conversion_avg_ms : float;
  conversion_max_ms : float;
  cloud_publish_avg_ms : float;
  cloud_publish_max_ms : float;
  raw_scans_published : Z;
  raw_publish_avg_ms : float;
  raw_publish_max_ms : float;
}.

Definition cloud_diagnostics (k : NodeCounters) : CloudDiagnostics :=
  {| empty_cloud_drops := emptyCloudDrops k;
     cloud_timestamp_regressions := cloudTimestampRegressions k;
     clouds_enqueued := cloudsEnqueued k;
     cloud_queue_overwrites := cloudQueueOverwrites k;
     cloud_publish_failures := cloudPublishFailures k;
     clouds_published := cloudsPublished k;
     conversion_avg_ms := averageMilliseconds (cloudConversionTotalNs k) (cloudsEnqueued k);
     conversion_max_ms := nanosecondsToMilliseconds (cloudConversionMaxNs k);
     cloud_publish_avg_ms := averageMilliseconds (cloudPublishTotalNs k)
       (u64 (cloudsPublished k + cloudPublishFailures k));
     cloud_publish_max_ms := nanosecondsToMilliseconds (cloudPublishMaxNs k);
     raw_scans_published := rawScansPublished k;
     raw_publish_avg_ms := averageMilliseconds (rawPublishTotalNs k) (rawScansPublished k);
     raw_publish_max_ms := nanosecondsToMilliseconds (rawPublishMaxNs k) |}.

Definition packet_diagnostics {Q} (d : Driver Q) : PacketDiagnostics :=
  let k := counters (process d) in
  {| queue_overload_drops := m_queueOverloadDrops (receiver d);
     sequence_gap_packets := m_sequenceGapPackets k;
     sequence_duplicates := m_sequenceDuplicates k;
     sequence_backwards := m_sequenceBackwards k;
     sequence_restarts := m_sequenceRestarts k;
     packet_timestamp_regressions := m_packetTimestampRegressions k;
     driver_empty_cloud_drops := m_emptyCloudDrops k;
     enqueued_packets := m_enqueuedPackets (receiver d);
     processed_packets := m_processedPackets k;
     max_queue_depth := m_maxQueueDepthObserved (receiver d) |}.

(** ** The destructors *)

(** Where [~HesaiLidarClient] stands: not called; in [delete hsdk], the flags
    cleared; the driver stopped, before the join of the calibration thread; before
    [cloudPublishMailbox.stop()]; before the join; returned. *)
Inductive close_pc := Alive | Deleting | Stopped | Deleted | Joining | Returned.

#[export] Instance close_pc_eq_dec : EqDecision close_pc.
Proof. solve_decision. Defined.

(** The calibration thread: in its exchange with the sensor, a read without a
    time-out; after it; returned. *)
Inductive calibration_state := Exchanging | Answered | Over.

(** [cl_publisher]: the publishing thread has not left its loop. *)
Record Closing {Q : Type} := {
  cl_pipe : Pipeline Q;
  cl_publisher : bool;
  cl_calibration : calibration_state;
  cl_pc : close_pc;
  cl_packets : option PacketDiagnostics;
  cl_clouds : option CloudDiagnostics;
}.
Arguments Closing Q : clear implicits.

Inductive close_event :=
  | CPipe (a : pipe_action)
  | CPublisherEnds
  | CExchangeEnds
  | CCalibrationEnds
  | CDestructor.

Section closing.
Context {Q : Type} {depth : Z} `{F : !BoundedFifo thread_error PandarPacket Q depth}.
Context (lookupTransform : nat -> string -> string -> stamp -> lookup_result).
Context (sinf cosf : float -> float) (s : Settings) (char_signed : bool) (mktime : tm -> Z).
Context (m_sPublishType m_sPointcloudLayout : string).
Context (dt : datatypes) (big_endian : bool) (toROSMsg : PPointCloud -> PointCloud2).

(** [~PandarGeneral_Internal] up to its log; [~PandarGeneralSDK] has stopped the
    driver before. *)
Definition delete_internal (internal_ : Driver Q) : PacketDiagnostics * Driver Q :=
  let d := Stop internal_ in (packet_diagnostics d, d).
Definition pg_delete (internal_ : Driver Q) : PacketDiagnostics * Driver Q :=
  delete_internal internal_.

Definition with_pipe (pl : Pipeline Q) (cl : Closing Q) : Closing Q :=
  {| cl_pipe := pl; cl_publisher := cl_publisher cl; cl_calibration := cl_calibration cl;
     cl_pc := cl_pc cl; cl_packets := cl_packets cl; cl_clouds := cl_clouds cl |}.
Definition with_calibration (calibration_ : calibration_state) (cl : Closing Q) : Closing Q :=
  {| cl_pipe := cl_pipe cl; cl_publisher := cl_publisher cl; cl_calibration := calibration_;
     cl_pc := cl_pc cl; cl_packets := cl_packets cl; cl_clouds := cl_clouds cl |}.
Definition with_driver (d : Driver Q) (pl : Pipeline Q) : Pipeline Q :=
  {| pl_driver := d; pl_node := pl_node pl; pl_handed := pl_handed pl |}.
Definition with_node (nd : Node) (pl : Pipeline Q) : Pipeline Q :=
  {| pl_driver := pl_driver pl; pl_node := nd; pl_handed := pl_handed pl |}.

Definition idle_publisher (nd : Node) : bool :=
  match publishing nd with None => true | Some _ => false end.
Definition has_pending (nd : Node) : bool :=
  match pending_ (cloudPublishMailbox nd) with Some _ => true | None => false end.

(** The steps of [Pipeline] that do not block. *)
Definition enabled (a : pipe_action) (cl : Closing Q) : bool :=
  let d := pl_driver (cl_pipe cl) in
  let nd := pl_node (cl_pipe cl) in
  match a with
  | PTurn (Receive _) => enable_lidar_recv_thr_ d
  | PTurn (ProcessOne _) => processing d && enable_lidar_process_thr_ d && handed_all (cl_pipe cl)
  | PHand _ => negb (handed_all (cl_pipe cl))
  | PNode Pop => cl_publisher cl && idle_publisher nd && has_pending nd
  | PNode (Publish _ _ _) => negb (idle_publisher nd)
  | PNode _ => false
  end.

(** The publishing thread leaves its loop: [wait_pop] returns false. *)
Definition publisher_ends (cl : Closing Q) : option (Closing Q) :=
  let nd := pl_node (cl_pipe cl) in
  match wait_pop_test (cloudPublishMailbox nd) with
  | (Some (false, _), mb) =>
      if cl_publisher cl && idle_publisher nd then
        Some {| cl_pipe := with_node (set_mailbox mb nd) (cl_pipe cl); cl_publisher := false;
                cl_calibration := cl_calibration cl; cl_pc := cl_pc cl; cl_packets := cl_packets cl; cl_clouds := cl_clouds cl |}
      else None
  | _ => None
  end.

(** The sensor, or the connection, ends the exchange; no one else can. *)
Definition exchange_ends (cl : Closing Q) : option (Closing Q) :=
  match cl_calibration cl with
  | Exchanging => Some (with_calibration Answered cl)
  | _ => None
  end.

(** The calibration thread returns. *)
Definition calibration_ends (cl : Closing Q) : option (Closing Q) :=
  match cl_calibration cl with
  | Answered => Some (with_calibration Over cl)
  | _ => None
  end.

(** The next step of [~HesaiLidarClient]. A thread to be joined must have
    returned: the processing thread does when no call of the callback is left. *)
Definition destructor_step (cl : Closing Q) : option (Closing Q) :=
  let pl := cl_pipe cl in
  let at_pc pl pc packets clouds :=
    Some {| cl_pipe := pl; cl_publisher := cl_publisher cl;
            cl_calibration := cl_calibration cl; cl_pc := pc; cl_packets := packets; cl_clouds := clouds |} in
  match cl_pc cl with
  | Alive =>
      at_pc (with_driver (store_flags false false (pl_driver pl)) pl) Deleting
        (cl_packets cl) (cl_clouds cl)
  | Deleting =>
      if handed_all pl then
        at_pc (with_driver (pg_Stop (pl_driver pl)) pl) Stopped (cl_packets cl) (cl_clouds cl)
      else None
  | Stopped =>
      match cl_calibration cl with
      | Over =>
          let '(report, d) := pg_delete (pl_driver pl) in
          at_pc (with_driver d pl) Deleted (Some report) (cl_clouds cl)
      | _ => None
      end
  | Deleted =>
      at_pc (with_node (stop_publishing (pl_node pl)) pl) Joining (cl_packets cl) (cl_clouds cl)
  | Joining =>
      if cl_publisher cl then None
      else at_pc pl Returned (cl_packets cl) (Some (cloud_diagnostics (node_counters (pl_node pl))))
  | Returned => None
  end.

Abbreviation pipe_step := (pipe_step lookupTransform sinf cosf s char_signed mktime m_sPublishType
  m_sPointcloudLayout dt big_endian toROSMsg).

(** [None]: the event is not enabled. *)
Definition close_step (e : close_event) (cl : Closing Q)
    : option (outcome launch_error (Closing Q)) :=
  match e with
  | CPipe a =>
      if enabled a cl then Some (pl ← pipe_step a (cl_pipe cl); Ret (with_pipe pl cl)) else None
  | CPublisherEnds => Ret <$> publisher_ends cl
  | CExchangeEnds => Ret <$> exchange_ends cl
  | CCalibrationEnds => Ret <$> calibration_ends cl
  | CDestructor => Ret <$> destructor_step cl
  end.

Fixpoint close_run (events : list close_event) (cl : Closing Q)
    : option (outcome launch_error (Closing Q)) :=
  match events with
  | [] => Some (Ret cl)
  | e :: events =>
      match close_step e cl with
      | Some (Ret cl) => close_run events cl
      | r => r
      end
  end.
End closing.

Lemma close_run_app {Q : Type} {depth : Z} `{F : !BoundedFifo thread_error PandarPacket Q depth}
    lookupTransform sinf cosf s char_signed mktime publish layout dt big_endian toROSMsg pre post
    (cl : Closing Q) :
  let run := close_run lookupTransform sinf cosf s char_signed mktime publish layout dt big_endian toROSMsg in
  run (pre ++ post) cl = match run pre cl with Some (Ret cl') => run post cl' | r => r end.
Proof.
  cbn zeta. revert cl. induction pre as [|e pre IH]; intros cl; [done|].
  cbn [app close_run]. by destruct (close_step _ _ _ _ _ _ _ _ _ _ _ e cl) as [[cl1| |]|].
Qed.

(** The node as constructed, around a driver that runs. *)
Definition close_new {Q : Type} (d : Driver Q) : Closing Q :=
  {| cl_pipe := pipe_new d; cl_publisher := true; cl_calibration := Exchanging; cl_pc := Alive; cl_packets := None;
     cl_clouds := None |}.

(** ** The invariant *)

Section invariant.
Context {Q : Type} {depth : Z} `{F : !BoundedFifo thread_error PandarPacket Q depth}.
Context (lookupTransform : nat -> string -> string -> stamp -> lookup_result).
Context (sinf cosf : float -> float) (sr : sensor) (t : string) (n : nat) (c : Calibration).
Context (s : Settings) (char_signed : bool) (mktime : tm -> Z).
Context (Hsr : supported sr t n s) (Hc : usable t n c).
Context (m_sPublishType m_sPointcloudLayout : string).
Context (dt : datatypes) (big_endian : bool) (toROSMsg : PPointCloud -> PointCloud2).
Context (Hpub : wants_points m_sPublishType = true).
Implicit Types (d : Driver Q) (pl : Pipeline Q) (cl : Closing Q).

Abbreviation close_step := (close_step lookupTransform sinf cosf s char_signed mktime m_sPublishType
  m_sPointcloudLayout dt big_endian toROSMsg).
Abbreviation close_run := (close_run lookupTransform sinf cosf s char_signed mktime m_sPublishType
  m_sPointcloudLayout dt big_endian toROSMsg).
Abbreviation node_ok := (node_ok m_sPublishType m_sPointcloudLayout dt big_endian toROSMsg).
Abbreviation led_ok := (led_ok m_sPublishType m_sPointcloudLayout dt big_endian toROSMsg).
Abbreviation converts := (converts m_sPointcloudLayout dt big_endian toROSMsg).
Abbreviation pipe_ok := (pipe_ok lookupTransform sinf cosf sr t c s char_signed mktime m_sPublishType
  m_sPointcloudLayout dt big_endian toROSMsg).

(** The stop came after the last cloud was offered. *)
Definition all_offered (sent : list Emission) (nd : Node) : Prop :=
  exists L o f k, NodeFacts.accounts L o f k nd /\ led_ok sent L /\
    Forall2 converts (let_through sent) (led_offered L).

Definition stops (pc : close_pc) : bool :=
  match pc with Joining | Returned => true | _ => false end.

(** The driver, [d1] being the one [delete hsdk] found. *)
Definition driver_at (pc : close_pc) d1 : Driver Q :=
  match pc with
  | Alive => d1
  | Deleting => store_flags false false d1
  | Stopped => pg_Stop (store_flags false false d1)
  | _ => (pg_delete (pg_Stop (store_flags false false d1))).2
  end.

Record close_ok d0 (off popped pending : list PandarPacket) d1 cl : Prop := {
  co_pipe : pipe_ok d0 off popped pending (with_driver d1 (cl_pipe cl));
  co_driver : pl_driver (cl_pipe cl) = driver_at (cl_pc cl) d1;
  co_packets : match cl_pc cl with
    | Alive | Deleting => True
    | Stopped => handed_all (cl_pipe cl) = true
    | _ => handed_all (cl_pipe cl) = true /\
        cl_packets cl = Some (pg_delete (pg_Stop (store_flags false false d1))).1
    end;
  co_stopped : stopped_ (cloudPublishMailbox (pl_node (cl_pipe cl))) = stops (cl_pc cl);
  co_all : stops (cl_pc cl) = true -> all_offered (sent_of (cl_pipe cl)) (pl_node (cl_pipe cl));
  co_ended : cl_publisher cl = false ->
    publishing (pl_node (cl_pipe cl)) = None /\ stops (cl_pc cl) = true;
  co_returned : cl_pc cl = Returned -> cl_publisher cl = false /\
    cl_clouds cl = Some (cloud_diagnostics (node_counters (pl_node (cl_pipe cl))));
}.

Lemma driver_at_emitted pc d1 : emitted (process (driver_at pc d1)) = emitted (process d1).
Proof. by destruct pc. Qed.

Lemma driver_at_oversized pc d1 : oversized s (process (driver_at pc d1)) = oversized s (process d1).
Proof. unfold oversized. by rewrite driver_at_emitted. Qed.

Lemma driver_at_strained pc d1 : strained sr s (process (driver_at pc d1)) = strained sr s (process d1).
Proof. unfold strained. rewrite driver_at_oversized. f_equal. by destruct pc. Qed.

Lemma with_driver_sent pc d1 pl :
  pl_driver pl = driver_at pc d1 -> sent_of (with_driver d1 pl) = sent_of pl.
Proof. intros H. unfold sent_of. cbn. by rewrite H, driver_at_emitted. Qed.

Lemma with_driver_handed pc d1 pl :
  pl_driver pl = driver_at pc d1 -> handed_all (with_driver d1 pl) = handed_all pl.
Proof. intros H. unfold handed_all. cbn. by rewrite H, driver_at_emitted. Qed.

Lemma with_driver_self pl : with_driver (pl_driver pl) pl = pl.
Proof. by destruct pl. Qed.

(** A step of the publishing thread offers nothing. *)
Lemma all_offered_step sent a nd :
  all_offered sent nd -> match a with Pop | Publish _ _ _ => True | _ => False end ->
  exists nd', run_node m_sPublishType m_sPointcloudLayout dt big_endian toROSMsg a nd = Ret nd' /\
    all_offered sent nd'.
Proof.
  intros (L & o & f & k & Hac & Hled & Hall) Ha.
  destruct (node_step_accounts m_sPublishType m_sPointcloudLayout dt big_endian toROSMsg L o f k nd
    a Hac) as (nd' & o' & f' & k' & Hstep & Hac'); [by destruct a|].
  exists nd'. split; [unfold run_node; by rewrite Hstep|]. exists L, o', f', k'.
  by destruct a.
Qed.

(** The stop finds the mailbox open, so everything sent was offered. *)
Lemma all_offered_stop sent nd :
  node_ok sent nd -> stopped_ (cloudPublishMailbox nd) = false ->
  all_offered sent (stop_publishing nd).
Proof.
  intros (L & o & f & k & Hac & Hled) Hst.
  destruct (node_step_accounts m_sPublishType m_sPointcloudLayout dt big_endian toROSMsg L o f k nd
    StopPublishing Hac) as (nd' & o' & f' & k' & Hstep & Hac'); [done|].
  injection Hstep as <-. eexists _, o', f', k'. split; [exact Hac'|].
  rewrite (ac_stopped _ _ _ _ _ Hac) in Hst.
  destruct Hled as [Hr He Hb (j & Hj & Hoff & Hopen) Hsc]. rewrite (Hopen Hst), firstn_all in Hoff.
  split; [|done]. split; cbn; try done.
  exists (length (let_through sent)). by rewrite firstn_all.
Qed.

Lemma all_offered_node sent nd : all_offered sent nd -> node_ok sent nd.
Proof. intros (L & o & f & k & ? & ? & _). by exists L, o, f, k. Qed.

(** ** Steps *)

(** The callback touches neither the cloud in flight nor the mailbox's stop. *)
Lemma call_back_frame e clock nd nd' :
  run_node m_sPublishType m_sPointcloudLayout dt big_endian toROSMsg (call_back e clock) nd = Ret nd' ->
  publishing nd' = publishing nd /\
  stopped_ (cloudPublishMailbox nd') = stopped_ (cloudPublishMailbox nd).
Proof.
  unfold run_node, in_node, call_back. cbn [node_step]. unfold lidarCallback.
  assert (forall m, callback_cloud m_sPointcloudLayout dt big_endian toROSMsg (Some (em_cloud e))
      (em_timestamp e) clock nd = Ret m ->
    publishing m = publishing nd /\
  stopped_ (cloudPublishMailbox m) = stopped_ (cloudPublishMailbox nd)) as Hcloud.
  { intros m. unfold callback_cloud. case_bool_decide; [by intros [= <-]|].
    destruct (guard_observe _ _) as [dec g]. destruct (timestamp_accepted dec); cbn [negb]; [|by intros [= <-]].
    unfold enqueue_cloud. destruct (Node.convert_cloud _ _ _ _ _ _) as [out| |]; try discriminate.
    cbn [mbind outcome_bind]. unfold push. cbn [set_cloud_guard cloudPublishMailbox].
    destruct (stopped_ (cloudPublishMailbox nd)) eqn:Hst; intros [= <-]; cbn; by rewrite ?Hst. }
  fold (wants_points m_sPublishType). fold (wants_raw m_sPublishType). rewrite Hpub.
  destruct (callback_cloud _ _ _ _ _ _ _) as [m| |]; try discriminate.
  cbn [mbind outcome_bind]. destruct (Hcloud m eq_refl) as [<- <-].
  unfold publish_raw. destruct (wants_raw _), (raw_throws clock); try discriminate; by intros [= <-].
Qed.

(** Nor do the publishing thread's steps touch the stop; a cloud moves on. *)
Lemma publisher_frame a nd nd' :
  match a with Pop | Publish _ _ _ => True | _ => False end ->
  run_node m_sPublishType m_sPointcloudLayout dt big_endian toROSMsg a nd = Ret nd' ->
  stopped_ (cloudPublishMailbox nd') = stopped_ (cloudPublishMailbox nd) /\
  match a with
  | Pop => idle_publisher nd = true -> has_pending nd = true ->
      idle_publisher nd' = false /\ has_pending nd' = false
  | _ => idle_publisher nd' = true /\ has_pending nd' = has_pending nd
  end.
Proof.
  unfold run_node, in_node, idle_publisher, has_pending.
  destruct a; try done; intros _; cbn [node_step].
  - unfold pop_cloud, wait_pop_test. intros [= <-].
    destruct nd as [g [pending stopped] k flying cl rs]; cbn [publishing cloudPublishMailbox].
    by destruct flying, pending, stopped.
  - unfold publish_cloud. intros [= <-]. by destruct (publishing nd) eqn:Hpb; rewrite ?Hpb.
Qed.

Definition good_close (e : close_event) : Prop :=
  match e with CPipe a => good_pipe sr t s char_signed mktime a | _ => True end.

Definition turns_closed (events : list close_event) : list turn :=
  turns_of (omap (fun e => match e with CPipe a => Some a | _ => None end) events).

Abbreviation pipe_step := (pipe_step lookupTransform sinf cosf s char_signed mktime m_sPublishType
  m_sPointcloudLayout dt big_endian toROSMsg).

(** A turn is taken before the destructor runs only. *)
Lemma turn_alive d0 off popped pending d1 cl u :
  close_ok d0 off popped pending d1 cl -> enabled (PTurn u) cl = true -> cl_pc cl = Alive.
Proof.
  intros [_ Hd _ _ _ _ _] He. destruct (cl_pc cl); [done|exfalso..];
    (destruct u; cbn [enabled] in He; rewrite Hd in He; cbn in He;
      rewrite ?andb_false_r in He; discriminate).
Qed.

Lemma turn_gate u pl :
  (forall fresh, u = ProcessOne fresh -> handed_all pl = true) ->
  match u with ProcessOne _ => handed_all pl | Receive _ => true end = true.
Proof. intros H. destruct u; [done|]. by eapply H. Qed.

Lemma close_turn_ok d0 off popped pending d1 cl u :
  close_ok d0 off popped pending d1 cl -> good_pipe sr t s char_signed mktime (PTurn u) -> ~ nearly_full sr s (process d1) ->
  enabled (PTurn u) cl = true ->
  exists pl' popped' pending', pipe_step (PTurn u) (cl_pipe cl) = Ret pl' /\
  close_ok d0 (off ++ offered [u]) popped' pending' (pl_driver pl') (with_pipe pl' cl).
Proof.
  intros Hok Hu Hroom He. pose proof (turn_alive _ _ _ _ _ _ _ Hok He) as Hpc.
  destruct Hok as [Hp Hd _ Hst _ Hend _]. rewrite Hpc in *. cbn [driver_at] in Hd. subst d1.
  rewrite with_driver_self in Hp.
  assert (forall fresh, u = ProcessOne fresh -> handed_all (cl_pipe cl) = true) as Hall.
  { intros fresh ->. cbn in He. by apply andb_true_iff in He as [_ ?]. }
  destruct (turn_ok lookupTransform sinf cosf sr t n c s char_signed mktime Hsr Hc
    m_sPublishType m_sPointcloudLayout dt big_endian toROSMsg _ _ _ _ _ u Hp Hu Hroom)
    as (d' & popped' & pending' & Hturn & Hp'); [done|].
  eexists _, popped', pending'. cbn [Pipeline.pipe_step].
  rewrite (turn_gate u (cl_pipe cl) Hall), Hturn.
  cbn [in_driver mbind outcome_bind]. split; [reflexivity|].
  split; cbn [with_pipe cl_pipe cl_pc cl_packets cl_publisher cl_calibration cl_clouds pl_driver pl_node]; rewrite ?Hpc;
    try done.
Qed.

Lemma close_hand_ok d0 off popped pending d1 cl clock :
  close_ok d0 off popped pending d1 cl -> ~ oversized s (process d1) -> raw_throws clock = false ->
  enabled (PHand clock) cl = true ->
  exists pl', pipe_step (PHand clock) (cl_pipe cl) = Ret pl' /\
  close_ok d0 off popped pending d1 (with_pipe pl' cl).
Proof.
  intros [Hp Hd Hpk Hst Hall Hend Hret] Hsize Hraw He. cbn [enabled] in He. apply negb_true_iff in He.
  assert (cl_pc cl = Alive \/ cl_pc cl = Deleting) as Hpc.
  { destruct (cl_pc cl); auto; try congruence; destruct Hpk as [Hpk _]; congruence. }
  assert (cl_publisher cl = true) as Hlive.
  { destruct (cl_publisher cl); [done|]. destruct (Hend eq_refl) as [_ Hx].
    by destruct Hpc as [Hpc|Hpc]; rewrite Hpc in Hx. }
  pose proof (with_driver_handed _ _ _ Hd) as Hh. rewrite He in Hh.
  pose proof Hp as [_ _ _ Hle _].
  apply bool_decide_eq_false in Hh.
  destruct (lookup_lt_is_Some_2 (emitted (process d1)) (pl_handed (cl_pipe cl))) as [e Hlook].
  { cbn in Hh, Hle. lia. }
  destruct (hand_step_ok lookupTransform sinf cosf sr t c s char_signed mktime m_sPublishType
    m_sPointcloudLayout dt big_endian toROSMsg Hpub _ _ _ _ _ e clock Hp Hsize Hraw Hlook) as (nd' & Hrun & Hp').
  change (pl_node (with_driver d1 (cl_pipe cl))) with (pl_node (cl_pipe cl)) in Hrun.
  destruct (call_back_frame _ _ _ _ Hrun) as [Hpub' Hst'].
  cbn [Pipeline.pipe_step]. rewrite Hd, driver_at_emitted, Hlook, Hrun. cbn [mbind outcome_bind].
  eexists. split; [reflexivity|].
  split; cbn [with_pipe cl_pipe cl_pc cl_packets cl_publisher cl_calibration cl_clouds pl_driver pl_node];
    try done; try congruence; by destruct Hpc as [->| ->].
Qed.

(** A step of the publishing thread. *)
Lemma close_publisher_ok d0 off popped pending d1 cl a :
  close_ok d0 off popped pending d1 cl -> enabled (PNode a) cl = true ->
  exists nd', pipe_step (PNode a) (cl_pipe cl) = Ret (with_node nd' (cl_pipe cl)) /\
    close_ok d0 off popped pending d1 (with_pipe (with_node nd' (cl_pipe cl)) cl).
Proof.
  intros [Hp Hd Hpk Hst Hall Hend Hret] He.
  assert (cl_publisher cl = true) as Hlive.
  { destruct (cl_publisher cl) eqn:Hc'; [done|]. destruct (Hend eq_refl) as [Hx _].
    destruct a; cbn [enabled] in He; try discriminate; [by rewrite Hc' in He|].
    unfold idle_publisher in He. by rewrite Hx in He. }
  assert (match a with Pop | Publish _ _ _ => True | _ => False end) as Ha by by destruct a.
  destruct Hp as [Hac Hti Htm Hh Hnd].
  destruct (other_ok _ _ _ _ _ _ a _ Hnd) as (nd' & Hrun & Hnd'); [by destruct a|].
  change (pl_node (with_driver d1 (cl_pipe cl))) with (pl_node (cl_pipe cl)) in Hrun.
  exists nd'. cbn [Pipeline.pipe_step].
  replace (Pipeline.is_callback a) with false by by destruct a.
  rewrite Hrun. cbn [mbind outcome_bind]. split; [reflexivity|].
  split; cbn [with_pipe with_node cl_pipe cl_pc cl_packets cl_publisher cl_calibration cl_clouds pl_driver pl_node];
    try done; try congruence.
  - destruct (publisher_frame a (pl_node (cl_pipe cl)) nd' Ha Hrun) as [-> _]. done.
  - intros Hstop. destruct (all_offered_step _ a _ (Hall Hstop) Ha) as (nd2 & Hrun2 & Hall2).
    rewrite Hrun in Hrun2. by injection Hrun2 as ->.
  - intros Hpc. destruct (Hret Hpc) as [Hx _]. congruence.
Qed.

Lemma publisher_ends_eq cl cl' :
  publisher_ends cl = Some cl' ->
  cl_publisher cl = true /\ publishing (pl_node (cl_pipe cl)) = None /\
  stopped_ (cloudPublishMailbox (pl_node (cl_pipe cl))) = true /\
  cl' = {| cl_pipe := cl_pipe cl; cl_publisher := false;
           cl_calibration := cl_calibration cl; cl_pc := cl_pc cl; cl_packets := cl_packets cl;
           cl_clouds := cl_clouds cl |}.
Proof.
  unfold publisher_ends, wait_pop_test, idle_publisher.
  destruct cl as [[d [g [pending stopped] k flying cls rs] h] alive cal pc packets cloudsd].
  cbn. by destruct flying, pending, stopped, alive; cbn; try discriminate; intros [= <-].
Qed.

Lemma close_ends_ok d0 off popped pending d1 cl cl' :
  close_ok d0 off popped pending d1 cl -> publisher_ends cl = Some cl' ->
  close_ok d0 off popped pending d1 cl'.
Proof.
  intros [Hp Hd Hpk Hst Hall Hend Hret] He.
  destruct (publisher_ends_eq _ _ He) as (Hlive & Hidle & Hstop & ->).
  split; cbn [cl_pipe cl_pc cl_packets cl_publisher cl_calibration cl_clouds]; try done.
  - intros _. split; [done|]. by rewrite <- Hst.
  - intros Hpc. destruct (Hret Hpc). congruence.
Qed.

(** What is left to the calibration thread and the sensor. *)
Definition calibration_left (calibration_ : calibration_state) : nat :=
  match calibration_ with Exchanging => 2 | Answered => 1 | Over => 0 end.

Lemma close_calibration_ok d0 off popped pending d1 cl cl' :
  close_ok d0 off popped pending d1 cl ->
  exchange_ends cl = Some cl' \/ calibration_ends cl = Some cl' ->
  close_ok d0 off popped pending d1 cl' /\
    S (calibration_left (cl_calibration cl')) = calibration_left (cl_calibration cl) /\
    cl_pipe cl' = cl_pipe cl /\ cl_publisher cl' = cl_publisher cl /\ cl_pc cl' = cl_pc cl.
Proof.
  unfold exchange_ends, calibration_ends. intros Hok.
  destruct (cl_calibration cl) eqn:Hcal; intros [H|H]; try discriminate; injection H as <-;
    (split; [by destruct Hok; split|done]).
Qed.

Lemma close_destructor_ok d0 off popped pending d1 cl cl' :
  close_ok d0 off popped pending d1 cl -> destructor_step cl = Some cl' ->
  close_ok d0 off popped pending d1 cl'.
Proof.
  intros [Hp Hd Hpk Hst Hall Hend Hret] He. unfold destructor_step in He.
  assert (stops (cl_pc cl) = false -> cl_publisher cl = true) as Hlive.
  { intros Hx. destruct (cl_publisher cl); [done|]. destruct (Hend eq_refl). congruence. }
  destruct (cl_pc cl) eqn:Hpc; cbn [stops driver_at] in *.
  - injection He as <-.
    split; cbn [cl_pipe cl_pc cl_packets cl_publisher cl_calibration cl_clouds with_driver pl_driver pl_node];
      try done; by rewrite Hd.
  - destruct (handed_all (cl_pipe cl)) eqn:Hh; [|done]. rewrite Hd in He. injection He as <-.
    split; cbn [cl_pipe cl_pc cl_packets cl_publisher cl_calibration cl_clouds with_driver pl_driver pl_node];
      try done.
    rewrite <- Hh. unfold handed_all. by rewrite Hd.
  - destruct (cl_calibration cl); [done..|]. rewrite Hd in He. injection He as <-.
    split; cbn [cl_pipe cl_pc cl_packets cl_publisher cl_calibration cl_clouds with_driver pl_driver pl_node];
      try done.
    split; [|done]. rewrite <- Hpk. unfold handed_all. by rewrite Hd.
  - injection He as <-.
    split; cbn [cl_pipe cl_pc cl_packets cl_publisher cl_calibration cl_clouds with_node pl_driver pl_node];
      try done.
    + destruct Hp as [Hac Hti Htm Hh Hnd].
      destruct (other_ok _ _ _ _ _ _ StopPublishing _ Hnd eq_refl) as (nd' & Hrun & Hnd').
      injection Hrun as <-. by split.
    + intros _. destruct Hp as [_ _ _ _ Hnd]. apply all_offered_stop; [|done].
      rewrite with_driver_sent with (pc := Deleted) in Hnd by done. exact Hnd.
    + intros Hx. by rewrite Hlive in Hx.
  - destruct (cl_publisher cl) eqn:Hl; [done|]. injection He as <-.
    by split; cbn [cl_pipe cl_pc cl_packets cl_publisher cl_calibration cl_clouds].
  - done.
Qed.

Lemma close_step_ok d0 off popped pending d1 cl e r :
  close_ok d0 off popped pending d1 cl -> good_close e -> ~ strained sr s (process d1) ->
  close_step e cl = Some r ->
  exists cl' popped' pending' d2, r = Ret cl' /\
    close_ok d0 (off ++ offered (turns_closed [e])) popped' pending' d2 cl'.
Proof.
  intros Hok He [Hroom Hsize]%Decidable.not_or. destruct e as [a| | | |]; cbn [Shutdown.close_step turns_closed omap list_omap];
    cbn [turns_of omap list_omap offered].
  - destruct (enabled a cl) eqn:Hen; [|done]. intros [= <-]. destruct a as [u|clock|a].
    + destruct (close_turn_ok _ _ _ _ _ _ u Hok He Hroom Hen) as (pl & pop' & pend' & -> & Hok').
      by eexists _, pop', pend', _.
    + destruct (close_hand_ok _ _ _ _ _ _ clock Hok Hsize He Hen) as (pl & -> & Hok').
      rewrite app_nil_r. by eexists _, popped, pending, d1.
    + destruct (close_publisher_ok _ _ _ _ _ _ a Hok Hen) as (nd' & -> & Hok').
      rewrite app_nil_r. by eexists _, popped, pending, d1.
  - destruct (publisher_ends cl) as [cl'|] eqn:Hend; [|done]. intros [= <-]. rewrite app_nil_r.
    exists cl', popped, pending, d1. split; [done|]. by eapply close_ends_ok.
  - destruct (exchange_ends cl) as [cl'|] eqn:Hend; [|done]. intros [= <-]. rewrite app_nil_r.
    exists cl', popped, pending, d1. split; [done|]. eapply close_calibration_ok; eauto.
  - destruct (calibration_ends cl) as [cl'|] eqn:Hend; [|done]. intros [= <-]. rewrite app_nil_r.
    exists cl', popped, pending, d1. split; [done|]. eapply close_calibration_ok; eauto.
  - destruct (destructor_step cl) as [cl'|] eqn:Hend; [|done]. intros [= <-]. rewrite app_nil_r.
    exists cl', popped, pending, d1. split; [done|]. by eapply close_destructor_ok.
Qed.

Lemma turns_closed_cons e events :
  offered (turns_closed [e]) ++ offered (turns_closed events) = offered (turns_closed (e :: events)).
Proof.
  rewrite <- offered_app. f_equal. unfold turns_closed, turns_of.
  rewrite <- omap_app, <- omap_app. done.
Qed.

Lemma close_run_ok events d0 off popped pending d1 cl r :
  close_ok d0 off popped pending d1 cl -> Forall good_close events ->
  close_run events cl = Some r ->
  (exists pre e post cl1, events = pre ++ e :: post /\ close_run pre cl = Some (Ret cl1) /\
     strained sr s (process (pl_driver (cl_pipe cl1)))) \/
  (exists cl' popped' pending' d2, r = Ret cl' /\
     close_ok d0 (off ++ offered (turns_closed events)) popped' pending' d2 cl').
Proof.
  intros Hok Hgood. revert off popped pending d1 cl Hok.
  induction Hgood as [|e events He _ IH]; intros off popped pending d1 cl Hok Hrun.
  { injection Hrun as <-. right. exists cl, popped, pending, d1. by rewrite app_nil_r. }
  destruct (decide (strained sr s (process d1))) as [Ho|Hno].
  { left. exists [], e, events, cl. split_and!; try done.
    by rewrite (co_driver _ _ _ _ _ _ Hok), driver_at_strained. }
  cbn [Shutdown.close_run] in Hrun. destruct (close_step e cl) as [r1|] eqn:Hstep; [|done].
  destruct (close_step_ok _ _ _ _ _ _ _ _ Hok He Hno Hstep) as (cl1 & pop1 & pend1 & d2 & -> & Hok1).
  destruct (IH _ _ _ _ _ Hok1 Hrun) as [(pre & v & post & cl2 & -> & Hrun2 & Ho)|
    (cl2 & pop2 & pend2 & d3 & -> & Hok2)].
  - left. exists (e :: pre), v, post, cl2. cbn [Shutdown.close_run]. by rewrite Hstep.
  - right. exists cl2, pop2, pend2, d3. split; [done|].
    by rewrite <- app_assoc, turns_closed_cons in Hok2.
Qed.

(** ** Termination *)

(** Clouds the processing thread has still to hand over. *)
Definition unhanded (pl : Pipeline Q) : nat :=
  (length (emitted (process (pl_driver pl))) - pl_handed pl)%nat.

(** A cloud to hand over may be pushed, popped and published. *)
Definition steps_left cl : nat :=
  let nd := pl_node (cl_pipe cl) in
  (3 * unhanded (cl_pipe cl) + (if has_pending nd then 2 else 0) +
   (if idle_publisher nd then 0 else 1) + (if cl_publisher cl then 1 else 0) +
   calibration_left (cl_calibration cl) +
   match cl_pc cl with
   | Alive => 5 | Deleting => 4 | Stopped => 3 | Deleted => 2 | Joining => 1 | Returned => 0
   end)%nat.

Lemma steps_left_bound cl : cl_pc cl <> Alive -> (steps_left cl <= 3 * unhanded (cl_pipe cl) + 10)%nat.
Proof.
  intros Hpc. unfold steps_left.
  destruct (has_pending _), (idle_publisher _), (cl_publisher cl), (cl_calibration cl), (cl_pc cl);
    done || (cbn [calibration_left]; lia).
Qed.

Lemma hand_left d0 off popped pending d1 cl clock pl :
  close_ok d0 off popped pending d1 cl -> enabled (PHand clock) cl = true ->
  pipe_step (PHand clock) (cl_pipe cl) = Ret pl ->
  (steps_left (with_pipe pl cl) < steps_left cl)%nat.
Proof.
  intros [Hp Hd _ _ _ _ _] He Hstep. cbn [enabled] in He.
  apply negb_true_iff, bool_decide_eq_false in He.
  destruct Hp as [_ _ _ Hle _]. cbn [with_driver pl_driver pl_handed] in Hle.
  rewrite <- (driver_at_emitted (cl_pc cl)), <- Hd in Hle. cbn [Pipeline.pipe_step] in Hstep.
  destruct (lookup_lt_is_Some_2 (emitted (process (pl_driver (cl_pipe cl)))) (pl_handed (cl_pipe cl)))
    as [e Hlook]; [lia|].
  rewrite Hlook in Hstep. apply bind_Ret_inv in Hstep as (nd' & Hrun & Hstep). injection Hstep as <-.
  destruct (call_back_frame _ _ _ _ Hrun) as [Hpb _].
  unfold steps_left, unhanded, idle_publisher.
  cbn [with_pipe cl_pipe pl_driver pl_node pl_handed cl_publisher cl_calibration cl_pc]. rewrite Hpb.
  destruct (has_pending nd'), (has_pending (pl_node (cl_pipe cl))); lia.
Qed.

Lemma publisher_left cl a nd' :
  enabled (PNode a) cl = true ->
  pipe_step (PNode a) (cl_pipe cl) = Ret (with_node nd' (cl_pipe cl)) ->
  (steps_left (with_pipe (with_node nd' (cl_pipe cl)) cl) < steps_left cl)%nat.
Proof.
  intros He Hstep. cbn [Pipeline.pipe_step] in Hstep.
  assert (match a with Pop | Publish _ _ _ => True | _ => False end) as Ha by by destruct a.
  replace (Pipeline.is_callback a) with false in Hstep by by destruct a.
  apply bind_Ret_inv in Hstep as (nd2 & Hrun & Hstep). injection Hstep as ->.
  destruct (publisher_frame _ _ _ Ha Hrun) as [_ Hfr]. unfold steps_left, unhanded.
  cbn [with_pipe with_node cl_pipe pl_driver pl_node pl_handed cl_publisher cl_calibration cl_pc].
  destruct a as [| |throws started finished|]; cbn [enabled] in He; try done.
  - apply andb_true_iff in He as [[_ Hi]%andb_true_iff Hb]. destruct (Hfr Hi Hb) as [-> ->].
    rewrite Hi, Hb. lia.
  - apply negb_true_iff in He. destruct Hfr as [-> ->]. rewrite He. lia.
Qed.

Lemma destructor_left cl cl' :
  destructor_step cl = Some cl' -> (steps_left cl' < steps_left cl)%nat /\ cl_pc cl' <> Alive.
Proof.
  unfold destructor_step. destruct cl as [[d nd h] alive cal pc packets cloudsd].
  cbn [cl_pc cl_pipe cl_publisher cl_calibration pl_driver pl_node]. unfold steps_left, unhanded.
  destruct pc; [intros [= <-]|destruct (handed_all _); [intros [= <-]|done]|
    destruct cal; [done..|intros [= <-]]|intros [= <-]|destruct alive; [done|intros [= <-]]|done];
    (split; [|done]);
    cbn [cl_pc cl_pipe cl_publisher cl_calibration pl_driver pl_node pl_handed with_driver with_node].
  - change (emitted (process (store_flags false false d))) with (emitted (process d)). lia.
  - change (emitted (process (pg_Stop d))) with (emitted (process d)). lia.
  - change (emitted (process (Stop d))) with (emitted (process d)). lia.
  - change (idle_publisher (stop_publishing nd)) with (idle_publisher nd).
    change (has_pending (stop_publishing nd)) with false. destruct (has_pending nd); lia.
  - lia.
Qed.

Lemma calibration_late d0 off popped pending d1 cl cl' :
  close_ok d0 off popped pending d1 cl -> cl_pc cl <> Alive ->
  exchange_ends cl = Some cl' \/ calibration_ends cl = Some cl' ->
  exists cl1, @Ret launch_error _ cl' = Ret cl1 /\ close_ok d0 off popped pending d1 cl1 /\
    cl_pc cl1 <> Alive /\ (steps_left cl1 < steps_left cl)%nat.
Proof.
  intros Hok Hpc Hend. destruct (close_calibration_ok _ _ _ _ _ _ _ Hok Hend) as (Hok' & H1 & H2 & H3 & H4).
  exists cl'. split; [done|]. split; [done|]. unfold steps_left. rewrite H2, H3, H4. split; [done|lia].
Qed.

Lemma close_step_late d0 off popped pending d1 cl e r :
  close_ok d0 off popped pending d1 cl -> ~ oversized s (process d1) -> good_close e ->
  cl_pc cl <> Alive -> close_step e cl = Some r ->
  exists cl', r = Ret cl' /\ close_ok d0 off popped pending d1 cl' /\ cl_pc cl' <> Alive /\
    (steps_left cl' < steps_left cl)%nat.
Proof.
  intros Hok Hsize He Hpc. destruct e as [a| | | |]; cbn [Shutdown.close_step].
  - destruct (enabled a cl) eqn:Hen; [|done]. intros [= <-]. destruct a as [u|clock|a].
    + destruct Hpc. by eapply turn_alive.
    + destruct (close_hand_ok _ _ _ _ _ _ clock Hok Hsize He Hen) as (pl & Hstep & Hok').
      rewrite Hstep. eexists. split; [reflexivity|]. split_and!; try done. by eapply hand_left.
    + destruct (close_publisher_ok _ _ _ _ _ _ a Hok Hen) as (nd' & Hstep & Hok').
      rewrite Hstep. eexists. split; [reflexivity|]. split_and!; try done. by eapply publisher_left.
  - destruct (publisher_ends cl) as [cl'|] eqn:Hend; [|done]. intros [= <-]. exists cl'.
    split; [done|]. split; [by eapply close_ends_ok|].
    destruct (publisher_ends_eq _ _ Hend) as (Hl & _ & _ & ->). split; [done|].
    unfold steps_left. cbn [cl_pipe cl_publisher cl_calibration cl_pc]. rewrite Hl. lia.
  - destruct (exchange_ends cl) as [cl'|] eqn:Hend; [|done]. intros [= <-].
    by eapply calibration_late; [| |left].
  - destruct (calibration_ends cl) as [cl'|] eqn:Hend; [|done]. intros [= <-].
    by eapply calibration_late; [| |right].
  - destruct (destructor_step cl) as [cl'|] eqn:Hend; [|done]. intros [= <-]. exists cl'.
    split; [done|]. split; [by eapply close_destructor_ok|]. by apply and_comm, destructor_left.
Qed.

Lemma close_run_late events d0 off popped pending d1 cl r :
  close_ok d0 off popped pending d1 cl -> ~ oversized s (process d1) -> Forall good_close events ->
  cl_pc cl <> Alive -> close_run events cl = Some r ->
  exists cl', r = Ret cl' /\ close_ok d0 off popped pending d1 cl' /\
    (length events + steps_left cl' <= steps_left cl)%nat.
Proof.
  intros Hok Hsize Hgood. revert cl Hok.
  induction Hgood as [|e events He _ IH]; intros cl Hok Hpc Hrun.
  { injection Hrun as <-. by exists cl. }
  cbn [Shutdown.close_run] in Hrun. destruct (close_step e cl) as [r1|] eqn:Hstep; [|done].
  destruct (close_step_late _ _ _ _ _ _ _ _ Hok Hsize He Hpc Hstep) as (cl1 & -> & Hok1 & Hpc1 & Hlt).
  destruct (IH _ Hok1 Hpc1 Hrun) as (cl2 & -> & Hok2 & Hle). exists cl2.
  split_and!; try done. cbn [length]. lia.
Qed.

(** Until the destructor has returned some step is enabled that is not the
    sensor's, or it waits for the exchange to end. *)
Lemma close_progress d0 off popped pending d1 cl :
  close_ok d0 off popped pending d1 cl -> ~ oversized s (process d1) -> cl_pc cl <> Returned ->
  (exists e cl', e <> CExchangeEnds /\ close_step e cl = Some (Ret cl')) \/
  (cl_pc cl = Stopped /\ cl_calibration cl = Exchanging).
Proof.
  intros Hok Hsize Hpc. destruct (destructor_step cl) as [cl'|] eqn:Hstep.
  { left. exists CDestructor, cl'. cbn. by rewrite Hstep. }
  unfold destructor_step in Hstep. destruct (cl_pc cl) eqn:Hp; try done.
  - destruct (handed_all (cl_pipe cl)) eqn:Hh; [done|].
    set (clock := {| t0 := 0; t1 := 0; t2 := 0; t3 := 0; raw_throws := false |}).
    assert (enabled (PHand clock) cl = true) as Hen by (cbn; by rewrite Hh).
    destruct (close_hand_ok _ _ _ _ _ _ clock Hok Hsize eq_refl Hen) as (pl & Hrun & _).
    left. exists (CPipe (PHand clock)). cbn [Shutdown.close_step]. rewrite Hen, Hrun. by eexists.
  - destruct (cl_calibration cl) eqn:Hcal; [by right| |done]. left. exists CCalibrationEnds.
    cbn [Shutdown.close_step]. unfold calibration_ends. rewrite Hcal. by eexists.
  - left. destruct (cl_publisher cl) eqn:Hl; [|done].
    assert (forall a, enabled (PNode a) cl = true -> exists e cl', e <> CExchangeEnds /\ close_step e cl = Some (Ret cl'))
      as Hnode.
    { intros a Hen. destruct (close_publisher_ok _ _ _ _ _ _ a Hok Hen) as (nd' & Hrun & _).
      exists (CPipe (PNode a)). cbn [Shutdown.close_step]. rewrite Hen, Hrun. by eexists. }
    destruct (idle_publisher (pl_node (cl_pipe cl))) eqn:Hi.
    2: { apply (Hnode (Publish false 0 0)). cbn. by rewrite Hi. }
    destruct (has_pending (pl_node (cl_pipe cl))) eqn:Hb.
    { apply (Hnode Pop). cbn. by rewrite Hl, Hi, Hb. }
    exists CPublisherEnds. cbn [Shutdown.close_step]. unfold publisher_ends, wait_pop_test.
    rewrite (co_stopped _ _ _ _ _ _ Hok), Hp. unfold has_pending in Hb.
    destruct (pending_ _); [done|]. rewrite Hl, Hi. by eexists.
Qed.
End invariant.

(** ** A fresh start *)

Lemma counted_up (l : list PandarPacket) :
  foldl (fun k _ => u64 (k + 1)) 0 l = u64 (zlen l).
Proof.
  induction l as [|x l IH] using rev_ind; [done|].
  rewrite foldl_snoc, IH, NodeFacts.u64_succ. f_equal. rewrite length_app. cbn. lia.
Qed.

Section fresh.
Context {Q : Type} {depth : Z} `{F : !BoundedFifo thread_error PandarPacket Q depth}.

(** A driver that has just been started, for [close_report] and [close_returns]. *)
Record fresh (s : Settings) (c : Calibration) (d : Driver Q) : Prop := {
  fs_queue : fifo_repr (m_PacketsBuffer d) [];
  fs_receiver : receiver d = Build_Receiver 0 0 0;
  fs_processed : m_processedPackets (counters (process d)) = 0;
  fs_framing : stream_inv s (process d);
  fs_calibration : calibration d = c;
  fs_guard : m_packetTimestampGuard (process d) = guard_new kTimestampRegressionToleranceSec;
  (* No points have been made. *)
  fs_points : leading_points s (process d) = [];
  fs_running : processing d = true /\ enable_lidar_process_thr_ d = true;
}.

Lemma close_new_ok (lookupTransform : nat -> string -> string -> stamp -> lookup_result)
    (sinf cosf : float -> float) (sr : sensor) (t : string) (c : Calibration) (s : Settings)
    (char_signed : bool) (mktime : tm -> Z) (m_sPublishType m_sPointcloudLayout : string)
    (dt : datatypes) (big_endian : bool) (toROSMsg : PPointCloud -> PointCloud2) d :
  fresh s c d ->
  close_ok lookupTransform sinf cosf sr t c s char_signed mktime m_sPublishType m_sPointcloudLayout dt
    big_endian toROSMsg d [] [] [] d (close_new d).
Proof.
  intros [Hq Hrx Hcnt Hfr Hcal Hguard Hnew Hrun]. split; try done.
  assert (point_times s (process d) = []) as Hnone by (unfold point_times; by rewrite Hnew).
  split; cbn [close_new cl_pipe pipe_new with_driver pl_driver pl_node pl_handed].
  - pose proof (fifo_depth_bound _ _ Hq). by split; rewrite ?Hrx.
  - constructor.
  - split; rewrite Hnone; [|constructor]. intros _. apply passed_nil. rewrite Hguard. by split.
  - lia.
  - exists ledger_new, 0, 0, 0. split; [apply accounts_new|]. split; try done.
    exists 0%nat. split; [cbn; lia|]. split; [by apply Forall2_nil|done].
Qed.
End fresh.

(** C2: what the node reports when it ends. The driver of a sensor of [supported]
    (plain or structured clouds, no tf frames) that was just started, with the node that
    publishes its clouds and the node's destructor, under any interleaving of their
    threads, on packets as in [good_pipe], if publishing raw scans never throws
    and the calibration thread has nothing to load:
    nothing faults, and when the destructor has returned, every cloud the driver
    made was handed over and, in order, offered for publication unless its time
    goes back, which no cloud's does with reception times as time stamps; its log
    says so, and splits the offered ones (modulo 2^64) into published, failed and
    overwritten ones but for at most one, discarded by the stop; subscribers got the
    published ones in order; and the driver's log splits the packets offered to its
    queue into dropped, processed and at most [depth] left ones. The exceptions are
    those of [strained]: a frame of plain clouds within one packet's points of the end of
    [m_vPointCloud], and a structured cloud too large for a [PointCloud2]. *)
Theorem close_report {Q : Type} {depth : Z} `{F : !BoundedFifo thread_error PandarPacket Q depth}
    (lookupTransform : nat -> string -> string -> stamp -> lookup_result)
    (sinf cosf : float -> float) (sr : sensor) (t : string) (n : nat) (c : Calibration)
    (s : Settings) (char_signed : bool) (mktime : tm -> Z)
    (m_sPublishType m_sPointcloudLayout : string) (dt : datatypes) (big_endian : bool)
    (toROSMsg : PPointCloud -> PointCloud2)
    (events : list close_event) (d : Driver Q) (r : outcome launch_error (Closing Q))
    (Hsr : supported sr t n s) (Hc : usable t n c)
    (Hpub : wants_points m_sPublishType = true) (Hd : fresh s c d)
    (Hevents : Forall (good_close sr t s char_signed mktime) events) :
  let run := close_run (F := F) lookupTransform sinf cosf s char_signed mktime m_sPublishType
    m_sPointcloudLayout dt big_endian toROSMsg in
  run events (close_new d) = Some r ->
  (exists pre e post cl, events = pre ++ e :: post /\ run pre (close_new d) = Some (Ret cl) /\
     strained sr s (process (pl_driver (cl_pipe cl)))) \/
  (exists cl, r = Ret cl /\ (cl_pc cl = Returned ->
     exists rp rc messages overwritten failed discarded processed waiting p,
     let made := emitted (process (pl_driver (cl_pipe cl))) in
     let passed := let_through made in
     let published := clouds (pl_node (cl_pipe cl)) in
     let packets := offered (turns_closed events) in
     cl_packets cl = Some rp /\ cl_clouds cl = Some rc /\
     Forall2 (converts m_sPointcloudLayout dt big_endian toROSMsg) passed messages /\
     zlen messages = zlen published + failed + overwritten + discarded /\
     0 <= overwritten /\ 0 <= failed /\ 0 <= discarded <= 1 /\ sublist published messages /\
     empty_cloud_drops rc = 0 /\ (realtime s = true -> passed = made) /\
     cloud_timestamp_regressions rc = u64 (zlen made - zlen passed) /\
     clouds_enqueued rc = u64 (zlen passed) /\ clouds_published rc = u64 (zlen published) /\
     cloud_publish_failures rc = u64 failed /\ cloud_queue_overwrites rc = u64 overwritten /\
     (wants_raw m_sPublishType = true -> raw_scans (pl_node (cl_pipe cl)) = em_scan <$> made /\
        raw_scans_published rc = u64 (zlen made)) /\
     sublist (processed ++ waiting) packets /\ zlen waiting <= depth /\
     process_packets lookupTransform sinf cosf c s true char_signed mktime processed (process d) =
       Ret (true, p) /\ emitted p = made /\
     processed_packets rp = u64 (zlen processed) /\
     enqueued_packets rp = u64 (zlen processed + zlen waiting) /\
     queue_overload_drops rp = u64 (zlen packets - (zlen processed + zlen waiting)) /\
     max_queue_depth rp <= depth)).
Proof.
  intros run Hrun.
  destruct (close_run_ok lookupTransform sinf cosf sr t n c s char_signed mktime Hsr Hc
    m_sPublishType m_sPointcloudLayout dt big_endian toROSMsg Hpub events d [] [] [] d _ r
    (close_new_ok _ _ _ _ _ _ _ _ _ _ _ _ _ _ _ Hd) Hevents Hrun)
    as [H|(cl & processed & waiting & d1 & -> & [Hp Hat Hpk Hst Hall Hend Hret])];
    [by left|right].
  exists cl. split; [done|]. intros Hpc. rewrite Hpc in *. cbn [stops driver_at] in *.
  destruct Hpk as [Hh Hpk], (Hret eq_refl) as [Hended Hclouds], (Hend Hended) as [Hidle _].
  destruct (Hall eq_refl) as (L & o & f & k & Hac & Hled & Hoff).
  assert (sent_of (cl_pipe cl) = emitted (process d1)) as Hsent.
  { apply bool_decide_eq_true in Hh. unfold sent_of. by rewrite Hh, firstn_all, Hat. }
  rewrite Hsent in *. assert (zlen (led_offered L) = zlen (let_through (emitted (process d1)))) as Hlen.
  { f_equal. symmetry. by eapply Forall2_length. }
  pose proof (ac_empty_slot _ _ _ _ _ Hac) as Hslot. destruct Hac. destruct Hled as [Hre Hee _ _ Hsc].
  rewrite Hst in ac_stopped. rewrite (Hslot (eq_sym ac_stopped)), Hidle in *.
  cbn [option_list length app] in *. change (zlen (option_list None)) with 0 in ac_total.
  rewrite app_nil_r in *.
  destruct Hp as [Hdr _ Htimes _ _]. cbn [with_driver pl_driver] in Hdr, Htimes.
  pose proof (driver_emissions _ _ _ _ _ _ _ _ _ _ _ _ _ _ Hdr) as Hem.
  exists (pg_delete (pg_Stop (store_flags false false d1))).1,
    (cloud_diagnostics (node_counters (pl_node (cl_pipe cl)))), (led_offered L), o, f, k,
    processed, waiting, (process d1).
  rewrite Hat. change (emitted (process (pg_delete (pg_Stop (store_flags false false d1))).2)) with
    (emitted (process d1)). cbn zeta. split_and!; try done; try lia.
  - cbn. by rewrite ac_empty, Hee.
  - intros Hrt. pose proof (received_pass s (process d1) (length (emitted (process d1))) Hrt Htimes Hem) as Hall2.
    by rewrite firstn_all in Hall2.
  - cbn. by rewrite ac_refused, Hre.
  - cbn. by rewrite ac_enqueued, Hlen.
  - intros Hw. rewrite ac_raw. split; [auto|]. cbn. rewrite ac_raw_count, ac_raw, Hsc by done.
    by rewrite length_fmap.
  - by destruct Hdr.
  - destruct Hdr. by eapply fifo_depth_bound.
  - by destruct Hdr.
  - cbn. rewrite (ac_processed _ _ _ _ _ _ _ _ _ _ _ _ _ _ _ Hdr), (fs_processed _ _ _ Hd). apply counted_up.
  - destruct Hdr. cbn. rewrite ac_enqueued0. f_equal. rewrite length_app. lia.
  - destruct Hdr. cbn. rewrite ac_drops. f_equal. rewrite length_app. lia.
  - by destruct Hdr.
Qed.

(** C14: the destructor returns, provided the sensor ends the exchange of the
    calibration thread. In the setting of [close_report] (the calibration thread
    loads nothing), once the destructor has begun, and but for the frames near
    the end of their storage and for a structured cloud too large: whatever the
    threads then do takes at most three steps for each cloud not yet handed over
    and ten more, nothing faults, and as long as the destructor has not returned
    some thread can take a step without the sensor, unless it joins a calibration
    thread whose exchange, a read without a time-out, has not ended. So every
    order of the threads' steps in which the exchange ends and that does not stop
    early ends with both reports; a silent sensor keeps the destructor. *)
Theorem close_returns {Q : Type} {depth : Z} `{F : !BoundedFifo thread_error PandarPacket Q depth}
    (lookupTransform : nat -> string -> string -> stamp -> lookup_result)
    (sinf cosf : float -> float) (sr : sensor) (t : string) (n : nat) (c : Calibration)
    (s : Settings) (char_signed : bool) (mktime : tm -> Z)
    (m_sPublishType m_sPointcloudLayout : string) (dt : datatypes) (big_endian : bool)
    (toROSMsg : PPointCloud -> PointCloud2)
    (before : list close_event) (d : Driver Q) (cl : Closing Q)
    (Hsr : supported sr t n s) (Hc : usable t n c)
    (Hpub : wants_points m_sPublishType = true) (Hd : fresh s c d)
    (Hbefore : Forall (good_close sr t s char_signed mktime) before) :
  let run := close_run (F := F) lookupTransform sinf cosf s char_signed mktime m_sPublishType
    m_sPointcloudLayout dt big_endian toROSMsg in
  run before (close_new d) = Some (Ret cl) -> cl_pc cl <> Alive ->
  (exists pre e post cl1, before = pre ++ e :: post /\ run pre (close_new d) = Some (Ret cl1) /\
     strained sr s (process (pl_driver (cl_pipe cl1)))) \/
  oversized s (process (pl_driver (cl_pipe cl))) \/
  (forall events r, Forall (good_close sr t s char_signed mktime) events -> run events cl = Some r ->
     exists cl', r = Ret cl' /\ (length events <= 3 * unhanded (cl_pipe cl) + 10)%nat /\
       (cl_pc cl' = Returned /\ is_Some (cl_packets cl') /\ is_Some (cl_clouds cl') \/
        cl_pc cl' <> Returned /\ (exists e cl'', e <> CExchangeEnds /\ run [e] cl' = Some (Ret cl'')) \/
        cl_pc cl' = Stopped /\ cl_calibration cl' = Exchanging)).
Proof.
  intros run Hrun Hpc.
  destruct (close_run_ok lookupTransform sinf cosf sr t n c s char_signed mktime Hsr Hc
    m_sPublishType m_sPointcloudLayout dt big_endian toROSMsg Hpub before d [] [] [] d _ _
    (close_new_ok _ _ _ _ _ _ _ _ _ _ _ _ _ _ _ Hd) Hbefore Hrun)
    as [H|(cl1 & processed & waiting & d1 & [= <-] & Hok)]; [by left|right].
  rewrite (co_driver _ _ _ _ _ _ _ _ _ _ _ _ _ _ _ _ _ _ _ _ Hok), driver_at_oversized.
  destruct (decide (oversized s (process d1))) as [Hsize|Hsize]; [by left|right].
  intros events r Hgood Hr.
  destruct (close_run_late lookupTransform sinf cosf sr t c s char_signed mktime m_sPublishType
    m_sPointcloudLayout dt big_endian toROSMsg Hpub _ _ _ _ _ _ _ _ Hok Hsize Hgood Hpc Hr)
    as (cl' & -> & Hok' & Hle).
  exists cl'. split; [done|]. split; [pose proof (steps_left_bound cl Hpc); lia|].
  destruct (decide (cl_pc cl' = Returned)) as [Hret|Hnot].
  - left. split; [done|]. destruct Hok' as [_ _ Hpk _ _ _ Hcl]. rewrite Hret in Hpk.
    destruct Hpk as [_ ->], (Hcl Hret) as [_ ->]. by split.
  - destruct (close_progress lookupTransform sinf cosf sr t c s char_signed mktime m_sPublishType
      m_sPointcloudLayout dt big_endian toROSMsg Hpub _ _ _ _ _ _ Hok' Hsize Hnot)
      as [(e & cl2 & Hne & He)|Hwait]; right; [left|by right].
    split; [done|]. exists e, cl2. split; [done|]. unfold run. cbn [close_run]. by rewrite He.
Qed.

(** ** An example: the node ends after its first cloud *)

Definition example_begin : list close_event :=
  (CPipe <$> (PTurn <$> example_turns)) ++ [CDestructor].
Definition example_end : list close_event :=
  [CPipe (PHand {| t0 := 0; t1 := 1000; t2 := 2000; t3 := 3500; raw_throws := false |}); CPipe (PNode Pop); CDestructor;
   CExchangeEnds; CCalibrationEnds; CDestructor; CDestructor; CPipe (PNode (Publish false 10 20)); CPublisherEnds; CDestructor].

Abbreviation close_example received structured events :=
  (close_run (F := packets_buffer_fifo) (fun _ _ _ _ => LookupFailed) id id (example_settings received structured) true
     mktime_utc "both" "compact" ros_datatypes false (fun _ => blank_message) events
     (close_new fresh_driver)).

Abbreviation close_rest received structured events cl :=
  (close_run (F := packets_buffer_fifo) (fun _ _ _ _ => LookupFailed) id id (example_settings received structured) true
     mktime_utc "both" "compact" ros_datatypes false (fun _ => blank_message) events cl).

(** Every event is enabled, no exception is met, and the destructor has returned
    in the end with one cloud published. *)
Fixpoint close_roomy (received structured : bool) (events : list close_event)
    (cl : Closing (BoundedSpscQueue PandarPacket)) : bool :=
  easy structured (process (pl_driver (cl_pipe cl))) &&
  match events with
  | [] => bool_decide (cl_pc cl = Returned) && (zlen (clouds (pl_node (cl_pipe cl))) =? 1)
  | e :: events =>
      match close_step (F := packets_buffer_fifo) (fun _ _ _ _ => LookupFailed) id id
              (example_settings received structured) true mktime_utc "both" "compact" ros_datatypes false
              (fun _ => blank_message) e cl with
      | Some (Ret cl) => close_roomy received structured events cl
      | _ => false
      end
  end.

Lemma close_roomy_prefix received structured pre post cl cl' :
  close_roomy received structured (pre ++ post) cl = true -> close_rest received structured pre cl = Some (Ret cl') ->
  ~ strained XT (example_settings received structured) (process (pl_driver (cl_pipe cl'))).
Proof.
  revert cl. induction pre as [|e pre IH]; intros cl Hroom; cbn [close_run].
  - intros [= <-]. apply easy_room. destruct post; by apply andb_true_iff in Hroom as [? _].
  - cbn [app close_roomy] in Hroom. apply andb_true_iff in Hroom as [_ Hroom].
    destruct (close_step _ _ _ _ _ _ _ _ _ _ _ e cl) as [[cl1| |]|]; try discriminate. by apply IH.
Qed.

Lemma close_example_room received structured :
  close_roomy received structured (example_begin ++ example_end) (close_new fresh_driver) = true.
Proof. destruct received, structured; vm_compute; reflexivity. Qed.

Lemma close_roomy_run received structured pre post cl :
  close_roomy received structured (pre ++ post) cl = true ->
  exists cl', close_rest received structured pre cl = Some (Ret cl') /\
    close_roomy received structured post cl' = true.
Proof.
  revert cl. induction pre as [|e pre IH]; intros cl Hroom; [by exists cl|].
  cbn [app close_roomy close_run] in *. apply andb_true_iff in Hroom as [_ Hroom].
  destruct (close_step _ _ _ _ _ _ _ _ _ _ _ e cl) as [[cl1| |]|]; try discriminate. by apply IH.
Qed.

Lemma close_roomy_end received structured cl :
  close_roomy received structured [] cl = true ->
  cl_pc cl = Returned /\ zlen (clouds (pl_node (cl_pipe cl))) = 1.
Proof.
  intros [_ [H1 H2]%andb_true_iff]%andb_true_iff.
  split; [by apply bool_decide_eq_true in H1|by apply Z.eqb_eq].
Qed.

Lemma close_example_fresh received structured :
  fresh (F := packets_buffer_fifo) (example_settings received structured) (Init id id "PandarXTM") fresh_driver.
Proof. split; [by apply ring_new|done|done|apply example_inv|done|done|by destruct received, structured|done]. Qed.

Lemma close_example_good received structured :
  Forall (good_close XT "PandarXTM" (example_settings received structured) true mktime_utc) (example_begin ++ example_end).
Proof.
  unfold example_begin. rewrite <- app_assoc. apply Forall_app_2; [|repeat constructor].
  rewrite Forall_fmap, Forall_fmap, Forall_forall. exact (example_turn_good received structured).
Qed.

(** The example in two parts; in between the destructor has begun. *)
Lemma close_example_parts received structured :
  exists cl cl', close_example received structured example_begin = Some (Ret cl) /\
    close_rest received structured example_end cl = Some (Ret cl') /\
    close_example received structured (example_begin ++ example_end) = Some (Ret cl') /\
    cl_pc cl <> Alive /\ cl_pc cl' = Returned /\ zlen (clouds (pl_node (cl_pipe cl'))) = 1.
Proof.
  pose proof (close_example_room received structured) as Hroom.
  destruct (close_roomy_run received structured _ _ _ Hroom) as (cl & Hrun & Hroom').
  rewrite <- (app_nil_r example_end) in Hroom'.
  destruct (close_roomy_run received structured _ _ _ Hroom') as (cl' & Hrest & Hend).
  apply close_roomy_end in Hend. exists cl, cl'. split; [exact Hrun|]. split; [exact Hrest|].
  split; [by rewrite close_run_app, Hrun|]. split; [|exact Hend].
  unfold example_begin in Hrun. rewrite close_run_app in Hrun.
  destruct (close_run _ _ _ _ _ _ _ _ _ _ _ (CPipe <$> _) _) as [[cl0| |]|]; try discriminate.
  cbn [close_run close_step] in Hrun. destruct (destructor_step cl0) as [cl1|] eqn:Hstep; [|discriminate].
  injection Hrun as <-. by apply destructor_left in Hstep as [_ ?].
Qed.

(** With both kinds of times, in both ways of collecting points. *)
Definition reported (received structured : bool) : Prop :=
  exists cl, close_example received structured (example_begin ++ example_end) = Some (Ret cl) /\
    exists rp rc, cl_packets cl = Some rp /\ cl_clouds cl = Some rc /\ clouds_published rc = 1 /\
      empty_cloud_drops rc = 0 /\ max_queue_depth rp <= MAX_PACKET_BACKLOG.

Lemma close_report_witness :
  (reported true false /\ reported true true) /\ reported false false /\ reported false true.
Proof.
  cut (forall received structured, reported received structured).
  { intros H. exact (conj (conj (H _ _) (H _ _)) (conj (H _ _) (H _ _))). }
  intros received structured.
  assert (("PandarXTM", 32%nat) ∈ lidar_types) as Ht
    by (apply (bool_decide_unpack _); vm_compute; exact I).
  destruct (close_example_parts received structured) as (_ & cl & _ & _ & Hrun & _ & Hpc & Hone).
  destruct (close_report (F := packets_buffer_fifo) (fun _ _ _ _ => LookupFailed) id id
    XT "PandarXTM" 32 (Init id id "PandarXTM") (example_settings received structured) true mktime_utc "both" "compact"
    ros_datatypes false (fun _ => blank_message) (example_begin ++ example_end) fresh_driver
    (Ret cl) (conj eq_refl (conj Ht eq_refl)) (init_usable id id _ _ Ht) eq_refl
    (close_example_fresh received structured) (close_example_good received structured) Hrun)
    as [(pre & e & post & cl1 & Hpk & Hpre & Ho)|(cl1 & Hcl & Hrep)].
  - pose proof (close_example_room received structured) as Hroom. rewrite Hpk in Hroom.
    destruct (close_roomy_prefix received structured pre (e :: post) _ cl1 Hroom Hpre Ho).
  - exists cl. split; [exact Hrun|]. injection Hcl as <-.
    destruct (Hrep Hpc) as (rp & rc & ms & o & f & k & pr & w & p & H1 & H2 & _ & _ & _ & _ & _ & _ &
      H3 & _ & _ & _ & H4 & _ & _ & _ & _ & _ & _ & _ & _ & _ & _ & H5).
    exists rp, rc. split; [exact H1|]. split; [exact H2|]. split; [|exact (conj H3 H5)].
    rewrite H4, Hone. reflexivity.
Defined.

Definition ended (received structured : bool) : Prop :=
  exists cl cl', close_example received structured example_begin = Some (Ret cl) /\
    close_rest received structured example_end cl = Some (Ret cl') /\ is_Some (cl_clouds cl') /\
    (length example_end <= 3 * unhanded (cl_pipe cl) + 10)%nat.

Lemma close_returns_witness :
  (ended true false /\ ended true true) /\ ended false false /\ ended false true.
Proof.
  cut (forall received structured, ended received structured).
  { intros H. exact (conj (conj (H _ _) (H _ _)) (conj (H _ _) (H _ _))). }
  intros received structured.
  assert (("PandarXTM", 32%nat) ∈ lidar_types) as Ht
    by (apply (bool_decide_unpack _); vm_compute; exact I).
  destruct (close_example_parts received structured) as (cl & cl' & Hrun & Hrest & _ & Hpc & Hret & _).
  destruct (close_returns (F := packets_buffer_fifo) (fun _ _ _ _ => LookupFailed) id id
    XT "PandarXTM" 32 (Init id id "PandarXTM") (example_settings received structured) true mktime_utc "both" "compact"
    ros_datatypes false (fun _ => blank_message) example_begin fresh_driver
    cl (conj eq_refl (conj Ht eq_refl)) (init_usable id id _ _ Ht) eq_refl
    (close_example_fresh received structured) (proj1 (proj1 (Forall_app _ _ _) (close_example_good received structured))) Hrun Hpc)
    as [(pre & e & post & cl1 & Hpk & Hpre & Ho)|[Ho|Hlate]].
  - pose proof (close_example_room received structured) as Hroom. rewrite Hpk, <- app_assoc in Hroom.
    destruct (close_roomy_prefix received structured pre ((e :: post) ++ example_end) _ cl1 Hroom Hpre Ho).
  - pose proof (close_example_room received structured) as Hroom.
    destruct (close_roomy_prefix received structured example_begin example_end _ cl Hroom Hrun). by right.
  - destruct (Hlate example_end (Ret cl') ltac:(repeat constructor) Hrest) as (cl2 & Hcl & Hlen & Hcases).
    injection Hcl as <-. exists cl, cl'. split; [exact Hrun|]. split; [exact Hrest|].
    destruct Hcases as [(_ & _ & Hc)|[[Hnot _]|[Hstop _]]];
      [exact (conj Hc Hlen)|destruct (Hnot Hret)|rewrite Hret in Hstop; discriminate Hstop].
Defined.
